(* ===== verification/_CoqProject ===== *)
-Q . S2P
Prelude.v
CLib.v
MgmtProtocol.v
EventHandler.v
RegistryThreads.v
RegistryRaces.v
MgmtSocket.v
MgmtTyped.v
Ipc.v
ShmData.v
Shm.v
PosixShm.v
ShmSpec.v
NetworkConfig.v
RouterMsg.v
Handlers.v
CollectorMgmt.v
ViewerMgmt.v
RouterMgmt.v
RouterServe.v
ModuleSession.v
MgmtCtl.v
Metrics.v
Logger.v
LogMacros.v
Collector.v
Router.v
RouterFault.v
RouterThreads.v
RouterLink.v
RouterShutdown.v
RouterProcess.v
RouterProgress.v
RouterStuck.v
RouterRemote.v
Viewer.v
ViewerRaces.v
ViewerProcess.v
ViewerShutdown.v
ViewerLink.v
Pipeline.v
PipelineRun.v
