(* ===== verification/Prelude.v ===== *)
(** * studyC: a verification development

    ** The program

    studyC is a chain of three processes with a management plane.  The
    _Collector_ receives UDP datagrams, writes each one into a shared segment and
    announces it on a System V message queue; the _Router_ waits for the
    announcements, reads the segment and sends a line over TCP; the _Viewer_
    accepts the connection and prints what it receives.  Each process serves the
    commands PING, GET_STATUS and SHUTDOWN on a UNIX datagram socket, through a
    registry of event handlers; [mgmtctl] is the command line client.  A metrics
    module and a logger are libraries beside them.

    ** The files and the sources (under src/)

    - Prelude: machine integers, bytes, the monad of calls that may block, hint
      databases and tactics.
    - CLib: the C library functions used on character arrays ([strncpy],
      [snprintf], [strtol], decimal conversion, little-endian integers), mutexes.
    - MgmtProtocol: Mgmt/src/mgmt_protocol.c and its header; the request and
      response structures, whose bytes ([encode_request] and the like stand for
      the memory that is sent and received as it is) follow from the declarations.
    - EventHandler: Mgmt/src/event_handler.c; the registry is the array of 64
      entries with count, mutex and totals, and stands for a finite map from
      (command, module name) to handlers with statistics ([abs]).
      RegistryThreads: the same functions called by any number of threads, with
      what they do outside of the lock as steps of their own.  RegistryRaces: which
      of these accesses are data races.
    - MgmtSocket: Mgmt/src/mgmt_socket.c and mgmt_worker.c, on the descriptors
      and socket files of a process ([Sys]).  MgmtTyped: any sequence of calls of
      the socket's interface.
    - Ipc: SHM/include/shared_ipc.h and the message queue calls.
    - ShmData, Shm, PosixShm: SHM/src/shm_api.c and PosixSHM/src/shm_api.c; the
      class [ShmApi] of ShmData is what the clients rely on, its instances are
      in Shm and PosixShm.  ShmSpec: the interface as one atomic cell, and the
      initialization cut where other processes can see the segment.
    - NetworkConfig: Common/include/network_config.h.
    - Handlers: what the mgmt_handlers.c of the three processes share, and the
      class [MgmtModule] of a process that serves the three commands; its
      instances are in CollectorMgmt, RouterMgmt and ViewerMgmt.  ModuleSession:
      the management thread of a module over a sequence of requests.
    - MgmtCtl: MgmtCtl/src/main.c and mgmt_send.c, proved against [MgmtModule].
    - Metrics: Mgmt/src/metrics_collector.c.  Logger: Common/src/unified_logger.c.
      LogMacros: the macros of Common/include/unified_logger.h and debug_log.h.
    - RouterMsg: Router/src/msg_common.c.  Collector: Collector/src/poll_io.c and
      main.c.  Router: Router/src/router_worker.c, signal_worker.c, udp_worker.c
      and main.c.  Viewer: Viewer/src/tcp_worker.c, signal_thread.c and main.c.
    - RouterFault: the code of the Router under ENABLE_FAULT_INJECTION.
      RouterThreads: the Router's four threads as one transition system over the
      flag, the bounded queues, the pipe and the semaphore.  RouterLink: the
      relation between that system and the definitions of Router.
      RouterShutdown: both of them under a shutdown command of [mgmtctl].
    - RouterServe: an iteration of the Router's management thread for a request
      of any bytes and a main queue that may be full.  RouterProcess: the whole
      process on its data ([RProc]), with the calls of its four threads
      interleaved one by one ([ract]) and the Collector writing and notifying in
      between.  RouterProgress: that it refines the system of RouterThreads, and
      that it comes to an end once that is asked for.  RouterStuck: what keeps it
      from ending (no notification queue, a Viewer that does not answer).
      RouterRemote: the process under a shutdown command of [mgmtctl].
    - Viewer has the TCP thread on its data and the four threads as a transition
      system.  ViewerRaces: the data races of these threads.  ViewerProcess: the whole process on its data ([VProc]), where the
      other threads take steps ([vact]) whenever [main] waits or is between two
      of its steps.  ViewerLink: that every run of it is a run of the transition
      system.  ViewerShutdown: the process under a shutdown command of [mgmtctl].
    - Pipeline: the three processes put together, for a burst that is served
      late.  PipelineRun: the three of them interleaved in any order ([pact]).

    ** How the code is modelled

    A C object of bytes is a [list byte] of its size; an access outside of it,
    or a lock of a mutex the caller already holds, makes the operation [None].
    Calls that may wait return [exec]: [Ret], [UB] (undefined behaviour) or
    [Blocked] (the call does not return in the state given).  Pointers that may
    be NULL are [option].  Unsigned integers are [Z] with the wrap-around
    written out ([u8] to [u64], [swrap] for signed ones).  What the operating
    system answers (descriptors, datagrams, clocks, failures) and what other
    threads and processes do in between is an argument of each operation, so
    that a theorem holds for every such answer.  Function pointers are numbers,
    called through [invoke].  Loops on external events run over the list of the
    iterations given and tell whether they have ended.

    ** What the theorems show

    - Registry (EventHandler): registration, removal and dispatch refine
      insertion, deletion and lookup of a finite map, including the statistics;
      the invariant holds in every reachable state and no call deadlocks; as long
      as threads only add registrations, every interleaving of them is safe and
      exact, without a data race on what a dispatch reads (the wrong handlers and
      the data races that removals and replacements lead to are shown too); the
      listing stays in its buffer exactly from 14 bytes on, and is the JSON text
      of the registry when it fits.
    - Protocol and socket: the offsets of the members on the wire, well-formed
      requests, exactly one response per request, whatever its flags, with exact
      counters, termination of the drain and of the worker, no leak on any path; type soundness for datagrams
      of any contents; whole sessions from the creation of the socket to
      SHUTDOWN; [mgmtctl] end to end against any module, and its refusals.
    - Shared memory: what is written is read; for texts that fit both, the two
      implementations and an atomic cell cannot be told apart; the life cycle of
      the segment, and what the death of a lock owner and a failed attachment
      lead to.
    - Processes: Collector, Router and Viewer release everything at each of their
      exits and never leave an object, misuse a mutex or use what is not
      initialized (the Viewer when its first two threads could be created; what
      happens otherwise is shown too); the only data race of the Viewer on its
      shared flags is the unlocked test in its TCP thread; SHUTDOWN
      and signals stop them, for Router and Viewer from the command line of
      [mgmtctl] to the end of all threads;
      the Router relays the text of the segment in order and ends at the quit
      notification; in every
      interleaving of its threads the Viewer completes a shutdown in a bounded
      number of steps and loses no wake-up; with its notification queue open, the
      Router's threads come to rest in a bounded number of steps too, with
      everything released or in one of the waits that are listed (on a full
      queue, for the semaphore, for an answer of the Viewer's host), and without
      that queue the Router never ends; the transition systems simulate the
      whole processes of Router and Viewer on their data, so that these come to
      rest in the same ways, each with the exit code that its failed calls give;
      the build with fault injection is the ordinary one until a fault is asked
      for.
    - The pipeline: the path of a burst of datagrams from the Collector to the
      screen; in any interleaving of the three processes which text each line of
      the stream has, in which order, that no text is left without its line or a
      notification while the queue has room, and that the newest text arrives
      once the notifications are served.
    - Metrics and logger: conservation of the counters, error bounds of the
      running average while the sum of the samples fits 64 bits, texts within their buffers, exact drop counts, the line
      each logging macro leaves.
    - Defects the proofs brought out are stated as theorems of their own, for
      instance a Router that blocks in its last message, a Viewer that no signal
      reaches after SIGUSR1, an interrupted wait that is missed by the
      Collector, and latencies that count from the epoch.

    ** Bounds and fuel

    [dec_fuel] is 20: a 64-bit number has at most 20 decimal digits.
    [drain_fuel] is one more than the messages of the queue, and [drain_returns]
    shows that it is enough.  [CONNECT_MAX_RETRIES] is the constant of the code.
    All other loops are structural in the data or in the list of iterations.
    The statistics theorems say where a counter wraps.  [rmeasure] bounds the
    steps of the Router's threads after a stop request and [calls_left] the calls
    of its process, [measure] the steps of the Viewer's threads, [work] those that
    serve the open notifications of PipelineRun; the capacities of the Router's
    queues are parameters, and RouterLink computes them from the bytes of the
    queues and the size of the messages.

    ** What is not modelled

    sendto(2) of the management socket answers at once, with success or an error:
    a client that sends requests without taking the answers until its socket is
    full would make it wait.  A process that dies inside the lock of the segment
    is modelled for the segment ([shm_api_owner_death]) and not for the processes.

    The log calls inside the processes (the logger and its macros are modelled
    by themselves), Makefiles, tests, documents, and a header of the Viewer that
    no file includes.  The Collector has one thread; its signal handler runs
    between the steps of an iteration.

    A read or write of a shared variable is one atomic step, and the memory model
    of C is not represented: the theorems on threads say what every interleaving
    of such steps does.  Where accesses to plain variables race, the C program is
    undefined although its steps are not.  These races are shown by themselves:
    the unlocked test of [shutdown_requested] (Viewer/src/tcp_worker.c:57) in
    ViewerRaces, the reads of [handler] and [context] (Mgmt/src/event_handler.c:184)
    and of [entry_count] (line 259) outside of the lock in RegistryRaces; the
    injected data race of the Router counts as undefined in RouterFault.  The
    flag of the Router is an atomic variable, and so is that of the management
    thread.

    Collector, Router and Viewer are modelled as whole processes each.  They are
    put together for the data path (Pipeline, PipelineRun) and not for their
    shutdown: each of them ends by itself, without waiting for the others, and
    what the others leave to it (a full queue, a connection that is reset, a
    signal) is among the inputs its theorems quantify over. *)

From stdpp Require Export base list gmap strings option numbers relations.
From Stdlib Require Export ZArith Lia.
From Stdlib Require Export Strings.Byte.

#[global] Open Scope Z_scope.

(** ** Notations, tactics and hint databases of the development *)

Create HintDb cbuf.
Create HintDb wf.

(** Turn the boolean tests of a hypothesis list into propositions. *)
Ltac tests :=
  repeat match goal with
  | H : (_ && _) = true |- _ => apply andb_true_iff in H; destruct H
  | H : (_ && _) = false |- _ => apply andb_false_iff in H
  | H : (_ || _) = true |- _ => apply orb_true_iff in H
  | H : (_ || _) = false |- _ => apply orb_false_iff in H; destruct H
  | H : negb _ = true |- _ => apply negb_true_iff in H
  | H : negb _ = false |- _ => apply negb_false_iff in H
  | H : (_ =? _)%Z = true |- _ => apply Z.eqb_eq in H
  | H : (_ =? _)%Z = false |- _ => apply Z.eqb_neq in H
  | H : (_ <=? _)%Z = true |- _ => apply Z.leb_le in H
  | H : (_ <=? _)%Z = false |- _ => apply Z.leb_gt in H
  | H : (_ <? _)%Z = true |- _ => apply Z.ltb_lt in H
  | H : (_ <? _)%Z = false |- _ => apply Z.ltb_ge in H
  | H : (_ <=? _)%nat = true |- _ => apply Nat.leb_le in H
  | H : (_ <=? _)%nat = false |- _ => apply Nat.leb_gt in H
  end.

(** ** Outcomes of calls that may block

    A call returns, is undefined behaviour (an access outside of an object, a
    mutex that was never initialized), or does not return in the state given,
    because it waits for another process. *)
Inductive exec (A : Type) :=
| Ret (a : A)
| UB
| Blocked.
Arguments Ret {A}.
Arguments UB {A}.
Arguments Blocked {A}.

#[export] Instance exec_ret : MRet exec := @Ret.
#[export] Instance exec_bind : MBind exec := fun A B f m =>
  match m with Ret a => f a | UB => UB | Blocked => Blocked end.

(** An operation on objects, undefined when it leaves their bounds. *)
Definition obj {A} (o : option A) : exec A :=
  match o with Some a => Ret a | None => UB end.

Lemma exec_bind_inv {A B} (m : exec A) (f : A -> exec B) b :
  (m ≫= f) = Ret b -> exists a, m = Ret a /\ f a = Ret b.
Proof. destruct m; [|done|done]. eauto. Qed.

(** No undefined behaviour, and [Q] of what is returned. *)
Definition safe {A} (m : exec A) (Q : A -> Prop) : Prop :=
  match m with Ret a => Q a | UB => False | Blocked => True end.

Lemma safe_bind {A B} (m : exec A) (f : A -> exec B) (P : A -> Prop) (Q : B -> Prop) :
  safe m P -> (forall a, P a -> safe (f a) Q) -> safe (m ≫= f) Q.
Proof. destruct m; cbn; auto. Qed.

Lemma safe_mono {A} (m : exec A) (P Q : A -> Prop) :
  safe m P -> (forall a, P a -> Q a) -> safe m Q.
Proof. destruct m; cbn; auto. Qed.

(** Compute through the binds of both monads. *)
Ltac run := cbn [mbind option_bind exec_bind obj].

(** ** Machine integers

    A w-bit unsigned integer is a [Z] in [0, 2^w); the wrap-around is written
    out at each arithmetic operation of the code.  A signed one is read back
    from its two's complement representation. *)
Definition wrap (w z : Z) : Z := z mod 2 ^ w.
Abbreviation u8 := (wrap 8).
Abbreviation u16 := (wrap 16).
Abbreviation u32 := (wrap 32).
Abbreviation u64 := (wrap 64).

Definition swrap (w z : Z) : Z := (z + 2 ^ (w - 1)) mod 2 ^ w - 2 ^ (w - 1).

Definition in_u (w z : Z) : Prop := 0 <= z < 2 ^ w.
Definition in_s (w z : Z) : Prop := - 2 ^ (w - 1) <= z < 2 ^ (w - 1).

Definition INT_MAX : Z := 2147483647.
Definition LONG_MAX : Z := 9223372036854775807.
Definition LONG_MIN : Z := - 9223372036854775808.

Lemma wrap_range w z : 0 <= w -> in_u w (wrap w z).
Proof. intros. apply Z.mod_pos_bound, Z.pow_pos_nonneg; lia. Qed.

Lemma wrap_id w z : in_u w z -> wrap w z = z.
Proof. apply Z.mod_small. Qed.

Lemma wrap_wrap w z : wrap w (wrap w z) = wrap w z.
Proof. apply Z.mod_mod_divide, Z.divide_refl. Qed.

Lemma wrap_add_l w a b : wrap w (wrap w a + b) = wrap w (a + b).
Proof. apply Zplus_mod_idemp_l. Qed.

Lemma wrap_add_r w a b : wrap w (a + wrap w b) = wrap w (a + b).
Proof. apply Zplus_mod_idemp_r. Qed.

Lemma swrap_id w z : 0 < w -> in_s w z -> swrap w z = z.
Proof.
  intros Hw [H1 H2]. unfold swrap.
  assert (2 ^ w = 2 * 2 ^ (w - 1)) as E.
  { rewrite <- Z.pow_succ_r by lia. f_equal; lia. }
  rewrite Z.mod_small; lia.
Qed.

Lemma swrap_wrap w z : 0 < w -> swrap w (wrap w z) = swrap w z.
Proof. intros Hw. unfold swrap, wrap. f_equal. apply Zplus_mod_idemp_l. Qed.

(** ** Bytes *)

#[export] Instance byte_eq_decision : EqDecision byte := Byte.byte_eq_dec.

Definition byte_to_Z (b : byte) : Z := Z.of_N (Byte.to_N b).

Definition Z_to_byte (z : Z) : byte :=
  match Byte.of_N (Z.to_N (z mod 256)) with Some b => b | None => x00 end.

Lemma byte_to_Z_range b : in_u 8 (byte_to_Z b).
Proof.
  unfold in_u, byte_to_Z. pose proof (Byte.to_N_bounded b).
  change (2 ^ 8) with 256. lia.
Qed.

Lemma byte_to_of_Z z : byte_to_Z (Z_to_byte z) = z mod 256.
Proof.
  unfold byte_to_Z, Z_to_byte.
  pose proof (Z.mod_pos_bound z 256 ltac:(lia)).
  destruct (Byte.of_N _) eqn:E.
  - apply Byte.to_of_N in E. lia.
  - apply Byte.of_N_None_iff in E. lia.
Qed.

Lemma byte_of_to_Z b : Z_to_byte (byte_to_Z b) = b.
Proof.
  unfold Z_to_byte. pose proof (byte_to_Z_range b) as [? ?].
  rewrite Z.mod_small by (change 256 with (2 ^ 8); lia).
  unfold byte_to_Z. by rewrite N2Z.id, Byte.of_to_N.
Qed.

Lemma byte_to_Z_inj a b : byte_to_Z a = byte_to_Z b -> a = b.
Proof. intros E. by rewrite <- (byte_of_to_Z a), E, byte_of_to_Z. Qed.

Lemma byte_of_to_N b : Byte.of_N (Byte.to_N b) = Some b.
Proof. apply Byte.of_to_N. Qed.

#[export] Instance byte_countable : Countable byte :=
  inj_countable Byte.to_N Byte.of_N byte_of_to_N.

(** The bytes of a string literal, without and with its terminator. *)
Definition bs (s : string) : list byte := String.list_byte_of_string s.
Definition lit (s : string) : list byte := bs s ++ [x00].

(** ** Lists *)

Section lists.
Context {A : Type}.
Implicit Types l : list A.

Lemma take_insert_app l i x :
  (i < length l)%nat -> take (S i) (<[i:=x]> l) = take i l ++ [x].
Proof.
  intros Hi. rewrite (take_S_r _ _ x).
  - by rewrite take_insert_ge by lia.
  - by apply list_lookup_insert_eq.
Qed.

Lemma Forall_take_S (P : A -> Prop) l i x :
  Forall P (take i l) -> P x -> (i < length l)%nat ->
  Forall P (take (S i) (<[i:=x]> l)).
Proof.
  intros. rewrite take_insert_app by done. apply Forall_app; auto.
Qed.

End lists.

(** ** Transition systems *)

(** An invariant of a step relation holds in every reachable state. *)
Lemma rtc_invariant {A} (R : relation A) (P : A -> Prop) x y :
  (forall a b, P a -> R a b -> P b) -> P x -> rtc R x y -> P y.
Proof. intros Hstep Hx Hr. induction Hr; eauto. Qed.
