(* ===== verification/CLib.v ===== *)
(** * The C library functions the program uses

    A C object that is a sequence of bytes (a [char] array, the object a
    [const char *] points into) is the list of its bytes.  A function that
    reads or writes one is partial: it returns [None] when the call would
    read or write outside the object, so that a theorem that a piece of code
    returns [Some _] is a memory-safety theorem about it. *)

From S2P Require Import Prelude.

(** ** NUL-terminated strings *)

Definition is_nul (b : byte) : bool := bool_decide (b = x00).
#[global] Arguments is_nul : simpl never.

(** The bytes before the terminator; [None] when there is none. *)
Fixpoint cstring (buf : list byte) : option (list byte) :=
  match buf with
  | [] => None
  | b :: buf' => if is_nul b then Some [] else cons b <$> cstring buf'
  end.

Definition strlen (buf : list byte) : option Z :=
  (fun s => Z.of_nat (length s)) <$> cstring buf.

(** [strcmp(a, b) == 0], stopping at the first difference. *)
Fixpoint strcmp_eq (a b : list byte) : option bool :=
  match a, b with
  | x :: a', y :: b' =>
      if bool_decide (x = y) then
        if is_nul x then Some true else strcmp_eq a' b'
      else Some false
  | _, _ => None
  end.

(** The [n] bytes [strncpy] writes: the source up to its terminator, then
    zeros; a source without terminator is read for [n] bytes only. *)
Fixpoint strncpy_bytes (src : list byte) (n : nat) {struct n} : option (list byte) :=
  match n with
  | O => Some []
  | S n' =>
      match src with
      | [] => None
      | c :: src' =>
          if is_nul c then Some (replicate (S n') x00)
          else cons c <$> strncpy_bytes src' n'
      end
  end.

Definition strncpy (dst src : list byte) (n : nat) : option (list byte) :=
  w ← strncpy_bytes src n;
  if (n <=? length dst)%nat then Some (w ++ drop n dst) else None.

Definition memcpy (dst src : list byte) (n : nat) : option (list byte) :=
  if ((n <=? length dst) && (n <=? length src))%nat
  then Some (take n src ++ drop n dst) else None.

(** A store of one byte, [dst[i] = b]. *)
Definition store (dst : list byte) (i : nat) (b : byte) : option (list byte) :=
  if (i <? length dst)%nat then Some (<[i:=b]> dst) else None.

Definition zeros (n : nat) : list byte := replicate n x00.

(** Overwrite [w] at offset [off]. *)
Definition write_at (dst : list byte) (off : nat) (w : list byte) : option (list byte) :=
  if (off + length w <=? length dst)%nat
  then Some (take off dst ++ w ++ drop (off + length w) dst) else None.

(** [snprintf(dst + off, size, ...)] where the formatted text is [text]: at
    most [size - 1] bytes of it and a terminator are written, nothing when
    [size] is 0, and the length of the whole text is returned. *)
Definition snprintf (dst : list byte) (off size : Z) (text : list byte)
    : option (list byte * Z) :=
  dst' ← (if size =? 0 then Some dst
          else write_at dst (Z.to_nat off)
                 (take (Z.to_nat (size - 1)) text ++ [x00]));
  Some (dst', Z.of_nat (length text)).

(** ** Numbers in decimal *)

Definition digit (d : Z) : byte := Z_to_byte (48 + d).

(** Enough fuel for every 64-bit integer, which has at most 20 digits. *)
Definition dec_fuel : nat := 20.

Fixpoint dec_digits (fuel : nat) (n : Z) : list byte :=
  match fuel with
  | O => []
  | S f => if n <? 10 then [digit n] else dec_digits f (n / 10) ++ [digit (n mod 10)]
  end.

(** The conversions [%u], [%lu] and, with a sign, [%d], [%ld]. *)
Definition fmt_u (n : Z) : list byte := dec_digits dec_fuel n.
Definition fmt_d (n : Z) : list byte :=
  if n <? 0 then x2d :: fmt_u (- n) else fmt_u n.

Definition is_space (b : byte) : bool :=
  let z := byte_to_Z b in (z =? 32) || ((9 <=? z) && (z <=? 13)).

Definition is_digit (b : byte) : bool :=
  let z := byte_to_Z b in (48 <=? z) && (z <=? 57).

Fixpoint skip_space (s : list byte) : list byte :=
  match s with
  | b :: s' => if is_space b then skip_space s' else s
  | [] => []
  end.

(** The value of the leading digits, and what follows them. *)
Fixpoint scan_digits (acc : Z) (s : list byte) : Z * list byte :=
  match s with
  | b :: s' => if is_digit b then scan_digits (10 * acc + (byte_to_Z b - 48)) s'
               else (acc, s)
  | [] => (acc, [])
  end.

Definition clamp_long (z : Z) : Z := Z.max LONG_MIN (Z.min LONG_MAX z).

Definition scan_sign (s : list byte) : bool * list byte :=
  match s with
  | b :: s' => if bool_decide (b = x2d) then (true, s')
               else if bool_decide (b = x2b) then (false, s') else (false, s)
  | [] => (false, [])
  end.

(** [strtol(s, &endptr, 10)] on the contents of a string: the value, clamped
    to [long], and the contents from [endptr] on ([s] itself when no digit
    was found). *)
Definition strtol (s : list byte) : Z * list byte :=
  let '(neg, s1) := scan_sign (skip_space s) in
  match s1 with
  | b :: _ =>
      if is_digit b then
        let '(v, rest) := scan_digits 0 s1 in
        (clamp_long (if neg then - v else v), rest)
      else (0, s)
  | [] => (0, s)
  end.

Definition atoi (s : list byte) : Z := swrap 32 (fst (strtol s)).

(** ** Integers in memory (little endian) *)

Fixpoint le_bytes (n : nat) (z : Z) : list byte :=
  match n with
  | O => []
  | S n' => Z_to_byte z :: le_bytes n' (z / 256)
  end.

Fixpoint le_int (l : list byte) : Z :=
  match l with
  | [] => 0
  | b :: l' => byte_to_Z b + 256 * le_int l'
  end.

(** * Lemmas *)

(** ** Strings *)

(** [buf] holds the string [s]: [s] has no NUL and is followed by one. *)
Definition no_nul (s : list byte) : Prop := Forall (fun b => b <> x00) s.
Definition terminated (buf : list byte) : Prop := is_Some (cstring buf).

Lemma is_nul_true b : is_nul b = true <-> b = x00.
Proof. unfold is_nul. by rewrite bool_decide_eq_true. Qed.

Lemma is_nul_false b : is_nul b = false <-> b <> x00.
Proof. unfold is_nul. by rewrite bool_decide_eq_false. Qed.

Lemma cstring_app s rest : no_nul s -> cstring (s ++ x00 :: rest) = Some s.
Proof.
  induction 1 as [|b s Hb _ IH]; [done|]. cbn.
  by rewrite (proj2 (is_nul_false b) Hb), IH.
Qed.

Lemma cstring_inv buf s :
  cstring buf = Some s -> no_nul s /\ exists rest, buf = s ++ x00 :: rest.
Proof.
  revert s; induction buf as [|b buf IH]; intros s; [done|]. cbn.
  destruct (is_nul b) eqn:E.
  - apply is_nul_true in E as ->. intros [= <-]. split; [constructor|by exists buf].
  - apply is_nul_false in E. intros (s' & (? & rest & ->)%IH & ->)%fmap_Some.
    split; [by constructor|by exists rest].
Qed.

Lemma cstring_length buf s : cstring buf = Some s -> (length s < length buf)%nat.
Proof. intros (_ & rest & ->)%cstring_inv. rewrite length_app. cbn. lia. Qed.

Lemma cstring_no_nul buf s : cstring buf = Some s -> no_nul s.
Proof. by intros [? _]%cstring_inv. Qed.

Lemma cstring_lookup_nul buf i : buf !! i = Some x00 -> terminated buf.
Proof.
  revert i; induction buf as [|b buf IH]; intros [|i]; cbn; try done.
  - intros [= ->]. by exists [].
  - intros H. unfold terminated; cbn. destruct (is_nul b); [by eexists|].
    destruct (IH _ H) as [s Hs]. rewrite Hs. by eexists.
Qed.

Lemma cstring_head_nul buf s : cstring buf = Some s ->
  (s = [] <-> buf !! 0%nat = Some x00).
Proof.
  intros [Hn [rest ->]]%cstring_inv. destruct s as [|b s]; cbn; [done|].
  inversion Hn; subst. split; [done|]. by intros [= ->].
Qed.

(** Two terminated strings are compared by their contents. *)
Lemma strcmp_eq_cstring a b sa sb :
  cstring a = Some sa -> cstring b = Some sb ->
  strcmp_eq a b = Some (bool_decide (sa = sb)).
Proof.
  revert b sa sb; induction a as [|x a IH]; intros b sa sb Ha Hb; [done|].
  destruct b as [|y b]; [done|]. cbn in *.
  destruct (is_nul x) eqn:Ex, (is_nul y) eqn:Ey;
    rewrite ?is_nul_true, ?is_nul_false in *; subst;
    try (apply fmap_Some in Ha as (sa' & Ha & ->));
    try (apply fmap_Some in Hb as (sb' & Hb & ->)); simplify_eq.
  - done.
  - by rewrite !bool_decide_false by congruence.
  - by rewrite !bool_decide_false by congruence.
  - destruct (decide (x = y)) as [->|Hxy].
    + rewrite bool_decide_true, (IH b sa' sb') by done.
      f_equal. apply bool_decide_ext. naive_solver.
    + by rewrite !bool_decide_false by congruence.
Qed.

(** A comparison with a terminated string stays inside both objects as soon
    as the other one is at least as long as it: a difference shows up before
    the other object ends. *)
Lemma strcmp_eq_safe a b sa :
  cstring a = Some sa -> (length sa < length b)%nat -> is_Some (strcmp_eq a b).
Proof.
  revert b sa; induction a as [|x a IH]; intros b sa Ha Hl; [done|].
  destruct b as [|y b]; [cbn in Hl; lia|]. cbn in *.
  destruct (bool_decide (x = y)); [|by eexists].
  destruct (is_nul x) eqn:Ex; [by eexists|].
  apply fmap_Some in Ha as (s' & Hs & ->). eapply IH; [done|]. cbn in Hl. lia.
Qed.

(** It answers true exactly when the other object starts with the same
    terminated string. *)
Lemma strcmp_eq_true a b sa :
  cstring a = Some sa -> strcmp_eq a b = Some true <-> cstring b = Some sa.
Proof.
  revert b sa; induction a as [|x a IH]; intros b sa Ha; [done|].
  destruct b as [|y b]; [done|]. cbn in *.
  destruct (is_nul x) eqn:Ex, (is_nul y) eqn:Ey;
    rewrite ?is_nul_true, ?is_nul_false in *; subst;
    try (apply fmap_Some in Ha as (sa' & Ha & ->)); simplify_eq.
  - done.
  - rewrite bool_decide_false by congruence. split; [done|].
    by intros (? & ? & ?)%fmap_Some.
  - by rewrite bool_decide_false by congruence.
  - destruct (decide (x = y)) as [->|Hxy].
    + rewrite bool_decide_true, (IH b sa' Ha), fmap_Some by done.
      split; [eauto|]. by intros (? & ? & [= ->]).
    + rewrite bool_decide_false, fmap_Some by done.
      split; [done|]. by intros (? & ? & [= -> _]).
Qed.

Lemma strncpy_bytes_length src n w : strncpy_bytes src n = Some w -> length w = n.
Proof.
  revert src w; induction n as [|n IH]; intros src w H; cbn in H; [by simplify_eq|].
  destruct src as [|c src]; [done|]. destruct (is_nul c).
  - simplify_eq. cbn. by rewrite length_replicate.
  - apply fmap_Some in H as (w' & ? & ->). cbn. f_equal. eauto.
Qed.

(** The written bytes of a string of at most [n] bytes, and of a longer one. *)
Lemma strncpy_bytes_short src s n :
  cstring src = Some s -> (length s <= n)%nat ->
  strncpy_bytes src n = Some (s ++ zeros (n - length s)).
Proof.
  revert s n; induction src as [|c src IH]; intros s [|n]; cbn; try done.
  - destruct (is_nul c); [by intros [= <-]|].
    intros (s' & ? & ->)%fmap_Some Hl. cbn in *; lia.
  - destruct (is_nul c); [by intros [= <-]|].
    intros (s' & ? & ->)%fmap_Some Hl. cbn in *. by rewrite (IH s') by (done || lia).
Qed.

Lemma strncpy_bytes_long src s n :
  cstring src = Some s -> (n <= length s)%nat -> strncpy_bytes src n = Some (take n s).
Proof.
  revert s n; induction src as [|c src IH]; intros s [|n]; cbn; try done.
  destruct (is_nul c); [intros [= <-]; cbn; lia|].
  intros (s' & ? & ->)%fmap_Some Hl. cbn in *. by rewrite (IH s') by (done || lia).
Qed.

Lemma strncpy_bytes_safe src n :
  terminated src \/ (n <= length src)%nat -> is_Some (strncpy_bytes src n).
Proof.
  revert src; induction n as [|n IH]; intros src H; cbn; [by eexists|].
  destruct src as [|c src]; [destruct H as [[]|]; cbn in *; [done|lia]|].
  destruct (is_nul c) eqn:E; [by eexists|].
  destruct (IH src) as [w ->]; [|by eexists].
  destruct H as [[s Hs]|H]; cbn in *.
  - left. rewrite E in Hs. apply fmap_Some in Hs as (? & ? & _). by eexists.
  - right. lia.
Qed.

Lemma strncpy_length dst src n d : strncpy dst src n = Some d -> length d = length dst.
Proof.
  unfold strncpy. intros (w & Hw & H)%bind_Some.
  apply strncpy_bytes_length in Hw. case_match; [|done]. tests. simplify_eq.
  rewrite length_app, length_drop. lia.
Qed.

(** The copied bytes followed by a terminator hold the string, cut to [n]. *)
Lemma strncpy_bytes_terminated src s n :
  cstring src = Some s ->
  exists w, strncpy_bytes src n = Some w /\ length w = n /\
            cstring (w ++ [x00]) = Some (take n s).
Proof.
  intros Hs. pose proof (cstring_no_nul _ _ Hs) as Hn.
  destruct (decide (length s <= n)%nat) as [Hl|Hl].
  - rewrite (strncpy_bytes_short src s n) by done. eexists; split; [done|].
    unfold zeros. rewrite length_app, length_replicate, take_ge by lia. split; [lia|].
    rewrite <- app_assoc, <- (replicate_S_end _ x00). cbn. by apply cstring_app.
  - rewrite (strncpy_bytes_long src s n) by (done || lia). eexists; split; [done|].
    rewrite length_take. split; [lia|]. apply cstring_app. by apply Forall_take.
Qed.

Lemma strncpy_split dst src s n :
  cstring src = Some s -> length dst = S n ->
  exists w c, strncpy dst src n = Some (w ++ [c]) /\ length w = n /\
    dst !! n = Some c /\ cstring (w ++ [x00]) = Some (take n s).
Proof.
  intros Hs Hl. destruct (strncpy_bytes_terminated src s n Hs) as (w & Hw & Hlw & Hc).
  destruct (lookup_lt_is_Some_2 dst n) as [c Hd]; [lia|].
  exists w, c. unfold strncpy. rewrite Hw, Hl. cbn [mbind option_bind].
  rewrite (proj2 (Nat.leb_le n (S n))) by lia.
  rewrite (drop_S _ c) by done. by rewrite drop_ge by lia.
Qed.

(** What a string copied into a cleared field of [n + 1] bytes reads back as. *)
Lemma strncpy_zeros_cstring src s n :
  cstring src = Some s ->
  exists d, strncpy (zeros (S n)) src n = Some d /\ cstring d = Some (take n s)
            /\ length d = S n.
Proof.
  intros Hs. destruct (strncpy_split (zeros (S n)) src s n Hs) as (w & c & -> & Hl & Hc & H);
    [apply length_replicate|].
  apply lookup_replicate in Hc as [-> _]. eexists; split; [done|]. split; [done|].
  rewrite length_app. cbn. lia.
Qed.

(** The same, into any field of [n + 1] bytes, when the last byte is then set
    to NUL. *)
Lemma strncpy_store_cstring dst src s n :
  cstring src = Some s -> length dst = S n ->
  exists d d', strncpy dst src n = Some d /\ store d n x00 = Some d' /\
    cstring d' = Some (take n s) /\ length d' = S n.
Proof.
  intros Hs Hl. destruct (strncpy_split dst src s n Hs Hl) as (w & c & -> & Hlw & _ & H).
  exists (w ++ [c]), (w ++ [x00]). split; [done|]. unfold store.
  rewrite (proj2 (Nat.ltb_lt _ _)) by (rewrite length_app; cbn; lia).
  split; [|split; [done|rewrite length_app; cbn; lia]]. f_equal.
  rewrite <- Hlw at 1. rewrite <- (Nat.add_0_r (length w)). by rewrite insert_app_r.
Qed.

(** ** Copies and formatted output *)

Lemma memcpy_safe dst src n :
  (n <= length dst)%nat -> (n <= length src)%nat ->
  memcpy dst src n = Some (take n src ++ drop n dst).
Proof.
  intros. unfold memcpy. by rewrite !(proj2 (Nat.leb_le _ _)) by done.
Qed.

Lemma memcpy_length dst src n d : memcpy dst src n = Some d -> length d = length dst.
Proof.
  unfold memcpy. case_match; [|done]. tests. intros [= <-].
  rewrite length_app, length_take, length_drop. lia.
Qed.

Lemma store_safe dst i b : (i < length dst)%nat -> store dst i b = Some (<[i:=b]> dst).
Proof. intros. unfold store. by rewrite (proj2 (Nat.ltb_lt _ _)) by done. Qed.

Lemma write_at_length dst off w d : write_at dst off w = Some d -> length d = length dst.
Proof.
  unfold write_at. case_match; [|done]. tests. intros [= <-].
  rewrite !length_app, length_take, length_drop. lia.
Qed.

Lemma write_at_safe dst off w :
  (off + length w <= length dst)%nat ->
  write_at dst off w = Some (take off dst ++ w ++ drop (off + length w) dst).
Proof. intros. unfold write_at. by rewrite (proj2 (Nat.leb_le _ _)) by done. Qed.

Lemma snprintf_length dst off size text d n :
  snprintf dst off size text = Some (d, n) -> length d = length dst.
Proof.
  unfold snprintf. intros (d' & H & [= -> _])%bind_Some.
  destruct (size =? 0); [by simplify_eq|]. by eapply write_at_length.
Qed.

(** A buffer that holds the text [s] from its start on, terminated. *)
Definition holds (buf s : list byte) : Prop := exists rest, buf = s ++ x00 :: rest.

Lemma holds_cstring buf s : no_nul s -> holds buf s -> cstring buf = Some s.
Proof. intros ? [rest ->]. by apply cstring_app. Qed.

(** Formatting [text] behind the [length s] bytes already in the buffer, with
    what is left of the buffer as the size: the buffer then holds [s] and as
    much of [text] as fits. *)
Lemma snprintf_append buf s rest text :
  buf = s ++ rest -> rest <> [] ->
  exists d, snprintf buf (Z.of_nat (length s))
              (Z.of_nat (length buf) - Z.of_nat (length s)) text
            = Some (d, Z.of_nat (length text))
    /\ holds d (s ++ take (length rest - 1) text) /\ length d = length buf.
Proof.
  intros -> Hr. assert (0 < length rest)%nat by (destruct rest; cbn; [done|lia]).
  unfold snprintf. rewrite length_app.
  rewrite (proj2 (Z.eqb_neq _ 0)) by lia.
  replace (Z.to_nat (Z.of_nat (length s + length rest) - Z.of_nat (length s) - 1))
    with (length rest - 1)%nat by lia.
  rewrite Nat2Z.id.
  set (w := take (length rest - 1) text ++ [x00]).
  assert (length w <= length rest)%nat as Hw.
  { unfold w. rewrite length_app, length_take. cbn. lia. }
  rewrite write_at_safe by (rewrite length_app; lia). cbn.
  eexists; split; [done|]. split.
  - exists (drop (length s + length w) (s ++ rest)). rewrite take_app_length.
    unfold w. by rewrite <- !app_assoc.
  - rewrite !length_app, length_take, length_drop, length_app. lia.
Qed.

(** Into a whole buffer of [n + 1] bytes: the usual bounded copy. *)
Lemma snprintf_fresh buf text :
  buf <> [] ->
  exists d, snprintf buf 0 (Z.of_nat (length buf)) text
            = Some (d, Z.of_nat (length text))
    /\ holds d (take (length buf - 1) text) /\ length d = length buf.
Proof.
  intros Hb. destruct (snprintf_append buf [] buf text eq_refl Hb) as (d & H & ?).
  cbn in H. rewrite Z.sub_0_r in H. by exists d.
Qed.

(** ** Integers in memory *)

Lemma length_le_bytes n z : length (le_bytes n z) = n.
Proof. revert z; induction n; intros; cbn; auto. Qed.

Lemma le_int_bytes n z : le_int (le_bytes n z) = z mod 2 ^ (8 * Z.of_nat n).
Proof.
  revert z; induction n as [|n IH]; intros z; cbn [le_bytes le_int].
  - by rewrite Z.mod_1_r.
  - rewrite IH, byte_to_of_Z.
    replace (8 * Z.of_nat (S n)) with (8 + 8 * Z.of_nat n) by lia.
    rewrite Z.pow_add_r by lia. change (2 ^ 8) with 256.
    rewrite Z.rem_mul_r by lia. lia.
Qed.

Lemma le_int_range l : 0 <= le_int l < 2 ^ (8 * Z.of_nat (length l)).
Proof.
  induction l as [|b l IH]; cbn [le_int length]; [cbn; lia|].
  pose proof (byte_to_Z_range b) as [? ?]. change (2 ^ 8) with 256 in *.
  replace (8 * Z.of_nat (S (length l))) with (8 + 8 * Z.of_nat (length l)) by lia.
  rewrite Z.pow_add_r by lia. change (2 ^ 8) with 256. lia.
Qed.

Lemma le_bytes_int l : le_bytes (length l) (le_int l) = l.
Proof.
  induction l as [|b l IH]; cbn [le_int le_bytes length]; [done|].
  pose proof (byte_to_Z_range b) as [? ?]. change (2 ^ 8) with 256 in *.
  f_equal.
  - apply byte_to_Z_inj. rewrite byte_to_of_Z.
    rewrite (Z.mul_comm 256), Z.mod_add, Z.mod_small; lia.
  - rewrite (Z.mul_comm 256), Z.div_add, Z.div_small by lia. exact IH.
Qed.

(** ** Decimal round trips *)

Lemma digit_to_Z d : 0 <= d < 10 -> byte_to_Z (digit d) = 48 + d.
Proof. intros. unfold digit. rewrite byte_to_of_Z, Z.mod_small; lia. Qed.

Lemma is_digit_digit d : 0 <= d < 10 -> is_digit (digit d) = true.
Proof. intros. unfold is_digit. rewrite digit_to_Z by done. lia. Qed.

Lemma scan_digits_dec f n rest :
  0 <= n < 10 ^ Z.of_nat f ->
  scan_digits 0 (dec_digits f n ++ rest) = scan_digits n rest.
Proof.
  revert n rest; induction f as [|f IH]; intros n rest Hn; cbn [dec_digits].
  - cbn in *. by replace n with 0 by lia.
  - destruct (n <? 10) eqn:E; tests.
    + cbn. rewrite is_digit_digit, digit_to_Z by lia. f_equal. lia.
    + rewrite <- app_assoc. cbn [app].
      rewrite Nat2Z.inj_succ, Z.pow_succ_r in Hn by lia.
      rewrite IH by (split; [apply Z.div_pos|apply Z.div_lt_upper_bound]; lia).
      pose proof (Z.mod_pos_bound n 10 ltac:(lia)).
      cbn. rewrite is_digit_digit, digit_to_Z by lia. f_equal.
      pose proof (Z.div_mod n 10 ltac:(lia)). lia.
Qed.

Lemma dec_digits_head f n :
  (0 < f)%nat -> 0 <= n < 10 ^ Z.of_nat f ->
  exists d l, dec_digits f n = digit d :: l /\ 0 <= d < 10.
Proof.
  revert n; induction f as [|f IH]; intros n Hf Hn; [lia|]. cbn [dec_digits].
  destruct (n <? 10) eqn:E; tests.
  - exists n, []. split; [done|lia].
  - rewrite Nat2Z.inj_succ, Z.pow_succ_r in Hn by lia.
    assert (0 <= n / 10 < 10 ^ Z.of_nat f) as Hq
      by (split; [apply Z.div_pos|apply Z.div_lt_upper_bound]; lia).
    destruct (decide (f = 0%nat)) as [->|]; [cbn in Hn; lia|].
    destruct (IH (n / 10)) as (d & l & -> & Hd); [lia|done|].
    exists d. by eexists.
Qed.

Lemma dec_digits_no_nul f n : 0 <= n -> no_nul (dec_digits f n).
Proof.
  unfold no_nul. revert n; induction f as [|f IH]; intros n Hn; cbn; [constructor|].
  assert (forall d, 0 <= d < 10 -> digit d <> x00) as Hd.
  { intros d H E. apply (f_equal byte_to_Z) in E. rewrite digit_to_Z in E by done.
    change (byte_to_Z x00) with 0 in E. lia. }
  destruct (n <? 10) eqn:E; tests.
  - repeat constructor. apply Hd. lia.
  - apply Forall_app; split; [apply IH, Z.div_pos; lia|].
    repeat constructor. apply Hd, Z.mod_pos_bound. lia.
Qed.

Lemma fmt_u_no_nul n : 0 <= n -> no_nul (fmt_u n).
Proof. apply dec_digits_no_nul. Qed.

Lemma fmt_d_no_nul n : no_nul (fmt_d n).
Proof.
  unfold fmt_d. case_match; tests; [constructor; [done|]|]; apply fmt_u_no_nul; lia.
Qed.

Lemma strtol_fmt_u n rest :
  0 <= n <= LONG_MAX ->
  (forall b l, rest = b :: l -> is_digit b = false) ->
  strtol (fmt_u n ++ rest) = (n, rest).
Proof.
  intros Hn Hrest. unfold LONG_MAX in Hn.
  assert (0 <= n < 10 ^ Z.of_nat dec_fuel) as Hb
    by (change (10 ^ Z.of_nat dec_fuel) with 100000000000000000000; lia).
  destruct (dec_digits_head dec_fuel n) as (d & l & E & Hd); [unfold dec_fuel; lia|done|].
  unfold strtol.
  assert (scan_digits 0 (fmt_u n ++ rest) = (n, rest)) as Hs.
  { unfold fmt_u. rewrite scan_digits_dec by done. destruct rest as [|b l']; [done|].
    cbn. by rewrite (Hrest b l'). }
  revert Hs. unfold fmt_u. rewrite E. cbn [app].
  pose proof (digit_to_Z d Hd) as Hz.
  assert (is_space (digit d) = false) as Hsp by (unfold is_space; rewrite Hz; lia).
  cbn [skip_space]. rewrite Hsp. cbn [scan_sign].
  assert (forall b, byte_to_Z b < 48 -> digit d <> b) as Hne
    by (intros b Hb' <-; lia).
  rewrite (bool_decide_false (digit d = x2d)) by by apply Hne.
  rewrite (bool_decide_false (digit d = x2b)) by by apply Hne.
  rewrite is_digit_digit by done. intros ->. f_equal.
  unfold clamp_long, LONG_MAX, LONG_MIN. lia.
Qed.

(** The bytes of an integer depend on it modulo their width only. *)
Lemma le_bytes_mod n z : le_bytes n (z mod 2 ^ (8 * Z.of_nat n)) = le_bytes n z.
Proof.
  rewrite <- le_int_bytes. rewrite <- (length_le_bytes n z) at 1. apply le_bytes_int.
Qed.

Lemma le_bytes_swrap n z :
  (0 < n)%nat -> le_bytes n (swrap (8 * Z.of_nat n) z) = le_bytes n z.
Proof.
  intros. rewrite <- (le_bytes_mod n (swrap _ z)), <- (le_bytes_mod n z). f_equal.
  unfold swrap. rewrite Zminus_mod_idemp_l. f_equal. lia.
Qed.

(** ** The accumulating idiom
    [offset += snprintf(buf + offset, size - offset, ...)]

    [size] is a [size_t] and [offset] an [int], so the difference is computed
    modulo 2^64: once [offset] exceeds [size] it is a huge bound. *)
Definition append (buf : list byte) (size off : Z) (text : list byte)
    : option (list byte * Z) :=
  '(b, n) ← snprintf buf off (u64 (size - off)) text;
  Some (b, off + n).

(** Within the buffer the write is bounded by what is left of it. *)
Lemma append_safe buf off text :
  0 <= off <= Z.of_nat (length buf) -> Z.of_nat (length buf) < 2 ^ 64 ->
  exists b, append buf (Z.of_nat (length buf)) off text
            = Some (b, off + Z.of_nat (length text)) /\ length b = length buf.
Proof.
  intros Ho Hb. unfold append, snprintf.
  rewrite wrap_id by (unfold in_u; lia).
  destruct (Z.of_nat (length buf) - off =? 0) eqn:E; tests; [by eexists|].
  rewrite write_at_safe.
  - eexists; split; [done|].
    rewrite !length_app, length_drop, !length_take. cbn. lia.
  - rewrite length_app, length_take. cbn. lia.
Qed.

(** Text that fits behind what the buffer holds extends it. *)
Lemma append_holds buf s rest text :
  buf = s ++ rest -> (length text < length rest)%nat -> Z.of_nat (length buf) < 2 ^ 64 ->
  exists b, append buf (Z.of_nat (length buf)) (Z.of_nat (length s)) text
            = Some (b, Z.of_nat (length (s ++ text)))
    /\ holds b (s ++ text) /\ length b = length buf.
Proof.
  intros -> Ht Hb. assert (rest <> []) as Hr by (destruct rest; cbn in *; [lia|done]).
  destruct (snprintf_append (s ++ rest) s rest text eq_refl) as (d & H & Hh & Hl); [done|].
  unfold append. rewrite wrap_id by (unfold in_u; rewrite length_app in *; lia).
  rewrite H. cbn. rewrite take_ge in Hh by lia.
  exists d. split; [|done]. do 2 f_equal. rewrite length_app. lia.
Qed.

(** The same with the text [s] already in the buffer. *)
Lemma append_to buf s text :
  holds buf s \/ s = [] -> (length (s ++ text) < length buf)%nat ->
  Z.of_nat (length buf) <= INT_MAX ->
  exists b, append buf (Z.of_nat (length buf)) (Z.of_nat (length s)) text
            = Some (b, Z.of_nat (length (s ++ text)))
    /\ holds b (s ++ text) /\ length b = length buf.
Proof.
  unfold INT_MAX. intros Hs Ht Hb. rewrite length_app in Ht.
  destruct Hs as [[rest ->]| ->].
  - apply (append_holds _ s (x00 :: rest)); [done| |lia].
    rewrite length_app in Ht. cbn in *. lia.
  - apply (append_holds buf [] buf); [done|done|lia].
Qed.

(** With the offset past the end of the buffer the bound has wrapped, and the
    write is outside of it. *)
Lemma append_overflow buf off text :
  Z.of_nat (length buf) < off < 2 ^ 63 ->
  append buf (Z.of_nat (length buf)) off text = None.
Proof.
  intros Ho. unfold append, snprintf.
  assert (u64 (Z.of_nat (length buf) - off) = Z.of_nat (length buf) - off + 2 ^ 64) as ->.
  { unfold wrap. rewrite <- (Z.mod_add _ 1) by lia. rewrite Z.mod_small; lia. }
  rewrite (proj2 (Z.eqb_neq _ 0)) by lia.
  unfold write_at. rewrite (proj2 (Nat.leb_gt _ _)); [done|].
  rewrite length_app. cbn. lia.
Qed.

(** A string literal between double quotes, and a bracketed group. *)
Definition quoted (s : string) : list byte := x22 :: bs s ++ [x22].

(** ** Mutexes

    [None] is a call that does not return or is undefined: locking a mutex the
    caller already holds, or one that is not initialized. *)
Inductive mutex := MtxUninit | MtxFree | MtxHeld.

#[export] Instance mutex_eq_dec : EqDecision mutex.
Proof. solve_decision. Defined.

Definition mutex_lock (m : mutex) : option mutex :=
  match m with MtxFree => Some MtxHeld | _ => None end.

Definition mutex_unlock (m : mutex) : option mutex :=
  match m with MtxHeld => Some MtxFree | _ => None end.

(** ** Texts without NUL *)

Lemma no_nul_app a b : no_nul a -> no_nul b -> no_nul (a ++ b).
Proof. intros. by apply Forall_app. Qed.

Lemma no_nul_lit s : forallb (fun b => negb (is_nul b)) s = true -> no_nul s.
Proof.
  induction s as [|b s IH]; cbn; [constructor|]. intros [H1 H2]%andb_true_iff.
  constructor; [|by apply IH]. apply is_nul_false. by apply negb_true_iff.
Qed.

#[export] Hint Resolve no_nul_app fmt_d_no_nul fmt_u_no_nul : cbuf.
#[export] Hint Extern 1 (no_nul _) => (apply no_nul_lit; reflexivity) : cbuf.

Lemma dec_digits_length f n : (length (dec_digits f n) <= f)%nat.
Proof.
  revert n. induction f as [|f IH]; intros n; cbn [dec_digits]; [done|].
  case_match; cbn; [lia|]. rewrite length_app. cbn. specialize (IH (n / 10)). lia.
Qed.

Lemma fmt_d_length n : (length (fmt_d n) <= 21)%nat.
Proof.
  unfold fmt_d, fmt_u. case_match; cbn [length];
    pose proof (dec_digits_length dec_fuel n); pose proof (dec_digits_length dec_fuel (- n));
    unfold dec_fuel in *; lia.
Qed.

(** ** Received texts *)

(** What precedes the first NUL. *)
Fixpoint until_nul (l : list byte) : list byte :=
  match l with
  | [] => []
  | b :: l' => if is_nul b then [] else b :: until_nul l'
  end.

Lemma cstring_until_nul l rest : cstring (l ++ x00 :: rest) = Some (until_nul l).
Proof.
  induction l as [|b l IH]; cbn; [done|]. destruct (is_nul b); [done|]. by rewrite IH.
Qed.

Lemma until_nul_length l : (length (until_nul l) <= length l)%nat.
Proof. induction l as [|b l IH]; cbn; [lia|]. destruct (is_nul b); cbn; lia. Qed.

Lemma until_nul_no_nul l : no_nul (until_nul l).
Proof.
  induction l as [|b l IH]; cbn; [apply Forall_nil_2|].
  destruct (is_nul b) eqn:E; [apply Forall_nil_2|]. apply Forall_cons_2; [|done].
  by apply is_nul_false.
Qed.

Lemma until_nul_id l : no_nul l -> until_nul l = l.
Proof.
  induction 1 as [|b l Hb Hl IH]; cbn; [done|]. rewrite (proj2 (is_nul_false b)) by done. by rewrite IH.
Qed.

(** [n = recv(..., buf, sizeof(buf) - 1); buf[n] = 0]: the string in the buffer. *)
Lemma terminate_received d buf n :
  (n <= length d)%nat -> (n < length buf)%nat ->
  cstring (<[n:=x00]> (take n d ++ drop n buf)) = Some (until_nul (take n d)).
Proof.
  intros Hd Hb. assert (length (take n d) = n) as Hlt by (rewrite length_take; lia).
  rewrite insert_app_r_alt, Hlt, Nat.sub_diag by lia.
  destruct (drop n buf) as [|b rest] eqn:E.
  { apply (f_equal length) in E. rewrite length_drop in E. cbn in E. lia. }
  cbn. apply cstring_until_nul.
Qed.
