(* ===== verification/MgmtProtocol.v ===== *)
(** * The management protocol (Mgmt/include/mgmt_protocol.h, Mgmt/src/mgmt_protocol.c)

    The enumerations, the request and response structures with their layout on
    the wire (they are sent and received as raw objects), and the helper
    functions of mgmt_protocol.c. *)

From S2P Require Import Prelude CLib.

(** ** Enumerations *)

Inductive MgmtCommandType :=
| MGMT_CMD_PING
| MGMT_CMD_SET_LOG_LEVEL
| MGMT_CMD_GET_STATUS
| MGMT_CMD_GET_METRICS
| MGMT_CMD_SET_BUFFER_SIZE
| MGMT_CMD_ENABLE_PROFILING
| MGMT_CMD_RESET_METRICS
| MGMT_CMD_SHUTDOWN
| MGMT_CMD_GET_CONFIG
| MGMT_CMD_ENABLE_TRACING
| MGMT_CMD_MAX.

#[export] Instance MgmtCommandType_eq_dec : EqDecision MgmtCommandType.
Proof. solve_decision. Defined.

Definition cmd_code (c : MgmtCommandType) : Z :=
  match c with
  | MGMT_CMD_PING => 0
  | MGMT_CMD_SET_LOG_LEVEL => 1
  | MGMT_CMD_GET_STATUS => 2
  | MGMT_CMD_GET_METRICS => 3
  | MGMT_CMD_SET_BUFFER_SIZE => 4
  | MGMT_CMD_ENABLE_PROFILING => 5
  | MGMT_CMD_RESET_METRICS => 6
  | MGMT_CMD_SHUTDOWN => 7
  | MGMT_CMD_GET_CONFIG => 8
  | MGMT_CMD_ENABLE_TRACING => 9
  | MGMT_CMD_MAX => 16
  end.

Inductive LogLevel :=
| LOG_LEVEL_TRACE | LOG_LEVEL_DEBUG | LOG_LEVEL_INFO
| LOG_LEVEL_WARN | LOG_LEVEL_ERROR | LOG_LEVEL_FATAL.

Definition level_code (l : LogLevel) : Z :=
  match l with
  | LOG_LEVEL_TRACE => 0 | LOG_LEVEL_DEBUG => 1 | LOG_LEVEL_INFO => 2
  | LOG_LEVEL_WARN => 3 | LOG_LEVEL_ERROR => 4 | LOG_LEVEL_FATAL => 5
  end.

Inductive MgmtResultCode :=
| MGMT_RESULT_OK
| MGMT_RESULT_INVALID_CMD
| MGMT_RESULT_MODULE_NOT_FOUND
| MGMT_RESULT_HANDLER_FAILED
| MGMT_RESULT_TIMEOUT
| MGMT_RESULT_BUFFER_OVERFLOW
| MGMT_RESULT_UNAUTHORIZED
| MGMT_RESULT_INTERNAL_ERROR.

Definition result_code_of (r : MgmtResultCode) : Z :=
  match r with
  | MGMT_RESULT_OK => 0
  | MGMT_RESULT_INVALID_CMD => 1
  | MGMT_RESULT_MODULE_NOT_FOUND => 2
  | MGMT_RESULT_HANDLER_FAILED => 3
  | MGMT_RESULT_TIMEOUT => 4
  | MGMT_RESULT_BUFFER_OVERFLOW => 5
  | MGMT_RESULT_UNAUTHORIZED => 6
  | MGMT_RESULT_INTERNAL_ERROR => 7
  end.

Coercion cmd_code : MgmtCommandType >-> Z.
Coercion level_code : LogLevel >-> Z.
Coercion result_code_of : MgmtResultCode >-> Z.

Definition MGMT_PAYLOAD_REQUEST_SIZE : nat := 512.
Definition MGMT_PAYLOAD_RESPONSE_SIZE : nat := 2048.
Definition MGMT_MODULE_NAME_SIZE : nat := 64.

(** ** Structures *)

Record timespec := mkTimespec { tv_sec : Z; tv_nsec : Z }.
Definition zero_timespec : timespec := mkTimespec 0 0.

Record MgmtCommandRequest := mkRequest {
  rq_request_id : Z;
  rq_cmd_type : Z;
  rq_flags : Z;
  rq_payload_len : Z;
  rq_timestamp : timespec;
  rq_target_module : list byte;
  rq_payload : list byte }.

Record MgmtCommandResponse := mkResponse {
  rs_request_id : Z;
  rs_result_code : Z;
  rs_reserved : list byte;
  rs_request_timestamp : timespec;
  rs_response_timestamp : timespec;
  rs_source_module : list byte;
  rs_payload : list byte }.

(** [memset(&x, 0, sizeof x)] *)
Definition zero_request : MgmtCommandRequest :=
  mkRequest 0 0 0 0 zero_timespec
    (zeros MGMT_MODULE_NAME_SIZE) (zeros MGMT_PAYLOAD_REQUEST_SIZE).

Definition zero_response : MgmtCommandResponse :=
  mkResponse 0 0 (zeros 3) zero_timespec zero_timespec
    (zeros MGMT_MODULE_NAME_SIZE) (zeros MGMT_PAYLOAD_RESPONSE_SIZE).

Definition set_result_code (r : MgmtCommandResponse) (c : Z) : MgmtCommandResponse :=
  mkResponse (rs_request_id r) c (rs_reserved r) (rs_request_timestamp r)
    (rs_response_timestamp r) (rs_source_module r) (rs_payload r).

(** ** Layout in memory and on the wire (x86-64, little endian)

    The program sends and receives the structures as they are in memory.  Where
    the members are follows from their types: each at the next multiple of its
    alignment, the size a multiple of the largest one. *)

Inductive c_type := U8 | U16 | U32 | Timespec | Bytes (n : nat).

Definition ct_size (t : c_type) : nat :=
  match t with U8 => 1 | U16 => 2 | U32 => 4 | Timespec => 16 | Bytes n => n end.
Definition ct_align (t : c_type) : nat :=
  match t with U8 | Bytes _ => 1 | U16 => 2 | U32 => 4 | Timespec => 8 end.

Definition round_up (n align : nat) : nat := ((n + align - 1) / align * align)%nat.

Fixpoint offsets_from (off : nat) (l : list c_type) : list nat :=
  match l with
  | [] => []
  | t :: l' => let off := round_up off (ct_align t) in off :: offsets_from (off + ct_size t) l'
  end.
Definition member_offsets (l : list c_type) : list nat := offsets_from 0 l.

Definition struct_size (l : list c_type) : nat :=
  round_up (foldl (fun off t => round_up off (ct_align t) + ct_size t) 0 l)%nat (max_list (ct_align <$> l)).

Definition request_members : list c_type := [U32; U8; U8; U16; Timespec; Bytes 64; Bytes 512].
Definition response_members : list c_type := [U32; U8; Bytes 3; Timespec; Timespec; Bytes 64; Bytes 2048].

Definition encode_timespec (t : timespec) : list byte :=
  le_bytes 8 (tv_sec t) ++ le_bytes 8 (tv_nsec t).

Definition decode_timespec (l : list byte) : timespec :=
  mkTimespec (swrap 64 (le_int (take 8 l))) (swrap 64 (le_int (drop 8 l))).

Definition MGMT_REQUEST_SIZE : nat := 600.
Definition MGMT_RESPONSE_SIZE : nat := 2152.

Definition encode_request (r : MgmtCommandRequest) : list byte :=
  le_bytes 4 (rq_request_id r) ++ le_bytes 1 (rq_cmd_type r) ++
  le_bytes 1 (rq_flags r) ++ le_bytes 2 (rq_payload_len r) ++
  encode_timespec (rq_timestamp r) ++ rq_target_module r ++ rq_payload r.

Definition field (off n : nat) (l : list byte) : list byte := take n (drop off l).

Definition decode_request (l : list byte) : MgmtCommandRequest :=
  mkRequest (le_int (field 0 4 l)) (le_int (field 4 1 l)) (le_int (field 5 1 l))
    (le_int (field 6 2 l)) (decode_timespec (field 8 16 l))
    (field 24 64 l) (field 88 512 l).

Definition encode_response (r : MgmtCommandResponse) : list byte :=
  le_bytes 4 (rs_request_id r) ++ le_bytes 1 (rs_result_code r) ++ rs_reserved r ++
  encode_timespec (rs_request_timestamp r) ++
  encode_timespec (rs_response_timestamp r) ++
  rs_source_module r ++ rs_payload r.

Definition decode_response (l : list byte) : MgmtCommandResponse :=
  mkResponse (le_int (field 0 4 l)) (le_int (field 4 1 l)) (field 5 3 l)
    (decode_timespec (field 8 16 l)) (decode_timespec (field 24 16 l))
    (field 40 64 l) (field 104 2048 l).

(** [MGMT_REQ_PAYLOAD_AS_INT] *)
Definition MGMT_REQ_PAYLOAD_AS_INT (r : MgmtCommandRequest) : Z :=
  swrap 32 (le_int (take 4 (rq_payload r))).

(** ** mgmt_protocol.c

    [now] is what [clock_gettime(CLOCK_REALTIME, _)] stores.  A pointer
    argument is an [option]: [None] is NULL; a [const char *] or
    [const void *] is the object it points to. *)

Definition mgmt_request_init (now : timespec) (req : option MgmtCommandRequest)
    (cmd_type : Z) (module payload : option (list byte)) (len : Z)
    : option (option MgmtCommandRequest) :=
  match req with
  | None => Some None
  | Some _ =>
      let r0 := zero_request in
      tm ← match module with
           | Some m => strncpy (rq_target_module r0) m (MGMT_MODULE_NAME_SIZE - 1)
           | None => Some (rq_target_module r0)
           end;
      '(pl, plen) ←
        match payload with
        | Some p =>
            if 0 <? len then
              let copy_len := if Z.of_nat MGMT_PAYLOAD_REQUEST_SIZE <? len
                              then Z.of_nat MGMT_PAYLOAD_REQUEST_SIZE else len in
              pl ← memcpy (rq_payload r0) p (Z.to_nat copy_len);
              Some (pl, u16 copy_len)
            else Some (rq_payload r0, 0)
        | None => Some (rq_payload r0, 0)
        end;
      Some (Some (mkRequest (rq_request_id r0) cmd_type 0 plen now tm pl))
  end.

Definition mgmt_response_init (now : timespec) (resp : option MgmtCommandResponse)
    (req_id result : Z) (module payload : option (list byte)) (len : Z)
    : option (option MgmtCommandResponse) :=
  match resp with
  | None => Some None
  | Some _ =>
      let r0 := zero_response in
      sm ← match module with
           | Some m => strncpy (rs_source_module r0) m (MGMT_MODULE_NAME_SIZE - 1)
           | None => Some (rs_source_module r0)
           end;
      pl ← match payload with
           | Some p =>
               if 0 <? len then
                 let copy_len := if Z.of_nat MGMT_PAYLOAD_RESPONSE_SIZE <? len
                                 then Z.of_nat MGMT_PAYLOAD_RESPONSE_SIZE else len in
                 memcpy (rs_payload r0) p (Z.to_nat copy_len)
               else Some (rs_payload r0)
           | None => Some (rs_payload r0)
           end;
      Some (Some (mkResponse req_id result (rs_reserved r0)
                    (rs_request_timestamp r0) now sm pl))
  end.

Definition USEC_PER_SEC : Z := 1000000.

(** [(uint64_t)t.tv_sec * USEC_PER_SEC + t.tv_nsec / 1000]; the division is
    that of [long]. *)
Definition timespec_us (t : timespec) : Z :=
  u64 (u64 (u64 (tv_sec t) * USEC_PER_SEC) + u64 (Z.quot (tv_nsec t) 1000)).

Definition mgmt_response_latency_us (resp : option MgmtCommandResponse) : Z :=
  match resp with
  | None => 0
  | Some r =>
      let req_us := timespec_us (rs_request_timestamp r) in
      let resp_us := timespec_us (rs_response_timestamp r) in
      if req_us <? resp_us then resp_us - req_us else 0
  end.

Definition mgmt_request_validate (req : option MgmtCommandRequest) : Z :=
  match req with
  | None => 0
  | Some r =>
      if MGMT_CMD_MAX <=? rq_cmd_type r then 0
      else if is_nul (nth 0 (rq_target_module r) x00) then 0
      else if Z.of_nat MGMT_PAYLOAD_REQUEST_SIZE <? rq_payload_len r then 0
      else 1
  end.

Definition mgmt_result_str (code : Z) : string :=
  if code =? MGMT_RESULT_OK then "OK"
  else if code =? MGMT_RESULT_INVALID_CMD then "INVALID_CMD"
  else if code =? MGMT_RESULT_MODULE_NOT_FOUND then "MODULE_NOT_FOUND"
  else if code =? MGMT_RESULT_HANDLER_FAILED then "HANDLER_FAILED"
  else if code =? MGMT_RESULT_TIMEOUT then "TIMEOUT"
  else if code =? MGMT_RESULT_BUFFER_OVERFLOW then "BUFFER_OVERFLOW"
  else if code =? MGMT_RESULT_UNAUTHORIZED then "UNAUTHORIZED"
  else if code =? MGMT_RESULT_INTERNAL_ERROR then "INTERNAL_ERROR"
  else "UNKNOWN".

Definition mgmt_command_str (cmd : Z) : string :=
  if cmd =? MGMT_CMD_PING then "PING"
  else if cmd =? MGMT_CMD_SET_LOG_LEVEL then "SET_LOG_LEVEL"
  else if cmd =? MGMT_CMD_GET_STATUS then "GET_STATUS"
  else if cmd =? MGMT_CMD_GET_METRICS then "GET_METRICS"
  else if cmd =? MGMT_CMD_SET_BUFFER_SIZE then "SET_BUFFER_SIZE"
  else if cmd =? MGMT_CMD_ENABLE_PROFILING then "ENABLE_PROFILING"
  else if cmd =? MGMT_CMD_RESET_METRICS then "RESET_METRICS"
  else if cmd =? MGMT_CMD_SHUTDOWN then "SHUTDOWN"
  else if cmd =? MGMT_CMD_GET_CONFIG then "GET_CONFIG"
  else if cmd =? MGMT_CMD_ENABLE_TRACING then "ENABLE_TRACING"
  else "UNKNOWN".

(** * Invariants *)

Definition wf_timespec (t : timespec) : Prop := in_s 64 (tv_sec t) /\ in_s 64 (tv_nsec t).

(** A clock reading: a normalized time after the epoch, and far enough from
    the end of the 64-bit range for its microseconds to be representable. *)
Definition clock_ok (t : timespec) : Prop :=
  0 <= tv_sec t < 2 ^ 43 /\ 0 <= tv_nsec t < 1000000000.

Record wf_request (r : MgmtCommandRequest) : Prop := {
  wq_id : in_u 32 (rq_request_id r);
  wq_cmd : in_u 8 (rq_cmd_type r);
  wq_flags : in_u 8 (rq_flags r);
  wq_plen : in_u 16 (rq_payload_len r);
  wq_time : wf_timespec (rq_timestamp r);
  wq_module : length (rq_target_module r) = MGMT_MODULE_NAME_SIZE;
  wq_payload : length (rq_payload r) = MGMT_PAYLOAD_REQUEST_SIZE }.

Record wf_response (r : MgmtCommandResponse) : Prop := {
  ws_id : in_u 32 (rs_request_id r);
  ws_result : in_u 8 (rs_result_code r);
  ws_reserved : length (rs_reserved r) = 3%nat;
  ws_qtime : wf_timespec (rs_request_timestamp r);
  ws_stime : wf_timespec (rs_response_timestamp r);
  ws_module : length (rs_source_module r) = MGMT_MODULE_NAME_SIZE;
  ws_payload : length (rs_payload r) = MGMT_PAYLOAD_RESPONSE_SIZE }.

Lemma wf_zero_response : wf_response zero_response.
Proof. split; try reflexivity; repeat split; vm_compute; congruence. Qed.

(** * Lemmas *)

(** ** The wire *)

Lemma length_encode_timespec t : length (encode_timespec t) = 16%nat.
Proof. unfold encode_timespec. by rewrite length_app, !length_le_bytes. Qed.

Lemma decode_encode_timespec t : wf_timespec t -> decode_timespec (encode_timespec t) = t.
Proof.
  destruct t as [s n]. intros [Hs Hn]. cbn [tv_sec tv_nsec] in Hs, Hn.
  unfold decode_timespec, encode_timespec. cbn [tv_sec tv_nsec].
  rewrite take_app_length', drop_app_length' by by rewrite length_le_bytes.
  rewrite !le_int_bytes. change (8 * Z.of_nat 8) with 64.
  f_equal; (etransitivity; [by apply swrap_wrap|by apply swrap_id]).
Qed.

Lemma encode_decode_timespec l :
  length l = 16%nat -> encode_timespec (decode_timespec l) = l.
Proof.
  intros Hl. unfold decode_timespec, encode_timespec. cbn [tv_sec tv_nsec].
  change 64 with (8 * Z.of_nat 8). rewrite !le_bytes_swrap by lia.
  rewrite <- (take_drop 8 l) at 3. f_equal.
  - rewrite <- (le_bytes_int (take 8 l)) at 2. by rewrite length_take, Hl.
  - rewrite <- (le_bytes_int (drop 8 l)) at 2. by rewrite length_drop, Hl.
Qed.

Lemma field_skip off n a b :
  (length a <= off)%nat -> field off n (a ++ b) = field (off - length a) n b.
Proof. intros. unfold field. by rewrite drop_app_ge. Qed.

Lemma field_hit n a b : length a = n -> field 0 n (a ++ b) = a.
Proof. intros <-. apply take_app_length. Qed.

Lemma field_whole n a : length a = n -> field 0 n a = a.
Proof. intros <-. apply take_ge. lia. Qed.

Lemma field_join off n m l :
  field off n l ++ field (off + n) m l = field off (n + m) l.
Proof. unfold field. rewrite <- drop_drop. apply take_take_drop. Qed.

Lemma length_field off n l : (off + n <= length l)%nat -> length (field off n l) = n.
Proof. intros. unfold field. rewrite length_take, length_drop. lia. Qed.

Lemma le_bytes_field off n l :
  (off + n <= length l)%nat -> le_bytes n (le_int (field off n l)) = field off n l.
Proof.
  intros Hl. rewrite <- (length_field off n l Hl) at 1. apply le_bytes_int.
Qed.

Lemma le_int_field n off l :
  in_u (8 * Z.of_nat n) (le_int (field off n l)).
Proof.
  pose proof (le_int_range (field off n l)) as [? H]. split; [done|].
  eapply Z.lt_le_trans; [done|]. apply Z.pow_le_mono_r; [lia|].
  unfold field. rewrite length_take. lia.
Qed.

(** Compute one field of a concatenation whose parts have known lengths. *)
Ltac lens := rewrite ?length_le_bytes, ?length_encode_timespec;
  repeat match goal with H : length ?l = _ |- context [length ?l] => rewrite H end.
Ltac field_step :=
  first [ rewrite field_hit by (lens; done)
        | rewrite field_whole by done
        | rewrite field_skip by (lens; cbn; lia); lens; cbn [Nat.sub] ].

Lemma le_int_bytes_u n z : in_u (8 * Z.of_nat n) z -> le_int (le_bytes n z) = z.
Proof. intros. rewrite le_int_bytes. by apply Z.mod_small. Qed.

Lemma wf_decode_timespec l : wf_timespec (decode_timespec l).
Proof.
  assert (forall z, in_s 64 (swrap 64 z)) as H.
  { intros z. unfold in_s, swrap.
    pose proof (Z.mod_pos_bound (z + 2 ^ (64 - 1)) (2 ^ 64) ltac:(lia)). lia. }
  split; apply H.
Qed.

Lemma wf_decode_request l :
  length l = MGMT_REQUEST_SIZE -> wf_request (decode_request l).
Proof.
  intros Hl. unfold MGMT_REQUEST_SIZE in Hl. split; unfold decode_request;
    cbn [rq_request_id rq_cmd_type rq_flags rq_payload_len rq_timestamp
         rq_target_module rq_payload];
    first [ apply wf_decode_timespec | exact (le_int_field 4 _ _)
          | exact (le_int_field 1 _ _) | exact (le_int_field 2 _ _)
          | unfold MGMT_MODULE_NAME_SIZE, MGMT_PAYLOAD_REQUEST_SIZE;
            apply length_field; lia ].
Qed.

Lemma decode_encode_request_wf r : wf_request r -> decode_request (encode_request r) = r.
Proof.
  destruct r as [id c f pl t m p]. intros [].
  unfold decode_request, encode_request. cbn [rq_request_id rq_cmd_type rq_flags
    rq_payload_len rq_timestamp rq_target_module rq_payload] in *.
  unfold MGMT_MODULE_NAME_SIZE, MGMT_PAYLOAD_REQUEST_SIZE in *.
  f_equal; repeat field_step; rewrite ?le_int_bytes_u by done; try done.
  by apply decode_encode_timespec.
Qed.

Lemma decode_encode_response_wf r :
  wf_response r -> decode_response (encode_response r) = r.
Proof.
  destruct r as [id c rv tq ts m p]. intros [].
  unfold decode_response, encode_response. cbn [rs_request_id rs_result_code
    rs_reserved rs_request_timestamp rs_response_timestamp rs_source_module
    rs_payload] in *.
  unfold MGMT_MODULE_NAME_SIZE, MGMT_PAYLOAD_RESPONSE_SIZE in *.
  f_equal; repeat field_step; rewrite ?le_int_bytes_u by done; try done;
    by apply decode_encode_timespec.
Qed.

Lemma encode_decode_request_raw l :
  length l = MGMT_REQUEST_SIZE -> encode_request (decode_request l) = l.
Proof.
  intros Hl. unfold MGMT_REQUEST_SIZE in Hl.
  unfold encode_request, decode_request. cbn [rq_request_id rq_cmd_type rq_flags
    rq_payload_len rq_timestamp rq_target_module rq_payload].
  rewrite encode_decode_timespec by (rewrite length_field; lia).
  rewrite !le_bytes_field by lia. rewrite !(app_assoc (field _ _ _)).
  rewrite !field_join. apply field_whole. by rewrite Hl.
Qed.

Lemma length_encode_request r :
  wf_request r -> length (encode_request r) = MGMT_REQUEST_SIZE.
Proof.
  intros []. unfold encode_request. rewrite !length_app. lens. done.
Qed.

Lemma length_encode_response r :
  wf_response r -> length (encode_response r) = MGMT_RESPONSE_SIZE.
Proof.
  intros []. unfold encode_response. rewrite !length_app. lens. done.
Qed.

(** ** Initialization *)

(** The number of payload bytes an initialization copies. *)
Definition copied (payload : option (list byte)) (len : Z) (cap : nat) : Z :=
  match payload with None => 0 | Some _ => Z.min len (Z.of_nat cap) end.

Definition payload_obj (payload : option (list byte)) : list byte :=
  match payload with None => [] | Some p => p end.

(** The payload field after the copy into the cleared structure. *)
Lemma payload_copy payload len cap :
  0 <= len -> copied payload len cap <= Z.of_nat (length (payload_obj payload)) ->
  match payload with
  | Some p =>
      if 0 <? len then
        memcpy (zeros cap) p
          (Z.to_nat (if Z.of_nat cap <? len then Z.of_nat cap else len))
      else Some (zeros cap)
  | None => Some (zeros cap)
  end = Some (take (Z.to_nat (copied payload len cap)) (payload_obj payload) ++
              zeros (cap - Z.to_nat (copied payload len cap))).
Proof.
  destruct payload as [p|]; cbn [copied payload_obj]; intros Hl Hp.
  - replace (if Z.of_nat cap <? len then Z.of_nat cap else len)
      with (Z.min len (Z.of_nat cap)) by (case_match; tests; lia).
    destruct (0 <? len) eqn:E; tests.
    + rewrite memcpy_safe by (unfold zeros; rewrite ?length_replicate; lia).
      unfold zeros. by rewrite drop_replicate.
    + replace len with 0 by lia. rewrite Z.min_l by lia. cbn. by rewrite Nat.sub_0_r.
  - cbn. by rewrite Nat.sub_0_r.
Qed.

Lemma length_payload_copy payload len cap :
  copied payload len cap <= Z.of_nat (length (payload_obj payload)) ->
  length (take (Z.to_nat (copied payload len cap)) (payload_obj payload) ++
          zeros (cap - Z.to_nat (copied payload len cap))) = cap.
Proof.
  intros Hp. unfold zeros. rewrite length_app, length_take, length_replicate.
  assert (copied payload len cap <= Z.of_nat cap) by (destruct payload; cbn; lia). lia.
Qed.

Lemma copied_le payload len cap : copied payload len cap <= Z.of_nat cap.
Proof. destruct payload; cbn; lia. Qed.

Lemma copied_nonneg payload len cap : 0 <= len -> 0 <= copied payload len cap.
Proof. destruct payload; cbn; lia. Qed.

Lemma target_first m s d :
  cstring m = Some s -> length d = 64%nat -> cstring d = Some (take 63 s) ->
  is_nul (nth 0 d x00) = bool_decide (s = []).
Proof.
  intros _ Hl Hd. destruct d as [|b d]; [done|]. cbn in *.
  destruct (is_nul b); simplify_eq.
  - rewrite bool_decide_true; [done|]. by destruct s.
  - rewrite bool_decide_false; [done|]. intros ->. by apply fmap_Some in Hd as (? & ? & ?).
Qed.

Section init.
Context (now : timespec) (Hnow : wf_timespec now).
Context (m s : list byte) (Hm : cstring m = Some s).
Context (payload : option (list byte)) (len : Z) (Hlen : 0 <= len).

Lemma request_init_result r0 cmd :
  in_u 8 cmd ->
  copied payload len MGMT_PAYLOAD_REQUEST_SIZE <= Z.of_nat (length (payload_obj payload)) ->
  exists tm, cstring tm = Some (take 63 s) /\ length tm = 64%nat /\
    let n := copied payload len MGMT_PAYLOAD_REQUEST_SIZE in
    mgmt_request_init now (Some r0) cmd (Some m) payload len =
    Some (Some (mkRequest 0 cmd 0 n now tm
      (take (Z.to_nat n) (payload_obj payload) ++
       zeros (MGMT_PAYLOAD_REQUEST_SIZE - Z.to_nat n)))).
Proof.
  intros Hc Hp. destruct (strncpy_zeros_cstring m s 63 Hm) as (tm & Ht & Hs & Hl).
  exists tm. split; [done|]. split; [done|]. cbn zeta.
  unfold mgmt_request_init. cbn [rq_target_module rq_payload rq_request_id zero_request].
  change (strncpy _ m (MGMT_MODULE_NAME_SIZE - 1)) with (strncpy (zeros 64) m 63).
  rewrite Ht. cbn [mbind option_bind].
  pose proof (payload_copy payload len _ Hlen Hp) as Hcopy.
  destruct payload as [p|]; [|cbn [mbind option_bind]; by simplify_eq].
  destruct (0 <? len) eqn:E; tests.
  - rewrite Hcopy. cbn [mbind option_bind]. do 4 f_equal. cbn [copied].
    unfold wrap. case_match; tests; rewrite Z.mod_small; unfold MGMT_PAYLOAD_REQUEST_SIZE in *; lia.
  - by replace len with 0 by lia.
Qed.

Lemma response_init_result r0 id res :
  copied payload len MGMT_PAYLOAD_RESPONSE_SIZE <= Z.of_nat (length (payload_obj payload)) ->
  exists sm, cstring sm = Some (take 63 s) /\ length sm = 64%nat /\
    let n := copied payload len MGMT_PAYLOAD_RESPONSE_SIZE in
    mgmt_response_init now (Some r0) id res (Some m) payload len =
    Some (Some (mkResponse id res (zeros 3) zero_timespec now sm
      (take (Z.to_nat n) (payload_obj payload) ++
       zeros (MGMT_PAYLOAD_RESPONSE_SIZE - Z.to_nat n)))).
Proof.
  intros Hp. destruct (strncpy_zeros_cstring m s 63 Hm) as (sm & Ht & Hs & Hl).
  exists sm. split; [done|]. split; [done|]. cbn zeta.
  unfold mgmt_response_init. cbn [rs_source_module rs_payload zero_response].
  change (strncpy _ m (MGMT_MODULE_NAME_SIZE - 1)) with (strncpy (zeros 64) m 63).
  rewrite Ht. cbn [mbind option_bind].
  pose proof (payload_copy payload len _ Hlen Hp) as Hcopy.
  etransitivity; [|cbn [mbind option_bind]; reflexivity].
  destruct payload as [p|]; [destruct (0 <? len)|]; rewrite Hcopy; done.
Qed.
End init.

(** ** Time *)

(** The microseconds of a clock reading, without machine arithmetic. *)
Definition us_of (t : timespec) : Z := tv_sec t * 1000000 + tv_nsec t / 1000.

Lemma timespec_us_exact t : clock_ok t -> timespec_us t = us_of t.
Proof.
  destruct t as [s n]. intros [Hs Hn]. unfold timespec_us, us_of, USEC_PER_SEC. cbn in *.
  rewrite Z.quot_div_nonneg by lia.
  assert (0 <= n / 1000 < 1000000)
    by (split; [apply Z.div_pos|apply Z.div_lt_upper_bound]; lia).
  rewrite (wrap_id 64 s), (wrap_id 64 (n / 1000)), (wrap_id 64 (s * _)), wrap_id;
    unfold in_u; lia.
Qed.

Lemma latency_range r : in_u 64 (mgmt_response_latency_us r).
Proof.
  destruct r as [r|]; cbn [mgmt_response_latency_us]; [|split; lia].
  pose proof (wrap_range 64
    (u64 (u64 (tv_sec (rs_request_timestamp r)) * USEC_PER_SEC) +
     u64 (Z.quot (tv_nsec (rs_request_timestamp r)) 1000)) ltac:(lia)).
  pose proof (wrap_range 64
    (u64 (u64 (tv_sec (rs_response_timestamp r)) * USEC_PER_SEC) +
     u64 (Z.quot (tv_nsec (rs_response_timestamp r)) 1000)) ltac:(lia)).
  unfold timespec_us, in_u in *. case_match; tests; lia.
Qed.

(** The whole request an initialization gives. *)
Lemma request_init_full now r0 cmd m s payload len :
  wf_timespec now -> in_u 8 cmd -> cstring m = Some s -> 0 <= len ->
  copied payload len MGMT_PAYLOAD_REQUEST_SIZE <= Z.of_nat (length (payload_obj payload)) ->
  exists r, mgmt_request_init now (Some r0) cmd (Some m) payload len = Some (Some r)
    /\ wf_request r
    /\ rq_request_id r = 0 /\ rq_cmd_type r = cmd /\ rq_timestamp r = now
    /\ cstring (rq_target_module r) = Some (take 63 s)
    /\ rq_payload_len r = copied payload len MGMT_PAYLOAD_REQUEST_SIZE
    /\ rq_payload r = take (Z.to_nat (rq_payload_len r)) (payload_obj payload) ++
                      zeros (512 - Z.to_nat (rq_payload_len r))
    /\ mgmt_request_validate (Some r) =
         (if (cmd <? MGMT_CMD_MAX) && bool_decide (s <> []) then 1 else 0).
Proof.
  intros Hnow Hc Hm Hlen Hp.
  destruct (request_init_result now m s Hm payload len Hlen r0 cmd Hc Hp)
    as (tm & Hs & Hl & ->).
  pose proof (copied_nonneg payload len MGMT_PAYLOAD_REQUEST_SIZE Hlen).
  pose proof (copied_le payload len MGMT_PAYLOAD_REQUEST_SIZE).
  eexists; split; [done|]. cbn [rq_request_id rq_cmd_type rq_timestamp
    rq_target_module rq_payload_len rq_payload]. split; [|do 6 (split; [done|])].
  - split; cbn [rq_request_id rq_cmd_type rq_flags rq_payload_len rq_timestamp
      rq_target_module rq_payload]; try done.
    + unfold in_u, MGMT_PAYLOAD_REQUEST_SIZE in *. lia.
    + by apply length_payload_copy.
  - unfold mgmt_request_validate. cbn [rq_cmd_type rq_target_module rq_payload_len].
    rewrite (target_first m s tm Hm Hl Hs), Z.leb_antisym.
    rewrite (proj2 (Z.ltb_ge (Z.of_nat MGMT_PAYLOAD_REQUEST_SIZE) _)) by done.
    destruct (cmd <? MGMT_CMD_MAX); [|done]. cbn.
    rewrite bool_decide_not. by destruct (bool_decide (s = [])).
Qed.

(** * Properties *)

(** The bytes of the structures are where the rules of the platform put their
    members: with the sizes and alignments of the declarations the members of the
    request are at the offsets 0, 4, 5, 6, 8, 24 and 88 of 600 bytes, those of the
    response at 0, 4, 5, 8, 24, 40 and 104 of 2152 bytes, without padding, and
    [encode_request] and [encode_response] have each member's bytes there. *)
Theorem struct_layout q p :
  wf_request q -> wf_response p ->
  member_offsets request_members = [0; 4; 5; 6; 8; 24; 88]%nat /\
  struct_size request_members = MGMT_REQUEST_SIZE /\
  (fun '(off, m) => field off (ct_size m) (encode_request q)) <$>
      zip (member_offsets request_members) request_members =
    [le_bytes 4 (rq_request_id q); le_bytes 1 (rq_cmd_type q); le_bytes 1 (rq_flags q); le_bytes 2 (rq_payload_len q);
     encode_timespec (rq_timestamp q); rq_target_module q; rq_payload q] /\
  member_offsets response_members = [0; 4; 5; 8; 24; 40; 104]%nat /\
  struct_size response_members = MGMT_RESPONSE_SIZE /\
  (fun '(off, m) => field off (ct_size m) (encode_response p)) <$>
      zip (member_offsets response_members) response_members =
    [le_bytes 4 (rs_request_id p); le_bytes 1 (rs_result_code p); rs_reserved p; encode_timespec (rs_request_timestamp p);
     encode_timespec (rs_response_timestamp p); rs_source_module p; rs_payload p].
Proof.
  intros [] []. split; [done|]. split; [done|]. split; [|split; [done|split; [done|]]].
  - change (member_offsets request_members) with [0; 4; 5; 6; 8; 24; 88]%nat. cbn [zip_with request_members fmap list_fmap ct_size].
    unfold encode_request, MGMT_MODULE_NAME_SIZE, MGMT_PAYLOAD_REQUEST_SIZE in *.
    repeat (apply (f_equal2 cons); [by repeat field_step|]). done.
  - change (member_offsets response_members) with [0; 4; 5; 8; 24; 40; 104]%nat. cbn [zip_with response_members fmap list_fmap ct_size].
    unfold encode_response, MGMT_MODULE_NAME_SIZE, MGMT_PAYLOAD_RESPONSE_SIZE in *.
    repeat (apply (f_equal2 cons); [by repeat field_step|]). done.
Qed.

Lemma struct_layout_witness :
  field 24 64 (encode_request (mkRequest 7 1 0 4 zero_timespec (lit "router" ++ zeros 57) (zeros 512))) =
    lit "router" ++ zeros 57.
Proof.
  destruct (struct_layout (mkRequest 7 1 0 4 zero_timespec (lit "router" ++ zeros 57) (zeros 512)) zero_response)
    as (Ho & _ & H & _).
  - split; try reflexivity; repeat split; vm_compute; congruence.
  - split; try reflexivity; repeat split; vm_compute; congruence.
  - rewrite Ho in H. exact (f_equal (fun l => nth 5 l []) H).
Defined.

(** [mgmt_request_init] on a terminated module name and a payload object
    large enough for the bytes it copies stays inside every object and builds a
    well-formed request: the name cut to 63 bytes, at most 512 payload bytes,
    which are the object's first ones, zeros behind them, and the given command
    and time; [mgmt_request_validate] accepts it exactly when the command is
    below MGMT_CMD_MAX and the name is not empty. *)
Theorem mgmt_request_init_spec now r0 cmd m s payload len :
  wf_timespec now -> in_u 8 cmd -> cstring m = Some s -> 0 <= len ->
  copied payload len MGMT_PAYLOAD_REQUEST_SIZE <= Z.of_nat (length (payload_obj payload)) ->
  exists r, mgmt_request_init now (Some r0) cmd (Some m) payload len = Some (Some r)
    /\ wf_request r
    /\ rq_request_id r = 0 /\ rq_cmd_type r = cmd /\ rq_timestamp r = now
    /\ cstring (rq_target_module r) = Some (take 63 s)
    /\ rq_payload_len r = copied payload len MGMT_PAYLOAD_REQUEST_SIZE
    /\ rq_payload r = take (Z.to_nat (rq_payload_len r)) (payload_obj payload) ++
                      zeros (512 - Z.to_nat (rq_payload_len r))
    /\ mgmt_request_validate (Some r) =
         (if (cmd <? MGMT_CMD_MAX) && bool_decide (s <> []) then 1 else 0).
Proof. apply request_init_full. Qed.

Lemma mgmt_request_init_spec_witness :
  exists r, mgmt_request_init (mkTimespec 5 6) (Some zero_request) MGMT_CMD_SET_BUFFER_SIZE
      (Some (lit "router")) (Some (le_bytes 4 4096)) 4 = Some (Some r)
    /\ mgmt_request_validate (Some r) = 1.
Proof.
  destruct (mgmt_request_init_spec (mkTimespec 5 6) zero_request MGMT_CMD_SET_BUFFER_SIZE
    (lit "router") (bs "router") (Some (le_bytes 4 4096)) 4)
    as (r & H & _ & _ & _ & _ & _ & _ & _ & Hv).
  - split; vm_compute; split; congruence.
  - vm_compute; split; congruence.
  - reflexivity.
  - lia.
  - vm_compute. congruence.
  - exists r. split; [exact H|]. rewrite Hv. reflexivity.
Defined.

(** [mgmt_response_init] clears the whole response before filling it: on a
    terminated module name and a large enough payload object it stays inside
    every object and leaves the identifier, result, time, name (cut to 63 bytes)
    and at most 2048 payload bytes it was given, with every other field zero;
    in particular the request timestamp that was in the response is lost. *)
Theorem mgmt_response_init_spec now r0 id res m s payload len :
  wf_timespec now -> in_u 32 id -> in_u 8 res -> cstring m = Some s -> 0 <= len ->
  copied payload len MGMT_PAYLOAD_RESPONSE_SIZE <= Z.of_nat (length (payload_obj payload)) ->
  exists r, mgmt_response_init now (Some r0) id res (Some m) payload len = Some (Some r)
    /\ wf_response r
    /\ rs_request_id r = id /\ rs_result_code r = res /\ rs_response_timestamp r = now
    /\ rs_request_timestamp r = zero_timespec
    /\ cstring (rs_source_module r) = Some (take 63 s)
    /\ rs_payload r =
         take (Z.to_nat (copied payload len MGMT_PAYLOAD_RESPONSE_SIZE)) (payload_obj payload) ++
         zeros (2048 - Z.to_nat (copied payload len MGMT_PAYLOAD_RESPONSE_SIZE)).
Proof.
  intros Hnow Hid Hres Hm Hlen Hp.
  destruct (response_init_result now m s Hm payload len Hlen r0 id res Hp)
    as (sm & Hs & Hl & ->).
  eexists; split; [done|]. cbn [rs_request_id rs_result_code rs_response_timestamp
    rs_request_timestamp rs_source_module rs_payload]. split; [|done].
  split; cbn [rs_request_id rs_result_code rs_reserved rs_request_timestamp
    rs_response_timestamp rs_source_module rs_payload]; try done.
  - by apply length_payload_copy.
Qed.

Lemma mgmt_response_init_spec_witness :
  exists r, mgmt_response_init (mkTimespec 5 6) (Some zero_response) 9 MGMT_RESULT_OK
      (Some (lit "router")) (Some (lit "pong")) 5 = Some (Some r)
    /\ rs_request_id r = 9 /\ cstring (rs_source_module r) = Some (bs "router").
Proof.
  destruct (mgmt_response_init_spec (mkTimespec 5 6) zero_response 9 MGMT_RESULT_OK
    (lit "router") (bs "router") (Some (lit "pong")) 5)
    as (r & H & _ & Hid & _ & _ & _ & Hs & _).
  - split; vm_compute; split; congruence.
  - vm_compute; split; congruence.
  - vm_compute; split; congruence.
  - reflexivity.
  - lia.
  - vm_compute. congruence.
  - exists r. split; [exact H|]. split; [exact Hid|]. rewrite Hs. reflexivity.
Defined.

(** Between two clock readings [mgmt_response_latency_us] is the elapsed
    time in microseconds, and 0 when the response is not later than the
    request: the 64-bit arithmetic neither wraps nor underflows. *)
Theorem mgmt_response_latency_exact r :
  clock_ok (rs_request_timestamp r) -> clock_ok (rs_response_timestamp r) ->
  mgmt_response_latency_us (Some r) =
    Z.max 0 (us_of (rs_response_timestamp r) - us_of (rs_request_timestamp r)).
Proof.
  intros Hq Hs. unfold mgmt_response_latency_us.
  rewrite !timespec_us_exact by done. case_match; tests; lia.
Qed.

Lemma mgmt_response_latency_exact_witness :
  mgmt_response_latency_us (Some (mkResponse 1 0 (zeros 3)
    (mkTimespec 1700000000 999999000) (mkTimespec 1700000001 5000) [] [])) = 6.
Proof.
  rewrite mgmt_response_latency_exact; [reflexivity| |];
    (split; [split; [vm_compute; congruence|reflexivity]
            |split; [vm_compute; congruence|reflexivity]]).
Defined.
