(* ===== verification/EventHandler.v ===== *)
(** * The event handler registry (Mgmt/include/event_handler.h, Mgmt/src/event_handler.c)

    The registry is the fixed array of 64 entries with its count, its mutex
    and its two counters; entries at or above the count keep whatever was
    stored there.  A function pointer and a context pointer are addresses, 0
    being NULL.  [handler_dispatch] is split where the code releases the lock:
    the lookup under the lock, the call of the handler, the statistics under
    the lock again. *)

From S2P Require Import Prelude CLib MgmtProtocol.

(** ** State *)

Definition MAX_EVENT_HANDLERS : nat := 64.

Record EventHandlerEntry := mkEntry {
  eh_cmd_type : Z;
  eh_module_name : list byte;
  eh_handler : Z;
  eh_context : Z;
  eh_invocation_count : Z;
  eh_total_latency_us : Z }.

Record EventHandlerRegistry := mkRegistry {
  entries : list EventHandlerEntry;
  entry_count : Z;
  lock : mutex;
  total_dispatches : Z;
  total_failures : Z }.

(** The two static variables of event_handler.c. *)
Record Globals := mkGlobals {
  g_registry : EventHandlerRegistry;
  g_registry_initialized : bool }.

Definition zero_entry : EventHandlerEntry :=
  mkEntry 0 (zeros MGMT_MODULE_NAME_SIZE) 0 0 0 0.

Definition initial_globals : Globals :=
  mkGlobals (mkRegistry (replicate MAX_EVENT_HANDLERS zero_entry) 0 MtxUninit 0 0) false.

(** The entries in use. *)
Definition live (r : EventHandlerRegistry) : list EventHandlerEntry :=
  take (Z.to_nat (entry_count r)) (entries r).

Definition reg_lock (r : EventHandlerRegistry) : option EventHandlerRegistry :=
  l ← mutex_lock (lock r);
  Some (mkRegistry (entries r) (entry_count r) l (total_dispatches r) (total_failures r)).

Definition reg_unlock (r : EventHandlerRegistry) : option EventHandlerRegistry :=
  l ← mutex_unlock (lock r);
  Some (mkRegistry (entries r) (entry_count r) l (total_dispatches r) (total_failures r)).

Definition set_entries (r : EventHandlerRegistry) (es : list EventHandlerEntry) (n : Z)
    : EventHandlerRegistry :=
  mkRegistry es n (lock r) (total_dispatches r) (total_failures r).

Definition set_totals (r : EventHandlerRegistry) (d f : Z) : EventHandlerRegistry :=
  mkRegistry (entries r) (entry_count r) (lock r) d f.

(** ** Operations *)

(** [init_ok]: what [pthread_mutex_init] answers. *)
Definition handler_registry_init (init_ok : bool) (g : Globals) : Z * Globals :=
  if g_registry_initialized g then (0, g)
  else if negb init_ok then (-1, g)
  else (0, mkGlobals (mkRegistry (entries (g_registry g)) 0 MtxFree 0 0) true).

Definition handler_registry_destroy (g : Globals) : option Globals :=
  if negb (g_registry_initialized g) then Some g
  else
    r ← reg_lock (g_registry g);
    let r := set_totals (set_entries r (entries r) 0) 0 0 in
    r ← reg_unlock r;
    Some (mkGlobals (mkRegistry (entries r) (entry_count r) MtxUninit
                       (total_dispatches r) (total_failures r)) false).

(** The scan of the entries for a command and module name: the index of the
    first match. *)
Fixpoint find_entry (es : list EventHandlerEntry) (cmd : Z) (name : list byte)
    : option (option nat) :=
  match es with
  | [] => Some None
  | e :: es' =>
      if eh_cmd_type e =? cmd then
        eq ← strcmp_eq (eh_module_name e) name;
        if (eq : bool) then Some (Some 0%nat)
        else o ← find_entry es' cmd name; Some (option_map S o)
      else o ← find_entry es' cmd name; Some (option_map S o)
  end.

Definition handler_register (r : EventHandlerRegistry) (module_name : option (list byte))
    (cmd_type handler context : Z) : option (Z * EventHandlerRegistry) :=
  match module_name with
  | None => Some (-1, r)
  | Some name =>
      if (handler =? 0) || (MGMT_CMD_MAX <=? cmd_type) then Some (-1, r)
      else
        r ← reg_lock r;
        m ← find_entry (live r) cmd_type name;
        match m with
        | Some i =>
            entry ← entries r !! i;
            let entry := mkEntry (eh_cmd_type entry) (eh_module_name entry)
                           handler context 0 0 in
            r ← reg_unlock (set_entries r (<[i:=entry]> (entries r)) (entry_count r));
            Some (0, r)
        | None =>
            if Z.of_nat MAX_EVENT_HANDLERS <=? entry_count r then
              r ← reg_unlock r; Some (-1, r)
            else
              let i := Z.to_nat (entry_count r) in
              entry ← entries r !! i;
              n ← strncpy (eh_module_name entry) name (MGMT_MODULE_NAME_SIZE - 1);
              n ← store n (MGMT_MODULE_NAME_SIZE - 1) x00;
              let entry := mkEntry cmd_type n handler context 0 0 in
              r ← reg_unlock (set_entries r (<[i:=entry]> (entries r)) (entry_count r + 1));
              Some (0, r)
        end
  end.

(** The inner loop [for (j = i; j < count - 1; j++) entries[j] = entries[j + 1]],
    [n] steps from [j] on. *)
Fixpoint shift_entries (es : list EventHandlerEntry) (j n : nat)
    : option (list EventHandlerEntry) :=
  match n with
  | O => Some es
  | S n' => e ← es !! S j; shift_entries (<[j:=e]> es) (S j) n'
  end.

Definition handler_unregister (r : EventHandlerRegistry) (module_name : option (list byte))
    (cmd_type : Z) : option (Z * EventHandlerRegistry) :=
  match module_name with
  | None => Some (-1, r)
  | Some name =>
      r ← reg_lock r;
      m ← find_entry (live r) cmd_type name;
      match m with
      | Some i =>
          es ← shift_entries (entries r) i (Z.to_nat (entry_count r - 1 - Z.of_nat i));
          r ← reg_unlock (set_entries r es (entry_count r - 1));
          Some (0, r)
      | None => r ← reg_unlock r; Some (-1, r)
      end
  end.

(** The part of [handler_dispatch] up to the release of the lock: the code
    returns with an error, or goes on to call the handler of entry [i]. *)
Inductive dispatch_step :=
| DispatchReturn (result : Z) (resp : option MgmtCommandResponse)
| DispatchInvoke (i : nat) (req : MgmtCommandRequest) (resp : MgmtCommandResponse).

Definition dispatch_lookup (r : EventHandlerRegistry) (req : option MgmtCommandRequest)
    (resp : option MgmtCommandResponse) : option (dispatch_step * EventHandlerRegistry) :=
  match req, resp with
  | Some q, Some p =>
      if mgmt_request_validate (Some q) =? 0 then
        Some (DispatchReturn (-3) (Some (set_result_code p MGMT_RESULT_INVALID_CMD)), r)
      else
        r ← reg_lock r;
        m ← find_entry (live r) (rq_cmd_type q) (rq_target_module q);
        match m with
        | None =>
            r ← reg_unlock r;
            Some (DispatchReturn (-1)
                    (Some (set_result_code p MGMT_RESULT_MODULE_NOT_FOUND)), r)
        | Some i =>
            sm ← strncpy (rs_source_module p) (rq_target_module q)
                   (MGMT_MODULE_NAME_SIZE - 1);
            let p := mkResponse (rq_request_id q) (rs_result_code p) (rs_reserved p)
                       (rq_timestamp q) (rs_response_timestamp p) sm (rs_payload p) in
            r ← reg_unlock r;
            Some (DispatchInvoke i q p, r)
        end
  | _, _ => Some (DispatchReturn (-3) resp, r)
  end.

(** The part after the handler has returned [result]. *)
Definition dispatch_finish (r : EventHandlerRegistry) (i : nat) (result : Z)
    (resp : MgmtCommandResponse)
    : option (Z * MgmtCommandResponse * EventHandlerRegistry) :=
  r ← reg_lock r;
  entry ← entries r !! i;
  let resp := if negb (result =? 0) then set_result_code resp MGMT_RESULT_HANDLER_FAILED
              else if rs_result_code resp =? 0 then set_result_code resp MGMT_RESULT_OK
              else resp in
  let failures := if negb (result =? 0) then u32 (total_failures r + 1)
                  else total_failures r in
  let latency := mgmt_response_latency_us (Some resp) in
  let entry := mkEntry (eh_cmd_type entry) (eh_module_name entry) (eh_handler entry)
                 (eh_context entry) (u32 (eh_invocation_count entry + 1))
                 (u64 (eh_total_latency_us entry + latency)) in
  let r := set_totals (set_entries r (<[i:=entry]> (entries r)) (entry_count r))
             (u32 (total_dispatches r + 1)) failures in
  r ← reg_unlock r;
  Some (result, resp, r).

(** [W] is the state the handlers of a process act on, and [invoke f c q p w]
    the effect of calling the function at address [f] with context [c]. *)
Section dispatch.
Context {W : Type}.
Variable invoke : Z -> Z -> MgmtCommandRequest -> MgmtCommandResponse -> W ->
  option (Z * MgmtCommandResponse * W).

Definition handler_dispatch (r : EventHandlerRegistry) (w : W)
    (req : option MgmtCommandRequest) (resp : option MgmtCommandResponse)
    : option (Z * option MgmtCommandResponse * EventHandlerRegistry * W) :=
  '(s, r) ← dispatch_lookup r req resp;
  match s with
  | DispatchReturn res p => Some (res, p, r, w)
  | DispatchInvoke i q p =>
      entry ← entries r !! i;
      '(result, p, w) ← invoke (eh_handler entry) (eh_context entry) q p w;
      '(result, p, r) ← dispatch_finish r i result p;
      Some (result, Some p, r, w)
  end.
End dispatch.

(** ** Listing *)

(** [{"handlers": [] *)
Definition list_header : list byte := bs "{" ++ quoted "handlers" ++ bs ": [".

Definition entry_text (e : EventHandlerEntry) (name : list byte) : list byte :=
  let avg_latency := if 0 <? eh_invocation_count e
                     then eh_total_latency_us e / eh_invocation_count e else 0 in
  bs "{" ++ quoted "module" ++ bs ":" ++ [x22] ++ name ++ [x22] ++
  bs "," ++ quoted "command" ++ bs ":" ++ quoted (mgmt_command_str (eh_cmd_type e)) ++
  bs "," ++ quoted "invocations" ++ bs ":" ++ fmt_u (eh_invocation_count e) ++
  bs "," ++ quoted "avg_latency_us" ++ bs ":" ++ fmt_u avg_latency ++ bs "}".

Definition list_footer (r : EventHandlerRegistry) : list byte :=
  bs "], " ++ quoted "total_dispatches" ++ bs ": " ++ fmt_u (total_dispatches r) ++
  bs ", " ++ quoted "total_failures" ++ bs ": " ++ fmt_u (total_failures r) ++ bs "}".

(** The loop over the entries, [first] on its first round; the flag of the
    result tells that the buffer overflowed. *)
Fixpoint list_entries (es : list EventHandlerEntry) (first : bool) (buf : list byte)
    (buf_size offset : Z) : option (bool * list byte * Z) :=
  match es with
  | [] => Some (false, buf, offset)
  | e :: es' =>
      '(buf, offset) ← (if first then Some (buf, offset)
                        else append buf buf_size offset (bs ","));
      name ← cstring (eh_module_name e);
      '(buf, offset) ← append buf buf_size offset (entry_text e name);
      if swrap 32 buf_size - 1 <=? offset then Some (true, buf, offset)
      else list_entries es' false buf buf_size offset
  end.

Definition handler_list (r : EventHandlerRegistry) (buf : option (list byte)) (buf_size : Z)
    : option (Z * option (list byte) * EventHandlerRegistry) :=
  match buf with
  | None => Some (-1, buf, r)
  | Some b =>
      if buf_size =? 0 then Some (-1, buf, r)
      else
        r ← reg_lock r;
        '(b, offset) ← append b buf_size 0 list_header;
        '(full, b, offset) ← list_entries (live r) true b buf_size offset;
        if (full : bool) then r ← reg_unlock r; Some (-1, Some b, r)
        else
          '(b, _) ← append b buf_size offset (list_footer r);
          r ← reg_unlock r;
          Some (entry_count r, Some b, r)
  end.

(** ** Statistics *)

(** The two output pointers; [None] in the result is NULL, not written. *)
Definition handler_stats (r : EventHandlerRegistry) (total_cmds total_fails : bool)
    : option (Z * option (Z * Z) * EventHandlerRegistry) :=
  if negb total_cmds || negb total_fails then Some (-1, None, r)
  else
    r ← reg_lock r;
    let out := (total_dispatches r, total_failures r) in
    r ← reg_unlock r;
    Some (0, Some out, r).

Definition reset_entry (e : EventHandlerEntry) : EventHandlerEntry :=
  mkEntry (eh_cmd_type e) (eh_module_name e) (eh_handler e) (eh_context e) 0 0.

Definition handler_stats_reset (r : EventHandlerRegistry)
    : option (Z * EventHandlerRegistry) :=
  r ← reg_lock r;
  let n := Z.to_nat (entry_count r) in
  let es := (reset_entry <$> take n (entries r)) ++ drop n (entries r) in
  r ← reg_unlock (set_totals (set_entries r es (entry_count r)) 0 0);
  Some (0, r).

(** * The registry as a finite map *)

Record HandlerInfo := mkInfo {
  hi_handler : Z; hi_context : Z; hi_count : Z; hi_latency : Z }.

(** A key is a command and the contents of a module name. *)
Abbreviation key := (Z * list byte)%type.

Definition entry_name (e : EventHandlerEntry) : list byte :=
  default [] (cstring (eh_module_name e)).

Definition entry_key (e : EventHandlerEntry) : key := (eh_cmd_type e, entry_name e).

Definition entry_info (e : EventHandlerEntry) : HandlerInfo :=
  mkInfo (eh_handler e) (eh_context e) (eh_invocation_count e) (eh_total_latency_us e).

(** The map the entries in use stand for (the first match wins). *)
Definition abs_entries (es : list EventHandlerEntry) : gmap (Z * list byte) HandlerInfo :=
  list_to_map ((fun e => (entry_key e, entry_info e)) <$> es).

Definition abs (r : EventHandlerRegistry) : gmap (Z * list byte) HandlerInfo :=
  abs_entries (live r).

(** ** Invariants *)

Record wf_entry (e : EventHandlerEntry) : Prop := {
  we_cmd : 0 <= eh_cmd_type e < MGMT_CMD_MAX;
  we_name : terminated (eh_module_name e);
  we_len : length (eh_module_name e) = MGMT_MODULE_NAME_SIZE;
  we_handler : eh_handler e <> 0;
  we_count : in_u 32 (eh_invocation_count e);
  we_latency : in_u 64 (eh_total_latency_us e) }.

(** The invariant of an initialized registry between operations. *)
Record reg_wf (r : EventHandlerRegistry) : Prop := {
  rw_len : length (entries r) = MAX_EVENT_HANDLERS;
  rw_count : 0 <= entry_count r <= Z.of_nat MAX_EVENT_HANDLERS;
  rw_lock : lock r = MtxFree;
  rw_names : Forall (fun e => length (eh_module_name e) = MGMT_MODULE_NAME_SIZE) (entries r);
  rw_live : Forall wf_entry (live r);
  rw_dispatches : in_u 32 (total_dispatches r);
  rw_failures : in_u 32 (total_failures r) }.

(** No two entries in use have the same key. *)
Definition reg_unique (r : EventHandlerRegistry) : Prop :=
  NoDup (entry_key <$> live r).

(** * Lemmas *)

(** ** The scan *)

(** A name argument that can be compared with a registered name: a terminated
    string, or a whole 64-byte field as it comes from the wire. *)
Definition name_arg (name : list byte) : Prop :=
  terminated name \/ (MGMT_MODULE_NAME_SIZE <= length name)%nat.

Definition matches (e : EventHandlerEntry) (cmd : Z) (name : list byte) : Prop :=
  eh_cmd_type e = cmd /\ cstring name = Some (entry_name e).

Lemma wf_entry_name e : wf_entry e -> cstring (eh_module_name e) = Some (entry_name e).
Proof. intros [_ [s Hs] _ _ _ _]. unfold entry_name. by rewrite Hs. Qed.

Lemma entry_name_length e : wf_entry e -> (length (entry_name e) < MGMT_MODULE_NAME_SIZE)%nat.
Proof.
  intros He. rewrite <- (we_len e He). eapply cstring_length. by apply wf_entry_name.
Qed.

Lemma strcmp_entry e name :
  wf_entry e -> name_arg name ->
  exists b, strcmp_eq (eh_module_name e) name = Some b /\
            (b = true <-> cstring name = Some (entry_name e)).
Proof.
  intros He Hn. pose proof (wf_entry_name e He) as Hs.
  assert (is_Some (strcmp_eq (eh_module_name e) name)) as [b Hb].
  { destruct Hn as [[s Hn]|Hn].
    - erewrite strcmp_eq_cstring by done. by eexists.
    - eapply strcmp_eq_safe; [done|]. pose proof (entry_name_length e He). lia. }
  exists b. split; [done|]. rewrite <- (strcmp_eq_true _ name _ Hs), Hb.
  split; [by intros ->|by intros [= ->]].
Qed.

Definition found (es : list EventHandlerEntry) (cmd : Z) (name : list byte)
    (o : option nat) : Prop :=
  match o with
  | Some i => exists e, es !! i = Some e /\ matches e cmd name /\
      forall j e', (j < i)%nat -> es !! j = Some e' -> ~ matches e' cmd name
  | None => forall e, e ∈ es -> ~ matches e cmd name
  end.

Lemma found_cons_no e es cmd name o :
  ~ matches e cmd name -> found es cmd name o -> found (e :: es) cmd name (option_map S o).
Proof.
  intros Hno. destruct o as [i|]; cbn.
  - intros (e' & ? & ? & Hlt). exists e'. split; [done|]. split; [done|].
    intros [|j] e'' Hj; cbn; [by intros [= <-]|]. apply Hlt. lia.
  - intros H e' [->|?]%elem_of_cons; auto.
Qed.

Lemma find_entry_spec es cmd name :
  Forall wf_entry es -> name_arg name ->
  exists o, find_entry es cmd name = Some o /\ found es cmd name o.
Proof.
  intros Hes Hn. induction Hes as [|e es He Hes IH]; cbn [find_entry].
  - exists None. split; [done|]. intros e He%not_elem_of_nil. done.
  - destruct IH as (o & -> & Ho). cbn [mbind option_bind].
    destruct (eh_cmd_type e =? cmd) eqn:Ec; tests.
    + destruct (strcmp_entry e name He Hn) as (b & -> & Hb). cbn [mbind option_bind].
      destruct b.
      * exists (Some 0%nat). split; [done|]. exists e. split; [done|].
        split; [split; [done|by apply Hb]|]. intros j e' Hj. lia.
      * eexists; split; [done|]. apply found_cons_no; [|done].
        intros [_ H%Hb]. done.
    + eexists; split; [done|]. apply found_cons_no; [|done]. by intros [? _].
Qed.

Lemma find_entry_none_arg es cmd name o :
  find_entry es cmd name = Some o -> found es cmd name o -> forall i, o = Some i ->
  (i < length es)%nat.
Proof. intros _ H i ->. destruct H as (e & He & _). by eapply lookup_lt_Some. Qed.

(** ** Live entries *)

Lemma length_live r : reg_wf r -> length (live r) = Z.to_nat (entry_count r).
Proof.
  intros []. unfold live. rewrite length_take. unfold MAX_EVENT_HANDLERS in *. lia.
Qed.

Lemma live_lookup r i e :
  live r !! i = Some e -> entries r !! i = Some e /\ (i < Z.to_nat (entry_count r))%nat.
Proof. unfold live. intros [? ?]%lookup_take_Some. done. Qed.

Lemma live_insert r i e :
  (i < Z.to_nat (entry_count r))%nat ->
  live (set_entries r (<[i:=e]> (entries r)) (entry_count r)) = <[i:=e]> (live r).
Proof. intros. unfold live. cbn. by rewrite take_insert_lt. Qed.

Lemma live_lock r r' : reg_lock r = Some r' -> live r' = live r.
Proof. unfold reg_lock. intros (? & _ & [= <-])%bind_Some. done. Qed.

(** The registry an operation starts from, with the lock taken. *)
Definition locked (r : EventHandlerRegistry) : EventHandlerRegistry :=
  mkRegistry (entries r) (entry_count r) MtxHeld (total_dispatches r) (total_failures r).

Definition unlocked (r : EventHandlerRegistry) : EventHandlerRegistry :=
  mkRegistry (entries r) (entry_count r) MtxFree (total_dispatches r) (total_failures r).

Lemma reg_lock_wf r : reg_wf r -> reg_lock r = Some (locked r).
Proof. intros []. unfold reg_lock. by rewrite rw_lock0. Qed.

Lemma reg_unlock_held r : lock r = MtxHeld -> reg_unlock r = Some (unlocked r).
Proof. intros E. unfold reg_unlock. by rewrite E. Qed.

Lemma unlocked_locked r : lock r = MtxFree -> unlocked (locked r) = r.
Proof. destruct r; cbn. by intros ->. Qed.

(** The scan of a well-formed registry, as every operation performs it. *)
Lemma find_live r cmd name :
  reg_wf r -> name_arg name ->
  exists o, find_entry (live (locked r)) cmd name = Some o /\ found (live r) cmd name o.
Proof. intros []. by apply find_entry_spec. Qed.

(** ** The abstraction *)

Lemma abs_entries_cons e es :
  abs_entries (e :: es) = <[entry_key e := entry_info e]> (abs_entries es).
Proof. done. Qed.

Lemma abs_entries_snoc es e :
  entry_key e ∉ entry_key <$> es ->
  abs_entries (es ++ [e]) = <[entry_key e := entry_info e]> (abs_entries es).
Proof.
  intros Hk. unfold abs_entries. rewrite fmap_app. cbn.
  apply list_to_map_snoc. by rewrite <- list_fmap_compose.
Qed.

(** Changing the first entry of a key in place. *)
Lemma abs_entries_insert es i e e' :
  es !! i = Some e -> entry_key e' = entry_key e ->
  (forall j e'', (j < i)%nat -> es !! j = Some e'' -> entry_key e'' <> entry_key e) ->
  abs_entries (<[i:=e']> es) = <[entry_key e := entry_info e']> (abs_entries es).
Proof.
  revert i; induction es as [|e0 es IH]; intros [|i] Hi Hk Hlt; try done.
  - cbn in Hi. injection Hi as ->. cbn [insert list_insert].
    rewrite !abs_entries_cons, Hk. by rewrite insert_insert_eq.
  - cbn in Hi. change (<[S i:=e']> (e0 :: es)) with (e0 :: <[i:=e']> es).
    rewrite !abs_entries_cons.
    rewrite (IH i) by (eauto || (intros j e'' ??; apply (Hlt (S j)); [lia|done])).
    apply insert_insert_ne. intros E. by apply (Hlt 0%nat e0); [lia|done|].
Qed.

Lemma abs_entries_not_in es k : k ∉ entry_key <$> es <-> abs_entries es !! k = None.
Proof.
  unfold abs_entries. rewrite <- not_elem_of_list_to_map. by rewrite <- list_fmap_compose.
Qed.

Lemma abs_entries_lookup es i e :
  es !! i = Some e ->
  (forall j e'', (j < i)%nat -> es !! j = Some e'' -> entry_key e'' <> entry_key e) ->
  abs_entries es !! entry_key e = Some (entry_info e).
Proof.
  revert i; induction es as [|e0 es IH]; intros [|i] Hi Hlt; try done; cbn in Hi.
  - injection Hi as ->. rewrite abs_entries_cons. apply lookup_insert_eq.
  - rewrite abs_entries_cons, lookup_insert_ne.
    + apply (IH i); [done|]. intros j e'' ??. apply (Hlt (S j)); [lia|done].
    + apply (Hlt 0%nat); [lia|done].
Qed.

Lemma abs_entries_delete l1 e l2 :
  entry_key e ∉ entry_key <$> l1 -> entry_key e ∉ entry_key <$> l2 ->
  abs_entries (l1 ++ l2) = delete (entry_key e) (abs_entries (l1 ++ e :: l2)).
Proof.
  intros H1 H2. induction l1 as [|e0 l1 IH]; cbn [app].
  - rewrite abs_entries_cons, delete_insert_id; [done|]. by apply abs_entries_not_in.
  - rewrite fmap_cons, not_elem_of_cons in H1. destruct H1 as [? H1].
    rewrite !abs_entries_cons, delete_insert_ne by congruence. by rewrite IH.
Qed.

Lemma size_abs_entries es : NoDup (entry_key <$> es) -> size (abs_entries es) = length es.
Proof.
  induction es as [|e es IH]; [intros _; apply map_size_empty|]. rewrite fmap_cons.
  intros [??]%NoDup_cons. rewrite abs_entries_cons, map_size_insert_None;
    [cbn; by rewrite IH|by apply abs_entries_not_in].
Qed.

(** ** Effects of the operations *)

Lemma shift_entries_spec es j n :
  (j + n < length es)%nat ->
  exists es', shift_entries es j n = Some es' /\ length es' = length es /\
    take (j + n) es' = take j es ++ take n (drop (S j) es) /\
    forall P, Forall P es -> Forall P es'.
Proof.
  revert es j; induction n as [|n IH]; intros es j Hl; cbn [shift_entries].
  - exists es. rewrite Nat.add_0_r. cbn. by rewrite app_nil_r.
  - destruct (lookup_lt_is_Some_2 es (S j)) as [e He]; [lia|]. rewrite He.
    cbn [mbind option_bind].
    destruct (IH (<[j:=e]> es) (S j)) as (es' & -> & Hlen & Htake & HF).
    { rewrite length_insert. lia. }
    exists es'. split; [done|]. rewrite length_insert in Hlen. split; [done|]. split.
    + replace (j + S n)%nat with (S j + n)%nat by lia. rewrite Htake.
      rewrite take_insert_app by lia. rewrite drop_insert_lt by lia.
      rewrite (drop_S es e (S j)) by done. cbn. by rewrite <- app_assoc.
    + intros P HP. apply HF. apply Forall_insert; [done|].
      eapply Forall_lookup_1; done.
Qed.

Lemma matches_key e cmd name s :
  cstring name = Some s -> matches e cmd name <-> entry_key e = (cmd, s).
Proof.
  intros Hs. unfold matches, entry_key. rewrite Hs. split.
  - by intros [-> [= ->]].
  - by intros [= -> ->].
Qed.

(** The scan by key, for a terminated name. *)
Definition found_key (es : list EventHandlerEntry) (k : key) (o : option nat) : Prop :=
  match o with
  | Some i => exists e, es !! i = Some e /\ entry_key e = k /\
      forall j e', (j < i)%nat -> es !! j = Some e' -> entry_key e' <> k
  | None => k ∉ entry_key <$> es
  end.

Lemma found_by_key es cmd name s o :
  cstring name = Some s -> found es cmd name o -> found_key es (cmd, s) o.
Proof.
  intros Hs. destruct o as [i|]; cbn.
  - intros (e & He & Hm & Hlt). exists e. split; [done|].
    split; [by apply (matches_key e cmd name s)|].
    intros j e' Hj He' Hk. by apply (Hlt j e' Hj He'), (matches_key e' cmd name s).
  - intros H (e & E & He)%list_elem_of_fmap. apply (H e He).
    by apply (matches_key e cmd name s).
Qed.

Lemma reg_wf_update r i e e' :
  reg_wf r -> live r !! i = Some e -> wf_entry e' ->
  reg_wf (set_entries r (<[i:=e']> (entries r)) (entry_count r)).
Proof.
  intros [] Hi He'. destruct (live_lookup _ _ _ Hi) as [? ?].
  split; cbn [set_entries entries entry_count lock total_dispatches total_failures]; try done.
  - by rewrite length_insert.
  - apply Forall_insert; [done|]. apply (we_len _ He').
  - rewrite live_insert by done. by apply Forall_insert.
Qed.

Lemma live_append r e :
  reg_wf r -> entry_count r < Z.of_nat MAX_EVENT_HANDLERS ->
  live (set_entries r (<[Z.to_nat (entry_count r):=e]> (entries r)) (entry_count r + 1))
  = live r ++ [e].
Proof.
  intros [] Hc. unfold live. cbn.
  replace (Z.to_nat (entry_count r + 1)) with (S (Z.to_nat (entry_count r))) by lia.
  apply take_insert_app. lia.
Qed.

Lemma reg_wf_append r e :
  reg_wf r -> entry_count r < Z.of_nat MAX_EVENT_HANDLERS -> wf_entry e ->
  reg_wf (set_entries r (<[Z.to_nat (entry_count r):=e]> (entries r)) (entry_count r + 1)).
Proof.
  intros Hr Hc He. pose proof (live_append r e Hr Hc) as Hl. destruct Hr.
  split; cbn [set_entries entries entry_count lock total_dispatches total_failures]; try done.
  - by rewrite length_insert.
  - lia.
  - apply Forall_insert; [done|]. apply (we_len _ He).
  - rewrite Hl. apply Forall_app; auto.
Qed.

Lemma wf_new_entry cmd n h c :
  0 <= cmd < MGMT_CMD_MAX -> terminated n -> length n = MGMT_MODULE_NAME_SIZE -> h <> 0 ->
  wf_entry (mkEntry cmd n h c 0 0).
Proof. intros. split; cbn; done. Qed.

(** Releasing the lock after a change of the entries. *)
Lemma unlocked_set_entries r es n :
  reg_wf r -> unlocked (set_entries (locked r) es n) = set_entries r es n.
Proof. intros Hr. unfold unlocked, set_entries; cbn. by rewrite (rw_lock _ Hr). Qed.

Section register.
Context (r : EventHandlerRegistry) (Hr : reg_wf r).
Context (name s : list byte) (Hs : cstring name = Some s).
Context (cmd h c : Z) (Hh : h <> 0) (Hc : 0 <= cmd < MGMT_CMD_MAX).

(** The three outcomes: the first entry of the key is updated, an entry is
    appended, or the registry is full. *)
Definition reg_updated (ret : Z) (r' : EventHandlerRegistry) : Prop :=
  exists i e, live r !! i = Some e /\ found_key (live r) (cmd, s) (Some i) /\ ret = 0 /\
    live r' = <[i := mkEntry cmd (eh_module_name e) h c 0 0]> (live r).

Definition reg_appended (ret : Z) (r' : EventHandlerRegistry) : Prop :=
  ((cmd, s) ∉ (entry_key <$> live r)) /\ entry_count r < Z.of_nat MAX_EVENT_HANDLERS /\
  ret = 0 /\ exists n, cstring n = Some (take 63 s) /\
    live r' = live r ++ [mkEntry cmd n h c 0 0].

Definition reg_full (ret : Z) (r' : EventHandlerRegistry) : Prop :=
  ((cmd, s) ∉ (entry_key <$> live r)) /\ entry_count r = Z.of_nat MAX_EVENT_HANDLERS /\
  ret = -1 /\ r' = r.

Lemma register_update_wf i e :
  live r !! i = Some e -> eh_cmd_type e = cmd ->
  reg_wf (set_entries r (<[i := mkEntry cmd (eh_module_name e) h c 0 0]> (entries r))
            (entry_count r)).
Proof.
  intros Hi Ec. pose proof (proj1 (Forall_lookup _ _) (rw_live _ Hr) _ _ Hi) as We.
  eapply reg_wf_update; [done|done|]. apply wf_new_entry; [done|apply We|apply We|done].
Qed.

(** The name field of the slot behind the entries in use, once overwritten. *)
Lemma new_slot :
  entry_count r < Z.of_nat MAX_EVENT_HANDLERS ->
  exists e d n, entries r !! Z.to_nat (entry_count r) = Some e /\
    strncpy (eh_module_name e) name (MGMT_MODULE_NAME_SIZE - 1) = Some d /\
    store d (MGMT_MODULE_NAME_SIZE - 1) x00 = Some n /\
    cstring n = Some (take 63 s) /\ length n = MGMT_MODULE_NAME_SIZE.
Proof.
  intros E. destruct (lookup_lt_is_Some_2 (entries r) (Z.to_nat (entry_count r))) as [e He].
  { rewrite (rw_len _ Hr). pose proof (rw_count _ Hr). lia. }
  destruct (strncpy_store_cstring (eh_module_name e) name s 63 Hs)
    as (d & n & Hd & Hn & Hcs & Hln).
  { by apply (proj1 (Forall_lookup _ _) (rw_names _ Hr) _ _ He). }
  by exists e, d, n.
Qed.

Lemma handler_register_effect :
  exists ret r', handler_register r (Some name) cmd h c = Some (ret, r') /\ reg_wf r' /\
    total_dispatches r' = total_dispatches r /\ total_failures r' = total_failures r /\
    (reg_updated ret r' \/ reg_appended ret r' \/ reg_full ret r').
Proof.
  unfold handler_register.
  rewrite (proj2 (Z.eqb_neq h 0)), (proj2 (Z.leb_gt _ cmd)) by lia. cbn [orb].
  rewrite reg_lock_wf by done. cbn [mbind option_bind].
  destruct (find_live r cmd name Hr) as (o & -> & Ho); [left; by eexists|].
  apply (found_by_key _ _ _ _ _ Hs) in Ho. cbn [mbind option_bind locked entries entry_count].
  destruct o as [i|].
  - destruct Ho as (e & Hi & Hk & Hlt). destruct (live_lookup _ _ _ Hi) as [He ?].
    assert (eh_cmd_type e = cmd) as Ecmd by by injection Hk.
    rewrite He. cbn [mbind option_bind].
    rewrite reg_unlock_held, unlocked_set_entries, Ecmd by done.
    cbn [mbind option_bind]. eexists _, _; split; [done|].
    split; [by apply register_update_wf|]. do 2 (split; [done|]).
    left. exists i, e. rewrite live_insert by done. split; [done|].
    split; [|done]. exists e. auto.
  - destruct (Z.of_nat MAX_EVENT_HANDLERS <=? entry_count r) eqn:E; tests.
    + rewrite reg_unlock_held, unlocked_locked by (done || apply Hr).
      cbn [mbind option_bind]. eexists _, _; split; [done|]. do 3 (split; [done|]).
      right; right. pose proof (rw_count _ Hr). repeat split; [done|lia].
    + destruct (new_slot E) as (e & d & n & -> & Hd & Hn & Hcs & Hln).
      cbn [mbind option_bind]. rewrite Hd. cbn [mbind option_bind]. rewrite Hn.
      cbn [mbind option_bind]. rewrite reg_unlock_held, unlocked_set_entries by done.
      cbn [mbind option_bind]. eexists _, _; split; [done|].
      split; [apply reg_wf_append; [done..|apply wf_new_entry; [done|by eexists|done|done]]|].
      do 2 (split; [done|]). right; left. do 3 (split; [done|]).
      exists n. split; [done|]. by apply live_append.
Qed.
End register.

(** What [handler_unregister] does: the first entry of the key is removed, the
    later ones move down, or nothing changes. *)
Lemma handler_unregister_effect r name s cmd :
  reg_wf r -> cstring name = Some s ->
  exists ret r', handler_unregister r (Some name) cmd = Some (ret, r') /\ reg_wf r' /\
    total_dispatches r' = total_dispatches r /\ total_failures r' = total_failures r /\
    ( (exists l1 e l2, live r = l1 ++ e :: l2 /\ entry_key e = (cmd, s) /\
         ((cmd, s) ∉ (entry_key <$> l1)) /\ ret = 0 /\ live r' = l1 ++ l2)
    \/ (((cmd, s) ∉ (entry_key <$> live r)) /\ ret = -1 /\ r' = r)).
Proof.
  intros Hr Hs. unfold handler_unregister. rewrite reg_lock_wf by done.
  cbn [mbind option_bind].
  destruct (find_live r cmd name Hr) as (o & -> & Ho); [left; by eexists|].
  apply (found_by_key _ _ _ _ _ Hs) in Ho. cbn [mbind option_bind locked entries entry_count].
  destruct o as [i|].
  - destruct Ho as (e & Hi & Hk & Hlt). destruct (live_lookup _ _ _ Hi) as [He Hic].
    pose proof (rw_count _ Hr). pose proof (rw_len _ Hr).
    destruct (shift_entries_spec (entries r) i (Z.to_nat (entry_count r - 1 - Z.of_nat i)))
      as (es' & -> & Hlen & Htake & HF); [lia|].
    cbn [mbind option_bind]. rewrite reg_unlock_held, unlocked_set_entries by done.
    cbn [mbind option_bind]. eexists _, _; split; [done|].
    assert (live (set_entries r es' (entry_count r - 1)) = take i (live r) ++ drop (S i) (live r))
      as Hlive.
    { unfold live. cbn. rewrite take_take, skipn_firstn_comm, Nat.min_l by lia.
      replace (Z.to_nat (entry_count r - 1)) with
        (i + Z.to_nat (entry_count r - 1 - Z.of_nat i))%nat by lia.
      rewrite Htake. do 2 f_equal. lia. }
    split; [|split; [done|split; [done|left]]].
    + split; cbn [set_entries entries entry_count lock total_dispatches total_failures];
        try apply Hr; [lia|lia|apply HF, Hr|].
      rewrite Hlive. apply Forall_app. split; [apply Forall_take|apply Forall_drop]; apply Hr.
    + exists (take i (live r)), e, (drop (S i) (live r)).
      split; [by rewrite take_drop_middle|]. split; [done|]. split; [|by rewrite Hlive].
      intros (e' & E & (j & Hj)%list_elem_of_lookup)%list_elem_of_fmap.
      apply lookup_take_Some in Hj as [Hj ?]. by apply (Hlt j e').
  - rewrite reg_unlock_held, unlocked_locked by (done || apply Hr).
    cbn [mbind option_bind]. eexists _, _; split; [done|]. do 3 (split; [done|]). by right.
Qed.

(** ** Dispatch *)

(** The response handed to the handler: request identifier and time echoed. *)
Definition echo (q : MgmtCommandRequest) (p : MgmtCommandResponse) (sm : list byte)
    : MgmtCommandResponse :=
  mkResponse (rq_request_id q) (rs_result_code p) (rs_reserved p) (rq_timestamp q)
    (rs_response_timestamp p) sm (rs_payload p).

(** The result code after a handler returned [res]. *)
Definition conclude (res : Z) (p : MgmtCommandResponse) : MgmtCommandResponse :=
  if res =? 0 then p else set_result_code p MGMT_RESULT_HANDLER_FAILED.

Lemma conclude_spec res p :
  (if negb (res =? 0) then set_result_code p MGMT_RESULT_HANDLER_FAILED
   else if rs_result_code p =? 0 then set_result_code p MGMT_RESULT_OK else p)
  = conclude res p.
Proof.
  unfold conclude. destruct (res =? 0); cbn; [|done].
  destruct (rs_result_code p =? 0) eqn:E; tests; [|done].
  destruct p; cbn in *. by rewrite E.
Qed.

Definition bump (e : EventHandlerEntry) (latency : Z) : EventHandlerEntry :=
  mkEntry (eh_cmd_type e) (eh_module_name e) (eh_handler e) (eh_context e)
    (u32 (eh_invocation_count e + 1)) (u64 (eh_total_latency_us e + latency)).

Lemma wf_bump e l : wf_entry e -> wf_entry (bump e l).
Proof.
  intros []. split; cbn; try done; apply wrap_range; lia.
Qed.

(** The registry after the statistics of a dispatch to entry [i]. *)
Definition counted (r : EventHandlerRegistry) (i : nat) (e : EventHandlerEntry)
    (res latency : Z) : EventHandlerRegistry :=
  set_totals (set_entries r (<[i := bump e latency]> (entries r)) (entry_count r))
    (u32 (total_dispatches r + 1))
    (if res =? 0 then total_failures r else u32 (total_failures r + 1)).

Lemma reg_wf_counted r i e res latency :
  reg_wf r -> live r !! i = Some e -> reg_wf (counted r i e res latency).
Proof.
  intros Hr Hi. pose proof (proj1 (Forall_lookup _ _) (rw_live _ Hr) _ _ Hi) as We.
  destruct (reg_wf_update r i e (bump e latency) Hr Hi (wf_bump _ _ We)).
  split; cbn in *; try done; [apply wrap_range; lia|].
  destruct (res =? 0); [apply Hr|apply wrap_range; lia].
Qed.

(** The handlers and contexts of the entries in use. *)
Definition handler_ptrs (r : EventHandlerRegistry) : list (Z * Z) :=
  (fun e => (eh_handler e, eh_context e)) <$> live r.

Lemma handler_ptrs_counted r i e res latency :
  live r !! i = Some e -> handler_ptrs (counted r i e res latency) = handler_ptrs r.
Proof.
  intros Hi. destruct (live_lookup _ _ _ Hi) as [_ ?]. unfold handler_ptrs, counted.
  change (live (set_totals ?r _ _)) with (live r). rewrite live_insert by done.
  rewrite list_fmap_insert. apply list_insert_id. by rewrite list_lookup_fmap, Hi.
Qed.

(** The statistics go to the slot of the entry, in use or not. *)
Lemma dispatch_finish_slot r i e res p :
  reg_wf r -> entries r !! i = Some e ->
  dispatch_finish r i res p =
    Some (res, conclude res p,
          counted r i e res (mgmt_response_latency_us (Some (conclude res p)))).
Proof.
  intros Hr He. unfold dispatch_finish. rewrite reg_lock_wf by done.
  cbn [mbind option_bind locked entries]. rewrite He. cbn [mbind option_bind].
  rewrite conclude_spec, reg_unlock_held by done. cbn [mbind option_bind].
  unfold counted, unlocked, set_totals, set_entries, bump. cbn. rewrite (rw_lock _ Hr).
  by destruct (res =? 0).
Qed.

Lemma dispatch_finish_effect r i e res p :
  reg_wf r -> live r !! i = Some e ->
  dispatch_finish r i res p =
    Some (res, conclude res p,
          counted r i e res (mgmt_response_latency_us (Some (conclude res p)))).
Proof. intros Hr Hi. apply dispatch_finish_slot; [done|]. by destruct (live_lookup _ _ _ Hi). Qed.

(** The three outcomes of the lookup. *)
Lemma dispatch_lookup_effect r q p :
  reg_wf r -> length (rq_target_module q) = MGMT_MODULE_NAME_SIZE ->
  length (rs_source_module p) = MGMT_MODULE_NAME_SIZE ->
  if mgmt_request_validate (Some q) =? 0 then
    dispatch_lookup r (Some q) (Some p) =
      Some (DispatchReturn (-3) (Some (set_result_code p MGMT_RESULT_INVALID_CMD)), r)
  else
    (exists i sm, found (live r) (rq_cmd_type q) (rq_target_module q) (Some i) /\
       length sm = MGMT_MODULE_NAME_SIZE /\
       dispatch_lookup r (Some q) (Some p) = Some (DispatchInvoke i q (echo q p sm), r)) \/
    (found (live r) (rq_cmd_type q) (rq_target_module q) None /\
     dispatch_lookup r (Some q) (Some p) =
       Some (DispatchReturn (-1) (Some (set_result_code p MGMT_RESULT_MODULE_NOT_FOUND)), r)).
Proof.
  intros Hr Hq Hp. unfold dispatch_lookup.
  destruct (mgmt_request_validate (Some q) =? 0); [done|].
  rewrite reg_lock_wf by done. cbn [mbind option_bind].
  destruct (find_live r (rq_cmd_type q) (rq_target_module q) Hr) as (o & -> & Ho);
    [right; lia|]. cbn [mbind option_bind].
  destruct o as [i|]; [left|right; split; [done|]].
  - destruct (strncpy_bytes_safe (rq_target_module q) (MGMT_MODULE_NAME_SIZE - 1)) as [w Hw].
    { right. unfold MGMT_MODULE_NAME_SIZE in *. lia. }
    assert (is_Some (strncpy (rs_source_module p) (rq_target_module q)
              (MGMT_MODULE_NAME_SIZE - 1))) as [sm Hsm].
    { unfold strncpy. rewrite Hw. cbn [mbind option_bind].
      rewrite (proj2 (Nat.leb_le _ _)) by lia. by eexists. }
    exists i, sm. split; [done|]. split; [by rewrite (strncpy_length _ _ _ _ Hsm)|].
    rewrite Hsm. cbn [mbind option_bind].
    by rewrite reg_unlock_held, unlocked_locked by (done || apply Hr).
  - by rewrite reg_unlock_held, unlocked_locked by (done || apply Hr).
Qed.

Lemma found_abs r cmd name s o :
  cstring name = Some s -> found (live r) cmd name o ->
  match o with
  | Some i => exists e, live r !! i = Some e /\ entry_key e = (cmd, s) /\
      abs r !! (cmd, s) = Some (entry_info e) /\
      forall e', entry_key e' = (cmd, s) ->
        abs_entries (<[i:=e']> (live r)) = <[(cmd, s) := entry_info e']> (abs r)
  | None => abs r !! (cmd, s) = None
  end.
Proof.
  intros Hs Ho%(found_by_key _ _ _ _ _ Hs). destruct o as [i|].
  - destruct Ho as (e & Hi & Hk & Hlt). exists e. split; [done|]. split; [done|].
    rewrite <- Hk in Hlt |- *. split; [by eapply abs_entries_lookup|].
    intros e' He'. by eapply abs_entries_insert.
  - by apply abs_entries_not_in.
Qed.

(** ** Listing *)

Lemma list_entries_safe es first buf off :
  Forall wf_entry es -> Z.of_nat (length buf) <= INT_MAX ->
  0 <= off <= Z.of_nat (length buf) -> (first = false -> off < Z.of_nat (length buf) - 1) ->
  exists full b off', list_entries es first buf (Z.of_nat (length buf)) off
      = Some (full, b, off') /\ length b = length buf /\
    (full = false -> 0 <= off' <= Z.of_nat (length buf)).
Proof.
  unfold INT_MAX. revert first buf off.
  induction es as [|e es IH]; intros first buf off Hes Hb Ho Hf; cbn [list_entries].
  { exists false, buf, off. auto. }
  apply Forall_cons in Hes as [He Hes].
  assert (exists b1 off1, (if first then Some (buf, off)
            else append buf (Z.of_nat (length buf)) off (bs ",")) = Some (b1, off1) /\
            length b1 = length buf /\ 0 <= off1 <= Z.of_nat (length buf))
    as (b1 & off1 & -> & Hl1 & Ho1).
  { destruct first; [by exists buf, off|].
    destruct (append_safe buf off (bs ",")) as (b1 & -> & ?); [lia|lia|].
    specialize (Hf eq_refl). exists b1. eexists; split; [done|]. cbn. lia. }
  cbn [mbind option_bind]. rewrite (wf_entry_name e He). cbn [mbind option_bind].
  rewrite <- Hl1.
  destruct (append_safe b1 off1 (entry_text e (entry_name e))) as (b2 & -> & Hl2); [lia|lia|].
  cbn [mbind option_bind]. rewrite swrap_id by (unfold in_s; lia).
  case_match; tests.
  - exists true, b2. eexists; split; [done|]. split; [lia|done].
  - rewrite <- Hl2. apply IH; [done|lia|lia|lia].
Qed.

(** The text of the listing. *)
Fixpoint list_body (es : list EventHandlerEntry) (first : bool) : list byte :=
  match es with
  | [] => []
  | e :: es' => (if first then [] else bs ",") ++ entry_text e (entry_name e) ++
                list_body es' false
  end.

Definition handlers_json (r : EventHandlerRegistry) : list byte :=
  list_header ++ list_body (live r) true ++ list_footer r.

Lemma list_entries_text es first buf s tail :
  Forall wf_entry es -> holds buf s -> Z.of_nat (length buf) <= INT_MAX ->
  (0 < length tail)%nat -> (length (s ++ list_body es first ++ tail) < length buf)%nat ->
  exists b, list_entries es first buf (Z.of_nat (length buf)) (Z.of_nat (length s))
      = Some (false, b, Z.of_nat (length (s ++ list_body es first)))
    /\ holds b (s ++ list_body es first) /\ length b = length buf.
Proof.
  revert first buf s; induction es as [|e es IH];
    intros first buf s Hes Hs Hb Ht Hl; cbn [list_entries list_body] in *.
  { exists buf. by rewrite app_nil_r. }
  apply Forall_cons in Hes as [He Hes]. rewrite !length_app in Hl.
  set (sep := if first then [] else bs ",") in *.
  assert (exists b1, (if first then Some (buf, Z.of_nat (length s))
            else append buf (Z.of_nat (length buf)) (Z.of_nat (length s)) (bs ","))
            = Some (b1, Z.of_nat (length (s ++ sep))) /\
            holds b1 (s ++ sep) /\ length b1 = length buf)
    as (b1 & -> & Hh1 & Hl1).
  { destruct first; unfold sep in *; [exists buf; by rewrite app_nil_r|].
    apply append_to; [by left| |done]. rewrite length_app. lia. }
  cbn [mbind option_bind]. rewrite (wf_entry_name e He). cbn [mbind option_bind].
  rewrite <- Hl1 in *.
  destruct (append_to b1 (s ++ sep) (entry_text e (entry_name e))) as (b2 & -> & Hh2 & Hl2);
    [by left|rewrite !length_app; lia|done|].
  cbn [mbind option_bind]. rewrite swrap_id by (unfold in_s, INT_MAX in *; lia).
  rewrite (proj2 (Z.leb_gt _ _)) by (rewrite !length_app; lia).
  rewrite <- Hl2 in *.
  destruct (IH false b2 ((s ++ sep) ++ entry_text e (entry_name e))) as (b & -> & Hh & Hlb);
    [done|done|done|done|rewrite !length_app; lia|].
  exists b. rewrite <- !app_assoc in *. done.
Qed.

(** ** The registry after initialization, and with one entry *)

Definition empty_registry : EventHandlerRegistry :=
  mkRegistry (replicate MAX_EVENT_HANDLERS zero_entry) 0 MtxFree 0 0.

Lemma Forall_zero_entries :
  Forall (fun e => length (eh_module_name e) = MGMT_MODULE_NAME_SIZE)
    (replicate MAX_EVENT_HANDLERS zero_entry).
Proof. by apply Forall_replicate. Qed.

Lemma reg_wf_cleared es :
  length es = MAX_EVENT_HANDLERS ->
  Forall (fun e => length (eh_module_name e) = MGMT_MODULE_NAME_SIZE) es ->
  reg_wf (mkRegistry es 0 MtxFree 0 0).
Proof. intros. split; cbn; try done; try lia; constructor. Qed.

Lemma reg_wf_empty : reg_wf empty_registry.
Proof. apply reg_wf_cleared; [done|apply Forall_zero_entries]. Qed.

Definition demo_entry : EventHandlerEntry :=
  mkEntry MGMT_CMD_PING (lit "router" ++ zeros 57) 4096 8192 0 0.

Definition demo_registry : EventHandlerRegistry :=
  set_entries empty_registry (<[0%nat := demo_entry]> (entries empty_registry)) 1.

Lemma reg_wf_demo : reg_wf demo_registry.
Proof.
  apply (reg_wf_append empty_registry demo_entry); [apply reg_wf_empty|done|].
  apply wf_new_entry; [split; by vm_compute|by eexists|done|done].
Qed.

(** ** Transitions *)

Section steps.
Context {W : Type}.
Variable invoke : Z -> Z -> MgmtCommandRequest -> MgmtCommandResponse -> W ->
  option (Z * MgmtCommandResponse * W).

(** One call of a registry function, with arguments its C contract allows. *)
Inductive reg_step : EventHandlerRegistry -> EventHandlerRegistry -> Prop :=
| step_register r r' name cmd h c ret :
    terminated name -> in_u 8 cmd ->
    handler_register r (Some name) cmd h c = Some (ret, r') -> reg_step r r'
| step_unregister r r' name cmd ret :
    terminated name -> handler_unregister r (Some name) cmd = Some (ret, r') -> reg_step r r'
| step_dispatch r r' q p p' w w' ret :
    wf_request q -> wf_response p ->
    handler_dispatch invoke r w (Some q) (Some p) = Some (ret, p', r', w') -> reg_step r r'
| step_list r r' buf size b ret :
    handler_list r buf size = Some (ret, b, r') -> reg_step r r'
| step_stats r r' a b o ret :
    handler_stats r a b = Some (ret, o, r') -> reg_step r r'
| step_reset r r' ret : handler_stats_reset r = Some (ret, r') -> reg_step r r'.

Lemma reg_wf_register r r' name cmd h c ret :
  reg_wf r -> terminated name -> in_u 8 cmd ->
  handler_register r (Some name) cmd h c = Some (ret, r') -> reg_wf r'.
Proof.
  intros Hr [s Hs] Hc H. destruct ((h =? 0) || (MGMT_CMD_MAX <=? cmd)) eqn:E.
  - unfold handler_register in H. rewrite E in H. by simplify_eq.
  - tests. destruct (handler_register_effect r Hr name s Hs cmd h c) as (x & y & H' & ? & _);
      [done|unfold in_u in Hc; lia|]. rewrite H' in H. by simplify_eq.
Qed.

Lemma reg_wf_dispatch r r' q p p' w w' ret :
  reg_wf r -> wf_request q -> wf_response p ->
  handler_dispatch invoke r w (Some q) (Some p) = Some (ret, p', r', w') -> reg_wf r'.
Proof.
  intros Hr Hq Hp H. unfold handler_dispatch in H.
  pose proof (dispatch_lookup_effect r q p Hr (wq_module _ Hq) (ws_module _ Hp)) as Hl.
  destruct (mgmt_request_validate (Some q) =? 0).
  { rewrite Hl in H. cbn in H. by simplify_eq. }
  destruct Hl as [(i & sm & (e & Hi & _) & _ & Hl)|[_ Hl]]; rewrite Hl in H; cbn in H;
    [|by simplify_eq].
  destruct (live_lookup _ _ _ Hi) as [He _]. rewrite He in H. cbn in H.
  apply bind_Some in H as ([[res p1] w1] & _ & H).
  rewrite (dispatch_finish_effect _ _ _ _ _ Hr Hi) in H. cbn in H. simplify_eq.
  by apply reg_wf_counted.
Qed.

Lemma reg_wf_list r r' buf size b ret :
  reg_wf r -> handler_list r buf size = Some (ret, b, r') -> reg_wf r'.
Proof.
  intros Hr H. unfold handler_list in H. destruct buf as [buf|]; [|by simplify_eq].
  destruct (size =? 0); [by simplify_eq|].
  rewrite reg_lock_wf in H by done. cbn [mbind option_bind] in H.
  apply bind_Some in H as ([b1 o1] & _ & H).
  apply bind_Some in H as ([[full b2] o2] & _ & H). destruct full.
  - rewrite reg_unlock_held, unlocked_locked in H by (done || apply Hr).
    cbn [mbind option_bind] in H. by simplify_eq.
  - apply bind_Some in H as ([b3 o3] & _ & H).
    rewrite reg_unlock_held, unlocked_locked in H by (done || apply Hr).
    cbn [mbind option_bind] in H. by simplify_eq.
Qed.

Lemma handler_stats_effect r : reg_wf r ->
  handler_stats r true true = Some (0, Some (total_dispatches r, total_failures r), r).
Proof.
  intros Hr. unfold handler_stats. cbn [negb orb]. rewrite reg_lock_wf by done.
  cbn [mbind option_bind]. by rewrite reg_unlock_held, unlocked_locked by (done || apply Hr).
Qed.

(** The registry after a reset of the statistics. *)
Lemma handler_stats_reset_effect r : reg_wf r ->
  exists r', handler_stats_reset r = Some (0, r') /\ reg_wf r' /\
    live r' = reset_entry <$> live r /\ total_dispatches r' = 0 /\ total_failures r' = 0.
Proof.
  intros Hr. unfold handler_stats_reset. rewrite reg_lock_wf by done.
  cbn [mbind option_bind locked entries entry_count]. rewrite reg_unlock_held by done.
  cbn [mbind option_bind]. eexists; split; [done|].
  set (n := Z.to_nat (entry_count r)).
  assert (length (take n (entries r)) = n) as Hn by by apply length_live.
  assert (live (unlocked (set_totals (set_entries (locked r)
            ((reset_entry <$> take n (entries r)) ++ drop n (entries r)) (entry_count r)) 0 0))
          = reset_entry <$> live r) as Hl.
  { unfold live. cbn. fold n. apply take_app_length'. by rewrite length_fmap. }
  split; [|done]. destruct Hr. split; cbn; try done.
  - by rewrite length_app, length_fmap, <- length_app, take_drop.
  - apply Forall_app. split; [|by apply Forall_drop]. apply Forall_fmap.
    by apply Forall_take.
  - rewrite Hl. apply Forall_fmap. eapply Forall_impl; [done|]. intros e []. by split.
Qed.

Lemma reg_step_wf r r' : reg_wf r -> reg_step r r' -> reg_wf r'.
Proof.
  intros Hr Hs. inversion Hs; subst.
  - by eapply reg_wf_register.
  - match goal with H : terminated _ |- _ => destruct H as [s Ht] end.
    destruct (handler_unregister_effect r name s cmd Hr Ht) as (x & y & H' & ? & _).
    by simplify_eq.
  - by eapply reg_wf_dispatch.
  - by eapply reg_wf_list.
  - destruct (negb a || negb b) eqn:E.
    + match goal with H : handler_stats _ _ _ = _ |- _ => unfold handler_stats in H;
        rewrite E in H end. by simplify_eq.
    + tests. subst. rewrite handler_stats_effect in H by done. by simplify_eq.
  - destruct (handler_stats_reset_effect r Hr) as (y & H' & ? & _). by simplify_eq.
Qed.
End steps.

Lemma abs_entries_snoc_dup es e :
  entry_key e ∈ (entry_key <$> es) -> abs_entries (es ++ [e]) = abs_entries es.
Proof.
  induction es as [|e0 es IH]; [by intros ?%not_elem_of_nil|].
  rewrite fmap_cons. cbn [app]. rewrite !abs_entries_cons. intros [E|Hin]%elem_of_cons.
  - destruct (decide (entry_key e ∈ (entry_key <$> es))) as [Hin|Hin].
    + by rewrite IH.
    + rewrite abs_entries_snoc, E by done. apply insert_insert_eq.
  - by rewrite IH.
Qed.

(** Registration, on the map the registry stands for. *)
Lemma register_map r name s cmd h c :
  reg_wf r -> reg_unique r -> cstring name = Some s -> (length s <= 63)%nat ->
  h <> 0 -> 0 <= cmd < MGMT_CMD_MAX ->
  exists ret r', handler_register r (Some name) cmd h c = Some (ret, r') /\
    reg_wf r' /\ reg_unique r' /\
    ( ret = 0 /\ abs r' = <[(cmd, s) := mkInfo h c 0 0]> (abs r)
    \/ ret = -1 /\ r' = r /\ abs r !! (cmd, s) = None /\ size (abs r) = MAX_EVENT_HANDLERS).
Proof.
  intros Hr Hu Hs Hl Hh Hc.
  destruct (handler_register_effect r Hr name s Hs cmd h c Hh Hc)
    as (ret & r' & H & Hr' & _ & _ & Hcase).
  exists ret, r'. split; [done|]. split; [done|].
  destruct Hcase as [(i & e & Hi & (e0 & Hi' & Hk & Hlt) & -> & Hlive)
    |[(Hnew & Hcount & -> & n & Hn & Hlive)|(Hnew & Hcount & -> & ->)]].
  - assert (e0 = e) as -> by congruence.
    assert (entry_key (mkEntry cmd (eh_module_name e) h c 0 0) = entry_key e) as Hk'
      by (injection Hk as <- _; reflexivity).
    split.
    + unfold reg_unique. rewrite Hlive, list_fmap_insert, Hk', list_insert_id; [done|].
      by rewrite list_lookup_fmap, Hi.
    + left. split; [done|]. unfold abs. rewrite Hlive.
      rewrite (abs_entries_insert _ i e) by (try done; by rewrite Hk). by rewrite Hk.
  - rewrite take_ge in Hn by done.
    assert (entry_key (mkEntry cmd n h c 0 0) = (cmd, s)) as Hk
      by (unfold entry_key, entry_name; cbn; by rewrite Hn).
    split.
    + unfold reg_unique. rewrite Hlive, fmap_app. apply NoDup_app. split; [done|].
      split; [|apply NoDup_singleton]. cbn. rewrite Hk.
      intros x Hx ->%list_elem_of_singleton. done.
    + left. split; [done|]. unfold abs. rewrite Hlive.
      rewrite abs_entries_snoc by by rewrite Hk. by rewrite Hk.
  - split; [done|]. right. split; [done|]. split; [done|].
    split; [by apply abs_entries_not_in|].
    unfold abs. rewrite size_abs_entries, length_live by done. rewrite Hcount. done.
Qed.

(** The lookup of a request whose key is registered. *)
Lemma dispatch_lookup_found r q p s info :
  reg_wf r -> wf_request q -> wf_response p -> mgmt_request_validate (Some q) = 1 ->
  cstring (rq_target_module q) = Some s -> abs r !! (rq_cmd_type q, s) = Some info ->
  exists i e sm, live r !! i = Some e /\ info = entry_info e /\ length sm = MGMT_MODULE_NAME_SIZE /\
    dispatch_lookup r (Some q) (Some p) = Some (DispatchInvoke i q (echo q p sm), r) /\
    entry_key e = (rq_cmd_type q, s) /\
    forall e', entry_key e' = (rq_cmd_type q, s) -> abs_entries (<[i:=e']> (live r)) =
      <[(rq_cmd_type q, s) := entry_info e']> (abs r).
Proof.
  intros Hr Hq Hp Hv Hs Habs.
  pose proof (dispatch_lookup_effect r q p Hr (wq_module _ Hq) (ws_module _ Hp)) as Hl.
  rewrite Hv in Hl. cbn [Z.eqb] in Hl.
  destruct Hl as [(i & sm & Hf & Hsm & Hl)|[Hf _]]; first last.
  { apply (found_abs _ _ _ _ _ Hs) in Hf. congruence. }
  apply (found_abs _ _ _ _ _ Hs) in Hf as (e & Hi & Hk & He & Hins).
  assert (info = entry_info e) as -> by congruence. by exists i, e, sm.
Qed.

(** A dispatch to a registered handler. *)
Lemma dispatch_found {W} invoke r (w : W) q p s info :
  reg_wf r -> wf_request q -> wf_response p -> mgmt_request_validate (Some q) = 1 ->
  cstring (rq_target_module q) = Some s -> abs r !! (rq_cmd_type q, s) = Some info ->
  exists sm, length sm = MGMT_MODULE_NAME_SIZE /\
  forall res p1 w1,
    invoke (hi_handler info) (hi_context info) q (echo q p sm) w = Some (res, p1, w1) ->
    exists r', handler_dispatch invoke r w (Some q) (Some p)
        = Some (res, Some (conclude res p1), r', w1) /\
      reg_wf r' /\
      abs r' = <[(rq_cmd_type q, s) := mkInfo (hi_handler info) (hi_context info)
          (u32 (hi_count info + 1))
          (u64 (hi_latency info + mgmt_response_latency_us (Some (conclude res p1))))]> (abs r) /\
      total_dispatches r' = u32 (total_dispatches r + 1) /\
      total_failures r' = (if res =? 0 then total_failures r else u32 (total_failures r + 1)).
Proof.
  intros Hr Hq Hp Hv Hs Habs.
  destruct (dispatch_lookup_found r q p s info Hr Hq Hp Hv Hs Habs)
    as (i & e & sm & Hi & -> & Hsm & Hl & Hk & Hins).
  exists sm. split; [done|]. intros res p1 w1 Hinv. unfold handler_dispatch.
  rewrite Hl. cbn [mbind option_bind]. destruct (live_lookup _ _ _ Hi) as [Hent ?].
  rewrite Hent. cbn [mbind option_bind]. cbn [entry_info hi_handler hi_context] in Hinv.
  rewrite Hinv. cbn [mbind option_bind].
  rewrite (dispatch_finish_effect _ _ _ _ _ Hr Hi). cbn [mbind option_bind].
  eexists; split; [done|]. split; [by apply reg_wf_counted|]. split; [|done].
  unfold abs, counted. unfold live; cbn. rewrite take_insert_lt by done.
  fold (live r). by rewrite Hins.
Qed.

(** A handler that does not return does not let the dispatcher return. *)
Lemma dispatch_not_returned {W} invoke r (w : W) q p s info :
  reg_wf r -> wf_request q -> wf_response p -> mgmt_request_validate (Some q) = 1 ->
  cstring (rq_target_module q) = Some s -> abs r !! (rq_cmd_type q, s) = Some info ->
  (forall sm, length sm = MGMT_MODULE_NAME_SIZE ->
     invoke (hi_handler info) (hi_context info) q (echo q p sm) w = None) ->
  handler_dispatch invoke r w (Some q) (Some p) = None.
Proof.
  intros Hr Hq Hp Hv Hs Habs Hinv.
  destruct (dispatch_lookup_found r q p s info Hr Hq Hp Hv Hs Habs) as (i & e & sm & Hi & -> & Hsm & Hl & _).
  unfold handler_dispatch. rewrite Hl. cbn [mbind option_bind]. destruct (live_lookup _ _ _ Hi) as [Hent _].
  specialize (Hinv sm Hsm).
  cbn [entry_info hi_handler hi_context] in Hinv. rewrite Hent. cbn [mbind option_bind]. by rewrite Hinv.
Qed.

(** A dispatch that finds no handler. *)
Lemma dispatch_rejected {W} invoke r (w : W) q p :
  reg_wf r -> wf_request q -> wf_response p ->
  (forall s, cstring (rq_target_module q) = Some s -> abs r !! (rq_cmd_type q, s) = None) ->
  handler_dispatch invoke r w (Some q) (Some p) =
    if mgmt_request_validate (Some q) =? 0
    then Some (-3, Some (set_result_code p MGMT_RESULT_INVALID_CMD), r, w)
    else Some (-1, Some (set_result_code p MGMT_RESULT_MODULE_NOT_FOUND), r, w).
Proof.
  intros Hr Hq Hp Hno. unfold handler_dispatch.
  pose proof (dispatch_lookup_effect r q p Hr (wq_module _ Hq) (ws_module _ Hp)) as Hl.
  destruct (mgmt_request_validate (Some q) =? 0); [by rewrite Hl|].
  destruct Hl as [(i & sm & Hf & _)|[_ ->]]; [exfalso|done].
  pose proof Hf as (e & _ & [_ Hs] & _).
  destruct (found_abs _ _ _ _ _ Hs Hf) as (e' & _ & _ & He & _).
  rewrite (Hno _ Hs) in He. done.
Qed.

(** With room for the header the listing returns, and leaves the registry. *)
Lemma handler_list_returns r buf :
  reg_wf r -> (14 <= length buf)%nat -> Z.of_nat (length buf) <= INT_MAX ->
  exists ret b, handler_list r (Some buf) (Z.of_nat (length buf)) = Some (ret, b, r) /\
    (ret = -1 \/ ret = entry_count r).
Proof.
  intros Hr Hge Hb. unfold INT_MAX in Hb.
  unfold handler_list. rewrite (proj2 (Z.eqb_neq _ 0)), reg_lock_wf by (done || lia).
  cbn [mbind option_bind].
  destruct (append_safe buf 0 list_header) as (b1 & -> & Hl1); [lia|lia|].
  cbn [mbind option_bind]. change (0 + Z.of_nat (length list_header)) with 14.
  change (live (locked r)) with (live r). rewrite <- Hl1.
  destruct (list_entries_safe (live r) true b1 14)
    as (full & b2 & off & -> & Hl2 & Hoff); [apply Hr|unfold INT_MAX; lia|lia|done|].
  cbn [mbind option_bind]. destruct full.
  - rewrite reg_unlock_held, unlocked_locked by (done || apply Hr). eexists _, _. auto.
  - rewrite <- Hl2. destruct (append_safe b2 off (list_footer (locked r)))
      as (b3 & -> & _); [lia|lia|]. cbn [mbind option_bind].
    rewrite reg_unlock_held, unlocked_locked by (done || apply Hr). eexists _, _. auto.
Qed.

Lemma list_safe_iff r buf :
  reg_wf r -> buf <> [] -> Z.of_nat (length buf) <= INT_MAX ->
  is_Some (handler_list r (Some buf) (Z.of_nat (length buf))) <-> (14 <= length buf)%nat.
Proof.
  intros Hr Hne Hb. assert (0 < length buf)%nat by (destruct buf; cbn; [done|lia]).
  split; intros H'; first last.
  { destruct (handler_list_returns r buf Hr H' Hb) as (ret & b & -> & _). by eexists. }
  destruct (decide (14 <= length buf)%nat) as [|Hlt]; [done|]. exfalso.
  unfold handler_list in H'. rewrite (proj2 (Z.eqb_neq _ 0)), reg_lock_wf in H' by (done || lia).
  cbn [mbind option_bind] in H'. unfold INT_MAX in Hb.
  destruct (append_safe buf 0 list_header) as (b1 & E1 & Hl1); [lia|lia|]. rewrite E1 in H'.
  cbn [mbind option_bind] in H'. change (0 + Z.of_nat (length list_header)) with 14 in H'.
  change (live (locked r)) with (live r) in H'.
  destruct H' as [x Hx]. rewrite <- Hl1 in Hx.
  pose proof (rw_live _ Hr) as Hlive. destruct (live r) as [|e es];
    cbn [list_entries mbind option_bind] in Hx.
  - rewrite append_overflow in Hx by lia. done.
  - apply Forall_cons in Hlive as [He _]. rewrite (wf_entry_name e He) in Hx.
    cbn [mbind option_bind] in Hx. rewrite append_overflow in Hx by lia. done.
Qed.

(** * Properties *)

(** C12: on a well-formed registry, registering a handler under a name of at
    most 63 bytes is the insertion of its key into the finite map the registry
    stands for, with fresh statistics (an existing registration is replaced);
    only when the key is new and all 64 slots are taken does the call fail,
    with -1 and no change.  Well-formedness and uniqueness of keys are kept. *)
Theorem handler_register_refines r name s cmd h c :
  reg_wf r -> reg_unique r -> cstring name = Some s -> (length s <= 63)%nat ->
  h <> 0 -> 0 <= cmd < MGMT_CMD_MAX ->
  exists ret r', handler_register r (Some name) cmd h c = Some (ret, r') /\
    reg_wf r' /\ reg_unique r' /\
    ( ret = 0 /\ abs r' = <[(cmd, s) := mkInfo h c 0 0]> (abs r)
    \/ ret = -1 /\ r' = r /\ abs r !! (cmd, s) = None /\ size (abs r) = MAX_EVENT_HANDLERS).
Proof. apply register_map. Qed.

Lemma handler_register_refines_witness :
  exists ret r', handler_register empty_registry (Some (lit "router")) MGMT_CMD_PING 4096 0
      = Some (ret, r') /\ reg_wf r'.
Proof.
  destruct (handler_register_refines empty_registry (lit "router") (bs "router")
    MGMT_CMD_PING 4096 0) as (ret & r' & H & Hw & _).
  - apply reg_wf_empty.
  - constructor.
  - reflexivity.
  - vm_compute. lia.
  - lia.
  - split; [vm_compute; congruence|reflexivity].
  - exists ret, r'. split; [exact H|exact Hw].
Defined.

(** C29: unregistering is the deletion of the key: the call answers 0 and the
    map loses exactly that key, whatever shifts happen in the array, or the
    key is not there, the answer is -1 and the registry is unchanged. *)
Theorem handler_unregister_refines r name s cmd :
  reg_wf r -> reg_unique r -> cstring name = Some s ->
  exists ret r', handler_unregister r (Some name) cmd = Some (ret, r') /\
    reg_wf r' /\ reg_unique r' /\
    ( ret = 0 /\ is_Some (abs r !! (cmd, s)) /\ abs r' = delete (cmd, s) (abs r)
    \/ ret = -1 /\ abs r !! (cmd, s) = None /\ r' = r).
Proof.
  intros Hr Hu Hs.
  destruct (handler_unregister_effect r name s cmd Hr Hs)
    as (ret & r' & H & Hr' & _ & _ & Hcase).
  exists ret, r'. split; [done|]. split; [done|].
  destruct Hcase as [(l1 & e & l2 & Hl & Hk & Hn1 & -> & Hl')|(Hn & -> & ->)].
  - unfold reg_unique in *. rewrite Hl, fmap_app, fmap_cons in Hu. rewrite Hl', fmap_app.
    apply NoDup_app in Hu as (H1 & H2 & H3). apply NoDup_cons in H3 as [H3 H4].
    split. { apply NoDup_app. split; [done|]. split; [|done].
      intros x Hx Hx2. apply (H2 x Hx). by apply elem_of_cons; right. }
    left. split; [done|]. unfold abs. rewrite Hl, Hl', <- Hk. split.
    + apply not_eq_None_Some. rewrite <- abs_entries_not_in. rewrite fmap_app, fmap_cons.
      intros Hno. apply Hno. apply elem_of_app. right. by apply elem_of_cons; left.
    + apply abs_entries_delete; [by rewrite Hk|done].
  - split; [done|]. right. split; [done|]. split; [by apply abs_entries_not_in|done].
Qed.

Lemma handler_unregister_refines_witness :
  exists r', handler_unregister demo_registry (Some (lit "router")) MGMT_CMD_PING = Some (0, r')
    /\ abs r' = ∅.
Proof.
  destruct (handler_unregister_refines demo_registry (lit "router") (bs "router")
    MGMT_CMD_PING) as (ret & r' & H & _ & _ & Hc).
  - apply reg_wf_demo.
  - apply NoDup_singleton.
  - reflexivity.
  - destruct Hc as [(-> & _ & E)|(_ & E & _)].
    + exists r'. split; [exact H|]. rewrite E. vm_compute. reflexivity.
    + exfalso. vm_compute in E. congruence.
Defined.

(** C1: a valid request whose command and target module are registered is
    dispatched to exactly that registration: its handler runs with its context
    and a response that already echoes the request's identifier and time; a
    non-zero answer becomes MGMT_RESULT_HANDLER_FAILED, otherwise the handler's
    result code stands; and the map changes only at that key, whose call count
    and latency are advanced modulo 2^32 and 2^64 with the totals. *)
Theorem handler_dispatch_found {W} invoke r (w : W) q p s info :
  reg_wf r -> wf_request q -> wf_response p -> mgmt_request_validate (Some q) = 1 ->
  cstring (rq_target_module q) = Some s -> abs r !! (rq_cmd_type q, s) = Some info ->
  exists sm, length sm = MGMT_MODULE_NAME_SIZE /\
  forall res p1 w1,
    invoke (hi_handler info) (hi_context info) q (echo q p sm) w = Some (res, p1, w1) ->
    exists r', handler_dispatch invoke r w (Some q) (Some p)
        = Some (res, Some (conclude res p1), r', w1) /\
      reg_wf r' /\
      abs r' = <[(rq_cmd_type q, s) := mkInfo (hi_handler info) (hi_context info)
          (u32 (hi_count info + 1))
          (u64 (hi_latency info + mgmt_response_latency_us (Some (conclude res p1))))]> (abs r) /\
      total_dispatches r' = u32 (total_dispatches r + 1) /\
      total_failures r' = (if res =? 0 then total_failures r else u32 (total_failures r + 1)).
Proof. apply dispatch_found. Qed.

Lemma handler_dispatch_found_witness :
  exists p' r', handler_dispatch (fun f c q p (w : nat) => Some (0, p, S w)) demo_registry 7%nat
      (Some (mkRequest 5 MGMT_CMD_PING 0 0 zero_timespec (lit "router" ++ zeros 57) (zeros 512)))
      (Some zero_response) = Some (0, Some p', r', 8%nat) /\ total_dispatches r' = 1.
Proof.
  destruct (handler_dispatch_found (fun f c q p (w : nat) => Some (0, p, S w)) demo_registry
    7%nat (mkRequest 5 MGMT_CMD_PING 0 0 zero_timespec (lit "router" ++ zeros 57) (zeros 512))
    zero_response (bs "router") (mkInfo 4096 8192 0 0)) as (sm & _ & H).
  - apply reg_wf_demo.
  - split; try reflexivity; repeat split; vm_compute; congruence.
  - split; try reflexivity; repeat split; vm_compute; congruence.
  - reflexivity.
  - reflexivity.
  - vm_compute. reflexivity.
  - destruct (H _ _ _ eq_refl) as (r' & E & _ & _ & Ht & _).
    eexists; exists r'. split; [exact E|]. rewrite Ht. reflexivity.
Defined.



(** C16: in every state reachable from the initialized registry by calls of
    its functions with contract-conforming arguments and any handlers, the
    invariant holds: the count stays in 0..64, names are terminated, counters
    are in range and the lock is free.  So a further registration or removal with
    a terminated name, the lookup of a dispatch and, for an entry in use, its
    statistics, a statistics call or a reset returns: none deadlocks on the lock
    and none reads or writes outside an object.  [handler_list] does so exactly
    for an empty buffer and for buffers of at least 14 bytes (up to INT_MAX); for
    1 to 13 bytes it writes outside of the buffer. *)
Theorem registry_reachable_safe {W} (invoke : Z -> Z -> MgmtCommandRequest ->
    MgmtCommandResponse -> W -> option (Z * MgmtCommandResponse * W)) r :
  rtc (reg_step invoke) empty_registry r ->
  reg_wf r /\
  (forall name cmd h c, terminated name -> in_u 8 cmd ->
     is_Some (handler_register r (Some name) cmd h c)) /\
  (forall name cmd, terminated name -> is_Some (handler_unregister r (Some name) cmd)) /\
  (forall q p, wf_request q -> wf_response p -> is_Some (dispatch_lookup r (Some q) (Some p))) /\
  (forall i e res p, live r !! i = Some e -> is_Some (dispatch_finish r i res p)) /\
  (forall buf, Z.of_nat (length buf) <= INT_MAX ->
     is_Some (handler_list r (Some buf) (Z.of_nat (length buf))) <->
       length buf = 0%nat \/ (14 <= length buf)%nat) /\
  is_Some (handler_stats r true true) /\ is_Some (handler_stats_reset r).
Proof.
  intros Hreach.
  assert (reg_wf r) as Hr
    by (eapply rtc_invariant; [apply (reg_step_wf invoke)|apply reg_wf_empty|done]).
  split; [done|]. split; [|split; [|split; [|split; [|split; [|split]]]]].
  - intros name cmd h c [s Hs] Hc.
    destruct ((h =? 0) || (MGMT_CMD_MAX <=? cmd)) eqn:E.
    + unfold handler_register. rewrite E. by eexists.
    + tests. destruct (handler_register_effect r Hr name s Hs cmd h c) as (x & y & -> & _);
        [done|unfold in_u in Hc; lia|]. by eexists.
  - intros name cmd [s Hs].
    destruct (handler_unregister_effect r name s cmd Hr Hs) as (x & y & -> & _). by eexists.
  - intros q p Hq Hp.
    pose proof (dispatch_lookup_effect r q p Hr (wq_module _ Hq) (ws_module _ Hp)) as Hl.
    destruct (mgmt_request_validate (Some q) =? 0); [rewrite Hl; by eexists|].
    destruct Hl as [(i & sm & _ & _ & ->)|[_ ->]]; by eexists.
  - intros i e res p Hi. destruct (live_lookup _ _ _ Hi) as [He _].
    rewrite (dispatch_finish_slot _ _ _ _ _ Hr He). by eexists.
  - intros [|b buf] Hl; [split; [by left|by eexists]|].
    rewrite list_safe_iff by done. cbn [length]. split; [by right|]. by intros [|].
  - rewrite handler_stats_effect by done. by eexists.
  - destruct (handler_stats_reset_effect r Hr) as (y & -> & _). by eexists.
Qed.

Lemma registry_reachable_safe_witness :
  exists r, live r = [demo_entry] /\ reg_wf r.
Proof.
  exists demo_registry. split; [reflexivity|].
  refine (proj1 (registry_reachable_safe
    (fun f c q p (w : unit) => Some (0, p, w)) demo_registry _)).
  eapply rtc_once, (step_register _ _ _ (lit "router") MGMT_CMD_PING 4096 8192 0).
  - eexists; reflexivity.
  - split; [vm_compute; congruence|reflexivity].
  - vm_compute. reflexivity.
Defined.

(** C32: with a buffer of its stated size (at most INT_MAX), [handler_list]
    stays inside it exactly when it has room for the 14 bytes of the header;
    for a buffer of 1 to 13 bytes the remaining size wraps around and the next
    write is outside of the buffer. *)
Theorem handler_list_safe_iff r buf :
  reg_wf r -> buf <> [] -> Z.of_nat (length buf) <= INT_MAX ->
  is_Some (handler_list r (Some buf) (Z.of_nat (length buf))) <-> (14 <= length buf)%nat.
Proof. apply list_safe_iff. Qed.

Lemma handler_list_safe_iff_witness :
  handler_list empty_registry (Some (zeros 13)) 13 = None.
Proof.
  destruct (handler_list empty_registry (Some (zeros 13)) 13) eqn:E; [|reflexivity].
  exfalso. destruct (handler_list_safe_iff empty_registry (zeros 13)) as [H _].
  - apply reg_wf_empty.
  - discriminate.
  - vm_compute. congruence.
  - change (Z.of_nat (length (zeros 13))) with 13 in H. rewrite E in H.
    specialize (H ltac:(eexists; reflexivity)). vm_compute in H. lia.
Defined.

(** When the whole listing fits, [handler_list] answers the number of
    handlers and leaves exactly the JSON text of the registered handlers and
    totals, terminated, in the buffer. *)
Theorem handler_list_json r buf :
  reg_wf r -> Z.of_nat (length buf) <= INT_MAX ->
  (length (handlers_json r) < length buf)%nat ->
  exists b, handler_list r (Some buf) (Z.of_nat (length buf)) = Some (entry_count r, Some b, r)
    /\ holds b (handlers_json r) /\ length b = length buf.
Proof.
  intros Hr Hb Hl. unfold handlers_json in Hl. rewrite !length_app in Hl.
  assert (0 < length (list_footer r))%nat by (unfold list_footer; rewrite length_app; cbn; lia).
  unfold handler_list. rewrite (proj2 (Z.eqb_neq _ 0)), reg_lock_wf by (done || lia).
  cbn [mbind option_bind].
  destruct (append_to buf [] list_header) as (b1 & H1 & Hh1 & Hl1); [by right|cbn in *; lia|done|].
  change (Z.of_nat (length [])) with 0 in H1. rewrite H1.
  cbn [mbind option_bind app]. change (live (locked r)) with (live r). rewrite <- Hl1 in *.
  destruct (list_entries_text (live r) true b1 list_header (list_footer r))
    as (b2 & -> & Hh2 & Hl2); [apply Hr|done|done|done|rewrite !length_app; lia|].
  cbn [mbind option_bind]. rewrite <- Hl2 in *.
  change (list_footer (locked r)) with (list_footer r).
  destruct (append_to b2 (list_header ++ list_body (live r) true) (list_footer r))
    as (b3 & -> & Hh3 & Hl3); [by left|rewrite !length_app; lia|done|].
  cbn [mbind option_bind]. rewrite reg_unlock_held, unlocked_locked by (done || apply Hr).
  cbn [mbind option_bind]. exists b3. split; [done|]. split; [|done].
  unfold handlers_json. by rewrite app_assoc.
Qed.

Lemma handler_list_json_witness :
  exists b, handler_list demo_registry (Some (zeros 200)) 200 = Some (1, Some b, demo_registry)
    /\ holds b (handlers_json demo_registry).
Proof.
  destruct (handler_list_json demo_registry (zeros 200)) as (b & H & Hh & _).
  - apply reg_wf_demo.
  - vm_compute. congruence.
  - vm_compute. lia.
  - exists b. split; [exact H|exact Hh].
Defined.

(** A name of 64 bytes or more is cut when stored but compared uncut, so
    registering it again never finds the first registration: the call answers 0
    but adds a second entry of the same key, and lookups keep finding the old
    handler, so the most recent registration does not win. *)
Theorem handler_register_long_name_shadowed r name s cmd h c info :
  reg_wf r -> cstring name = Some s -> (64 <= length s)%nat -> h <> 0 ->
  0 <= cmd < MGMT_CMD_MAX -> entry_count r < Z.of_nat MAX_EVENT_HANDLERS ->
  abs r !! (cmd, take 63 s) = Some info ->
  exists r', handler_register r (Some name) cmd h c = Some (0, r') /\
    entry_count r' = entry_count r + 1 /\ ~ reg_unique r' /\
    abs r' !! (cmd, take 63 s) = Some info.
Proof.
  intros Hr Hs Hl Hh Hc Hcount Hinfo.
  destruct (handler_register_effect r Hr name s Hs cmd h c Hh Hc)
    as (ret & r' & H & Hr' & _ & _ & Hcase).
  destruct Hcase as [(i & e & Hi & (e0 & Hi' & Hk & _) & _)
    |[(_ & _ & -> & n & Hn & Hlive)|(_ & ? & _)]]; [exfalso| |lia].
  - pose proof (proj1 (Forall_lookup _ _) (rw_live _ Hr) _ _ Hi') as We.
    pose proof (entry_name_length _ We) as Hlen. injection Hk as _ Hname.
    rewrite Hname in Hlen. unfold MGMT_MODULE_NAME_SIZE in Hlen. lia.
  - assert (entry_key (mkEntry cmd n h c 0 0) = (cmd, take 63 s)) as Hk
      by (unfold entry_key, entry_name; cbn; by rewrite Hn).
    assert (entry_key (mkEntry cmd n h c 0 0) ∈ (entry_key <$> live r)) as Hin.
    { rewrite Hk. destruct (decide ((cmd, take 63 s) ∈ (entry_key <$> live r))) as [|Hno];
        [done|]. apply abs_entries_not_in in Hno. exfalso.
      unfold abs in Hinfo. by rewrite Hno in Hinfo. }
    exists r'. split; [done|]. split; [|split].
    + pose proof (length_live r Hr) as L1. pose proof (length_live r' Hr') as L2.
      rewrite Hlive, length_app, L1 in L2. cbn in L2.
      pose proof (rw_count _ Hr). pose proof (rw_count _ Hr'). lia.
    + unfold reg_unique. rewrite Hlive, fmap_app. intros (_ & Hd & _)%NoDup_app.
      apply (Hd _ Hin). by apply list_elem_of_singleton.
    + unfold abs. by rewrite Hlive, abs_entries_snoc_dup.
Qed.

Definition long_name : list byte := replicate 70 x61.

Definition long_entry : EventHandlerEntry :=
  mkEntry MGMT_CMD_PING (replicate 63 x61 ++ [x00]) 4096 0 0 0.

Lemma handler_register_long_name_shadowed_witness :
  exists r r', live r = [long_entry] /\
    handler_register r (Some (long_name ++ [x00])) MGMT_CMD_PING 5000 0 = Some (0, r') /\
    entry_count r' = 2 /\
    abs r' !! (cmd_code MGMT_CMD_PING, take 63 long_name) = Some (mkInfo 4096 0 0 0).
Proof.
  exists (set_entries empty_registry (<[0%nat := long_entry]> (entries empty_registry)) 1).
  destruct (handler_register_long_name_shadowed
    (set_entries empty_registry (<[0%nat := long_entry]> (entries empty_registry)) 1)
    (long_name ++ [x00]) long_name MGMT_CMD_PING 5000 0 (mkInfo 4096 0 0 0))
    as (r' & H & Hc & _ & Ha).
  - apply (reg_wf_append empty_registry long_entry); [apply reg_wf_empty|reflexivity|].
    apply wf_new_entry; [split; [vm_compute; congruence|reflexivity]|eexists; reflexivity
      |reflexivity|discriminate].
  - reflexivity.
  - vm_compute. lia.
  - discriminate.
  - split; [vm_compute; congruence|reflexivity].
  - reflexivity.
  - vm_compute. reflexivity.
  - exists r'. split; [reflexivity|]. split; [exact H|]. split; [rewrite Hc; reflexivity|exact Ha].
Defined.

(** The state of the two static variables between calls. *)
Definition globals_wf (g : Globals) : Prop :=
  if g_registry_initialized g then reg_wf (g_registry g)
  else length (entries (g_registry g)) = MAX_EVENT_HANDLERS /\
       Forall (fun e => length (eh_module_name e) = MGMT_MODULE_NAME_SIZE)
         (entries (g_registry g)) /\ lock (g_registry g) = MtxUninit.

(** Destroying a live registry returns, and leaves its array. *)
Lemma registry_destroy_wf r :
  reg_wf r ->
  exists g2, handler_registry_destroy (mkGlobals r true) = Some g2 /\
    (length (entries (g_registry g2)) = MAX_EVENT_HANDLERS /\
     Forall (fun e => length (eh_module_name e) = MGMT_MODULE_NAME_SIZE)
       (entries (g_registry g2)) /\ lock (g_registry g2) = MtxUninit) /\
    g_registry_initialized g2 = false /\ entries (g_registry g2) = entries r.
Proof.
  intros Hr. unfold handler_registry_destroy. cbn [g_registry_initialized negb g_registry].
  rewrite reg_lock_wf by done. cbn [mbind option_bind]. rewrite reg_unlock_held by done.
  cbn [mbind option_bind]. eexists; split; [done|]. split; [|done].
  split; [apply Hr|]. split; [apply Hr|done].
Qed.

(** Initialization and destruction of the registry: initialization of an
    uninitialized registry succeeds with an empty one when the mutex can be
    created and otherwise answers -1 and changes nothing, is idempotent on an
    initialized one, and after destruction, which never blocks on the lock,
    the next initialization starts empty again whatever was registered. *)
Theorem registry_lifecycle ok g :
  globals_wf g ->
  let '(ret, g1) := handler_registry_init ok g in
  globals_wf g1 /\
  (g_registry_initialized g = true -> ret = 0 /\ g1 = g) /\
  (g_registry_initialized g = false -> ok = false -> ret = -1 /\ g1 = g) /\
  (g_registry_initialized g = false -> ok = true ->
     ret = 0 /\ g_registry_initialized g1 = true /\ abs (g_registry g1) = ∅) /\
  exists g2, handler_registry_destroy g1 = Some g2 /\ globals_wf g2 /\
    g_registry_initialized g2 = false /\
    snd (handler_registry_init true g2) =
      mkGlobals (mkRegistry (entries (g_registry g1)) 0 MtxFree 0 0) true.
Proof.
  intros Hg. unfold globals_wf, handler_registry_init in *.
  destruct g as [r [|]]; cbn [g_registry_initialized g_registry] in Hg |- *.
  - split; [done|]. split; [done|]. split; [done|]. split; [done|].
    destruct (registry_destroy_wf r Hg) as (g2 & -> & Hw & Hi & He). exists g2.
    rewrite Hi. cbn [negb snd g_registry entries]. rewrite He in Hw |- *. auto.
  - destruct Hg as (Hl & Hn & Hk).
    destruct ok; cbn [negb g_registry_initialized g_registry].
    + pose proof (reg_wf_cleared (entries r) Hl Hn) as Hr. split; [done|].
      split; [done|]. split; [done|]. split; [done|].
      destruct (registry_destroy_wf _ Hr) as (g2 & -> & Hw & Hi & He). exists g2.
    rewrite Hi. cbn [negb snd g_registry entries]. rewrite He in Hw |- *. auto.
    + split; [done|]. split; [done|]. split; [done|]. split; [done|].
      eexists; split; [done|]. done.
Qed.

Lemma registry_lifecycle_witness :
  g_registry_initialized (snd (handler_registry_init true initial_globals)) = true /\
  globals_wf initial_globals.
Proof.
  assert (globals_wf initial_globals) as Hg.
  { split; [reflexivity|]. split; [apply Forall_zero_entries|reflexivity]. }
  split; [|exact Hg].
  exact (proj1 (proj2 (proj1 (proj2 (proj2 (proj2 (registry_lifecycle true initial_globals Hg))))
    eq_refl eq_refl))).
Defined.
