(* ===== verification/RegistryThreads.v ===== *)
(** * The registry called by several threads (Mgmt/src/event_handler.c)

    EventHandler describes each call by itself.  Here any number of threads
    call the registry at the same time.  What a function does under the lock is
    one step, since every other access under the lock waits for it; what it
    does outside of the lock are steps of their own: [handler_dispatch] reads
    the two fields of the entry it has found, calls the handler, and takes the
    lock again for the statistics; [handler_list] reads the count for its
    answer.  The C language leaves the order of the two reads open, so both
    orders are possible.  Each of these reads is atomic here; RegistryRaces has
    the data races they are in C. *)

From S2P Require Import Prelude CLib MgmtProtocol EventHandler.

(** ** Threads *)

Inductive reg_call :=
| CallRegister (module_name : list byte) (cmd_type handler context : Z)
| CallUnregister (module_name : list byte) (cmd_type : Z)
| CallDispatch (req : MgmtCommandRequest) (resp : MgmtCommandResponse)
| CallList (buf : list byte)
| CallStats
| CallReset.

(** What a call has answered. *)
Inductive reg_reply :=
| Replied (ret : Z)
| RepliedResponse (ret : Z) (resp : option MgmtCommandResponse)
| RepliedList (ret : Z) (buf : option (list byte))
| RepliedStats (ret : Z) (out : option (Z * Z)).

(** Where a thread is: between calls; in a dispatch, after the lookup has
    released the lock with the entry [i] found, with the handler or the context
    of that entry read, about to call the handler, or after its return; in a
    listing that fitted, before the read of the count. *)
Inductive reg_pc :=
| Outside (last : option reg_reply)
| Looked (i : nat) (q : MgmtCommandRequest) (p : MgmtCommandResponse)
| HasHandler (i : nat) (q : MgmtCommandRequest) (p : MgmtCommandResponse) (f : Z)
| HasContext (i : nat) (q : MgmtCommandRequest) (p : MgmtCommandResponse) (c : Z)
| Invoking (i : nat) (q : MgmtCommandRequest) (p : MgmtCommandResponse) (f c : Z)
| Returned (i : nat) (q : MgmtCommandRequest) (res : Z) (p : MgmtCommandResponse)
| Listed (buf : option (list byte)).

Inductive action := Call (k : reg_call) | ReadHandler | ReadContext | Proceed.

(** The key a request asks for. *)
Definition request_key (q : MgmtCommandRequest) : Z * list byte :=
  (rq_cmd_type q, default [] (cstring (rq_target_module q))).

Section threads.
Context {W : Type}.
Variable invoke : Z -> Z -> MgmtCommandRequest -> MgmtCommandResponse -> W ->
  option (Z * MgmtCommandResponse * W).

(** What the threads share: the registry and what the handlers act on; and the
    dispatches counted since the last reset, latest first, with the key they
    asked for and what their handler answered. *)
Record Shared := mkShared {
  sh_reg : EventHandlerRegistry; sh_world : W; sh_done : list ((Z * list byte) * Z) }.

Definition with_reg (sh : Shared) (r : EventHandlerRegistry) : Shared :=
  mkShared r (sh_world sh) (sh_done sh).

(** A call up to the release of the lock. *)
Definition start_call (k : reg_call) (sh : Shared) : exec (reg_pc * Shared) :=
  match k with
  | CallRegister name cmd h c =>
      '(ret, r) ← obj (handler_register (sh_reg sh) (Some name) cmd h c);
      Ret (Outside (Some (Replied ret)), with_reg sh r)
  | CallUnregister name cmd =>
      '(ret, r) ← obj (handler_unregister (sh_reg sh) (Some name) cmd);
      Ret (Outside (Some (Replied ret)), with_reg sh r)
  | CallDispatch q p =>
      '(s, r) ← obj (dispatch_lookup (sh_reg sh) (Some q) (Some p));
      match s with
      | DispatchReturn res p => Ret (Outside (Some (RepliedResponse res p)), with_reg sh r)
      | DispatchInvoke i q p => Ret (Looked i q p, with_reg sh r)
      end
  | CallList buf =>
      '(ret, b, r) ← obj (handler_list (sh_reg sh) (Some buf) (Z.of_nat (length buf)));
      if ret =? -1 then Ret (Outside (Some (RepliedList ret b)), with_reg sh r)
      else Ret (Listed b, with_reg sh r)
  | CallStats =>
      '(ret, out, r) ← obj (handler_stats (sh_reg sh) true true);
      Ret (Outside (Some (RepliedStats ret out)), with_reg sh r)
  | CallReset =>
      '(ret, r) ← obj (handler_stats_reset (sh_reg sh));
      Ret (Outside (Some (Replied ret)), mkShared r (sh_world sh) [])
  end.

(** One step of a thread; [Blocked]: the thread is not at such a step. *)
Definition thread_step (a : action) (pc : reg_pc) (sh : Shared) : exec (reg_pc * Shared) :=
  match pc, a with
  | Outside _, Call k => start_call k sh
  | Looked i q p, ReadHandler =>
      e ← obj (entries (sh_reg sh) !! i); Ret (HasHandler i q p (eh_handler e), sh)
  | Looked i q p, ReadContext =>
      e ← obj (entries (sh_reg sh) !! i); Ret (HasContext i q p (eh_context e), sh)
  | HasHandler i q p f, ReadContext =>
      e ← obj (entries (sh_reg sh) !! i); Ret (Invoking i q p f (eh_context e), sh)
  | HasContext i q p c, ReadHandler =>
      e ← obj (entries (sh_reg sh) !! i); Ret (Invoking i q p (eh_handler e) c, sh)
  | Invoking i q p f c, Proceed =>
      '(res, p, w) ← obj (invoke f c q p (sh_world sh));
      Ret (Returned i q res p, mkShared (sh_reg sh) w (sh_done sh))
  | Returned i q res p, Proceed =>
      '(res, p, r) ← obj (dispatch_finish (sh_reg sh) i res p);
      Ret (Outside (Some (RepliedResponse res (Some p))),
           mkShared r (sh_world sh) ((request_key q, res) :: sh_done sh))
  | Listed b, Proceed =>
      Ret (Outside (Some (RepliedList (entry_count (sh_reg sh)) b)), sh)
  | _, _ => Blocked
  end.

Record CState := mkCState { c_shared : Shared; c_threads : list reg_pc }.

(** A step of thread [t]. *)
Definition sched (t : nat) (a : action) (s : CState) : exec CState :=
  match c_threads s !! t with
  | None => Blocked
  | Some pc =>
      '(pc, sh) ← thread_step a pc (c_shared s);
      Ret (mkCState sh (<[t := pc]> (c_threads s)))
  end.

Fixpoint run_schedule (l : list (nat * action)) (s : CState) : exec CState :=
  match l with
  | [] => Ret s
  | (t, a) :: l' => s ← sched t a s; run_schedule l' s
  end.

(** The arguments the contracts of the functions allow. *)
Definition action_ok (a : action) : Prop :=
  match a with
  | Call (CallRegister name cmd _ _) => terminated name /\ in_u 8 cmd
  | Call (CallUnregister name _) => terminated name
  | Call (CallDispatch q p) => wf_request q /\ wf_response p
  | Call (CallList buf) => (14 <= length buf)%nat /\ Z.of_nat (length buf) <= INT_MAX
  | _ => True
  end.

Definition cstep (s s' : CState) : Prop :=
  exists t a, action_ok a /\ sched t a s = Ret s'.

(** A registration of a key that is there already, or a removal, changes or
    moves entries other threads may point to. *)
Definition calm (r : EventHandlerRegistry) (a : action) : Prop :=
  match a with
  | Call (CallRegister name cmd _ _) =>
      exists s, cstring name = Some s /\ (length s <= 63)%nat /\ abs r !! (cmd, s) = None
  | Call (CallUnregister _ _) => False
  | _ => True
  end.

Definition calm_step (s s' : CState) : Prop :=
  exists t a, action_ok a /\ calm (sh_reg (c_shared s)) a /\ sched t a s = Ret s'.
End threads.

Arguments Shared : clear implicits.
Arguments CState : clear implicits.

(** After the initialization, [n] threads outside of the registry. *)
Definition c_initial {W} (w : W) (n : nat) : CState W :=
  mkCState (mkShared empty_registry w []) (replicate n (Outside None)).

(** What the totals should be. *)
Definition failed_dispatches (l : list ((Z * list byte) * Z)) : list ((Z * list byte) * Z) :=
  filter (fun d => d.2 <> 0) l.

Definition dispatches_of (k : Z * list byte) (l : list ((Z * list byte) * Z)) :
    list ((Z * list byte) * Z) :=
  filter (fun d => d.1 = k) l.

(** * Lemmas *)

(** ** Slots that other threads point to *)

(** An entry that was in use keeps proper contents in its slot, even when the
    count falls below it. *)
Definition slot_wf (r : EventHandlerRegistry) (i : nat) : Prop :=
  exists e, entries r !! i = Some e /\ wf_entry e.

(** The slots behind the entries in use are left alone. *)
Definition tail_same (r r' : EventHandlerRegistry) : Prop :=
  forall k, (Z.to_nat (entry_count r') <= k)%nat -> entries r' !! k = entries r !! k.

Lemma tail_same_refl r : tail_same r r.
Proof. by intros k _. Qed.

Lemma live_slot r i e : reg_wf r -> live r !! i = Some e -> slot_wf r i.
Proof.
  intros Hr Hi. exists e. split; [by apply live_lookup|].
  exact (proj1 (Forall_lookup _ _) (rw_live _ Hr) _ _ Hi).
Qed.

Lemma slot_wf_kept r r' i : reg_wf r' -> tail_same r r' -> slot_wf r i -> slot_wf r' i.
Proof.
  intros Hr' Ht (e & He & We). destruct (decide (i < Z.to_nat (entry_count r'))%nat) as [Hlt|Hge].
  - destruct (lookup_lt_is_Some_2 (live r') i) as [e' He']; [by rewrite length_live|].
    by eapply live_slot.
  - exists e. split; [|done]. rewrite Ht by lia. done.
Qed.

Lemma find_entry_lt es cmd name i : find_entry es cmd name = Some (Some i) -> (i < length es)%nat.
Proof.
  revert i; induction es as [|e es IH]; intros i H; cbn [find_entry] in H; [done|].
  assert (forall o, option_map S o = Some i -> find_entry es cmd name = Some o ->
            (i < length (e :: es))%nat) as Hstep.
  { intros [j|] [= <-] Hj. specialize (IH j Hj). cbn. lia. }
  case_match.
  - apply bind_Some in H as ([] & _ & H); [simplify_eq; cbn; lia|].
    apply bind_Some in H as (o & Ho & [= E]). by eapply Hstep.
  - apply bind_Some in H as (o & Ho & [= E]). by eapply Hstep.
Qed.

(** Take a locked section apart. *)
Ltac lock_inv H :=
  repeat match type of H with
  | mbind _ (mutex_lock _) = Some _ => apply bind_Some in H as (? & _ & H)
  | mbind _ _ = Some _ =>
      let x := fresh "x" in let E := fresh "E" in apply bind_Some in H as (x & E & H)
  | Some _ = Some _ => injection H as ? ?; subst
  end;
  repeat match goal with
  | E : mbind _ (mutex_lock _) = Some _ |- _ => apply bind_Some in E as (? & _ & [= <-])
  | E : mbind _ (mutex_unlock _) = Some _ |- _ => apply bind_Some in E as (? & _ & [= <-])
  end.

Lemma register_tail r name cmd h c ret r' :
  0 <= entry_count r -> handler_register r (Some name) cmd h c = Some (ret, r') -> tail_same r r'.
Proof.
  unfold handler_register, reg_lock, reg_unlock. intros Hc H.
  destruct ((h =? 0) || (MGMT_CMD_MAX <=? cmd)); [simplify_eq; apply tail_same_refl|].
  apply bind_Some in H as (r1 & (l & _ & [= <-])%bind_Some & H).
  apply bind_Some in H as (m & Hm & H). destruct m as [i|].
  - lock_inv H. apply find_entry_lt in Hm. unfold live in Hm. rewrite length_take in Hm.
    intros k Hk. cbn in *. apply list_lookup_insert_ne. lia.
  - case_match; cbn in H; lock_inv H; intros k Hk; cbn in *; [done|].
    apply list_lookup_insert_ne. lia.
Qed.

Lemma shift_entries_lookup es j n es' k :
  shift_entries es j n = Some es' ->
  es' !! k = if decide (j <= k < j + n)%nat then es !! S k else es !! k.
Proof.
  revert es j; induction n as [|n IH]; intros es j H; cbn [shift_entries] in H.
  - simplify_eq. by rewrite decide_False by lia.
  - apply bind_Some in H as (e & He & H). rewrite (IH _ _ H).
    destruct (decide (j = k)) as [->|Hne].
    + rewrite decide_False, decide_True by lia. rewrite He. apply list_lookup_insert_eq.
      apply lookup_lt_Some in He. lia.
    + repeat case_decide; try lia; by rewrite list_lookup_insert_ne by lia.
Qed.

Lemma unregister_tail r name cmd ret r' :
  handler_unregister r (Some name) cmd = Some (ret, r') -> tail_same r r'.
Proof.
  unfold handler_unregister, reg_lock, reg_unlock. intros H.
  apply bind_Some in H as (r1 & (l & _ & [= <-])%bind_Some & H).
  apply bind_Some in H as (m & Hm & H). destruct m as [i|].
  - apply bind_Some in H as (es & Hes & H). lock_inv H.
    intros k Hk. cbn in *. rewrite (shift_entries_lookup _ _ _ _ _ Hes).
    apply decide_False. lia.
  - lock_inv H. by intros k _.
Qed.

Lemma reset_tail r ret r' :
  reg_wf r -> handler_stats_reset r = Some (ret, r') -> tail_same r r'.
Proof.
  unfold handler_stats_reset, reg_lock, reg_unlock. intros Hr H. lock_inv H.
  intros k Hk. cbn in *. pose proof (length_live r Hr) as Hl. unfold live in Hl.
  rewrite lookup_app_r by (rewrite length_fmap; lia).
  rewrite length_fmap, Hl, lookup_drop. f_equal. lia.
Qed.

(** Counting a dispatch in the slot of the entry found. *)
Lemma counted_slot_wf r i e res latency :
  reg_wf r -> entries r !! i = Some e -> wf_entry e -> reg_wf (counted r i e res latency).
Proof.
  intros Hr Hi We. pose proof (wf_bump e latency We) as Wb. split; cbn.
  - rewrite length_insert. apply Hr.
  - apply Hr.
  - apply Hr.
  - apply Forall_insert; [apply Hr|apply Wb].
  - unfold live; cbn. destruct (decide (i < Z.to_nat (entry_count r))%nat).
    + rewrite take_insert_lt by done. apply Forall_insert; [apply Hr|done].
    + rewrite take_insert_ge by lia. apply Hr.
  - apply wrap_range. lia.
  - destruct (res =? 0); [apply Hr|apply wrap_range; lia].
Qed.

Lemma counted_slots r i e res latency k :
  entries r !! i = Some e -> wf_entry e -> slot_wf r k -> slot_wf (counted r i e res latency) k.
Proof.
  intros Hi We (e' & He' & We'). unfold slot_wf; cbn. destruct (decide (i = k)) as [->|Hne].
  - exists (bump e latency). split; [|by apply wf_bump].
    apply list_lookup_insert_eq. by eapply lookup_lt_Some.
  - exists e'. by rewrite list_lookup_insert_ne.
Qed.

(** ** All interleavings *)

(** A step that is possible does what [Q] says and is never undefined. *)
Definition safely {A} (m : exec A) (Q : A -> Prop) : Prop :=
  match m with Ret a => Q a | UB => False | Blocked => True end.

Record shared_ok {W} (sh : Shared W) : Prop := {
  so_reg : reg_wf (sh_reg sh);
  so_dispatches : total_dispatches (sh_reg sh) = u32 (Z.of_nat (length (sh_done sh)));
  so_failures : total_failures (sh_reg sh)
    = u32 (Z.of_nat (length (failed_dispatches (sh_done sh)))) }.

Definition pc_ok (r : EventHandlerRegistry) (pc : reg_pc) : Prop :=
  match pc with
  | Looked i _ _ | HasContext i _ _ _ | Returned i _ _ _ => slot_wf r i
  | HasHandler i _ _ f | Invoking i _ _ f _ => slot_wf r i /\ f <> 0
  | Outside _ | Listed _ => True
  end.

Lemma pc_ok_kept r r' pc : (forall i, slot_wf r i -> slot_wf r' i) -> pc_ok r pc -> pc_ok r' pc.
Proof. intros H. destruct pc; cbn; try done; try apply H; intros [? ?]; auto. Qed.

(** Keeping the totals while the registry changes. *)
Lemma shared_ok_with {W} (sh : Shared W) r :
  shared_ok sh -> reg_wf r -> total_dispatches r = total_dispatches (sh_reg sh) ->
  total_failures r = total_failures (sh_reg sh) -> shared_ok (with_reg sh r).
Proof. intros [] Hr Hd Hf. split; cbn; [done|by rewrite Hd|by rewrite Hf]. Qed.

Lemma with_reg_same {W} (sh : Shared W) : with_reg sh (sh_reg sh) = sh.
Proof. by destruct sh. Qed.

Lemma register_returns r name cmd h c :
  reg_wf r -> terminated name -> in_u 8 cmd ->
  exists ret r', handler_register r (Some name) cmd h c = Some (ret, r') /\ reg_wf r' /\
    total_dispatches r' = total_dispatches r /\ total_failures r' = total_failures r.
Proof.
  intros Hr [s Hs] Hc. destruct ((h =? 0) || (MGMT_CMD_MAX <=? cmd)) eqn:E.
  - exists (-1), r. unfold handler_register. by rewrite E.
  - tests. destruct (handler_register_effect r Hr name s Hs cmd h c)
      as (ret & r' & ? & ? & ? & ? & _); [done|unfold in_u in Hc; lia|].
    by exists ret, r'.
Qed.

Lemma call_effect {W} k (sh : Shared W) :
  shared_ok sh -> action_ok (Call k) ->
  exists pc sh', start_call k sh = Ret (pc, sh') /\ shared_ok sh' /\ pc_ok (sh_reg sh') pc /\
    tail_same (sh_reg sh) (sh_reg sh').
Proof.
  intros Hsh Hk. pose proof (so_reg _ Hsh) as Hr. destruct k; cbn [action_ok start_call] in *.
  - destruct Hk as [Hn Hc].
    destruct (register_returns (sh_reg sh) module_name cmd_type handler context Hr Hn Hc)
      as (ret & r' & E & ? & ? & ?). rewrite E. run. eexists _, _; split; [done|].
    split; [by apply shared_ok_with|]. split; [done|]. eapply register_tail; [apply Hr|done].
  - destruct Hk as [s Hs].
    destruct (handler_unregister_effect (sh_reg sh) module_name s cmd_type Hr Hs)
      as (ret & r' & E & ? & ? & ? & _). rewrite E. run. eexists _, _; split; [done|].
    split; [by apply shared_ok_with|]. split; [done|]. by eapply unregister_tail.
  - destruct Hk as [Hq Hp].
    pose proof (dispatch_lookup_effect (sh_reg sh) req resp Hr (wq_module _ Hq) (ws_module _ Hp)) as Hl.
    destruct (mgmt_request_validate (Some req) =? 0);
      [rewrite Hl|destruct Hl as [(i & sm & (e & Hi & _) & _ & ->)|[_ ->]]]; run;
      rewrite with_reg_same; (eexists _, _; split; [done|]); (split; [done|]);
      (split; [|apply tail_same_refl]); [done|by eapply live_slot|done].
  - destruct Hk as [H1 H2]. destruct (handler_list_returns (sh_reg sh) buf Hr H1 H2)
      as (ret & b & -> & _). run. rewrite with_reg_same.
    case_match; (eexists _, _; split; [done|]); (split; [done|]); (split; [done|apply tail_same_refl]).
  - rewrite handler_stats_effect by done. run. rewrite with_reg_same.
    eexists _, _; split; [done|]. split; [done|]. split; [done|apply tail_same_refl].
  - destruct (handler_stats_reset_effect (sh_reg sh) Hr) as (r' & E & ? & _ & ? & ?).
    rewrite E. run. eexists _, _; split; [done|]. split; [by split|]. split; [done|].
    by eapply reset_tail.
Qed.

Lemma failed_cons k res l :
  failed_dispatches ((k, res) :: l) =
    if res =? 0 then failed_dispatches l else (k, res) :: failed_dispatches l.
Proof.
  unfold failed_dispatches. rewrite filter_cons. destruct (res =? 0) eqn:E; tests.
  - rewrite decide_False; [done|]. by intros [].
  - by rewrite decide_True.
Qed.

Lemma dispatches_of_cons k k' res l :
  dispatches_of k ((k', res) :: l) =
    if decide (k' = k) then (k', res) :: dispatches_of k l else dispatches_of k l.
Proof. unfold dispatches_of. rewrite filter_cons. cbn [fst]. by repeat case_decide. Qed.

(** Take the condition on a thread's place apart. *)
Ltac open_pc H :=
  lazymatch type of H with
  | slot_wf _ _ /\ _ => destruct H as [(e & He & We) Hf]
  | slot_wf _ _ => destruct H as (e & He & We)
  | _ => idtac
  end.

Section safety.
Context {W : Type} (invoke : Z -> Z -> MgmtCommandRequest -> MgmtCommandResponse -> W ->
  option (Z * MgmtCommandResponse * W)).
(** The handler a thread is about to call returns. *)
Definition pc_returns (pc : reg_pc) (sh : Shared W) : Prop :=
  match pc with Invoking i q p f c => is_Some (invoke f c q p (sh_world sh)) | _ => True end.

(** The statistics of a dispatch. *)
Lemma finish_effect i q res p (sh : Shared W) :
  shared_ok sh -> slot_wf (sh_reg sh) i ->
  exists p' r', dispatch_finish (sh_reg sh) i res p = Some (res, p', r') /\
    shared_ok (mkShared r' (sh_world sh) ((request_key q, res) :: sh_done sh)) /\
    forall k, slot_wf (sh_reg sh) k -> slot_wf r' k.
Proof using Type.
  intros Hsh (e & He & We). pose proof (so_reg _ Hsh) as Hr.
  rewrite (dispatch_finish_slot _ _ _ _ _ Hr He). eexists _, _; split; [done|].
  split; [|intros k; by apply counted_slots]. split; cbn [sh_reg sh_done].
  - by apply counted_slot_wf.
  - cbn. rewrite (so_dispatches _ Hsh), wrap_add_l. f_equal. lia.
  - rewrite failed_cons. cbn [counted set_totals total_failures]. rewrite (so_failures _ Hsh).
    destruct (res =? 0); [done|]. cbn [length]. rewrite wrap_add_l. f_equal. lia.
Qed.

Lemma step_effect a pc (sh : Shared W) :
  shared_ok sh -> pc_ok (sh_reg sh) pc -> action_ok a -> pc_returns pc sh ->
  safely (thread_step invoke a pc sh) (fun x =>
    shared_ok x.2 /\ pc_ok (sh_reg x.2) x.1 /\
    forall k, slot_wf (sh_reg sh) k -> slot_wf (sh_reg x.2) k).
Proof using Type.
  intros Hsh Hpc Ha Hret.
  destruct pc, a; try exact I; cbn [thread_step pc_ok pc_returns] in *; open_pc Hpc.
  - destruct (call_effect k sh Hsh Ha) as (pc & sh' & -> & Hsh' & ? & ?). cbn.
    split; [done|]. split; [done|]. intros j. by apply slot_wf_kept; [apply Hsh'|].
  - rewrite He. cbn. split; [done|]. split; [|done]. split; [by exists e|apply We].
  - rewrite He. cbn. split; [done|]. split; [|done]. by exists e.
  - rewrite He. cbn. split; [done|]. split; [|done]. split; [by exists e|done].
  - rewrite He. cbn. split; [done|]. split; [|done]. split; [by exists e|apply We].
  - destruct Hret as [[[res p'] w'] ->]. cbn.
    destruct Hsh. split; [by split|]. split; [|done]. by exists e.
  - destruct (finish_effect i q res p sh Hsh) as (p' & r' & -> & ? & ?); [by exists e|]. by cbn.
  - done.
Qed.

(** How many steps of its own a thread needs to leave the registry. *)
Definition steps_left (pc : reg_pc) : nat :=
  match pc with
  | Outside _ => 0 | Looked _ _ _ => 4 | HasHandler _ _ _ _ | HasContext _ _ _ _ => 3
  | Invoking _ _ _ _ _ => 2 | Returned _ _ _ _ | Listed _ => 1
  end.

(** A thread in a call can always go on: none waits for another one. *)
Lemma step_progress pc (sh : Shared W) :
  shared_ok sh -> pc_ok (sh_reg sh) pc -> pc_returns pc sh -> steps_left pc <> 0%nat ->
  exists a pc' sh', thread_step invoke a pc sh = Ret (pc', sh') /\
    action_ok a /\ steps_left pc = S (steps_left pc').
Proof using Type.
  intros Hsh Hpc Hret Hn.
  destruct pc; cbn [pc_ok steps_left pc_returns] in *; open_pc Hpc; [done|..].
  - exists ReadHandler. cbn. rewrite He. by eexists _, _.
  - exists ReadContext. cbn. rewrite He. by eexists _, _.
  - exists ReadHandler. cbn. rewrite He. by eexists _, _.
  - exists Proceed. cbn. destruct Hret as [[[res p'] w'] ->].
    by eexists _, _.
  - exists Proceed. cbn. destruct (finish_effect i q res p sh Hsh) as (p' & r' & -> & ? & ?);
      [by exists e|]. by eexists _, _.
  - exists Proceed. cbn. by eexists _, _.
Qed.

Definition c_ok (s : CState W) : Prop :=
  shared_ok (c_shared s) /\ Forall (pc_ok (sh_reg (c_shared s))) (c_threads s).

Lemma c_ok_initial w n : c_ok (c_initial w n).
Proof using Type.
  split; [split; [apply reg_wf_empty|done|done]|]. cbn. by apply Forall_replicate.
Qed.

(** Every thread about to call a handler calls one that returns. *)
Definition c_returns (s : CState W) : Prop := Forall (fun pc => pc_returns pc (c_shared s)) (c_threads s).

Lemma sched_effect t a s : c_ok s -> c_returns s -> action_ok a -> safely (sched invoke t a s) c_ok.
Proof using Type.
  intros [Hsh Hth] Hret Ha. unfold sched. destruct (c_threads s !! t) as [pc|] eqn:Ht; [|done].
  pose proof (step_effect a pc (c_shared s) Hsh (proj1 (Forall_lookup _ _) Hth _ _ Ht) Ha
    (proj1 (Forall_lookup _ _) Hret _ _ Ht)) as H.
  destruct (thread_step invoke a pc (c_shared s)) as [[pc' sh']| |]; [|done|done].
  destruct H as (? & ? & Hk). cbn in *. split; [done|]. cbn. apply Forall_insert; [|done].
  eapply Forall_impl; [exact Hth|]. intros pc0. by apply pc_ok_kept.
Qed.

(** A thread in a call goes on. *)
Lemma sched_progress t pc s :
  c_ok s -> c_returns s -> c_threads s !! t = Some pc -> steps_left pc <> 0%nat ->
  exists a s' pc', action_ok a /\ sched invoke t a s = Ret s' /\
    c_threads s' !! t = Some pc' /\ steps_left pc = S (steps_left pc').
Proof using Type.
  intros [Hsh Hth] Hret Ht Hn. pose proof (proj1 (Forall_lookup _ _) Hth _ _ Ht) as Hpc.
  destruct (step_progress pc (c_shared s) Hsh Hpc (proj1 (Forall_lookup _ _) Hret _ _ Ht) Hn) as (a & pc' & sh' & E & Ha & Hl).
  exists a. eexists. exists pc'. split; [done|]. unfold sched. rewrite Ht, E. run.
  split; [done|]. split; [|done]. cbn. apply list_lookup_insert_eq. by eapply lookup_lt_Some.
Qed.
End safety.

(** ** Interleavings without removal or replacement *)

(** The same registration, with other statistics. *)
Definition same_reg (e e' : EventHandlerEntry) : Prop :=
  entry_key e' = entry_key e /\ eh_handler e' = eh_handler e /\ eh_context e' = eh_context e.

(** Every entry in use stays where it is. *)
Definition grows (r r' : EventHandlerRegistry) : Prop :=
  forall i e, live r !! i = Some e -> exists e', live r' !! i = Some e' /\ same_reg e e'.

(** Slot [i] holds the registration [q] asks for. *)
Definition target (r : EventHandlerRegistry) (i : nat) (q : MgmtCommandRequest)
    (P : EventHandlerEntry -> Prop) : Prop :=
  exists e, live r !! i = Some e /\ entry_key e = request_key q /\ P e.

Definition pc_calm (r : EventHandlerRegistry) (pc : reg_pc) : Prop :=
  match pc with
  | Looked i q _ | Returned i q _ _ => target r i q (fun _ => True)
  | HasHandler i q _ f => target r i q (fun e => eh_handler e = f)
  | HasContext i q _ c => target r i q (fun e => eh_context e = c)
  | Invoking i q _ f c => target r i q (fun e => eh_handler e = f /\ eh_context e = c)
  | Outside _ | Listed _ => True
  end.

Record shared_calm {W} (sh : Shared W) : Prop := {
  sc_reg : reg_wf (sh_reg sh);
  sc_unique : reg_unique (sh_reg sh);
  sc_count : forall e, e ∈ live (sh_reg sh) ->
    eh_invocation_count e = u32 (Z.of_nat (length (dispatches_of (entry_key e) (sh_done sh))));
  sc_known : forall d, d ∈ sh_done sh -> d.1 ∈ (entry_key <$> live (sh_reg sh)) }.

Lemma grows_refl r : grows r r.
Proof. intros i e He. exists e. by split. Qed.

Lemma target_grows r r' i q P P' :
  grows r r' -> (forall e e', same_reg e e' -> P e -> P' e') -> target r i q P -> target r' i q P'.
Proof.
  intros Hg HP (e & He & Hk & Pe). destruct (Hg _ _ He) as (e' & He' & Hs).
  exists e'. split; [done|]. split; [|by eapply HP]. by rewrite (proj1 Hs).
Qed.

Lemma pc_calm_grows r r' pc : grows r r' -> pc_calm r pc -> pc_calm r' pc.
Proof.
  intros Hg. destruct pc; cbn; try done; (eapply target_grows; [done|]);
    intros e e' (? & Hh & Hc); rewrite ?Hh, ?Hc; done.
Qed.

Lemma no_dispatches k (l : list ((Z * list byte) * Z)) :
  (forall d, d ∈ l -> d.1 <> k) -> dispatches_of k l = [].
Proof.
  induction l as [|[k' res] l IH]; intros H; [done|]. rewrite dispatches_of_cons, decide_False.
  - apply IH. intros d Hd. apply H. by apply elem_of_cons; right.
  - apply (H (k', res)). by apply elem_of_cons; left.
Qed.

Lemma calm_append {W} (sh : Shared W) r e :
  shared_calm sh -> reg_wf r -> live r = live (sh_reg sh) ++ [e] ->
  (entry_key e ∉ (entry_key <$> live (sh_reg sh))) -> eh_invocation_count e = 0 ->
  shared_calm (with_reg sh r) /\ grows (sh_reg sh) r.
Proof.
  intros [Hr Hu Hc Hk] Hr' Hl Hnew H0. split; [split; cbn [with_reg sh_reg sh_done]|].
  - done.
  - unfold reg_unique. rewrite Hl, fmap_app. apply NoDup_app. split; [done|].
    split; [|apply NoDup_singleton]. by intros x Hx ->%list_elem_of_singleton.
  - intros e' He'. rewrite Hl in He'.
    apply elem_of_app in He' as [He'|He'%list_elem_of_singleton]; [by apply Hc|subst e'].
    rewrite no_dispatches; [done|]. intros d Hd E. apply Hnew. rewrite <- E. by apply Hk.
  - intros d Hd. rewrite Hl, fmap_app. apply elem_of_app. left. by apply Hk.
  - intros i e' He'. exists e'. split; [|by split]. rewrite Hl. by apply lookup_app_l_Some.
Qed.

Lemma calm_counted {W} i q res latency (sh : Shared W) e :
  shared_calm sh -> live (sh_reg sh) !! i = Some e -> entry_key e = request_key q ->
  let r := counted (sh_reg sh) i e res latency in
  shared_calm (mkShared r (sh_world sh) ((request_key q, res) :: sh_done sh)) /\
  grows (sh_reg sh) r.
Proof.
  intros [Hr Hu Hc Hk] Hi Hq r.
  assert (live r = <[i := bump e latency]> (live (sh_reg sh))) as Hl.
  { destruct (live_lookup _ _ _ Hi) as [_ ?]. unfold r, counted, live. cbn.
    by rewrite take_insert_lt. }
  assert (entry_key <$> live r = entry_key <$> live (sh_reg sh)) as Hkeys.
  { rewrite Hl, list_fmap_insert. apply list_insert_id. by rewrite list_lookup_fmap, Hi. }
  split; [split; cbn [sh_reg sh_done]|].
  - by apply reg_wf_counted.
  - unfold reg_unique. by rewrite Hkeys.
  - rewrite Hl. intros e' (j & Hj)%list_elem_of_lookup. rewrite dispatches_of_cons.
    destruct (decide (i = j)) as [<-|Hne].
    + rewrite list_lookup_insert_eq in Hj by by eapply lookup_lt_Some.
      injection Hj as <-. change (entry_key (bump e latency)) with (entry_key e).
      rewrite decide_True by done. cbn [bump eh_invocation_count].
      rewrite (Hc e) by by eapply list_elem_of_lookup_2. rewrite wrap_add_l. f_equal. cbn. lia.
    + rewrite list_lookup_insert_ne in Hj by done. rewrite decide_False.
      { apply Hc. by eapply list_elem_of_lookup_2. }
      intros E. apply Hne. eapply (proj1 (NoDup_alt _) Hu); rewrite list_lookup_fmap.
      * by rewrite Hi.
      * rewrite Hj. cbn. by rewrite <- E, Hq.
  - rewrite Hkeys. intros d [->|Hd]%elem_of_cons; [|by apply Hk]. cbn. rewrite <- Hq.
    apply list_elem_of_fmap. exists e. split; [done|]. by eapply list_elem_of_lookup_2.
  - intros j e' He'. rewrite Hl. destruct (decide (i = j)) as [<-|Hne].
    + exists (bump e latency). rewrite list_lookup_insert_eq by by eapply lookup_lt_Some.
      split; [done|]. by simplify_eq.
    + exists e'. rewrite list_lookup_insert_ne by done. by split.
Qed.

Lemma calm_reset {W} (sh : Shared W) r :
  shared_calm sh -> reg_wf r -> live r = reset_entry <$> live (sh_reg sh) ->
  shared_calm (mkShared r (sh_world sh) []) /\ grows (sh_reg sh) r.
Proof.
  intros [Hr Hu Hc Hk] Hr' Hl. split; [split; cbn [sh_reg sh_done]|].
  - done.
  - unfold reg_unique. rewrite Hl, <- list_fmap_compose. exact Hu.
  - rewrite Hl. by intros e (e' & -> & _)%list_elem_of_fmap.
  - by intros d ?%not_elem_of_nil.
  - intros i e He. exists (reset_entry e). rewrite Hl, list_lookup_fmap, He. by split.
Qed.

(** A lookup that succeeds gives the slot of the registration asked for. *)
Lemma lookup_target r q p i q' p' r' :
  reg_wf r -> wf_request q -> wf_response p ->
  dispatch_lookup r (Some q) (Some p) = Some (DispatchInvoke i q' p', r') ->
  q' = q /\ r' = r /\ target r i q (fun _ => True).
Proof.
  intros Hr Hq Hp H.
  pose proof (dispatch_lookup_effect r q p Hr (wq_module _ Hq) (ws_module _ Hp)) as Hl.
  destruct (mgmt_request_validate (Some q) =? 0); [by rewrite Hl in H|].
  destruct Hl as [(j & sm & (e & Hj & [Hc Hn] & _) & _ & E)|[_ E]]; rewrite E in H; [|done].
  simplify_eq. split; [done|]. split; [done|]. exists e. split; [done|]. split; [|done].
  unfold entry_key, request_key. by rewrite Hn, Hc.
Qed.

Lemma calm_register {W} (sh : Shared W) name s cmd h c ret r :
  shared_calm sh -> cstring name = Some s -> (length s <= 63)%nat -> in_u 8 cmd ->
  abs (sh_reg sh) !! (cmd, s) = None ->
  handler_register (sh_reg sh) (Some name) cmd h c = Some (ret, r) ->
  shared_calm (with_reg sh r) /\ grows (sh_reg sh) r.
Proof.
  intros Hsh Hs Hlen Hc Hnew H. pose proof (sc_reg _ Hsh) as Hr.
  assert (handler_register (sh_reg sh) (Some name) cmd h c = Some (ret, sh_reg sh) ->
          shared_calm (with_reg sh r) /\ grows (sh_reg sh) r) as Hsame.
  { rewrite H. intros [= ->]. rewrite with_reg_same. split; [done|apply grows_refl]. }
  destruct ((h =? 0) || (MGMT_CMD_MAX <=? cmd)) eqn:E.
  { apply Hsame. unfold handler_register in *. rewrite E in *. by simplify_eq. }
  tests. destruct (handler_register_effect (sh_reg sh) Hr name s Hs cmd h c)
    as (ret' & r' & H' & Hr' & _ & _ & Hcase); [done|unfold in_u in Hc; lia|].
  assert (ret' = ret /\ r' = r) as [-> ->] by (split; congruence).
  apply abs_entries_not_in in Hnew.
  destruct Hcase as [(i & e & _ & (e' & Hi & Hk & _) & _)
    |[(_ & _ & _ & n & Hn & Hlive)|(_ & _ & _ & ->)]]; [exfalso| |by apply Hsame].
  - apply Hnew. apply list_elem_of_fmap. exists e'. split; [done|]. by eapply list_elem_of_lookup_2.
  - rewrite take_ge in Hn by done. eapply calm_append; [done|done|exact Hlive| |done].
    unfold entry_key, entry_name; cbn. by rewrite Hn.
Qed.

Lemma calm_call {W} k (sh sh' : Shared W) pc :
  shared_calm sh -> action_ok (Call k) -> calm (sh_reg sh) (Call k) ->
  start_call k sh = Ret (pc, sh') ->
  shared_calm sh' /\ pc_calm (sh_reg sh') pc /\ grows (sh_reg sh) (sh_reg sh').
Proof.
  intros Hsh Ha Hcalm H. pose proof (sc_reg _ Hsh) as Hr.
  destruct k; cbn [action_ok calm start_call] in *; try done.
  - destruct Hcalm as (s & Hs & Hlen & Hnew).
    apply exec_bind_inv in H as ([ret r] & E & H). simplify_eq.
    destruct (handler_register _ _ _ _ _) as [[ret' r']|] eqn:E'; [|done]. cbn in E. simplify_eq.
    destruct (calm_register sh _ s _ _ _ _ _ Hsh Hs Hlen (proj2 Ha) Hnew E'). by cbn.
  - apply exec_bind_inv in H as ([st r] & E & H).
    destruct (dispatch_lookup _ _ _) as [[st' r']|] eqn:E'; [|done]. cbn in E. simplify_eq.
    destruct Ha as [Hq Hp]. destruct st as [res p'|i q p'].
    + assert (r = sh_reg sh) as ->.
      { pose proof (dispatch_lookup_effect (sh_reg sh) req resp Hr (wq_module _ Hq) (ws_module _ Hp)) as Hl.
        destruct (mgmt_request_validate (Some req) =? 0); [congruence|].
        destruct Hl as [(i & sm & _ & _ & Hl)|[_ Hl]]; congruence. }
      simplify_eq. rewrite with_reg_same. split; [done|]. split; [done|apply grows_refl].
    + destruct (lookup_target _ _ _ _ _ _ _ Hr Hq Hp E') as (-> & -> & Ht). simplify_eq.
      rewrite with_reg_same. split; [done|]. split; [done|apply grows_refl].
  - destruct (handler_list_returns (sh_reg sh) buf Hr) as (ret & b & E & _); [apply Ha..|].
    rewrite E in H. revert H. run. rewrite with_reg_same.
    case_match; intros [= <- <-]; (split; [done|]); (split; [done|apply grows_refl]).
  - rewrite handler_stats_effect in H by done. revert H. run. rewrite with_reg_same.
    intros [= <- <-]. split; [done|]. split; [done|apply grows_refl].
  - destruct (handler_stats_reset_effect (sh_reg sh) Hr) as (r & E & Hr' & Hl & _).
    rewrite E in H. revert H. run. intros [= <- <-].
    destruct (calm_reset sh r Hsh Hr' Hl). by cbn.
Qed.

Section calm.
Context {W : Type} (invoke : Z -> Z -> MgmtCommandRequest -> MgmtCommandResponse -> W ->
  option (Z * MgmtCommandResponse * W)).

(** Reading a field of the entry pointed to. *)
Lemma read_target r i q P e :
  target r i q P -> entries r !! i = Some e -> live r !! i = Some e /\ entry_key e = request_key q /\ P e.
Proof using Type.
  intros (e' & He' & Hk & HP) He. destruct (live_lookup _ _ _ He') as [? _].
  assert (e' = e) as -> by congruence. done.
Qed.

Lemma calm_thread_step a pc (sh sh' : Shared W) pc' :
  shared_calm sh -> pc_calm (sh_reg sh) pc -> action_ok a -> calm (sh_reg sh) a ->
  thread_step invoke a pc sh = Ret (pc', sh') ->
  shared_calm sh' /\ pc_calm (sh_reg sh') pc' /\ grows (sh_reg sh) (sh_reg sh').
Proof using Type.
  intros Hsh Hpc Ha Hcalm H.
  destruct pc, a; cbn [thread_step] in H; try done; cbn [pc_calm] in Hpc;
    [by eapply calm_call|..];
    try (apply exec_bind_inv in H as (e & E & H);
         destruct (entries (sh_reg sh) !! i) as [e'|] eqn:E'; [|done]; cbn in E;
         simplify_eq; destruct (read_target _ _ _ _ _ Hpc E') as (? & ? & ?);
         split; [done|]; split; [|apply grows_refl]; by exists e).
  - apply exec_bind_inv in H as ([[res p'] w'] & E & H). simplify_eq. cbn.
    destruct Hsh. split; [by split|]. split; [|apply grows_refl].
    eapply target_grows; [apply grows_refl| |exact Hpc]. done.
  - destruct Hpc as (e & Hi & Hk & _).
    rewrite (dispatch_finish_effect _ _ _ _ _ (sc_reg _ Hsh) Hi) in H. revert H. run.
    intros [= <- <-].
    destruct (calm_counted i q res (mgmt_response_latency_us (Some (conclude res p))) sh e Hsh Hi Hk).
    by cbn.
  - simplify_eq. split; [done|]. split; [done|apply grows_refl].
Qed.

Definition c_calm (s : CState W) : Prop :=
  shared_calm (c_shared s) /\ Forall (pc_calm (sh_reg (c_shared s))) (c_threads s).

Lemma calm_step_inv s s' : c_calm s -> calm_step invoke s s' -> c_calm s'.
Proof using Type.
  intros [Hsh Hth] (t & a & Ha & Hcalm & H). unfold sched in H.
  destruct (c_threads s !! t) as [pc|] eqn:Ht; [|done].
  apply exec_bind_inv in H as ([pc' sh'] & E & H). simplify_eq.
  destruct (calm_thread_step a pc (c_shared s) sh' pc' Hsh) as (? & ? & Hg); try done.
  { exact (proj1 (Forall_lookup _ _) Hth _ _ Ht). }
  split; [done|]. cbn. apply Forall_insert; [|done].
  eapply Forall_impl; [exact Hth|]. intros pc0. by apply pc_calm_grows.
Qed.

Lemma calm_reachable w n s : rtc (calm_step invoke) (c_initial w n) s -> c_calm s.
Proof using Type.
  intros H. eapply rtc_invariant; [apply calm_step_inv| |done]. split.
  - split; cbn; [apply reg_wf_empty|constructor|by intros e ?%not_elem_of_nil
                |by intros d ?%not_elem_of_nil].
  - cbn. by apply Forall_replicate.
Qed.
End calm.

(** ** Removal and replacement during a dispatch *)

(** The lookup of a registered key gives its slot. *)
Lemma lookup_position r q p l1 e l2 :
  reg_wf r -> reg_unique r -> wf_request q -> wf_response p ->
  mgmt_request_validate (Some q) = 1 -> terminated (rq_target_module q) ->
  live r = l1 ++ e :: l2 -> entry_key e = request_key q ->
  exists p', dispatch_lookup r (Some q) (Some p) = Some (DispatchInvoke (length l1) q p', r).
Proof.
  intros Hr Hu Hq Hp Hv [s Hs] Hl Hk.
  assert (live r !! length l1 = Some e) as He by (rewrite Hl; apply list_lookup_middle; done).
  pose proof (dispatch_lookup_effect r q p Hr (wq_module _ Hq) (ws_module _ Hp)) as Hd.
  rewrite Hv in Hd. cbn [Z.eqb] in Hd. unfold request_key in Hk. rewrite Hs in Hk. cbn in Hk.
  destruct Hd as [(i & sm & Hf & _ & E)|[Hf _]]; apply (found_by_key _ _ _ _ _ Hs) in Hf.
  - destruct Hf as (e0 & Hi & Hk0 & _). exists (echo q p sm).
    assert (i = length l1) as ->; [|done].
    eapply (proj1 (NoDup_alt _) Hu); rewrite list_lookup_fmap.
    + by rewrite Hi.
    + rewrite He. cbn. by rewrite Hk0, Hk.
  - exfalso. apply Hf. rewrite <- Hk. apply list_elem_of_fmap. exists e.
    split; [done|]. by eapply list_elem_of_lookup_2.
Qed.

(** Removing an entry moves the next one into its slot. *)
Lemma unregister_position r name s cmd l1 e l2 :
  reg_wf r -> reg_unique r -> cstring name = Some s -> live r = l1 ++ e :: l2 ->
  entry_key e = (cmd, s) ->
  exists r', handler_unregister r (Some name) cmd = Some (0, r') /\ reg_wf r' /\
    live r' = l1 ++ l2 /\ abs r' !! (cmd, s) = None.
Proof.
  intros Hr Hu Hs Hl Hk.
  destruct (handler_unregister_effect r name s cmd Hr Hs) as (ret & r' & E & Hr' & _ & _ & Hcase).
  unfold reg_unique in Hu. rewrite Hl, fmap_app, fmap_cons in Hu.
  apply NoDup_app in Hu as (Hu1 & Hu2 & Hu3). apply NoDup_cons in Hu3 as [Hu3 Hu4].
  assert (entry_key e ∉ (entry_key <$> l1)) as Hn1.
  { intros H. apply (Hu2 _ H). by apply elem_of_cons; left. }
  destruct Hcase as [(k1 & e0 & k2 & Hl0 & Hk0 & Hn & -> & Hl')|(Hn & _)].
  - assert (k1 = l1 /\ e0 = e /\ k2 = l2) as (-> & -> & ->).
    { rewrite <- Hk in Hk0, Hn. assert (length k1 = length l1) as Hlen.
      { rewrite Hl0 in Hl. destruct (Nat.lt_trichotomy (length k1) (length l1)) as [H|[H|H]]; [|done|].
        - exfalso. apply Hn1. rewrite <- Hk0. apply list_elem_of_fmap. exists e0. split; [done|].
          apply (list_elem_of_lookup_2 _ (length k1)). rewrite <- (lookup_app_l l1 (e :: l2)) by done.
          rewrite <- Hl. by apply list_lookup_middle.
        - exfalso. apply Hn. apply list_elem_of_fmap. exists e. split; [done|].
          apply (list_elem_of_lookup_2 _ (length l1)). rewrite <- (lookup_app_l k1 (e0 :: k2)) by done.
          rewrite Hl. by apply list_lookup_middle. }
      rewrite Hl in Hl0. apply app_inj_1 in Hl0 as [-> [= -> ->]]; done. }
    exists r'. split; [done|]. split; [done|]. split; [done|].
    apply abs_entries_not_in. rewrite Hl', fmap_app, <- Hk.
    intros [H|H]%elem_of_app; [by apply Hn1|by apply Hu3].
  - exfalso. apply Hn. rewrite Hl, fmap_app, fmap_cons, <- Hk. apply elem_of_app. right.
    by apply elem_of_cons; left.
Qed.

(** Replacing a registration changes its slot in place. *)
Lemma register_position r name s cmd h c l1 e l2 :
  reg_wf r -> reg_unique r -> cstring name = Some s -> h <> 0 -> 0 <= cmd < MGMT_CMD_MAX ->
  live r = l1 ++ e :: l2 -> entry_key e = (cmd, s) ->
  exists r' e', handler_register r (Some name) cmd h c = Some (0, r') /\ reg_wf r' /\
    live r' = l1 ++ e' :: l2 /\ eh_handler e' = h /\ eh_context e' = c.
Proof.
  intros Hr Hu Hs Hh Hc Hl Hk.
  destruct (handler_register_effect r Hr name s Hs cmd h c Hh Hc)
    as (ret & r' & E & Hr' & _ & _ & Hcase).
  assert (live r !! length l1 = Some e) as He by (rewrite Hl; apply list_lookup_middle; done).
  assert ((cmd, s) ∈ (entry_key <$> live r)) as Hin.
  { rewrite <- Hk. apply list_elem_of_fmap. exists e. split; [done|]. by eapply list_elem_of_lookup_2. }
  destruct Hcase as [(i & e0 & Hi & (e1 & Hi1 & Hk1 & _) & -> & Hl')|[(Hn & _)|(Hn & _)]]; try done.
  assert (i = length l1) as ->.
  { eapply (proj1 (NoDup_alt _) Hu); rewrite list_lookup_fmap; [by rewrite Hi1|].
    rewrite He. cbn. by rewrite Hk, Hk1. }
  eexists r', _. split; [done|]. split; [done|]. rewrite Hl', Hl.
  rewrite insert_app_r_alt, Nat.sub_diag by done. by cbn.
Qed.

(** A schedule is a sequence of steps. *)
Lemma schedule_cstep {W} invoke l (s s' : CState W) :
  Forall (fun x => action_ok x.2) l -> run_schedule invoke l s = Ret s' -> rtc (cstep invoke) s s'.
Proof.
  intros Hl. revert s. induction Hl as [|[t a] l Ha Hl IH]; intros s H; cbn [run_schedule] in H.
  - simplify_eq. apply rtc_refl.
  - apply exec_bind_inv in H as (s1 & E & H). eapply rtc_l; [|by apply IH]. by exists t, a.
Qed.

(** The same for a schedule in which each action is allowed where it happens. *)
Fixpoint schedule_allowed {W} (allowed : EventHandlerRegistry -> action -> Prop)
    (invoke : Z -> Z -> MgmtCommandRequest -> MgmtCommandResponse -> W ->
    option (Z * MgmtCommandResponse * W)) (l : list (nat * action)) (s : CState W) : Prop :=
  match l with
  | [] => True
  | (t, a) :: l' => allowed (sh_reg (c_shared s)) a /\
      safely (sched invoke t a s) (fun s => schedule_allowed allowed invoke l' s)
  end.

Lemma schedule_allowed_step {W} (allowed : EventHandlerRegistry -> action -> Prop) invoke l (s s' : CState W) :
  Forall (fun x => action_ok x.2) l -> schedule_allowed allowed invoke l s ->
  run_schedule invoke l s = Ret s' ->
  rtc (fun s s' => exists t a, action_ok a /\ allowed (sh_reg (c_shared s)) a /\ sched invoke t a s = Ret s') s s'.
Proof.
  intros Hl. revert s. induction Hl as [|[t a] l Ha Hl IH]; intros s Hc H; cbn [run_schedule] in H.
  - simplify_eq. apply rtc_refl.
  - apply exec_bind_inv in H as (s1 & E & H). destruct Hc as [Hc Hs]. rewrite E in Hs.
    eapply rtc_l; [|by apply IH]. by exists t, a.
Qed.

(** A handler that counts its calls, a registry with two handlers, a request. *)
Definition counting_invoke (f c : Z) (q : MgmtCommandRequest) (p : MgmtCommandResponse) (w : nat)
    : option (Z * MgmtCommandResponse * nat) := Some (0, p, S w).

Definition thread_request : MgmtCommandRequest :=
  mkRequest 5 MGMT_CMD_PING 0 0 zero_timespec (lit "router" ++ zeros 57) (zeros 512).

Definition stop_entry : EventHandlerEntry :=
  mkEntry MGMT_CMD_SHUTDOWN (lit "router" ++ zeros 57) 4160 8200 0 0.

Definition pair_registry : EventHandlerRegistry :=
  set_entries demo_registry (<[1%nat := stop_entry]> (entries demo_registry)) 2.

Lemma thread_request_wf : wf_request thread_request.
Proof. split; try reflexivity; repeat split; vm_compute; congruence. Qed.

Lemma reg_wf_pair : reg_wf pair_registry.
Proof.
  apply (reg_wf_append demo_registry stop_entry); [apply reg_wf_demo|done|].
  apply wf_new_entry; [split; by vm_compute|by eexists|done|done].
Qed.

(** Two threads: the first registers and dispatches, the second dispatches in
    between and is inside of its handler. *)
Definition demo_schedule : list (nat * action) :=
  [(0%nat, Call (CallRegister (lit "router") MGMT_CMD_PING 4096 8192));
   (0%nat, Call (CallDispatch thread_request zero_response));
   (1%nat, Call (CallDispatch thread_request zero_response));
   (0%nat, ReadContext); (0%nat, ReadHandler); (1%nat, ReadHandler); (1%nat, ReadContext);
   (0%nat, Proceed); (0%nat, Proceed)].

Lemma demo_schedule_ok : Forall (fun x => action_ok x.2) demo_schedule.
Proof.
  repeat apply Forall_cons_2; try exact I; try (split; [apply thread_request_wf|apply wf_zero_response]);
    [|apply Forall_nil_2]. split; [eexists; reflexivity|split; vm_compute; congruence].
Qed.

(** Compute through a schedule up to the next operation of the registry. *)
Ltac sched_run :=
  cbn [run_schedule sched c_threads c_shared thread_step start_call sh_reg sh_world sh_done
       with_reg mbind exec_bind obj lookup list_lookup insert list_insert].

(** * Properties *)

(** C15: as long as no registration is removed or replaced (keys are only
    added), concurrent dispatches are exact: a thread about to call a handler
    has read the handler and the context currently registered for the key its
    request asks for, and the call count of every key is the number of
    dispatches to it completed since the last reset, modulo 2^32. *)
Theorem registry_threads_exact {W} (invoke : Z -> Z -> MgmtCommandRequest ->
    MgmtCommandResponse -> W -> option (Z * MgmtCommandResponse * W)) w n s :
  rtc (calm_step invoke) (c_initial w n) s ->
  let r := sh_reg (c_shared s) in
  (forall t i q p f c, c_threads s !! t = Some (Invoking i q p f c) ->
     exists info, abs r !! request_key q = Some info /\ hi_handler info = f /\
       hi_context info = c) /\
  (forall k info, abs r !! k = Some info ->
     hi_count info = u32 (Z.of_nat (length (dispatches_of k (sh_done (c_shared s)))))).
Proof.
  intros Hreach r. destruct (calm_reachable invoke w n s Hreach) as [[Hr Hu Hc _] Hth].
  fold r in Hr, Hu, Hc, Hth.
  assert (forall e, e ∈ live r -> abs r !! entry_key e = Some (entry_info e)) as Habs.
  { intros e (i & Hi)%list_elem_of_lookup. apply (abs_entries_lookup _ i); [done|].
    intros j e' Hj He' E. assert (j = i); [|lia].
    eapply (proj1 (NoDup_alt _) Hu); rewrite list_lookup_fmap; [by rewrite He'|].
    rewrite Hi. cbn. by rewrite E. }
  split.
  - intros t i q p f c Ht.
    destruct (proj1 (Forall_lookup _ _) Hth _ _ Ht) as (e & Hi & Hk & <- & <-).
    exists (entry_info e). rewrite <- Hk. split; [|done]. apply Habs. by eapply list_elem_of_lookup_2.
  - intros k info Hk. destruct (decide (k ∈ (entry_key <$> live r))) as [Hin|Hno%abs_entries_not_in].
    + apply list_elem_of_fmap in Hin as (e & -> & He). rewrite Habs in Hk by done.
      injection Hk as <-. by apply Hc.
    + unfold abs in Hk. by rewrite Hno in Hk.
Qed.

Lemma registry_threads_exact_witness :
  exists s i p, run_schedule counting_invoke demo_schedule (c_initial 0%nat 2) = Ret s /\
    c_threads s !! 1%nat = Some (Invoking i thread_request p 4096 8192) /\
    exists info, abs (sh_reg (c_shared s)) !! request_key thread_request = Some info /\
      hi_handler info = 4096 /\ hi_count info = 1.
Proof.
  destruct (run_schedule counting_invoke demo_schedule (c_initial 0%nat 2)) as [s| |] eqn:E;
    [|exfalso; vm_compute in E; congruence..].
  assert (sh_done (c_shared s) = [(request_key thread_request, 0)]) as Hd.
  { vm_compute in E. injection E as <-. vm_compute. reflexivity. }
  assert (exists i p, c_threads s !! 1%nat = Some (Invoking i thread_request p 4096 8192))
    as (i & p & Ht).
  { vm_compute in E. injection E as <-. eexists _, _. vm_compute. reflexivity. }
  destruct (registry_threads_exact counting_invoke 0%nat 2 s) as [H1 H2].
  - apply (schedule_allowed_step calm _ demo_schedule); [apply demo_schedule_ok| |exact E].
    split; [exists (bs "router"); split; [reflexivity|split; [vm_compute; lia|reflexivity]]|].
    vm_compute. repeat split.
  - exists s, i, p. split; [reflexivity|]. split; [exact Ht|].
    destruct (H1 _ _ _ _ _ _ Ht) as (info & Hi & Hh & _). exists info.
    split; [exact Hi|]. split; [exact Hh|]. rewrite (H2 _ _ Hi), Hd. vm_compute. reflexivity.
Defined.

(** Removing or replacing a registration while another thread dispatches
    to it breaks the dispatch, because the entry is read after the lock has been
    released.  When the key is removed in between, the thread runs the handler
    of the next registration, with its context, on a request that did not ask
    for it, and counts the call there.  When it is replaced between the two
    reads, the new handler runs with the old context. *)
Theorem registry_threads_race {W} (invoke : Z -> Z -> MgmtCommandRequest ->
    MgmtCommandResponse -> W -> option (Z * MgmtCommandResponse * W)) r w q p l1 e e' l2 h c :
  reg_wf r -> reg_unique r -> wf_request q -> wf_response p ->
  mgmt_request_validate (Some q) = 1 -> terminated (rq_target_module q) ->
  live r = l1 ++ e :: e' :: l2 -> entry_key e = request_key q -> h <> 0 ->
  0 <= rq_cmd_type q < MGMT_CMD_MAX ->
  let s := mkCState (mkShared r w []) [Outside None; Outside None] in
  let name := rq_target_module q in
  let cmd := rq_cmd_type q in
  (exists p1 sh, run_schedule invoke
      [(0%nat, Call (CallDispatch q p)); (1%nat, Call (CallUnregister name cmd));
       (0%nat, ReadHandler); (0%nat, ReadContext)] s
     = Ret (mkCState sh [Invoking (length l1) q p1 (eh_handler e') (eh_context e');
                         Outside (Some (Replied 0))]) /\
     abs (sh_reg sh) !! request_key q = None /\
     forall res p2 w2, invoke (eh_handler e') (eh_context e') q p1 w = Some (res, p2, w2) ->
       exists sh2 rep latency, run_schedule invoke [(0%nat, Proceed); (0%nat, Proceed)]
         (mkCState sh [Invoking (length l1) q p1 (eh_handler e') (eh_context e');
                       Outside (Some (Replied 0))])
         = Ret (mkCState sh2 [Outside (Some rep); Outside (Some (Replied 0))]) /\
       live (sh_reg sh2) = l1 ++ bump e' latency :: l2) /\
  (exists p1 sh, run_schedule invoke
      [(0%nat, Call (CallDispatch q p)); (0%nat, ReadContext);
       (1%nat, Call (CallRegister name cmd h c)); (0%nat, ReadHandler)] s
     = Ret (mkCState sh [Invoking (length l1) q p1 h (eh_context e);
                         Outside (Some (Replied 0))])).
Proof.
  intros Hr Hu Hq Hp Hv Ht Hl Hk Hh Hcmd s name cmd.
  destruct (lookup_position r q p l1 e (e' :: l2)) as (p1 & Hlook); try done.
  pose proof Ht as [m Hm]. unfold request_key in Hk |- *. rewrite Hm in Hk |- *. cbn [default] in Hk |- *.
  assert (live r !! length l1 = Some e) as He by (rewrite Hl; by apply list_lookup_middle).
  apply live_lookup in He as [He _].
  split.
  - destruct (unregister_position r name m cmd l1 e (e' :: l2)) as (r' & Hun & Hr' & Hl' & Habs); try done.
    assert (live r' !! length l1 = Some e') as Hlive by (rewrite Hl'; by apply list_lookup_middle).
    pose proof (proj1 (live_lookup _ _ _ Hlive)) as He'.
    exists p1, (mkShared r' w []). split; [|split; [done|]].
    + unfold s. sched_run. rewrite Hlook. sched_run. rewrite Hun. sched_run. rewrite He'.
      sched_run. rewrite He'. by sched_run.
    + intros res p2 w2 Hi. sched_run. rewrite Hi. sched_run.
      rewrite (dispatch_finish_effect _ _ _ _ _ Hr' Hlive). sched_run.
      eexists _, _, _. split; [done|]. cbn [sh_reg].
      destruct (live_lookup _ _ _ Hlive) as [_ Hlt]. unfold live, counted. cbn.
      rewrite take_insert_lt by done. fold (live r'). rewrite Hl'.
      rewrite insert_app_r_alt, Nat.sub_diag by done. by cbn.
  - destruct (register_position r name m cmd h c l1 e (e' :: l2)) as (r' & e2 & Hreg & Hr' & Hl' & Eh & Ec);
      try done.
    assert (live r' !! length l1 = Some e2) as Hlive by (rewrite Hl'; by apply list_lookup_middle).
    pose proof (proj1 (live_lookup _ _ _ Hlive)) as He'.
    exists p1, (mkShared r' w []). unfold s. sched_run. rewrite Hlook. sched_run. rewrite He.
    sched_run. rewrite Hreg. sched_run. rewrite He'. sched_run. by rewrite Eh.
Qed.

Lemma registry_threads_race_witness :
  exists p1 sh, run_schedule counting_invoke
      [(0%nat, Call (CallDispatch thread_request zero_response));
       (1%nat, Call (CallUnregister (lit "router" ++ zeros 57) MGMT_CMD_PING));
       (0%nat, ReadHandler); (0%nat, ReadContext)]
      (mkCState (mkShared pair_registry 0%nat []) [Outside None; Outside None])
    = Ret (mkCState sh [Invoking 0 thread_request p1 4160 8200; Outside (Some (Replied 0))]).
Proof.
  destruct (registry_threads_race counting_invoke pair_registry 0%nat thread_request zero_response
    [] demo_entry stop_entry [] 5000 0) as [(p1 & sh & H & _) _].
  - apply reg_wf_pair.
  - apply NoDup_cons. split; [|apply NoDup_singleton].
    intros E%list_elem_of_singleton. vm_compute in E. congruence.
  - apply thread_request_wf.
  - apply wf_zero_response.
  - reflexivity.
  - eexists; reflexivity.
  - reflexivity.
  - reflexivity.
  - discriminate.
  - split; [vm_compute; congruence|reflexivity].
  - exists p1, sh. exact H.
Defined.
