(* ===== verification/RegistryRaces.v ===== *)
(** * What the threads of the registry may do at the same time (Mgmt/src/event_handler.c)

    RegistryThreads runs the calls step by step, each access atomic.  Here which
    handlers a run calls, and which accesses are data races in C: the reads of
    [handler_dispatch] and [handler_list] outside of the lock against what the
    other functions write under it. *)

From S2P Require Import Prelude CLib MgmtProtocol EventHandler RegistryThreads.

(** ** Accesses *)

(** The fields [handler] and [context] of an entry, and [entry_count]. *)
Inductive reg_loc := LHandler (i : nat) | LContext (i : nat) | LCount.

#[export] Instance reg_loc_eq_dec : EqDecision reg_loc.
Proof. solve_decision. Defined.

(** What a thread reads next, or at the same time in the other order, without
    the lock. *)
Definition unlocked_reads (pc : reg_pc) : list reg_loc :=
  match pc with
  | Looked i _ _ => [LHandler i; LContext i]
  | HasHandler i _ _ _ => [LContext i]
  | HasContext i _ _ _ => [LHandler i]
  | Listed _ => [LCount]
  | _ => []
  end.

Definition slot_locs (i n : nat) : list reg_loc := (LHandler <$> seq i n) ++ (LContext <$> seq i n).

(** What a call writes of these under the lock: an existing registration in
    place, a new one behind the others with the count, a removal from the entry
    removed to the last but one with the count. *)
Definition call_writes (r : EventHandlerRegistry) (k : reg_call) : list reg_loc :=
  match k with
  | CallRegister name cmd h c =>
      if (h =? 0) || (MGMT_CMD_MAX <=? cmd) then []
      else match find_entry (live r) cmd name with
           | Some (Some i) => slot_locs i 1
           | Some None =>
               if Z.of_nat MAX_EVENT_HANDLERS <=? entry_count r then []
               else LCount :: slot_locs (Z.to_nat (entry_count r)) 1
           | None => []
           end
  | CallUnregister name cmd =>
      match find_entry (live r) cmd name with
      | Some (Some i) => LCount :: slot_locs i (Z.to_nat (entry_count r - 1 - Z.of_nat i))
      | _ => []
      end
  | _ => []
  end.

(** The contents of a location. *)
Definition loc_value (r : EventHandlerRegistry) (x : reg_loc) : option Z :=
  match x with
  | LHandler i => eh_handler <$> entries r !! i
  | LContext i => eh_context <$> entries r !! i
  | LCount => Some (entry_count r)
  end.

(** Thread [t] is about to read [x] without the lock, another thread is about to
    do an action of [allowed] that writes it. *)
Definition race {W} (allowed : EventHandlerRegistry -> action -> Prop) (s : CState W) (x : reg_loc) : Prop :=
  exists t t' pc last k, t <> t' /\ c_threads s !! t = Some pc /\ x ∈ unlocked_reads pc /\
    c_threads s !! t' = Some (Outside last) /\ action_ok (Call k) /\ allowed (sh_reg (c_shared s)) (Call k) /\
    x ∈ call_writes (sh_reg (c_shared s)) k.

(** ** Calls that only add registrations *)

(** [good f c]: the handler [f] is made for the context [c].  Only such pairs are
    registered, nothing is removed or replaced. *)
Definition adds (good : Z -> Z -> Prop) (r : EventHandlerRegistry) (a : action) : Prop :=
  calm r a /\ match a with Call (CallRegister _ _ h c) => good h c | _ => True end.

Definition adds_step {W} (invoke : Z -> Z -> MgmtCommandRequest -> MgmtCommandResponse -> W ->
    option (Z * MgmtCommandResponse * W)) good (s s' : CState W) : Prop :=
  exists t a, action_ok a /\ adds good (sh_reg (c_shared s)) a /\ sched invoke t a s = Ret s'.

(** * Lemmas *)

(** ** The writes are those of the calls *)

Lemma slot_locs_spec i n k :
  (LHandler k ∈ slot_locs i n <-> (i <= k < i + n)%nat) /\ (LContext k ∈ slot_locs i n <-> (i <= k < i + n)%nat).
Proof.
  unfold slot_locs. rewrite !elem_of_app, !list_elem_of_fmap. split; split.
  - intros [(j & [= ->] & Hj%elem_of_seq)|(j & ? & _)]; [lia|done].
  - intros H. left. exists k. split; [done|]. by apply elem_of_seq.
  - intros [(j & ? & _)|(j & [= ->] & Hj%elem_of_seq)]; [done|lia].
  - intros H. right. exists k. split; [done|]. by apply elem_of_seq.
Qed.

(** A slot outside of those written keeps its contents. *)
Lemma same_slot r r' x :
  (forall i, x = LHandler i \/ x = LContext i -> entries r' !! i = entries r !! i) ->
  (x = LCount -> entry_count r' = entry_count r) -> loc_value r' x = loc_value r x.
Proof. intros He Hc. destruct x; cbn; [rewrite He by auto|rewrite He by auto|rewrite Hc by auto]; done. Qed.

Lemma register_writes r name cmd h c ret r' x :
  handler_register r (Some name) cmd h c = Some (ret, r') -> x ∉ call_writes r (CallRegister name cmd h c) ->
  loc_value r' x = loc_value r x.
Proof.
  cbn [call_writes]. unfold handler_register, reg_lock, reg_unlock. intros H Hx.
  destruct ((h =? 0) || (MGMT_CMD_MAX <=? cmd)); [by simplify_eq|].
  apply bind_Some in H as (r1 & (l & _ & [= <-])%bind_Some & H).
  apply bind_Some in H as (m & Hm & H). change (find_entry (live r) cmd name = Some m) in Hm. rewrite Hm in Hx.
  destruct m as [i|].
  - lock_inv H. cbn in *. apply same_slot; [|done]. cbn. intros j Hj. apply list_lookup_insert_ne. intros ->. apply Hx.
    destruct (slot_locs_spec j 1 j) as [H1 H2]. destruct Hj as [-> | ->]; [apply H1|apply H2]; lia.
  - cbn [entry_count] in H. destruct (_ <=? _); lock_inv H; cbn in *; [done|]. apply same_slot; cbn.
    + intros j Hj. apply list_lookup_insert_ne. intros <-. apply Hx. apply elem_of_cons. right.
      destruct (slot_locs_spec (Z.to_nat (entry_count r)) 1 (Z.to_nat (entry_count r))) as [H1 H2].
      destruct Hj as [-> | ->]; [apply H1|apply H2]; lia.
    + intros ->. exfalso. apply Hx. by left.
Qed.

Lemma unregister_writes r name cmd ret r' x :
  handler_unregister r (Some name) cmd = Some (ret, r') -> x ∉ call_writes r (CallUnregister name cmd) ->
  loc_value r' x = loc_value r x.
Proof.
  cbn [call_writes]. unfold handler_unregister, reg_lock, reg_unlock. intros H Hx.
  apply bind_Some in H as (r1 & (l & _ & [= <-])%bind_Some & H).
  apply bind_Some in H as (m & Hm & H). change (find_entry (live r) cmd name = Some m) in Hm. rewrite Hm in Hx.
  destruct m as [i|]; [|by lock_inv H]. apply bind_Some in H as (es & Hes & H). lock_inv H. cbn in *.
  apply same_slot; cbn; [|intros ->; exfalso; apply Hx; by left].
  intros j Hj. rewrite (shift_entries_lookup _ _ _ _ _ Hes). apply decide_False. intros Hin. apply Hx.
  apply elem_of_cons. right. destruct (slot_locs_spec i (Z.to_nat (entry_count r - 1 - Z.of_nat i)) j) as [H1 H2].
  destruct Hj as [-> | ->]; [by apply H1|by apply H2].
Qed.

Lemma reset_writes r ret r' x : handler_stats_reset r = Some (ret, r') -> loc_value r' x = loc_value r x.
Proof.
  unfold handler_stats_reset, reg_lock, reg_unlock. intros H. lock_inv H. cbn.
  assert (forall {A} (f : EventHandlerEntry -> A) i, (forall e, f (reset_entry e) = f e) ->
    f <$> ((reset_entry <$> live r) ++ drop (Z.to_nat (entry_count r)) (entries r)) !! i = f <$> entries r !! i) as Hf.
  { intros A f i Hf. rewrite <- !list_lookup_fmap, fmap_app, <- list_fmap_compose. unfold live.
    rewrite (list_fmap_ext (f ∘ reset_entry) f) by (intros; apply Hf). by rewrite <- fmap_app, take_drop. }
  destruct x; cbn; [by apply (Hf _ eh_handler)|by apply (Hf _ eh_context)|done].
Qed.

Lemma counted_writes r i e res latency x :
  entries r !! i = Some e -> loc_value (counted r i e res latency) x = loc_value r x.
Proof.
  intros He. destruct x as [j|j|]; cbn; [..|done]; destruct (decide (i = j)) as [->|Hn];
    try (by rewrite list_lookup_insert_ne); rewrite list_lookup_insert_eq by (by eapply lookup_lt_Some); by rewrite He.
Qed.

(** A step changes only what [call_writes] says. *)
Lemma step_writes {W} invoke a pc (sh : Shared W) pc' sh' x :
  shared_ok sh -> pc_ok (sh_reg sh) pc -> action_ok a -> thread_step invoke a pc sh = Ret (pc', sh') ->
  loc_value (sh_reg sh') x <> loc_value (sh_reg sh) x -> exists k, a = Call k /\ x ∈ call_writes (sh_reg sh) k.
Proof.
  intros Hsh Hpc Ha H Hx. pose proof (so_reg _ Hsh) as Hr. destruct pc, a; cbn [thread_step] in H; try done;
    try (apply exec_bind_inv in H as (e & _ & H); by simplify_eq).
  - exists k. split; [done|]. destruct (decide (x ∈ call_writes (sh_reg sh) k)) as [|Hn]; [done|]. exfalso. apply Hx.
    destruct k; cbn [start_call action_ok] in H, Ha.
    + destruct (handler_register _ _ _ _ _) as [[ret r']|] eqn:E; [|done]. revert H. run. intros [= <- <-].
      by eapply register_writes.
    + destruct (handler_unregister _ _ _) as [[ret r']|] eqn:E; [|done]. revert H. run. intros [= <- <-].
      by eapply unregister_writes.
    + destruct Ha as [Hq Hp]. pose proof (dispatch_lookup_effect (sh_reg sh) req resp Hr (wq_module _ Hq) (ws_module _ Hp)) as Hl.
      destruct (mgmt_request_validate (Some req) =? 0);
        [rewrite Hl in H|destruct Hl as [(i & sm & _ & _ & E)|[_ E]]; rewrite E in H]; revert H; run; intros; by simplify_eq.
    + destruct (handler_list_returns (sh_reg sh) buf Hr) as (ret & b & E & _); [apply Ha..|].
      rewrite E in H. revert H. run. case_match; intros; by simplify_eq.
    + rewrite handler_stats_effect in H by done. revert H. run. intros; by simplify_eq.
    + destruct (handler_stats_reset _) as [[ret r']|] eqn:E; [|done]. revert H. run. intros [= <- <-].
      by eapply reset_writes.
  - apply exec_bind_inv in H as ([[res p'] w'] & _ & H). by simplify_eq.
  - exfalso. apply Hx. destruct Hpc as (e & He & We). rewrite (dispatch_finish_slot _ _ _ _ _ Hr He) in H. revert H. run.
    intros [= <- <-]. cbn [sh_reg]. by apply counted_writes.
  - by simplify_eq.
Qed.

(** ** Registered pairs *)

Section adding.
Context {W : Type} (invoke : Z -> Z -> MgmtCommandRequest -> MgmtCommandResponse -> W ->
  option (Z * MgmtCommandResponse * W)) (good : Z -> Z -> Prop).
Context (good_returns : forall f c q p w, good f c -> is_Some (invoke f c q p w)).

Definition paired (r : EventHandlerRegistry) : Prop :=
  Forall (fun e => good (eh_handler e) (eh_context e)) (live r).

Lemma register_paired r name s cmd h c ret r' :
  reg_wf r -> cstring name = Some s -> in_u 8 cmd -> good h c -> paired r ->
  handler_register r (Some name) cmd h c = Some (ret, r') -> paired r'.
Proof using Type.
  clear good_returns. intros Hr Hs Hc Hg Hp H. destruct ((h =? 0) || (MGMT_CMD_MAX <=? cmd)) eqn:E.
  { unfold handler_register in H. rewrite E in H. by simplify_eq. }
  tests. destruct (handler_register_effect r Hr name s Hs cmd h c)
    as (ret' & r1 & H' & _ & _ & _ & Hcase); [done|unfold in_u in Hc; lia|].
  assert (r1 = r') as -> by congruence. unfold paired in *.
  destruct Hcase as [(i & e & _ & _ & _ & ->)|[(_ & _ & _ & n & _ & ->)|(_ & _ & _ & ->)]]; [| |done].
  - by apply Forall_insert.
  - apply Forall_app. split; [done|]. by apply Forall_singleton.
Qed.

Lemma step_paired a pc (sh : Shared W) pc' sh' :
  shared_calm sh -> pc_calm (sh_reg sh) pc -> action_ok a -> adds good (sh_reg sh) a ->
  thread_step invoke a pc sh = Ret (pc', sh') -> paired (sh_reg sh) -> paired (sh_reg sh').
Proof using Type.
  clear good_returns. intros Hsh Hpc Ha [Hcalm Hg] H Hp. pose proof (sc_reg _ Hsh) as Hr.
  destruct pc, a; cbn [thread_step] in H; try done; try (apply exec_bind_inv in H as (e & _ & H); by simplify_eq).
  - destruct k; cbn [start_call action_ok calm] in H, Ha, Hcalm; try done.
    + destruct (handler_register _ _ _ _ _) as [[ret r']|] eqn:E; [|done]. revert H. run. intros [= <- <-].
      destruct Hcalm as (s & Hs & _). by eapply register_paired; try apply Ha.
    + destruct Ha as [Hq Hw]. pose proof (dispatch_lookup_effect (sh_reg sh) req resp Hr (wq_module _ Hq) (ws_module _ Hw)) as Hl.
      destruct (mgmt_request_validate (Some req) =? 0);
        [rewrite Hl in H|destruct Hl as [(i & sm & _ & _ & E)|[_ E]]; rewrite E in H]; revert H; run; intros; by simplify_eq.
    + destruct (handler_list_returns (sh_reg sh) buf Hr) as (ret & b & E & _); [apply Ha..|].
      rewrite E in H. revert H. run. case_match; intros; by simplify_eq.
    + rewrite handler_stats_effect in H by done. revert H. run. intros; by simplify_eq.
    + destruct (handler_stats_reset_effect (sh_reg sh) Hr) as (r & E & _ & Hl & _). rewrite E in H. revert H. run.
      intros [= <- <-]. unfold paired in *. cbn [sh_reg]. rewrite Hl. apply Forall_fmap. eapply Forall_impl; [exact Hp|done].
  - apply exec_bind_inv in H as ([[res p'] w'] & _ & H). by simplify_eq.
  - destruct Hpc as (e & Hi & Hk & _). destruct (live_lookup _ _ _ Hi) as [He Hlt].
    rewrite (dispatch_finish_slot _ _ _ _ _ Hr He) in H. revert H. run. intros [= <- <-]. unfold paired, live in *. cbn.
    rewrite take_insert_lt by done. apply Forall_insert; [done|]. exact (proj1 (Forall_lookup _ _) Hp _ _ Hi).
  - by simplify_eq.
Qed.

Definition c_added (s : CState W) : Prop := c_ok s /\ c_calm s /\ paired (sh_reg (c_shared s)).

Lemma added_returns s : c_added s -> c_returns invoke s.
Proof using good_returns.
  intros (_ & [_ Hth] & Hp). apply Forall_lookup. intros t pc Ht.
  pose proof (proj1 (Forall_lookup _ _) Hth _ _ Ht) as Hpc. destruct pc; try done. cbn in *.
  destruct Hpc as (e & Hi & _ & <- & <-). apply good_returns. exact (proj1 (Forall_lookup _ _) Hp _ _ Hi).
Qed.

Lemma adds_calm s s' : adds_step invoke good s s' -> calm_step invoke s s'.
Proof using Type. intros (t & a & ? & [? _] & ?). by exists t, a. Qed.

Lemma adds_step_inv s s' : c_added s -> adds_step invoke good s s' -> c_added s'.
Proof using good_returns.
  intros Hs Hst. pose proof (added_returns s Hs) as Hret. destruct Hs as (Hok & Hc & Hp).
  split; [|split; [by eapply calm_step_inv; [|apply adds_calm]|]]; destruct Hst as (t & a & Ha & Had & E).
  - pose proof (sched_effect invoke t a s Hok Hret Ha) as H. by rewrite E in H.
  - unfold sched in E. destruct (c_threads s !! t) as [pc|] eqn:Ht; [|done].
    apply exec_bind_inv in E as ([pc' sh'] & E & H). simplify_eq. destruct Hc as [Hsh Hth].
    eapply step_paired; try done. exact (proj1 (Forall_lookup _ _) Hth _ _ Ht).
Qed.

Lemma added_reachable w n s : rtc (adds_step invoke good) (c_initial w n) s -> c_added s.
Proof using good_returns.
  intros H. eapply rtc_invariant; [apply adds_step_inv| |done]. split; [apply c_ok_initial|].
  split; [by apply (calm_reachable invoke w n), rtc_refl|]. by apply Forall_nil_2.
Qed.

(** ** No race on what a dispatch reads *)

(** A thread reads the handler and the context of a slot in use. *)
Lemma reads_live r pc i :
  pc_calm r pc -> LHandler i ∈ unlocked_reads pc \/ LContext i ∈ unlocked_reads pc -> (i < length (live r))%nat.
Proof using Type.
  clear. intros Hpc Hin.
  assert (forall q P, target r i q P -> (i < length (live r))%nat) as Ht
    by (intros q P (e & He & _); by eapply lookup_lt_Some).
  destruct pc; cbn in Hpc, Hin; rewrite ?elem_of_cons, ?elem_of_nil in Hin;
    destruct_or! Hin; try done; simplify_eq; by eapply Ht.
Qed.

(** A new registration writes behind them. *)
Lemma adds_writes r k i :
  reg_wf r -> action_ok (Call k) -> calm r (Call k) ->
  LHandler i ∈ call_writes r k \/ LContext i ∈ call_writes r k -> (length (live r) <= i)%nat.
Proof using Type.
  clear. intros Hr Ha Hc Hin. destruct k; cbn [call_writes calm action_ok] in *; try done;
    try (by destruct Hin as [H|H]; apply not_elem_of_nil in H).
  destruct Hc as (s & Hs & _ & Hnew). destruct (_ || _); [by destruct Hin as [H|H]; apply not_elem_of_nil in H|].
  destruct (find_live r cmd_type module_name Hr) as (o & Hf & Ho); [left; by eexists|].
  change (live (locked r)) with (live r) in Hf. rewrite Hf in Hin.
  apply (found_by_key _ _ _ _ _ Hs) in Ho. destruct o as [j|].
  - destruct Ho as (e & Hi & Hk & _). apply abs_entries_not_in in Hnew. exfalso. apply Hnew. rewrite <- Hk.
    apply list_elem_of_fmap. exists e. split; [done|]. by eapply list_elem_of_lookup_2.
  - destruct (_ <=? _); [by destruct Hin as [H|H]; apply not_elem_of_nil in H|].
    rewrite length_live by done. rewrite !elem_of_cons in Hin.
    destruct (slot_locs_spec (Z.to_nat (entry_count r)) 1 i) as [H1 H2]. rewrite H1, H2 in Hin.
    destruct Hin as [[?|?]|[?|?]]; [done|lia|done|lia].
Qed.

Lemma added_races s x : c_added s -> race (adds good) s x -> x = LCount.
Proof using Type.
  clear good_returns. intros (_ & [Hsh Hth] & _) (t & t' & pc & last & k & _ & Ht & Hx & _ & Ha & [Hc _] & Hw).
  pose proof (proj1 (Forall_lookup _ _) Hth _ _ Ht) as Hpc. pose proof (sc_reg _ Hsh) as Hr.
  destruct x as [i|i|]; [exfalso..|done].
  - pose proof (reads_live _ pc i Hpc (or_introl Hx)). pose proof (adds_writes _ k i Hr Ha Hc (or_introl Hw)). lia.
  - pose proof (reads_live _ pc i Hpc (or_intror Hx)). pose proof (adds_writes _ k i Hr Ha Hc (or_intror Hw)). lia.
Qed.
End adding.

(** ** Deciding a race *)

Definition races_by {W} (s : CState W) (x : reg_loc) (t t' : nat) (k : reg_call) : bool :=
  negb (t =? t')%nat &&
  match c_threads s !! t with Some pc => bool_decide (x ∈ unlocked_reads pc) | None => false end &&
  match c_threads s !! t' with Some (Outside _) => true | _ => false end &&
  bool_decide (x ∈ call_writes (sh_reg (c_shared s)) k).

Lemma races_by_race {W} allowed (s : CState W) x t t' k :
  action_ok (Call k) -> allowed (sh_reg (c_shared s)) (Call k) -> races_by s x t t' k = true -> race allowed s x.
Proof.
  intros Ha Hal H. unfold races_by in H.
  apply andb_true_iff in H as [[[Hne Hr]%andb_true_iff Ho]%andb_true_iff Hw%bool_decide_eq_true].
  destruct (c_threads s !! t) as [pc|] eqn:Et; [|done]. apply bool_decide_eq_true in Hr.
  destruct (c_threads s !! t') as [[last| | | | | |]|] eqn:Et'; try done.
  exists t, t', pc, last, k. split_and!; try done. by apply Nat.eqb_neq, negb_true_iff.
Qed.

(** Two handlers for the module, and a request looked up; a listing. *)
Definition looked_up : list (nat * action) :=
  [(0%nat, Call (CallRegister (lit "router") MGMT_CMD_PING 4096 8192));
   (0%nat, Call (CallRegister (lit "router") MGMT_CMD_SHUTDOWN 4160 8200));
   (0%nat, Call (CallDispatch thread_request zero_response))].
Definition listed : list (nat * action) := [(0%nat, Call (CallList (zeros 200)))].

Lemma registering_ok cmd h c : 0 <= cmd < 256 -> action_ok (Call (CallRegister (lit "router") cmd h c)).
Proof. intros H. split; [eexists; reflexivity|exact H]. Qed.

Lemma looked_up_ok : Forall (fun x => action_ok x.2) looked_up.
Proof.
  repeat apply Forall_cons_2; [apply registering_ok; by vm_compute|apply registering_ok; by vm_compute| |apply Forall_nil_2].
  split; [apply thread_request_wf|apply wf_zero_response].
Qed.

Lemma listed_ok : Forall (fun x => action_ok x.2) listed.
Proof. apply Forall_cons_2; [|apply Forall_nil_2]. split; [vm_compute; lia|by vm_compute]. Qed.

(** * Properties *)

(** C22: the registry called by any number of threads that only add
    registrations.  As long as nothing is removed or replaced (new keys only, with
    names of at most 63 bytes), every registered handler returns when it is called
    with the context registered with it, and listings have buffers of at least 14
    bytes: the registry stays well formed; no step accesses memory outside an object or uses the lock wrongly; a thread
    inside a call never waits for another one and leaves after at most four steps
    of its own (the lock is free whenever a handler runs); the totals a
    statistics call reports count exactly the dispatches completed since the last
    reset and those whose handler failed, modulo 2^32; a step changes handlers,
    contexts and the count of entries only where [call_writes] says; and no thread
    is about to read a handler or a context outside of the lock that another one
    is about to write: the only data race there can be is that of [handler_list],
    which reads [entry_count] after it has released the lock. *)
Theorem registry_threads_adding {W} (invoke : Z -> Z -> MgmtCommandRequest ->
    MgmtCommandResponse -> W -> option (Z * MgmtCommandResponse * W)) (good : Z -> Z -> Prop) w n s :
  (forall f c q p w, good f c -> is_Some (invoke f c q p w)) ->
  rtc (adds_step invoke good) (c_initial w n) s ->
  let r := sh_reg (c_shared s) in
  let done := sh_done (c_shared s) in
  reg_wf r /\
  (forall t a, action_ok a -> sched invoke t a s <> UB) /\
  (forall t pc, c_threads s !! t = Some pc -> steps_left pc <> 0%nat ->
     exists a s' pc', action_ok a /\ sched invoke t a s = Ret s' /\
       c_threads s' !! t = Some pc' /\ steps_left pc = S (steps_left pc')) /\
  handler_stats r true true =
    Some (0, Some (u32 (Z.of_nat (length done)),
                   u32 (Z.of_nat (length (failed_dispatches done)))), r) /\
  (forall t a s' x, action_ok a -> sched invoke t a s = Ret s' ->
     loc_value (sh_reg (c_shared s')) x <> loc_value r x -> exists k, a = Call k /\ x ∈ call_writes r k) /\
  (forall x, race (adds good) s x -> x = LCount).
Proof.
  intros Hgood Hreach r done. pose proof (added_reachable invoke good Hgood w n s Hreach) as Hs.
  pose proof (added_returns invoke good Hgood s Hs) as Hret. pose proof Hs as (Hok & _). pose proof Hok as [Hsh Hth].
  split; [apply Hsh|]. split; [|split; [|split; [|split]]].
  - intros t a Ha E. pose proof (sched_effect invoke t a s Hok Hret Ha) as H. by rewrite E in H.
  - intros t pc. by apply sched_progress.
  - rewrite handler_stats_effect by apply Hsh. unfold r, done. by rewrite (so_dispatches _ Hsh), (so_failures _ Hsh).
  - intros t a s' x Ha E Hx. unfold sched in E. destruct (c_threads s !! t) as [pc|] eqn:Ht; [|done].
    apply exec_bind_inv in E as ([pc' sh'] & E & H). simplify_eq.
    eapply step_writes; try done. exact (proj1 (Forall_lookup _ _) Hth _ _ Ht).
  - intros x. by eapply added_races.
Qed.

(** A registration is taken off, or replaced, while another thread has looked it
    up, or a registration is added while another thread lists: all three are
    data races, in states that the threads reach. *)
Theorem registry_threads_races {W} (invoke : Z -> Z -> MgmtCommandRequest ->
    MgmtCommandResponse -> W -> option (Z * MgmtCommandResponse * W)) (w : W) :
  exists s1 s2, rtc (cstep invoke) (c_initial w 2) s1 /\ rtc (cstep invoke) (c_initial w 2) s2 /\
    race (fun _ a => exists name cmd, a = Call (CallUnregister name cmd)) s1 (LHandler 0) /\
    race (fun _ a => exists name cmd h c, a = Call (CallRegister name cmd h c)) s1 (LContext 0) /\
    race (fun _ a => exists name cmd h c, a = Call (CallRegister name cmd h c)) s2 LCount.
Proof.
  set (del := CallUnregister (lit "router") MGMT_CMD_PING).
  set (put := CallRegister (lit "router") MGMT_CMD_PING 4160 8200).
  assert (match run_schedule invoke looked_up (c_initial w 2), run_schedule invoke listed (c_initial w 2) with
          | Ret s1, Ret s2 => races_by s1 (LHandler 0) 0 1 del && races_by s1 (LContext 0) 0 1 put &&
              races_by s2 LCount 0 1 put
          | _, _ => false end = true) as E by (vm_compute; reflexivity).
  destruct (run_schedule invoke looked_up _) as [s1| |] eqn:E1; [|done..].
  destruct (run_schedule invoke listed _) as [s2| |] eqn:E2; [|done..].
  apply andb_true_iff in E as [[Ed Ep]%andb_true_iff El]. exists s1, s2.
  assert (action_ok (Call put)) as Hput by (apply registering_ok; by vm_compute).
  split; [by apply (schedule_cstep _ looked_up); [apply looked_up_ok|]|].
  split; [by apply (schedule_cstep _ listed); [apply listed_ok|]|].
  split; [|split]; (eapply races_by_race; [| |done]); [by eexists|by do 2 eexists|done|by do 4 eexists|done|by do 4 eexists].
Qed.

(** ** Concrete run *)

(** A handler that only knows its own context: the pair is registered, and one of
    two dispatches is complete. *)
Definition own_context_invoke (f c : Z) (q : MgmtCommandRequest) (p : MgmtCommandResponse) (w : nat)
    : option (Z * MgmtCommandResponse * nat) :=
  if (f =? 4096) && (c =? 8192) then Some (0, p, S w) else None.

Lemma registry_threads_adding_witness :
  exists s, run_schedule own_context_invoke demo_schedule (c_initial 0%nat 2) = Ret s /\
    reg_wf (sh_reg (c_shared s)) /\
    handler_stats (sh_reg (c_shared s)) true true = Some (0, Some (1, 0), sh_reg (c_shared s)) /\
    (forall t a, action_ok a -> sched own_context_invoke t a s <> UB).
Proof.
  destruct (run_schedule own_context_invoke demo_schedule (c_initial 0%nat 2)) as [s| |] eqn:E;
    [|exfalso; vm_compute in E; congruence..].
  destruct (registry_threads_adding own_context_invoke (fun f c => f = 4096 /\ c = 8192) 0%nat 2 s)
    as (Hw & Hub & _ & Hs & _).
  - intros f c q p w [-> ->]. eexists; reflexivity.
  - apply (schedule_allowed_step (adds (fun f c => f = 4096 /\ c = 8192)) _ demo_schedule);
      [apply demo_schedule_ok| |exact E].
    split; [split; [exists (bs "router"); split; [reflexivity|split; [vm_compute; lia|reflexivity]]|split; reflexivity]|].
    vm_compute. repeat split.
  - exists s. split; [reflexivity|]. split; [exact Hw|]. split; [|exact Hub].
    assert (sh_done (c_shared s) = [(request_key thread_request, 0)]) as Hd.
    { vm_compute in E. injection E as <-. vm_compute. reflexivity. }
    rewrite Hd in Hs. exact Hs.
Defined.
