(* ===== verification/MgmtSocket.v ===== *)
(** * The management socket and its worker (Mgmt/src/mgmt_socket.c, Mgmt/src/mgmt_worker.c)

    The operating system is what the code sees of it: the set of open
    descriptors, the set of socket files, and the results of the calls, which
    are arguments of the definitions.  A datagram is the list of its bytes; the
    part of the request object a short datagram does not reach keeps the bytes
    that were on the stack, which are an argument too. *)

From S2P Require Import Prelude CLib MgmtProtocol EventHandler.

Definition UNIX_PATH_MAX : nat := 108.

(** ** State *)

Record MgmtSocket := mkSocket {
  socket_fd : Z;
  sun_path : list byte;
  socket_path : list byte;
  total_requests : Z;
  total_responses : Z;
  failed_requests : Z;
  stats_lock : mutex }.

(** Open descriptors and bound socket files (by name). *)
Record Sys := mkSys { sys_fds : gset Z; sys_files : gset (list byte) }.

Definition sys_close (fd : Z) (s : Sys) : Sys := mkSys (sys_fds s ∖ {[fd]}) (sys_files s).
Definition sys_unlink (p : list byte) (s : Sys) : Sys := mkSys (sys_fds s) (sys_files s ∖ {[p]}).
Definition sys_open (fd : Z) (s : Sys) : Sys := mkSys ({[fd]} ∪ sys_fds s) (sys_files s).
Definition sys_bind (p : list byte) (s : Sys) : Sys := mkSys (sys_fds s) ({[p]} ∪ sys_files s).

(** What the calls of [mgmt_socket_create] answer: [ce_socket] is the new
    descriptor ([None]: failure). *)
Record CreateEnv := mkCreateEnv {
  ce_malloc : bool; ce_socket : option Z; ce_bind : bool }.

(** ** Creation and destruction *)

Definition mgmt_socket_create (e : CreateEnv) (path : option (list byte)) (s : Sys)
    : option (option MgmtSocket * Sys) :=
  match path with
  | None => Some (None, s)
  | Some p =>
      if negb (ce_malloc e) then Some (None, s)
      else
        stored ← strncpy (zeros UNIX_PATH_MAX) p (UNIX_PATH_MAX - 1);
        match ce_socket e with
        | None => Some (None, s)
        | Some fd =>
            let s := sys_open fd s in
            addr ← strncpy (zeros UNIX_PATH_MAX) p (UNIX_PATH_MAX - 1);
            full ← cstring p;
            let s := sys_unlink full s in
            if negb (ce_bind e) then Some (None, sys_close fd s)
            else
              bound ← cstring addr;
              Some (Some (mkSocket fd addr stored 0 0 0 MtxFree), sys_bind bound s)
        end
  end.

Definition mgmt_socket_destroy (h : option MgmtSocket) (s : Sys) : option Sys :=
  match h with
  | None => Some s
  | Some ms =>
      let s := if 0 <=? socket_fd ms then sys_close (socket_fd ms) s else s in
      p ← cstring (socket_path ms);
      Some (sys_unlink p s)
  end.

Definition mgmt_socket_get_fd (h : option MgmtSocket) : Z :=
  match h with Some ms => socket_fd ms | None => -1 end.

(** ** Statistics *)

Definition set_stats (ms : MgmtSocket) (q p f : Z) (l : mutex) : MgmtSocket :=
  mkSocket (socket_fd ms) (sun_path ms) (socket_path ms) q p f l.

(** A counter update between lock and unlock of [stats_lock]. *)
Definition with_stats_lock (ms : MgmtSocket) (upd : MgmtSocket -> MgmtSocket)
    : option MgmtSocket :=
  l ← mutex_lock (stats_lock ms);
  let ms := set_stats ms (total_requests ms) (total_responses ms) (failed_requests ms) l in
  let ms := upd ms in
  l ← mutex_unlock (stats_lock ms);
  Some (set_stats ms (total_requests ms) (total_responses ms) (failed_requests ms) l).

Definition incr_requests (ms : MgmtSocket) : MgmtSocket :=
  set_stats ms (u64 (total_requests ms + 1)) (total_responses ms) (failed_requests ms)
    (stats_lock ms).
Definition incr_responses (ms : MgmtSocket) : MgmtSocket :=
  set_stats ms (total_requests ms) (u64 (total_responses ms + 1)) (failed_requests ms)
    (stats_lock ms).
Definition incr_failed (ms : MgmtSocket) : MgmtSocket :=
  set_stats ms (total_requests ms) (total_responses ms) (u64 (failed_requests ms + 1))
    (stats_lock ms).

(** The outputs are written through pointers that may be NULL ([false]). *)
Definition mgmt_socket_stats (h : option MgmtSocket) (p1 p2 p3 : bool)
    : option (Z * option (option Z * option Z * option Z) * option MgmtSocket) :=
  match h with
  | None => Some (-1, None, None)
  | Some ms =>
      ms ← with_stats_lock ms (fun ms => ms);
      Some (0, Some (if p1 then Some (total_requests ms) else None,
                     if p2 then Some (total_responses ms) else None,
                     if p3 then Some (failed_requests ms) else None), Some ms)
  end.

Definition mgmt_socket_stats_reset (h : option MgmtSocket)
    : option (Z * option MgmtSocket) :=
  match h with
  | None => Some (-1, None)
  | Some ms =>
      ms ← with_stats_lock ms (fun ms => set_stats ms 0 0 0 (stats_lock ms));
      Some (0, Some ms)
  end.

Definition mgmt_socket_set_backlog (h : option MgmtSocket) (depth : Z) : Z :=
  match h with
  | None => -1
  | Some ms => if socket_fd ms <? 0 then -1 else 0
  end.

(** ** Command processing *)

(** The timeout [mgmt_socket_process_one] installs: seconds, microseconds. *)
Definition recv_timeout (timeout_ms : Z) : option (Z * Z) :=
  if 0 <? timeout_ms
  then Some (Z.quot timeout_ms 1000, Z.rem timeout_ms 1000 * 1000) else None.

(** What [recvfrom] delivers: an error (or timeout), or a datagram with the
    address of its sender. *)
Inductive recv_result :=
| RecvError
| RecvFrom (datagram client : list byte).

(** A datagram received into an object: cut to the object's size; the bytes it
    does not reach keep their value. *)
Definition recv_into (obj datagram : list byte) : list byte :=
  take (length obj) datagram ++ drop (length datagram) obj.

(** The calls of one [mgmt_socket_process_one]: [pe_stack] is the request
    object before the reception. *)
Record ProcessEnv := mkProcessEnv {
  pe_setsockopt : bool; pe_recv : recv_result; pe_stack : list byte; pe_send : bool }.

(** A sent response: the address and the bytes. *)
Abbreviation sent := (list byte * list byte)%type.

Section process.
Context {W : Type}.
Variable invoke : Z -> Z -> MgmtCommandRequest -> MgmtCommandResponse -> W ->
  option (Z * MgmtCommandResponse * W).

Record Served := mkServed {
  sv_result : Z;
  sv_socket : option MgmtSocket;
  sv_registry : EventHandlerRegistry;
  sv_world : W;
  sv_sent : list sent }.

Definition mgmt_socket_process_one (e : ProcessEnv) (h : option MgmtSocket) (timeout_ms : Z)
    (r : EventHandlerRegistry) (w : W) : option Served :=
  match h with
  | None => Some (mkServed (-1) h r w [])
  | Some ms =>
      if socket_fd ms <? 0 then Some (mkServed (-1) h r w [])
      else if bool_decide (is_Some (recv_timeout timeout_ms)) && negb (pe_setsockopt e)
      then Some (mkServed (-1) h r w [])
      else
        match pe_recv e with
        | RecvError => Some (mkServed (-1) h r w [])
        | RecvFrom d client =>
            let req := decode_request (recv_into (pe_stack e) d) in
            ms ← with_stats_lock ms incr_requests;
            '(res, resp, r, w) ←
              handler_dispatch invoke r w (Some req) (Some zero_response);
            ms ← (if negb (res =? 0) then with_stats_lock ms incr_failed else Some ms);
            resp ← resp;
            if negb (pe_send e) then Some (mkServed (-1) (Some ms) r w [])
            else
              ms ← with_stats_lock ms incr_responses;
              Some (mkServed 0 (Some ms) r w [(client, encode_response resp)])
        end
  end.

(** [mgmt_socket_process_all] on the queue of pending datagrams, each with its
    sender and the stack bytes under its request; [reach] tells which clients
    can be sent to. *)
Fixpoint process_loop (setsockopt_ok : bool) (reach : list byte -> bool)
    (queue : list (list byte * list byte * list byte)) (ms : MgmtSocket)
    (r : EventHandlerRegistry) (w : W) (processed : Z) (out : list sent)
    : option Served :=
  if negb setsockopt_ok then Some (mkServed processed (Some ms) r w out)
  else
    let e := match queue with
             | [] => mkProcessEnv true RecvError [] true
             | (d, client, stack) :: _ =>
                 mkProcessEnv true (RecvFrom d client) stack (reach client)
             end in
    sv ← mgmt_socket_process_one e (Some ms) 1 r w;
    ms ← sv_socket sv;
    if sv_result sv <? 0 then Some (mkServed processed (Some ms) (sv_registry sv) (sv_world sv)
                                     (out ++ sv_sent sv))
    else
      match queue with
      | [] => None
      | _ :: queue' => process_loop setsockopt_ok reach queue' ms (sv_registry sv) (sv_world sv)
                         (processed + 1) (out ++ sv_sent sv)
      end.

Definition mgmt_socket_process_all (setsockopt_ok : bool) (reach : list byte -> bool)
    (queue : list (list byte * list byte * list byte)) (h : option MgmtSocket)
    (r : EventHandlerRegistry) (w : W) : option Served :=
  match h with
  | None => Some (mkServed (-1) h r w [])
  | Some ms => if socket_fd ms <? 0 then Some (mkServed (-1) h r w [])
               else process_loop setsockopt_ok reach queue ms r w 0 []
  end.

(** ** The worker thread

    [running] reads the flag [keep_running] points to.  An iteration is the
    effect of the other threads on the process state before the test, and the
    environment of the call; the loop is still going when the iterations given
    are used up. *)
Inductive WorkerStatus :=
| WorkerLooping (ms : MgmtSocket) (r : EventHandlerRegistry) (w : W) (out : list sent)
| WorkerDone (r : EventHandlerRegistry) (w : W) (s : Sys) (out : list sent).

Variable running : W -> bool.

Fixpoint worker_loop (its : list ((W -> W) * ProcessEnv)) (ms : MgmtSocket)
    (r : EventHandlerRegistry) (w : W) (s : Sys) (out : list sent) : option WorkerStatus :=
  match its with
  | [] => Some (WorkerLooping ms r w out)
  | (others, e) :: its' =>
      let w := others w in
      if negb (running w) then
        s ← mgmt_socket_destroy (Some ms) s;
        Some (WorkerDone r w s out)
      else
        sv ← mgmt_socket_process_one e (Some ms) 1000 r w;
        ms ← sv_socket sv;
        worker_loop its' ms (sv_registry sv) (sv_world sv) s (out ++ sv_sent sv)
  end.

(** [arg]: the argument structure ([None]: NULL), its path and flag pointers. *)
Definition mgmt_worker (ce : CreateEnv) (its : list ((W -> W) * ProcessEnv))
    (arg : option (option (list byte) * bool)) (r : EventHandlerRegistry) (w : W) (s : Sys)
    : option WorkerStatus :=
  match arg with
  | Some (Some path, true) =>
      '(sock, s) ← mgmt_socket_create ce (Some path) s;
      match sock with
      | None => Some (WorkerDone r w s [])
      | Some ms => worker_loop its ms r w s []
      end
  | _ => Some (WorkerDone r w s [])
  end.
End process.

Arguments mkServed {W}.
Arguments sv_result {W}.
Arguments sv_socket {W}.
Arguments sv_registry {W}.
Arguments sv_world {W}.
Arguments sv_sent {W}.
Arguments WorkerLooping {W}.
Arguments WorkerDone {W}.

(** ** Invariants *)

Record sock_wf (ms : MgmtSocket) : Prop := {
  sw_fd : 0 <= socket_fd ms;
  sw_lock : stats_lock ms = MtxFree;
  sw_path : terminated (socket_path ms);
  sw_req : in_u 64 (total_requests ms);
  sw_resp : in_u 64 (total_responses ms);
  sw_fail : in_u 64 (failed_requests ms) }.

(** From a process state in [pre] the handlers of a registry return with a
    well-formed response and a state in [post], whatever the request. *)
Definition handlers_return {W} (invoke : Z -> Z -> MgmtCommandRequest ->
    MgmtCommandResponse -> W -> option (Z * MgmtCommandResponse * W)) (pre post : W -> Prop)
    (r : EventHandlerRegistry) : Prop :=
  (forall w, pre w -> post w) /\
  forall f c, (f, c) ∈ handler_ptrs r ->
  forall q p w, wf_request q -> wf_response p -> pre w ->
    exists res p' w', invoke f c q p w = Some (res, p', w') /\ wf_response p' /\ post w'.

(** ... again and again, when [wok] is kept. *)
Abbreviation handlers_total invoke wok := (handlers_return invoke wok wok).

(** * Lemmas *)

(** ** Dispatch with total handlers *)

Lemma wf_echo q p sm :
  wf_request q -> wf_response p -> length sm = MGMT_MODULE_NAME_SIZE ->
  wf_response (echo q p sm).
Proof. intros [] [] ?. by split. Qed.

Lemma wf_set_result_code p c : wf_response p -> in_u 8 c -> wf_response (set_result_code p c).
Proof. intros [] ?. by split. Qed.

Lemma result_in_u8 (c : MgmtResultCode) : in_u 8 c.
Proof. destruct c; split; vm_compute; congruence. Qed.

Lemma wf_conclude res p : wf_response p -> wf_response (conclude res p).
Proof.
  intros. unfold conclude. case_match; [done|].
  apply wf_set_result_code; [done|apply result_in_u8].
Qed.

#[export] Hint Resolve wf_echo wf_set_result_code wf_zero_response result_in_u8
  wf_conclude : wf.

Section dispatch_total.
Context {W : Type} (invoke : Z -> Z -> MgmtCommandRequest -> MgmtCommandResponse -> W ->
  option (Z * MgmtCommandResponse * W)) (pre post : W -> Prop).

Lemma handler_dispatch_total r w q p :
  reg_wf r -> handlers_return invoke pre post r -> pre w -> wf_request q -> wf_response p ->
  exists res p' r' w', handler_dispatch invoke r w (Some q) (Some p)
      = Some (res, Some p', r', w') /\
    wf_response p' /\ reg_wf r' /\ handler_ptrs r' = handler_ptrs r /\ post w'.
Proof.
  intros Hr [Hpp Hh] Hw Hq Hp. unfold handler_dispatch.
  pose proof (dispatch_lookup_effect r q p Hr (wq_module _ Hq) (ws_module _ Hp)) as Hl.
  destruct (mgmt_request_validate (Some q) =? 0).
  { rewrite Hl. do 4 eexists. split; [done|]. split_and!; eauto with wf. }
  destruct Hl as [(i & sm & (e & Hi & _) & Hsm & ->)|[_ ->]]; cbn [mbind option_bind].
  - destruct (live_lookup _ _ _ Hi) as [-> Hlt]. cbn [mbind option_bind].
    destruct (Hh (eh_handler e) (eh_context e)) with (q := q) (p := echo q p sm) (w := w)
      as (res & p' & w' & -> & Hp' & Hw'); eauto with wf.
    { apply list_elem_of_fmap. exists e. split; [done|]. by eapply list_elem_of_lookup_2. }
    cbn [mbind option_bind]. rewrite (dispatch_finish_effect _ _ _ _ _ Hr Hi).
    cbn [mbind option_bind]. do 4 eexists. split; [done|]. split; [by eauto with wf|].
    split; [by apply reg_wf_counted|]. split; [|done].
    by apply handler_ptrs_counted.
  - do 4 eexists. split; [done|]. split_and!; eauto with wf.
Qed.
End dispatch_total.

(** ** The counters *)

Section sockets.
Implicit Types ms : MgmtSocket.

Lemma with_stats_lock_free ms upd :
  stats_lock ms = MtxFree ->
  (forall ms', stats_lock ms' = MtxHeld -> stats_lock (upd ms') = MtxHeld) ->
  with_stats_lock ms upd =
    let ms' := upd (set_stats ms (total_requests ms) (total_responses ms)
                      (failed_requests ms) MtxHeld) in
    Some (set_stats ms' (total_requests ms') (total_responses ms') (failed_requests ms') MtxFree).
Proof.
  intros Hl Hu. unfold with_stats_lock. rewrite Hl. cbn [mutex_lock mbind option_bind].
  by rewrite Hu.
Qed.

(** The socket after one request: [failed] and [answered] tell which of the
    other counters advance. *)
Definition tally ms (failed answered : bool) : MgmtSocket :=
  set_stats ms (u64 (total_requests ms + 1))
    (if answered then u64 (total_responses ms + 1) else total_responses ms)
    (if failed then u64 (failed_requests ms + 1) else failed_requests ms) MtxFree.

Lemma sock_wf_tally ms f a : sock_wf ms -> sock_wf (tally ms f a).
Proof.
  intros []. split; cbn; try done; try (apply wrap_range; lia);
    case_match; try done; apply wrap_range; lia.
Qed.

Lemma incr_requests_locked ms :
  sock_wf ms -> with_stats_lock ms incr_requests = Some (tally ms false false).
Proof. intros []. by rewrite with_stats_lock_free. Qed.

Lemma incr_failed_locked ms b :
  sock_wf ms -> with_stats_lock (tally ms false b) incr_failed = Some (tally ms true b).
Proof. intros []. by rewrite with_stats_lock_free. Qed.

Lemma incr_responses_locked ms b :
  sock_wf ms -> with_stats_lock (tally ms b false) incr_responses = Some (tally ms b true).
Proof. intros []. by rewrite with_stats_lock_free. Qed.

Lemma sock_wf_fd ms : sock_wf ms -> (socket_fd ms <? 0) = false.
Proof. intros []. by apply Z.ltb_ge. Qed.
End sockets.

#[export] Hint Resolve sock_wf_tally : wf.

(** The bytes of a well-formed response. *)
Definition typed_response (b : list byte) : Prop := exists p, wf_response p /\ b = encode_response p.

Lemma sent_typed (answered : bool) (client : list byte) p :
  wf_response p ->
  Forall (fun m : sent => typed_response m.2)
    (if answered then [(client, encode_response p)] else []).
Proof. intros Hp. destruct answered; [|done]. apply Forall_singleton. by exists p. Qed.

Lemma length_recv_into obj d : length (recv_into obj d) = length obj.
Proof. unfold recv_into. rewrite length_app, length_take, length_drop. lia. Qed.

(** The bytes a reception leaves in the object: a longer datagram is cut, a
    shorter one is completed by what was there. *)
Lemma recv_into_full obj d : length d = length obj -> recv_into obj d = d.
Proof.
  intros H. unfold recv_into. rewrite take_ge, drop_ge by lia. apply app_nil_r.
Qed.

Lemma recv_into_complete obj d : recv_into obj (d ++ drop (length d) obj) = recv_into obj d.
Proof.
  unfold recv_into. rewrite length_app, length_drop, take_app.
  rewrite (take_ge (drop _ _)) by (rewrite length_drop; lia).
  rewrite (drop_ge obj (_ + _)) by lia. by rewrite app_nil_r.
Qed.

(** ** Serving one request *)

Section serving.
Context {W : Type} (invoke : Z -> Z -> MgmtCommandRequest -> MgmtCommandResponse -> W ->
  option (Z * MgmtCommandResponse * W)) (pre post : W -> Prop).
Implicit Types (r : EventHandlerRegistry) (w : W).

(** What [mgmt_socket_process_one] does with a received datagram, in terms of
    the dispatcher. *)
Definition serves (e : ProcessEnv) (d client : list byte) (ms : MgmtSocket) r w
    (sv : Served (W := W)) : Prop :=
  exists res p r' w',
    handler_dispatch invoke r w (Some (decode_request (recv_into (pe_stack e) d)))
      (Some zero_response) = Some (res, Some p, r', w') /\
    wf_response p /\ reg_wf r' /\ handler_ptrs r' = handler_ptrs r /\ post w' /\
    sv = mkServed (if pe_send e then 0 else -1)
           (Some (tally ms (negb (res =? 0)) (pe_send e))) r' w'
           (if pe_send e then [(client, encode_response p)] else []).

(** A received datagram, given what the dispatcher makes of it. *)
Lemma process_one_dispatched e d client ms timeout r w res p r' w' :
  sock_wf ms -> pe_setsockopt e = true -> pe_recv e = RecvFrom d client ->
  handler_dispatch invoke r w (Some (decode_request (recv_into (pe_stack e) d)))
    (Some zero_response) = Some (res, Some p, r', w') ->
  mgmt_socket_process_one invoke e (Some ms) timeout r w =
    Some (mkServed (if pe_send e then 0 else -1)
            (Some (tally ms (negb (res =? 0)) (pe_send e))) r' w'
            (if pe_send e then [(client, encode_response p)] else [])).
Proof.
  intros Hms Hso Hrv Hd. unfold mgmt_socket_process_one.
  rewrite (sock_wf_fd _ Hms), Hso, andb_false_r, Hrv, (incr_requests_locked _ Hms).
  cbn [mbind option_bind]. rewrite Hd. cbn [mbind option_bind].
  destruct (res =? 0); cbn [negb];
    rewrite ?(incr_failed_locked _ _ Hms); cbn [mbind option_bind];
    destruct (pe_send e); cbn [negb];
    rewrite ?(incr_responses_locked _ _ Hms); done.
Qed.

Lemma process_one_receives e d client ms timeout r w :
  sock_wf ms -> reg_wf r -> handlers_return invoke pre post r -> pre w ->
  length (pe_stack e) = MGMT_REQUEST_SIZE -> pe_setsockopt e = true ->
  pe_recv e = RecvFrom d client ->
  exists sv, mgmt_socket_process_one invoke e (Some ms) timeout r w = Some sv /\
    serves e d client ms r w sv.
Proof.
  intros Hms Hr Hh Hw Hst Hso Hrv.
  destruct (handler_dispatch_total invoke pre post r w (decode_request (recv_into (pe_stack e) d))
    zero_response) as (res & p & r' & w' & Hd & Hp & Hr' & Hptr & Hw'); eauto with wf.
  { apply wf_decode_request. by rewrite length_recv_into. }
  eexists. split; [by eapply process_one_dispatched|]. by exists res, p, r', w'.
Qed.

End serving.

Section draining.
Context {W : Type} (invoke : Z -> Z -> MgmtCommandRequest -> MgmtCommandResponse -> W ->
  option (Z * MgmtCommandResponse * W)) (wok : W -> Prop).
Implicit Types (r : EventHandlerRegistry) (w : W).

(** The clients of the datagrams before the first one whose sender cannot be
    answered. *)
Fixpoint answerable (reach : list byte -> bool)
    (queue : list (list byte * list byte * list byte)) : list (list byte) :=
  match queue with
  | [] => []
  | (_, client, _) :: queue' =>
      if reach client then client :: answerable reach queue' else []
  end.

Lemma process_loop_serves reach queue ms r w n out :
  sock_wf ms -> reg_wf r -> handlers_total invoke wok r -> wok w ->
  Forall (fun x => length (snd x) = MGMT_REQUEST_SIZE) queue ->
  exists sv ms', process_loop invoke true reach queue ms r w n out = Some sv /\
    sv_socket sv = Some ms' /\ sock_wf ms' /\ reg_wf (sv_registry sv) /\ wok (sv_world sv) /\
    sv_result sv = n + Z.of_nat (length (answerable reach queue)) /\
    exists new, sv_sent sv = out ++ new /\ new.*1 = answerable reach queue /\
      total_responses ms' = u64 (total_responses ms + Z.of_nat (length new)).
Proof.
  revert ms r w n out. induction queue as [|[[d client] stack] queue IH];
    intros ms r w n out Hms Hr Hh Hw Hq; cbn [process_loop negb answerable].
  { unfold mgmt_socket_process_one. rewrite sock_wf_fd by done.
    cbn [recv_timeout Z.ltb Z.compare pe_setsockopt negb pe_recv]. rewrite andb_false_r.
    cbn [mbind option_bind sv_socket sv_result].
    do 2 eexists. split; [done|]. split; [done|]. cbn. repeat (split; [done || lia|]).
    exists []. split; [by rewrite app_nil_r|]. split; [done|]. cbn. rewrite Z.add_0_r.
    symmetry. apply wrap_id, Hms. }
  apply Forall_cons in Hq as [Hst Hq]. cbn in Hst.
  destruct (process_one_receives invoke wok wok (mkProcessEnv true (RecvFrom d client) stack (reach client))
    d client ms 1 r w) as (sv & -> & Hsv); try done. cbn [mbind option_bind].
  destruct Hsv as (res & p & r' & w' & _ & Hp & Hr' & Hptr & Hw' & ->).
  cbn [sv_socket sv_result sv_registry sv_world sv_sent pe_send mbind option_bind].
  destruct (reach client); cbn [Z.ltb Z.compare].
  - destruct (IH (tally ms (negb (res =? 0)) true) r' w' (n + 1)
      (out ++ [(client, encode_response p)])) as (sv & ms' & H1 & H2 & H3 & H4 & H5 & H6 & new &
      H7 & H8 & H9); eauto with wf.
    { unfold handlers_return. by rewrite Hptr. }
    exists sv, ms'. repeat (split; [done|]).
    split; [cbn [length]; rewrite H6; lia|].
    exists ((client, encode_response p) :: new). split; [by rewrite H7, <- app_assoc|].
    split; [by rewrite fmap_cons, H8|]. rewrite H9. cbn [tally total_responses set_stats length].
    rewrite wrap_add_l. f_equal. lia.
  - do 2 eexists. split; [done|]. split; [done|]. split; [by apply sock_wf_tally|].
    cbn. repeat (split; [done || lia|]). exists []. repeat split; cbn; try done.
    rewrite Z.add_0_r. symmetry. apply wrap_id, Hms.
Qed.
End draining.

(** ** Creation and destruction *)

(** ** Descriptors *)

(** Descriptors: those of before, and those that the process holds, each once. *)
Record owns (base : gset Z) (l : list Z) (s : Sys) : Prop := {
  ow_fds : sys_fds s = base ∪ list_to_set l;
  ow_dup : NoDup l;
  ow_new : forall fd, fd ∈ l -> fd ∉ base }.

Lemma owns_perm base l l' s : l ≡ₚ l' -> owns base l s -> owns base l' s.
Proof.
  intros Hp [Hf Hd Hn]. split; [by rewrite <- Hp|by rewrite <- Hp|]. intros fd. rewrite <- Hp. apply Hn.
Qed.

Lemma owns_open base l s fd : owns base l s -> (fd ∉ sys_fds s) -> owns base (fd :: l) (sys_open fd s).
Proof.
  intros [Hf Hd Hn] Hfd. rewrite Hf in Hfd. split; cbn [sys_open sys_fds].
  - rewrite Hf. cbn. set_solver.
  - constructor; [set_solver|done].
  - intros fd' [->|H]%elem_of_cons; [set_solver|by apply Hn].
Qed.

Lemma owns_close base l s fd : owns base (fd :: l) s -> owns base l (sys_close fd s).
Proof.
  intros [Hf Hd Hn]. apply NoDup_cons in Hd as [Hfd Hd]. split; cbn [sys_close sys_fds]; [|done|set_solver].
  rewrite Hf. cbn. specialize (Hn fd ltac:(set_solver)). set_solver.
Qed.

Lemma owns_fds base l s s' : owns base l s -> sys_fds s' = sys_fds s -> owns base l s'.
Proof. intros [Hf Hd Hn] E. split; [congruence|done..]. Qed.

(** The stored path and the bound address are both the first 107 bytes. *)
Lemma path_stored p s :
  cstring p = Some s -> exists d, strncpy (zeros UNIX_PATH_MAX) p (UNIX_PATH_MAX - 1) = Some d /\
    cstring d = Some (take 107 s) /\ length d = UNIX_PATH_MAX.
Proof. intros Hs. apply (strncpy_zeros_cstring p s 107 Hs). Qed.

Section create.
Context (e : CreateEnv) (p s : list byte) (sys : Sys) (Hs : cstring p = Some s).

Lemma create_early :
  ce_malloc e = false \/ ce_socket e = None ->
  mgmt_socket_create e (Some p) sys = Some (None, sys).
Proof.
  destruct (path_stored p s Hs) as (d & Hd & _). unfold mgmt_socket_create.
  rewrite Hd. intros [->| ->]; [done|]. by destruct (ce_malloc e).
Qed.

Lemma create_unbound fd :
  ce_malloc e = true -> ce_socket e = Some fd -> ce_bind e = false ->
  mgmt_socket_create e (Some p) sys =
    Some (None, sys_close fd (sys_unlink s (sys_open fd sys))).
Proof.
  destruct (path_stored p s Hs) as (d & Hd & _). unfold mgmt_socket_create.
  by intros -> -> ->; rewrite Hd, Hs.
Qed.

Lemma create_bound fd :
  ce_malloc e = true -> ce_socket e = Some fd -> ce_bind e = true ->
  exists d, cstring d = Some (take 107 s) /\ mgmt_socket_create e (Some p) sys =
    Some (Some (mkSocket fd d d 0 0 0 MtxFree),
          sys_bind (take 107 s) (sys_unlink s (sys_open fd sys))).
Proof.
  destruct (path_stored p s Hs) as (d & Hd & Hc & _). unfold mgmt_socket_create.
  intros -> -> ->. exists d. rewrite Hd, Hs. cbn [negb mbind option_bind]. by rewrite Hc.
Qed.

(** The three outcomes; the descriptor is a new one. *)
Lemma create_result :
  (forall fd, ce_socket e = Some fd -> 0 <= fd /\ fd ∉ sys_fds sys) ->
  exists h sys1, mgmt_socket_create e (Some p) sys = Some (h, sys1) /\
    match h with
    | None => sys_fds sys1 = sys_fds sys /\ sys_files sys1 ⊆ sys_files sys
    | Some ms => exists fd d, 0 <= fd /\ (fd ∉ sys_fds sys) /\ ce_socket e = Some fd /\
        cstring d = Some (take 107 s) /\ ms = mkSocket fd d d 0 0 0 MtxFree /\
        sys1 = sys_bind (take 107 s) (sys_unlink s (sys_open fd sys))
    end.
Proof using Hs.
  intros Hfd.
  destruct (decide (ce_malloc e = false \/ ce_socket e = None)) as [Hearly|Hgo].
  { rewrite create_early by done. do 2 eexists. split; [done|]. done. }
  destruct (ce_malloc e) eqn:Em; [|by destruct Hgo; left].
  destruct (ce_socket e) as [fd|] eqn:Es; [|by destruct Hgo; right].
  destruct (Hfd fd eq_refl) as [Hpos Hnew].
  destruct (ce_bind e) eqn:Eb.
  - destruct (create_bound fd Em Es Eb) as (d & Hd & ->).
    do 2 eexists. split; [done|]. by exists fd, d.
  - rewrite (create_unbound fd Em Es Eb). do 2 eexists. split; [done|]. cbn. set_solver.
Qed.
End create.

(** ** Flags *)

Definition with_flags (q : MgmtCommandRequest) (flags : Z) : MgmtCommandRequest :=
  mkRequest (rq_request_id q) (rq_cmd_type q) flags (rq_payload_len q) (rq_timestamp q) (rq_target_module q) (rq_payload q).

Lemma wf_with_flags q flags : wf_request q -> in_u 8 flags -> wf_request (with_flags q flags).
Proof. intros [] ?. by split. Qed.

Lemma dispatch_flags {W} invoke r (w : W) q p flags :
  (forall f c p w, invoke f c (with_flags q flags) p w = invoke f c q p w) ->
  handler_dispatch invoke r w (Some (with_flags q flags)) (Some p) = handler_dispatch invoke r w (Some q) (Some p).
Proof.
  intros Hinv. unfold handler_dispatch, dispatch_lookup. change (mgmt_request_validate (Some (with_flags q flags)))
    with (mgmt_request_validate (Some q)). cbn [with_flags rq_cmd_type rq_target_module rq_request_id rq_timestamp].
  destruct (_ =? 0); [done|]. destruct (reg_lock r) as [r1|]; [|done]. cbn [mbind option_bind].
  destruct (find_entry _ _ _) as [[i|]|]; [|done|done]. cbn [mbind option_bind].
  destruct (strncpy _ _ _); [|done]. cbn [mbind option_bind]. destruct (reg_unlock r1) as [r2|]; [|done].
  cbn [mbind option_bind]. destruct (entries r2 !! i); [|done]. cbn [mbind option_bind].
  fold (with_flags q flags). by rewrite Hinv.
Qed.

(** * Properties *)

(** Creating a management socket never leaks: when any step fails the
    descriptors are those of before and no new socket file exists; when it
    succeeds the descriptor and the file of the (107-byte prefix of the) path
    exist, the counters are 0, and a later destruction restores the
    descriptors and removes the file. *)
Theorem mgmt_socket_lifecycle e p s sys :
  cstring p = Some s -> (forall fd, ce_socket e = Some fd -> 0 <= fd /\ fd ∉ sys_fds sys) ->
  exists h sys1, mgmt_socket_create e (Some p) sys = Some (h, sys1) /\
    match h with
    | None => sys_fds sys1 = sys_fds sys /\ sys_files sys1 ⊆ sys_files sys
    | Some ms => sock_wf ms /\ socket_fd ms ∈ sys_fds sys1 /\ take 107 s ∈ sys_files sys1 /\
        total_requests ms = 0 /\ total_responses ms = 0 /\ failed_requests ms = 0
    end /\
    exists sys2, mgmt_socket_destroy h sys1 = Some sys2 /\ sys_fds sys2 = sys_fds sys /\
      sys_files sys2 ⊆ sys_files sys /\ (h <> None -> take 107 s ∉ sys_files sys2).
Proof.
  intros Hs Hfd. destruct (create_result e p s sys Hs Hfd) as (h & sys1 & -> & Hh).
  exists h, sys1. split; [done|]. destruct h as [ms|].
  - destruct Hh as (fd & d & Hpos & Hnew & _ & Hd & -> & ->).
    split; [split; [split; cbn; try done; by eexists|]; cbn; set_solver|].
    unfold mgmt_socket_destroy. cbn [socket_fd socket_path].
    rewrite (proj2 (Z.leb_le _ _) Hpos), Hd. cbn [mbind option_bind].
    eexists; split; [done|]. cbn. set_solver.
  - split; [done|]. exists sys1. split; [done|]. by destruct Hh.
Qed.

Lemma mgmt_socket_lifecycle_witness :
  exists h sys1, mgmt_socket_create (mkCreateEnv true (Some 3) true) (Some (lit "/tmp/ipc_mgmt_router.sock"))
      (mkSys {[0; 1; 2]} ∅) = Some (h, sys1) /\
    exists sys2, mgmt_socket_destroy h sys1 = Some sys2 /\ sys_fds sys2 = {[0; 1; 2]}.
Proof.
  destruct (mgmt_socket_lifecycle (mkCreateEnv true (Some 3) true) (lit "/tmp/ipc_mgmt_router.sock")
    (bs "/tmp/ipc_mgmt_router.sock") (mkSys {[0; 1; 2]} ∅)) as (h & sys1 & H & _ & sys2 & H2 & H3 & _).
  - reflexivity.
  - intros fd [= <-]. split; [lia|]. set_solver.
  - exists h, sys1. split; [exact H|]. exists sys2. split; [exact H2|exact H3].
Defined.

(** C21: every datagram that arrives at a running socket is served: with
    handlers that return, the call returns; the request is what the dispatcher
    sees; exactly one 2152-byte response is sent, to the sender, and it decodes
    to the dispatcher's response; the counters of requests, failures (dispatch
    answered non-zero) and responses (the send succeeded) advance modulo 2^64,
    and nothing is sent or counted as answered when the send fails.  This is so
    whatever the flags of the request say: the header documents 0x02 as
    "no-response", which the code does not look at. *)
Theorem mgmt_socket_process_one_serves {W} invoke (pre post : W -> Prop) e q client ms timeout r w :
  sock_wf ms -> reg_wf r -> handlers_return invoke pre post r -> pre w -> wf_request q ->
  length (pe_stack e) = MGMT_REQUEST_SIZE -> pe_setsockopt e = true ->
  pe_recv e = RecvFrom (encode_request q) client ->
  exists res p r' w' ms',
    handler_dispatch invoke r w (Some q) (Some zero_response) = Some (res, Some p, r', w') /\
    mgmt_socket_process_one invoke e (Some ms) timeout r w =
      Some (mkServed (if pe_send e then 0 else -1) (Some ms') r' w'
              (if pe_send e then [(client, encode_response p)] else [])) /\
    length (encode_response p) = MGMT_RESPONSE_SIZE /\
    decode_response (encode_response p) = p /\
    sock_wf ms' /\ reg_wf r' /\ post w' /\
    total_requests ms' = u64 (total_requests ms + 1) /\
    failed_requests ms' = u64 (failed_requests ms + (if res =? 0 then 0 else 1)) /\
    total_responses ms' = u64 (total_responses ms + (if pe_send e then 1 else 0)).
Proof.
  intros Hms Hr Hh Hw Hq Hst Hso Hrv.
  destruct (process_one_receives invoke pre post e (encode_request q) client ms timeout r w)
    as (sv & Hone & res & p & r' & w' & Hd & Hp & Hr' & _ & Hw' & ->); try done.
  assert (recv_into (pe_stack e) (encode_request q) = encode_request q) as Hre.
  { unfold recv_into. rewrite length_encode_request, Hst, <- (length_encode_request q) by done.
    rewrite take_ge, (length_encode_request q), drop_ge by (done || lia). apply app_nil_r. }
  rewrite Hre, decode_encode_request_wf in Hd by done.
  exists res, p, r', w', (tally ms (negb (res =? 0)) (pe_send e)).
  split; [done|]. split; [done|]. split; [by apply length_encode_response|].
  split; [by apply decode_encode_response_wf|]. split; [by apply sock_wf_tally|].
  split; [done|]. split; [done|]. split; [done|].
  destruct (res =? 0), (pe_send e); cbn; rewrite ?Z.add_0_r; split; try done;
    symmetry; apply wrap_id, Hms.
Qed.

(** A socket, a registry, a request and handlers for the examples. *)
Definition demo_socket : MgmtSocket :=
  mkSocket 3 (lit "/tmp/a" ++ zeros 101) (lit "/tmp/a" ++ zeros 101) 0 0 0 MtxFree.

Definition demo_request : MgmtCommandRequest :=
  mkRequest 5 MGMT_CMD_PING 0 0 zero_timespec (lit "router" ++ zeros 57) (zeros 512).

(** The same with the flag for "no-response". *)
Definition quiet_request : MgmtCommandRequest :=
  mkRequest 5 MGMT_CMD_PING 2 0 zero_timespec (lit "router" ++ zeros 57) (zeros 512).

Definition demo_invoke (f c : Z) (q : MgmtCommandRequest) (p : MgmtCommandResponse) (w : nat)
    : option (Z * MgmtCommandResponse * nat) := Some (0, p, S w).

Lemma demo_socket_wf : sock_wf demo_socket.
Proof.
  split; try reflexivity; first [by eexists|split; vm_compute; congruence|vm_compute; congruence].
Qed.

Lemma demo_request_wf : wf_request demo_request.
Proof. split; try reflexivity; repeat split; vm_compute; congruence. Qed.

Lemma quiet_request_wf : wf_request quiet_request.
Proof. split; try reflexivity; repeat split; vm_compute; congruence. Qed.

Lemma demo_handlers_total r : handlers_total demo_invoke (fun _ => True) r.
Proof. split; [done|]. intros f c _ q p w _ Hp _. by do 3 eexists. Qed.

Lemma mgmt_socket_process_one_serves_witness :
  exists p r' ms',
    mgmt_socket_process_one demo_invoke
      (mkProcessEnv true (RecvFrom (encode_request quiet_request) (bs "/tmp/c")) (zeros 600) true)
      (Some demo_socket) 1000 demo_registry 0%nat
    = Some (mkServed 0 (Some ms') r' 1%nat [(bs "/tmp/c", encode_response p)]) /\
    total_requests ms' = 1 /\ total_responses ms' = 1.
Proof.
  destruct (mgmt_socket_process_one_serves demo_invoke (fun _ => True) (fun _ => True)
    (mkProcessEnv true (RecvFrom (encode_request quiet_request) (bs "/tmp/c")) (zeros 600) true)
    quiet_request (bs "/tmp/c") demo_socket 1000 demo_registry 0%nat)
    as (res & p & r' & w' & ms' & Hd & H & _ & _ & _ & _ & _ & H1 & _ & H3).
  - exact demo_socket_wf.
  - exact reg_wf_demo.
  - exact (demo_handlers_total _).
  - exact I.
  - exact quiet_request_wf.
  - reflexivity.
  - reflexivity.
  - reflexivity.
  - assert (w' = 1%nat) as Ew.
    { assert (snd <$> handler_dispatch demo_invoke demo_registry 0%nat (Some quiet_request)
        (Some zero_response) = Some 1%nat) as E by (vm_compute; reflexivity).
      rewrite Hd in E. cbn in E. congruence. }
    rewrite Ew in H. exists p, r', ms'. split; [exact H|].
    split; [rewrite H1; reflexivity|rewrite H3; reflexivity].
Defined.

(** [mgmt_socket_process_one] does not look at the number of received
    bytes.  A datagram shorter than a request is served as if the bytes the
    request object held before had been sent after it: an empty datagram makes
    the previous contents of the stack slot, for instance an earlier SHUTDOWN
    request, be executed again. *)
Theorem mgmt_socket_short_datagram {W} (invoke : Z -> Z -> MgmtCommandRequest ->
    MgmtCommandResponse -> W -> option (Z * MgmtCommandResponse * W))
    so d stack client snd_ok h timeout r w :
  mgmt_socket_process_one invoke (mkProcessEnv so (RecvFrom d client) stack snd_ok)
    h timeout r w =
  mgmt_socket_process_one invoke
    (mkProcessEnv so (RecvFrom (d ++ drop (length d) stack) client) stack snd_ok)
    h timeout r w.
Proof.
  unfold mgmt_socket_process_one. cbn [pe_setsockopt pe_recv pe_stack pe_send].
  by rewrite recv_into_complete.
Qed.

(** The flags of a request have no effect: a request is served exactly as the
    same request with other flags, if the handlers do not look at them (no handler
    under src/ does).  In particular one with the documented flag 0x02,
    "no-response", is answered like any other. *)
Theorem mgmt_socket_flags_ignored {W} invoke e e' q flags client ms timeout r (w : W) :
  (forall f c p w, invoke f c (with_flags q flags) p w = invoke f c q p w) ->
  wf_request q -> in_u 8 flags ->
  length (pe_stack e) = MGMT_REQUEST_SIZE -> pe_recv e = RecvFrom (encode_request q) client ->
  e' = mkProcessEnv (pe_setsockopt e) (RecvFrom (encode_request (with_flags q flags)) client) (pe_stack e) (pe_send e) ->
  mgmt_socket_process_one invoke e' (Some ms) timeout r w = mgmt_socket_process_one invoke e (Some ms) timeout r w.
Proof.
  intros Hinv Hq Hf Hst Hrv ->. pose proof (wf_with_flags q flags Hq Hf) as Hq'.
  unfold mgmt_socket_process_one. cbn [pe_setsockopt pe_recv pe_stack pe_send]. rewrite Hrv.
  rewrite !recv_into_full by (by rewrite length_encode_request). rewrite !decode_encode_request_wf by done.
  by rewrite dispatch_flags.
Qed.

Lemma mgmt_socket_flags_ignored_witness :
  mgmt_socket_process_one demo_invoke
    (mkProcessEnv true (RecvFrom (encode_request quiet_request) (bs "/tmp/c")) (zeros 600) true)
    (Some demo_socket) 1000 demo_registry 0%nat =
  mgmt_socket_process_one demo_invoke
    (mkProcessEnv true (RecvFrom (encode_request demo_request) (bs "/tmp/c")) (zeros 600) true)
    (Some demo_socket) 1000 demo_registry 0%nat.
Proof.
  refine (mgmt_socket_flags_ignored demo_invoke _ _ demo_request 2 (bs "/tmp/c") demo_socket 1000 demo_registry 0%nat
    _ demo_request_wf _ _ _ _); try reflexivity. split; vm_compute; congruence.
Defined.

(** On any finite queue of pending datagrams [mgmt_socket_process_all]
    returns; the datagrams are answered in order up to the first one whose
    sender cannot be reached, and the result is the number of answers sent.
    The datagrams behind such a sender stay pending.  The flags of the requests,
    the documented "no-response" among them, make no difference. *)
Theorem mgmt_socket_process_all_drains {W} invoke (wok : W -> Prop) reach queue ms r w :
  sock_wf ms -> reg_wf r -> handlers_total invoke wok r -> wok w ->
  Forall (fun x => length (snd x) = MGMT_REQUEST_SIZE) queue ->
  exists sv ms', mgmt_socket_process_all invoke true reach queue (Some ms) r w = Some sv /\
    sv_socket sv = Some ms' /\ sock_wf ms' /\ reg_wf (sv_registry sv) /\ wok (sv_world sv) /\
    sv_result sv = Z.of_nat (length (answerable reach queue)) /\
    (sv_sent sv).*1 = answerable reach queue /\
    total_responses ms' = u64 (total_responses ms + sv_result sv) /\
    ((forall x, x ∈ queue -> reach (x.1).2 = true) -> sv_result sv = Z.of_nat (length queue)).
Proof.
  intros Hms Hr Hh Hw Hq. unfold mgmt_socket_process_all. rewrite sock_wf_fd by done.
  destruct (process_loop_serves invoke wok reach queue ms r w 0 [] Hms Hr Hh Hw Hq)
    as (sv & ms' & H1 & H2 & H3 & H4 & H5 & H6 & new & H7 & H8 & H9).
  exists sv, ms'. rewrite Z.add_0_l in H6. cbn [app] in H7. subst new.
  do 5 (split; [done|]). split; [done|]. split; [done|].
  split. { by rewrite H9, H6, <- H8, length_fmap. }
  intros Hall. rewrite H6. f_equal. clear -Hall.
  induction queue as [|[[d c] st] queue IH]; [done|]. cbn.
  assert (reach c = true) as -> by (apply (Hall (d, c, st)); by left).
  cbn. f_equal. apply IH. intros x Hx. apply Hall. by right.
Qed.

Lemma mgmt_socket_process_all_drains_witness :
  exists sv, mgmt_socket_process_all demo_invoke true
      (fun c => negb (bool_decide (c = bs "dead")))
      [(encode_request demo_request, bs "/tmp/c", zeros 600);
       (encode_request demo_request, bs "dead", zeros 600);
       (encode_request demo_request, bs "/tmp/d", zeros 600)]
      (Some demo_socket) demo_registry 0%nat = Some sv /\ sv_result sv = 1.
Proof.
  destruct (mgmt_socket_process_all_drains demo_invoke (fun _ => True)
    (fun c => negb (bool_decide (c = bs "dead")))
    [(encode_request demo_request, bs "/tmp/c", zeros 600);
     (encode_request demo_request, bs "dead", zeros 600);
     (encode_request demo_request, bs "/tmp/d", zeros 600)]
    demo_socket demo_registry 0%nat) as (sv & ms' & H & _ & _ & _ & _ & Hn & _).
  - exact demo_socket_wf.
  - exact reg_wf_demo.
  - exact (demo_handlers_total _).
  - exact I.
  - repeat constructor.
  - exists sv. split; [exact H|]. rewrite Hn. reflexivity.
Defined.

(** ** The worker *)

Section worker.
Context {W : Type} (invoke : Z -> Z -> MgmtCommandRequest -> MgmtCommandResponse -> W ->
  option (Z * MgmtCommandResponse * W)) (wok : W -> Prop) (running : W -> bool).

(** An iteration the operating system can give: the other threads keep [wok],
    the timeout can be set, a received datagram has the request under it. *)
Definition iteration_ok (it : (W -> W) * ProcessEnv) : Prop :=
  (forall w, wok w -> wok (it.1 w)) /\ length (pe_stack it.2) = MGMT_REQUEST_SIZE.

Lemma process_one_safe e ms timeout r w :
  sock_wf ms -> reg_wf r -> handlers_total invoke wok r -> wok w ->
  length (pe_stack e) = MGMT_REQUEST_SIZE ->
  exists sv ms', mgmt_socket_process_one invoke e (Some ms) timeout r w = Some sv /\
    sv_socket sv = Some ms' /\ sock_wf ms' /\ socket_fd ms' = socket_fd ms /\
    socket_path ms' = socket_path ms /\ reg_wf (sv_registry sv) /\
    handler_ptrs (sv_registry sv) = handler_ptrs r /\ wok (sv_world sv) /\
    Forall (fun m => typed_response m.2) (sv_sent sv).
Proof.
  intros Hms Hr Hh Hw Hst.
  destruct (decide (pe_setsockopt e = true)) as [Hso|Hso];
    [destruct (pe_recv e) as [|d client] eqn:Erv|].
  - exists (mkServed (-1) (Some ms) r w []), ms. unfold mgmt_socket_process_one.
    rewrite sock_wf_fd, Hso, andb_false_r, Erv by done. by split_and!.
  - destruct (process_one_receives invoke wok wok e d client ms timeout r w)
      as (sv & H & res & p & r' & w' & _ & Hp & Hr' & Hp' & Hw' & ->); try done.
    do 2 eexists. split; [done|]. split; [done|].
    split; [by apply sock_wf_tally|]. split_and!; try done. by apply sent_typed.
  - apply not_true_is_false in Hso. unfold mgmt_socket_process_one.
    rewrite sock_wf_fd, Hso by done. cbn [negb]. rewrite andb_true_r.
    destruct (bool_decide _) eqn:Et;
      [do 2 eexists; split; [done|]; by split_and!|].
    destruct (pe_recv e) as [|d client] eqn:Erv;
      [do 2 eexists; split; [done|]; by split_and!|].
    destruct (process_one_receives invoke wok wok (mkProcessEnv true (pe_recv e) (pe_stack e)
      (pe_send e)) d client ms timeout r w)
      as (sv & H & res & p & r' & w' & _ & Hp & Hr' & Hp' & Hw' & ->); try done.
    unfold mgmt_socket_process_one in H. cbn [pe_setsockopt pe_recv pe_stack pe_send] in H.
    rewrite sock_wf_fd, andb_false_r, Erv in H by done. rewrite H.
    do 2 eexists. split; [done|]. split; [done|].
    split; [by apply sock_wf_tally|]. split_and!; try done. by apply sent_typed.
Qed.

Lemma worker_loop_stops its others e its' ms r w s out path :
  Forall iteration_ok its -> iteration_ok (others, e) ->
  (forall w, running (others w) = false) ->
  sock_wf ms -> reg_wf r -> handlers_total invoke wok r -> wok w ->
  cstring (socket_path ms) = Some path ->
  exists r' w' out', worker_loop invoke running (its ++ (others, e) :: its') ms r w s out =
      Some (WorkerDone r' w' (sys_unlink path (sys_close (socket_fd ms) s)) out') /\
    reg_wf r' /\ wok w'.
Proof.
  intros Hits [Hoth _] Hstop. revert ms r w out.
  assert (forall ms, sock_wf ms -> cstring (socket_path ms) = Some path ->
    mgmt_socket_destroy (Some ms) s = Some (sys_unlink path (sys_close (socket_fd ms) s)))
    as Hdestroy.
  { intros ms Hms Hp. unfold mgmt_socket_destroy.
    rewrite (proj2 (Z.leb_le _ _) (sw_fd _ Hms)), Hp. done. }
  induction Hits as [|[oth e1] its [Hoth1 Hst] Hits IH]; intros ms r w out Hms Hr Hh Hw Hp;
    cbn [app worker_loop].
  - rewrite Hstop. cbn [negb]. rewrite Hdestroy by done. do 3 eexists. split; [done|]. auto.
  - destruct (running (oth w)); cbn [negb]; first last.
    { rewrite Hdestroy by done. do 3 eexists. split; [done|]. auto. }
    destruct (process_one_safe e1 ms 1000 r (oth w))
      as (sv & ms' & -> & Es & Hms' & Hfd & Hpath & Hr' & Hptr & Hw' & _); auto.
    cbn [mbind option_bind]. rewrite Es. cbn [mbind option_bind]. rewrite <- Hfd.
    apply IH; auto; [unfold handlers_return; by rewrite Hptr|by rewrite Hpath].
Qed.
End worker.

(** The worker thread ends once another thread clears its flag: after any
    finite number of iterations, whatever they received, the iteration that
    finds the flag cleared closes the descriptor and removes the socket file,
    so that the process leaves the descriptors it had and no socket file. *)
Theorem mgmt_worker_stops {W} invoke (wok : W -> Prop) running ce path s its others e its' r w sys :
  cstring path = Some s -> (forall fd, ce_socket ce = Some fd -> 0 <= fd /\ fd ∉ sys_fds sys) ->
  Forall (iteration_ok wok) its -> iteration_ok wok (others, e) ->
  (forall w, running (others w) = false) ->
  reg_wf r -> handlers_total invoke wok r -> wok w ->
  exists r' w' sys' out,
    mgmt_worker invoke running ce (its ++ (others, e) :: its') (Some (Some path, true)) r w sys
    = Some (WorkerDone r' w' sys' out) /\
    reg_wf r' /\ wok w' /\ sys_fds sys' = sys_fds sys /\ sys_files sys' ⊆ sys_files sys.
Proof.
  intros Hs Hfd Hits Hlast Hstop Hr Hh Hw. unfold mgmt_worker.
  destruct (decide (ce_malloc ce = false \/ ce_socket ce = None)) as [Hearly|Hgo].
  { rewrite (create_early ce path s sys Hs Hearly). cbn [mbind option_bind].
    do 4 eexists. split; [done|]. auto. }
  destruct (ce_malloc ce) eqn:Em; [|by destruct Hgo; left].
  destruct (ce_socket ce) as [fd|] eqn:Es; [|by destruct Hgo; right].
  destruct (Hfd fd eq_refl) as [Hpos Hnew]. clear Hgo Hfd.
  assert (({[fd]} ∪ sys_fds sys) ∖ {[fd]} = sys_fds sys) as Hclose by set_solver.
  destruct (ce_bind ce) eqn:Eb.
  - destruct (create_bound ce path s sys Hs fd Em Es Eb) as (d & Hd & ->).
    cbn [mbind option_bind].
    destruct (worker_loop_stops invoke wok running its others e its'
      (mkSocket fd d d 0 0 0 MtxFree) r w
      (sys_bind (take 107 s) (sys_unlink s (sys_open fd sys))) [] (take 107 s))
      as (r' & w' & out' & -> & Hr' & Hw'); auto.
    { split; cbn; try done; by eexists. }
    do 4 eexists. split; [done|]. do 2 (split; [done|]). cbn. split; [done|set_solver].
  - rewrite (create_unbound ce path s sys Hs fd Em Es Eb). cbn [mbind option_bind].
    do 4 eexists. split; [done|]. do 2 (split; [done|]). cbn. split; [done|set_solver].
Qed.

Lemma mgmt_worker_stops_witness :
  exists r' w' sys' out,
    mgmt_worker (W := nat) demo_invoke (fun w => (w <? 5)%nat) (mkCreateEnv true (Some 3) true)
      ([(id, mkProcessEnv true (RecvFrom (encode_request demo_request) (bs "/tmp/c"))
               (zeros 600) true)] ++
       (fun w => w + 5, mkProcessEnv true RecvError (zeros 600) true)%nat :: [])
      (Some (Some (lit "/tmp/a"), true)) demo_registry 0%nat (mkSys {[0; 1; 2]} ∅)
    = Some (WorkerDone r' w' sys' out) /\ sys_files sys' ⊆ ∅.
Proof.
  destruct (mgmt_worker_stops demo_invoke (fun _ => True) (fun w => (w <? 5)%nat)
    (mkCreateEnv true (Some 3) true) (lit "/tmp/a") (bs "/tmp/a")
    [(id, mkProcessEnv true (RecvFrom (encode_request demo_request) (bs "/tmp/c"))
            (zeros 600) true)]
    (fun w => w + 5)%nat (mkProcessEnv true RecvError (zeros 600) true) []
    demo_registry 0%nat (mkSys {[0; 1; 2]} ∅)) as (r' & w' & sys' & out & H & _ & _ & _ & Hf).
  - reflexivity.
  - intros fd [= <-]. split; [lia|]. set_solver.
  - repeat constructor.
  - split; done.
  - intros w. apply Nat.ltb_ge. lia.
  - exact reg_wf_demo.
  - exact (demo_handlers_total _).
  - exact I.
  - exists r', w', sys', out. split; [exact H|exact Hf].
Defined.
