(* ===== verification/MgmtTyped.v ===== *)
(** * Type soundness of the management socket (Mgmt/src/mgmt_socket.c)

    A program that owns a socket calls its functions in any order, while other
    processes send it datagrams of any length and contents and other threads
    change the process state.  [sock_run] runs such a sequence; the theorem is
    progress and preservation for the types of the structures. *)

From S2P Require Import Prelude CLib MgmtProtocol EventHandler MgmtSocket.

(** ** Calls *)

Section calls.
Context {W : Type}.
Variable invoke : Z -> Z -> MgmtCommandRequest -> MgmtCommandResponse -> W ->
  option (Z * MgmtCommandResponse * W).

(** A call of the interface, or a step of another thread. *)
Inductive sock_op :=
| OpProcessOne (e : ProcessEnv) (timeout_ms : Z)
| OpProcessAll (setsockopt_ok : bool) (reach : list byte -> bool)
    (queue : list (list byte * list byte * list byte))
| OpGetFd
| OpStats (p1 p2 p3 : bool)
| OpStatsReset
| OpSetBacklog (depth : Z)
| OpOthers (f : W -> W).

Record SockState := mkSockState {
  ss_socket : option MgmtSocket; ss_registry : EventHandlerRegistry; ss_world : W }.

(** The value returned, the state and what has been sent. *)
Definition served (sv : Served (W := W)) : Z * SockState * list sent :=
  (sv_result sv, mkSockState (sv_socket sv) (sv_registry sv) (sv_world sv), sv_sent sv).

Definition sock_call (op : sock_op) (st : SockState) : option (Z * SockState * list sent) :=
  let '(mkSockState h r w) := st in
  match op with
  | OpProcessOne e timeout =>
      sv ← mgmt_socket_process_one invoke e h timeout r w; Some (served sv)
  | OpProcessAll ok reach queue =>
      sv ← mgmt_socket_process_all invoke ok reach queue h r w; Some (served sv)
  | OpGetFd => Some (mgmt_socket_get_fd h, st, [])
  | OpStats p1 p2 p3 =>
      '(res, _, h) ← mgmt_socket_stats h p1 p2 p3; Some (res, mkSockState h r w, [])
  | OpStatsReset => '(res, h) ← mgmt_socket_stats_reset h; Some (res, mkSockState h r w, [])
  | OpSetBacklog depth => Some (mgmt_socket_set_backlog h depth, st, [])
  | OpOthers f => Some (0, mkSockState h r (f w), [])
  end.

Fixpoint sock_run (ops : list sock_op) (st : SockState) : option (SockState * list sent) :=
  match ops with
  | [] => Some (st, [])
  | op :: ops' =>
      '(_, st, out) ← sock_call op st;
      '(st, out') ← sock_run ops' st;
      Some (st, out ++ out')
  end.

(** ** Types *)

Variable wok : W -> Prop.

(** The structures hold values of their types, the locks are free and the
    handlers are functions of the right type. *)
Record typed (st : SockState) : Prop := {
  ty_socket : exists ms, ss_socket st = Some ms /\ sock_wf ms;
  ty_registry : reg_wf (ss_registry st);
  ty_handlers : handlers_total invoke wok (ss_registry st);
  ty_world : wok (ss_world st) }.

(** The request objects on the stack have their size; the other threads keep
    the process state. *)
Definition op_ok (op : sock_op) : Prop :=
  match op with
  | OpProcessOne e _ => length (pe_stack e) = MGMT_REQUEST_SIZE
  | OpProcessAll _ _ queue => Forall (fun x => length (snd x) = MGMT_REQUEST_SIZE) queue
  | OpOthers f => forall w, wok w -> wok (f w)
  | _ => True
  end.

(** * Lemmas *)

Abbreviation typed_out out := (Forall (fun m : sent => typed_response m.2) out).

Lemma typed_handlers r r' :
  handler_ptrs r' = handler_ptrs r -> handlers_total invoke wok r -> handlers_total invoke wok r'.
Proof. intros E. unfold handlers_return. by rewrite E. Qed.

Lemma process_one_typed e ms timeout r w :
  typed (mkSockState (Some ms) r w) -> length (pe_stack e) = MGMT_REQUEST_SIZE ->
  exists sv ms', mgmt_socket_process_one invoke e (Some ms) timeout r w = Some sv /\
    sv_socket sv = Some ms' /\ typed (mkSockState (Some ms') (sv_registry sv) (sv_world sv)) /\
    typed_out (sv_sent sv).
Proof.
  intros [(? & [= <-] & Hms) Hr Hh Hw] Hst.
  destruct (process_one_safe invoke wok e ms timeout r w Hms Hr Hh Hw Hst)
    as (sv & ms' & E & Es & Hms' & _ & _ & Hr' & Hp & Hw' & Ho).
  exists sv, ms'. split_and!; try done. split; try done; [by exists ms'|].
  by eapply typed_handlers.
Qed.

(** The loop of [process_all] ends with the queue. *)
Lemma process_loop_typed ok reach queue ms r w n out :
  typed (mkSockState (Some ms) r w) ->
  Forall (fun x => length (snd x) = MGMT_REQUEST_SIZE) queue -> typed_out out ->
  exists sv, process_loop invoke ok reach queue ms r w n out = Some sv /\
    typed (mkSockState (sv_socket sv) (sv_registry sv) (sv_world sv)) /\ typed_out (sv_sent sv).
Proof.
  intros Hty Hq. revert ms r w n out Hty. induction Hq as [|[[d client] stack] queue Hst Hq IH];
    intros ms r w n out Hty Hout; cbn [process_loop]; destruct ok; cbn [negb]; eauto.
  - destruct (ty_socket _ Hty) as (? & [= <-] & Hms).
    unfold mgmt_socket_process_one. rewrite sock_wf_fd by done.
    cbn [recv_timeout Z.ltb Z.compare pe_setsockopt negb pe_recv]. rewrite andb_false_r.
    cbn [mbind option_bind sv_socket sv_result sv_registry sv_world sv_sent Z.ltb Z.compare].
    eexists. split; [done|]. cbn. by rewrite app_nil_r.
  - destruct (process_one_typed (mkProcessEnv true (RecvFrom d client) stack (reach client)) ms 1 r w
      Hty Hst) as (sv & ms' & -> & Es & Hty' & Ho). cbn [mbind option_bind]. rewrite Es.
    cbn [mbind option_bind]. assert (typed_out (out ++ sv_sent sv)) by by apply Forall_app.
    destruct (sv_result sv <? 0); [|by apply IH]. by eexists.
Qed.

(** Progress and preservation for one call. *)
Lemma sock_call_typed op st :
  typed st -> op_ok op ->
  exists res st' out, sock_call op st = Some (res, st', out) /\ typed st' /\ typed_out out.
Proof.
  intros Hty Hop. destruct st as [h r w]. pose proof Hty as [(ms & Eh & Hms) Hr Hh Hw].
  cbn in Eh, Hr, Hh, Hw. subst h.
  assert (forall ms', sock_wf ms' -> typed (mkSockState (Some ms') r w)) as Hnew
    by (intros ms' ?; split; [by exists ms'|done..]).
  destruct op as [e t|ok reach queue| |p1 p2 p3| |depth|f]; cbn [sock_call op_ok] in *.
  - destruct (process_one_typed e ms t r w Hty Hop) as (sv & ms' & -> & Es & Hty' & Ho).
    cbn [mbind option_bind]. do 3 eexists. split; [done|]. by rewrite Es.
  - unfold mgmt_socket_process_all. rewrite sock_wf_fd by done.
    destruct (process_loop_typed ok reach queue ms r w 0 [] Hty Hop) as (sv & -> & Hty' & Ho); [done|].
    cbn [mbind option_bind]. do 3 eexists. by split; [|split].
  - by do 3 eexists.
  - unfold mgmt_socket_stats. rewrite with_stats_lock_free by (done || apply Hms).
    cbn [mbind option_bind]. do 3 eexists. split; [done|]. split; [|done].
    apply Hnew. destruct Hms. by split.
  - unfold mgmt_socket_stats_reset. rewrite with_stats_lock_free by (done || apply Hms).
    cbn [mbind option_bind]. do 3 eexists. split; [done|]. split; [|done].
    apply Hnew. destruct Hms. by split.
  - by do 3 eexists.
  - do 3 eexists. split; [done|]. split; [|done]. split; [by exists ms|done|done|by apply Hop].
Qed.
End calls.

Arguments sock_op : clear implicits.
Arguments SockState : clear implicits.
Arguments mkSockState {W}.

(** * Properties *)

(** C27: the management socket is type sound.  From a well-typed state (fields
    in the ranges of their types, locks free, handlers that return), every
    sequence of calls of its interface returns, for datagrams of any length and
    contents and whatever the system answers, in a well-typed state; and each
    datagram it sends is a response of exactly 2152 bytes whose fields are in
    the ranges of their types and which the client decodes to what was
    encoded. *)
Theorem mgmt_socket_type_sound {W} invoke (wok : W -> Prop) ops st :
  typed invoke wok st -> Forall (op_ok wok) ops ->
  exists st' out, sock_run invoke ops st = Some (st', out) /\ typed invoke wok st' /\
    Forall (fun m => length m.2 = MGMT_RESPONSE_SIZE /\ wf_response (decode_response m.2) /\
      encode_response (decode_response m.2) = m.2) out.
Proof.
  intros Hty Hops.
  enough (exists st' out, sock_run invoke ops st = Some (st', out) /\ typed invoke wok st' /\
    Forall (fun m : sent => typed_response m.2) out) as (st' & out & E & Hty' & Ho).
  { exists st', out. split_and!; try done. eapply Forall_impl; [done|].
    intros m (p & Hp & ->). rewrite decode_encode_response_wf by done.
    split_and!; [by apply length_encode_response|done|done]. }
  revert st Hty. induction Hops as [|op ops Hop Hops IH]; intros st Hty; [by exists st, []|].
  destruct (sock_call_typed invoke wok op st Hty Hop) as (res & st1 & out1 & E1 & Hty1 & Ho1).
  destruct (IH st1 Hty1) as (st' & out & E & Hty' & Ho).
  exists st', (out1 ++ out). cbn [sock_run]. rewrite E1. cbn [mbind option_bind]. rewrite E.
  split_and!; try done. by apply Forall_app.
Qed.

Definition demo_ops : list (sock_op nat) :=
  [OpProcessOne (mkProcessEnv true (RecvFrom (bs "garbage") (bs "/tmp/c")) (zeros 600) true) 1000;
   OpOthers S; OpProcessAll true (fun _ => true) [(encode_request demo_request, bs "/tmp/c", zeros 600)];
   OpStats true true false; OpStatsReset].

Lemma mgmt_socket_type_sound_witness :
  exists st' out, sock_run demo_invoke demo_ops (mkSockState (Some demo_socket) demo_registry 0%nat)
      = Some (st', out) /\ length out = 2%nat /\
    Forall (fun m => wf_response (decode_response m.2)) out.
Proof.
  destruct (mgmt_socket_type_sound demo_invoke (fun _ => True) demo_ops
    (mkSockState (Some demo_socket) demo_registry 0%nat)) as (st' & out & H & _ & Ho).
  - split; [exists demo_socket; split; [reflexivity|exact demo_socket_wf]|exact reg_wf_demo
      |exact (demo_handlers_total _)|exact I].
  - repeat (apply Forall_cons; split); try apply Forall_nil_2; try exact I; try reflexivity.
    intros w _. exact I.
  - exists st', out. split; [exact H|]. split.
    + assert ((length ∘ snd) <$> sock_run demo_invoke demo_ops
        (mkSockState (Some demo_socket) demo_registry 0%nat) = Some 2%nat) as E
        by (vm_compute; reflexivity).
      rewrite H in E. by injection E.
    + eapply Forall_impl; [exact Ho|]. intros m (_ & Hm & _). exact Hm.
Defined.
