(* ===== verification/Ipc.v ===== *)
(** * Message queues and the notification message (SHM/include/shared_ipc.h)

    The System V message queue as the programs use it through msgsnd(2) and
    msgrcv(2): a list of typed messages with a bound on the bytes it holds.
    A queue identifier the kernel does not know (for instance the -1 of a
    failed msgget) is [None]. *)

From S2P Require Import Prelude CLib.

(** ** The queue *)

Record MsgQueue := mkQueue { q_messages : list (Z * list byte); q_bytes : Z }.

Definition q_used (q : MsgQueue) : Z :=
  foldr (fun m n => Z.of_nat (length (snd m)) + n) 0 (q_messages q).

(** The answer of a call: the value, or -1 with an error. *)
Inductive ipc_error := EINVAL | EAGAIN | ENOMSG | E2BIG | EINTR.
Inductive ipc_answer (A : Type) := IpcOk (a : A) | IpcErr (e : ipc_error).
Arguments IpcOk {A}.
Arguments IpcErr {A}.

Definition room (q : MsgQueue) (body : list byte) : bool :=
  (q_used q + Z.of_nat (length body) <=? q_bytes q) &&
  (Z.of_nat (length (q_messages q)) + 1 <=? q_bytes q).

Definition msgsnd (nowait : bool) (q : option MsgQueue) (mtype : Z) (body : list byte)
    : exec (ipc_answer unit * option MsgQueue) :=
  match q with
  | None => Ret (IpcErr EINVAL, q)
  | Some qu =>
      if mtype <=? 0 then Ret (IpcErr EINVAL, q)
      else if room qu body then
        Ret (IpcOk tt, Some (mkQueue (q_messages qu ++ [(mtype, body)]) (q_bytes qu)))
      else if nowait then Ret (IpcErr EAGAIN, q) else Blocked
  end.

(** The first message of a type, any type for 0, and the queue without it. *)
Fixpoint take_message (typ : Z) (ms : list (Z * list byte))
    : option ((Z * list byte) * list (Z * list byte)) :=
  match ms with
  | [] => None
  | m :: ms' =>
      if (typ =? 0) || (fst m =? typ) then Some (m, ms')
      else '(x, rest) ← take_message typ ms'; Some (x, m :: rest)
  end.

(** [msgrcv] with type 0 or a positive one; [size] is the room for the body. *)
Definition msgrcv (nowait noerror : bool) (q : option MsgQueue) (size : nat) (typ : Z)
    : exec (ipc_answer (Z * list byte) * option MsgQueue) :=
  match q with
  | None => Ret (IpcErr EINVAL, q)
  | Some qu =>
      match take_message typ (q_messages qu) with
      | None => if nowait then Ret (IpcErr ENOMSG, q) else Blocked
      | Some ((mt, body), rest) =>
          if (size <? length body)%nat && negb noerror then Ret (IpcErr E2BIG, q)
          else Ret (IpcOk (mt, take size body), Some (mkQueue rest (q_bytes qu)))
      end
  end.

(** ** The notification *)

Definition SYSTEM_IPC_KEY : Z := 0x54321.
Definition MSG_TYPE_SHM_NOTIFY : Z := 1.
Definition MSG_TYPE_SHM_QUIT : Z := 2.

Record IpcNotifyMessage := mkNotify { nt_mtype : Z; shm_status_id : Z }.

(** [sizeof(IpcNotifyMessage) - sizeof(long)]: the [int] and 4 bytes of padding. *)
Definition NOTIFY_SIZE : nat := 8.

(** The body of a notification as it is sent: [pad] are the padding bytes of
    the sender's object, which are never written. *)
Definition notify_body (m : IpcNotifyMessage) (pad : list byte) : list byte :=
  le_bytes 4 (shm_status_id m) ++ pad.

Definition notify_of (mtype : Z) (body : list byte) : IpcNotifyMessage :=
  mkNotify mtype (swrap 32 (le_int (take 4 body))).

(** ** Emptying a queue

    [while (msgrcv(id, &dummy, size, 0, IPC_NOWAIT | MSG_NOERROR) != -1)], with
    a bound on the number of calls. *)
Fixpoint drain (fuel : nat) (q : option MsgQueue) (size : nat) : exec (option MsgQueue) :=
  match fuel with
  | O => Blocked
  | S fuel' =>
      '(a, q) ← msgrcv true true q size 0;
      match a with
      | IpcOk _ => drain fuel' q size
      | IpcErr _ => Ret q
      end
  end.

(** One call more than there are messages. *)
Definition drain_fuel (q : option MsgQueue) : nat :=
  match q with Some qu => S (length (q_messages qu)) | None => 1 end.

(** * Lemmas *)

(** The bodies of the messages of a type, in order. *)
Definition of_type (typ : Z) (ms : list (Z * list byte)) : list (list byte) :=
  snd <$> filter (fun m => fst m = typ) ms.

Lemma take_message_split typ ms m rest :
  take_message typ ms = Some (m, rest) ->
  exists l1 l2, ms = l1 ++ m :: l2 /\ rest = l1 ++ l2 /\ (typ = 0 \/ fst m = typ) /\
    forall x, x ∈ l1 -> typ <> 0 /\ fst x <> typ.
Proof.
  revert rest. induction ms as [|x ms IH]; intros rest H; cbn in H; [done|].
  destruct ((typ =? 0) || (fst x =? typ)) eqn:E.
  - injection H as -> ->. exists [], rest. split; [done|]. split; [done|].
    tests. split; [tests; naive_solver lia|]. intros y Hy. by apply not_elem_of_nil in Hy.
  - apply bind_Some in H as ([y r] & Hy & H). cbn in H. injection H as -> <-.
    destruct (IH r Hy) as (l1 & l2 & -> & -> & Hm & Hl). exists (x :: l1), l2.
    tests. split_and!; try done. intros z [->|Hz]%elem_of_cons; [done|auto].
Qed.

Lemma take_message_none typ ms :
  take_message typ ms = None <-> (forall m, m ∈ ms -> typ <> 0 /\ fst m <> typ).
Proof.
  induction ms as [|x ms IH]; cbn.
  - split; [|done]. intros _ m Hm. by apply not_elem_of_nil in Hm.
  - destruct ((typ =? 0) || (fst x =? typ)) eqn:E.
    + split; [done|]. intros H. destruct (H x) as [? ?]; [by left|]. tests.
      destruct E; tests; done.
    + tests. split.
      * intros Hn m [->|Hm]%elem_of_cons; [done|]. apply IH; [|done].
        destruct (take_message typ ms) as [[y r]|]; done.
      * intros Hn. destruct IH as [_ IH]. rewrite IH; [done|].
        intros m Hm. apply Hn. by right.
Qed.

Lemma of_type_app typ l1 l2 : of_type typ (l1 ++ l2) = of_type typ l1 ++ of_type typ l2.
Proof. unfold of_type. by rewrite filter_app, fmap_app. Qed.

(** Receiving a type takes the oldest message of that type and leaves the
    others, of every type, as they are. *)
Lemma take_message_fifo typ ms m rest :
  typ <> 0 -> take_message typ ms = Some (m, rest) ->
  of_type typ ms = snd m :: of_type typ rest /\
  forall t, t <> typ -> of_type t rest = of_type t ms.
Proof.
  intros Ht H. destruct (take_message_split _ _ _ _ H) as (l1 & l2 & -> & -> & Hm & Hl).
  destruct Hm as [->|Hm]; [done|].
  assert (of_type typ l1 = []) as Hl1.
  { clear -Hl. induction l1 as [|x l1 IH]; [done|]. unfold of_type in *.
    rewrite filter_cons, decide_False by (apply Hl; by left).
    apply IH. intros y Hy. apply Hl. by right. }
  assert (forall t, of_type t (m :: l2) = (if decide (fst m = t) then [snd m] else [])
                                           ++ of_type t l2) as Hc.
  { intros t. unfold of_type. rewrite filter_cons. by case_decide. }
  split.
  - rewrite !of_type_app, Hl1, Hc, decide_True by done. done.
  - intros t Hne. rewrite !of_type_app, Hc, decide_False by congruence. done.
Qed.

Lemma drain_empties qu size fuel :
  (length (q_messages qu) < fuel)%nat ->
  drain fuel (Some qu) size = Ret (Some (mkQueue [] (q_bytes qu))).
Proof.
  revert qu. induction fuel as [|fuel IH]; intros [ms cap] Hf; [lia|]. cbn [drain msgrcv q_messages].
  destruct ms as [|[mt body] ms]; [done|]. cbn [take_message orb Z.eqb negb].
  rewrite andb_false_r. run. by apply (IH (mkQueue ms cap)); cbn in *; lia.
Qed.

Lemma drain_terminates_all q size :
  drain (drain_fuel q) q size = Ret ((fun qu => mkQueue [] (q_bytes qu)) <$> q).
Proof. destruct q as [qu|]; [|done]. apply drain_empties. cbn. lia. Qed.

Lemma drain_returns q size : exists q', drain (drain_fuel q) q size = Ret q'.
Proof. eexists. apply drain_terminates_all. Qed.

Lemma notify_roundtrip st pad mt :
  in_s 32 st -> notify_of mt (notify_body (mkNotify mt st) pad) = mkNotify mt st.
Proof.
  intros Hst. unfold notify_of, notify_body. cbn [shm_status_id].
  rewrite take_app_length' by by rewrite length_le_bytes. f_equal.
  rewrite le_int_bytes. change (8 * Z.of_nat 4) with 32.
  etransitivity; [by apply swrap_wrap|]. by apply swrap_id.
Qed.

(** Messages of one type come out in the order they went in, also when
    other types are interleaved: a receive of a positive type gets the oldest
    message of that type and leaves all other types untouched. *)
Lemma msgrcv_fifo nowait noerror q size typ mt body q' :
  0 < typ ->
  msgrcv nowait noerror (Some q) size typ = Ret (IpcOk (mt, body), Some q') ->
  mt = typ /\ (exists full, body = take size full /\
    of_type typ (q_messages q) = full :: of_type typ (q_messages q')) /\
  forall t, t <> typ -> of_type t (q_messages q') = of_type t (q_messages q).
Proof.
  intros Ht H. cbn [msgrcv] in H.
  destruct (take_message typ (q_messages q)) as [[[mt' full] rest]|] eqn:E;
    [|by destruct nowait].
  destruct ((size <? length full)%nat && negb noerror); [done|].
  injection H as -> <- <-. cbn [q_messages].
  destruct (take_message_split _ _ _ _ E) as (_ & _ & _ & _ & [->|Hm] & _); [lia|].
  split; [done|]. destruct (take_message_fifo typ _ _ _ ltac:(lia) E) as [H1 H2].
  split; [|done]. by exists full.
Qed.

(** A receive has no undefined behaviour, and one that fails takes nothing. *)
Lemma msgrcv_answers nowait noerror q size typ :
  match msgrcv nowait noerror q size typ with
  | Ret (IpcErr _, q') => q' = q | Ret (IpcOk _, _) | Blocked => True | UB => False
  end.
Proof. unfold msgrcv. by repeat case_match; simplify_eq. Qed.

(** The oldest message of a type is what a receive of that type gets. *)
Lemma msgrcv_oldest q size typ b rest :
  0 < typ -> of_type typ (q_messages q) = b :: rest -> (length b <= size)%nat ->
  exists q', msgrcv false false (Some q) size typ = Ret (IpcOk (typ, b), Some q') /\
    of_type typ (q_messages q') = rest /\ q_bytes q' = q_bytes q.
Proof.
  intros Ht Hq Hb. cbn [msgrcv].
  destruct (take_message typ (q_messages q)) as [[[mt full] ms]|] eqn:E.
  - destruct (take_message_fifo typ _ _ _ ltac:(lia) E) as [H1 _].
    destruct (take_message_split _ _ _ _ E) as (_ & _ & _ & _ & [->|Hm] & _); [lia|].
    rewrite Hq in H1. cbn [snd fst] in *. injection H1 as <- Hrest. subst mt.
    rewrite (proj2 (Nat.ltb_ge _ _)) by lia. cbn [andb]. rewrite take_ge by lia.
    eexists. split; [done|]. split; [|done]. by symmetry.
  - exfalso. rewrite take_message_none in E.
    assert (b ∈ of_type typ (q_messages q)) as Hin by (rewrite Hq; by left).
    unfold of_type in Hin. apply list_elem_of_fmap in Hin as (m & -> & Hm).
    apply list_elem_of_filter in Hm as [Hm Hm']. by destruct (E m Hm').
Qed.

(** * Properties *)

(** Emptying the shared queue, as Router and Collector do when they start,
    returns for every queue: one call more than there are messages is enough,
    whatever their types and lengths, and the queue is then empty; an unknown
    queue is left alone. *)
Theorem drain_terminates q size :
  drain (drain_fuel q) q size = Ret (match q with Some qu => Some (mkQueue [] (q_bytes qu))
                                             | None => None end).
Proof. rewrite drain_terminates_all. by destruct q. Qed.
