(* ===== verification/ShmData.v ===== *)
(** * The shared segment: data, process-shared mutex, read and write

    What the two implementations of the shared-memory interface (SHM and
    PosixSHM) have in common: the structure placed in the segment, the lock
    with its recovery, and the accesses under the lock.  They differ in the
    size of the message field, a parameter here, and in how the segment is
    made and found (files Shm and PosixShm).  The class [ShmApi] at the end is
    the interface the other programs rely on. *)

From S2P Require Import Prelude CLib.

(** ** A process-shared mutex, possibly robust (pthread_mutex_lock(3p))

    [PmHeld robust pid]; [PmDead]: the owner of a robust mutex died;
    [PmInconsistent pid]: [pid] got it after such a death and has not declared
    it consistent yet. *)
Inductive pmutex :=
| PmUninit
| PmFree (robust : bool)
| PmHeld (robust : bool) (owner : Z)
| PmDead
| PmInconsistent (owner : Z)
| PmNotRecoverable.

#[export] Instance pmutex_eq_dec : EqDecision pmutex.
Proof. solve_decision. Defined.

Definition EOWNERDEAD : Z := 130.
Definition ENOTRECOVERABLE : Z := 131.

Definition pthread_mutex_lock (pid : Z) (m : pmutex) : exec (Z * pmutex) :=
  match m with
  | PmUninit => UB
  | PmFree r => Ret (0, PmHeld r pid)
  | PmHeld _ _ | PmInconsistent _ => Blocked
  | PmDead => Ret (EOWNERDEAD, PmInconsistent pid)
  | PmNotRecoverable => Ret (ENOTRECOVERABLE, m)
  end.

Definition pthread_mutex_consistent (m : pmutex) : pmutex :=
  match m with PmInconsistent p => PmHeld true p | _ => m end.

Definition pthread_mutex_unlock (m : pmutex) : exec pmutex :=
  match m with
  | PmHeld r _ => Ret (PmFree r)
  | PmInconsistent _ => Ret PmNotRecoverable
  | _ => UB
  end.

(** The death of a process: a robust mutex it held remembers it. *)
Definition owner_dies (pid : Z) (m : pmutex) : pmutex :=
  match m with
  | PmHeld true p | PmInconsistent p => if p =? pid then PmDead else m
  | _ => m
  end.

(** ** The segment *)

Record SharedData := mkShared {
  sd_mtx : pmutex; sd_status_code : Z; sd_message : list byte; sd_updated : Z }.

(** A fresh segment is zero-filled. *)
Definition zero_shared (cap : nat) : SharedData := mkShared PmUninit 0 (zeros cap) 0.

Definition set_mtx (d : SharedData) (m : pmutex) : SharedData :=
  mkShared m (sd_status_code d) (sd_message d) (sd_updated d).

(** [%.*s]: the bytes of an object up to a NUL, at most [n] of them. *)
Fixpoint bounded_str (n : nat) (buf : list byte) : option (list byte) :=
  match n with
  | O => Some []
  | S n' =>
      match buf with
      | [] => None
      | b :: buf' => if is_nul b then Some [] else s ← bounded_str n' buf'; Some (b :: s)
      end
  end.

Section access.
(** Whether the compilation saw PTHREAD_MUTEX_ROBUST as a macro ([#ifdef]),
    and the calling process. *)
Variable robust : bool.
Variable pid : Z.

Definition safe_lock (m : pmutex) : exec (bool * pmutex) :=
  '(ret, m) ← pthread_mutex_lock pid m;
  if ret =? 0 then Ret (true, m)
  else if robust && (ret =? EOWNERDEAD) then Ret (true, pthread_mutex_consistent m)
  else Ret (false, m).

(** The mutex a creator initializes. *)
Definition init_mutex : pmutex := PmFree robust.

Definition segment_write (d : SharedData) (status : Z) (msg : list byte)
    : exec (bool * SharedData) :=
  '(ok, m) ← safe_lock (sd_mtx d);
  if negb ok then Ret (false, set_mtx d m)
  else
    text ← obj (cstring msg);
    '(message, _) ← obj (snprintf (sd_message d) 0 (Z.of_nat (length (sd_message d))) text);
    m ← pthread_mutex_unlock m;
    Ret (true, mkShared m status message (sd_updated d)).

(** [out_msg]: the object behind the caller's pointer ([None]: NULL). *)
Definition segment_read (d : SharedData) (out_status : option Z) (out_msg : option (list byte))
    : exec (bool * option Z * option (list byte) * SharedData) :=
  '(ok, m) ← safe_lock (sd_mtx d);
  if negb ok then Ret (false, out_status, out_msg, set_mtx d m)
  else
    let out_status := (fun _ => sd_status_code d) <$> out_status in
    let max_len := length (sd_message d) in
    match out_msg with
    | None =>
        m ← pthread_mutex_unlock m;
        Ret (true, out_status, out_msg, set_mtx d m)
    | Some out =>
        if (max_len <? 1)%nat then
          m ← pthread_mutex_unlock m;
          Ret (false, out_status, out_msg, set_mtx d m)
        else
          text ← obj (bounded_str (max_len - 1) (sd_message d));
          '(out, _) ← obj (snprintf out 0 (Z.of_nat max_len) text);
          m ← pthread_mutex_unlock m;
          Ret (true, out_status, Some out, set_mtx d m)
    end.
End access.

(** ** The interface

    [S] is the state of the system's segments, [H] a connection of a process.
    [shm_at h s st t]: through [h] one finds an unlocked segment with the
    status [st] and the text [t]. *)
Class ShmOps (S H : Type) := {
  shm_capacity : nat;
  shm_write : H -> Z -> list byte -> S -> exec (bool * S);
  shm_read : H -> option Z -> option (list byte) -> S ->
    exec (bool * option Z * option (list byte) * S) }.

Class ShmApi (S H : Type) `{ShmOps S H} := {
  shm_at : H -> S -> Z -> list byte -> Prop;
  shm_same : H -> H -> Prop;
  shm_at_same h h' s st t : shm_same h h' -> shm_at h s st t -> shm_at h' s st t;
  shm_write_spec h s st t st' msg text :
    shm_at h s st t -> cstring msg = Some text ->
    exists s', shm_write h st' msg s = Ret (true, s') /\
               shm_at h s' st' (take (shm_capacity - 1) text);
  shm_read_spec h s st t st0 out :
    shm_at h s st t -> (shm_capacity <= length out)%nat ->
    exists out' s', shm_read h (Some st0) (Some out) s = Ret (true, Some st, Some out', s') /\
      cstring out' = Some t /\ length out' = length out /\ shm_at h s' st t }.

(** * Lemmas *)

Lemma bounded_str_cstring n buf s :
  cstring buf = Some s -> bounded_str n buf = Some (take n s).
Proof.
  revert n s. induction buf as [|b buf IH]; intros [|n] s H; cbn in *; try done.
  destruct (is_nul b); [by simplify_eq|]. apply fmap_Some in H as (s' & H & ->).
  by rewrite (IH n s' H).
Qed.

(** The text of a segment: its message field is terminated. *)
Definition seg_ok (cap : nat) (r : bool) (d : SharedData) (st : Z) (t : list byte) : Prop :=
  sd_mtx d = PmFree r /\ sd_status_code d = st /\ length (sd_message d) = cap /\
  cstring (sd_message d) = Some t.

Section access_lemmas.
Context (robust : bool) (pid : Z) (cap : nat) (Hcap : (0 < cap)%nat).

Lemma safe_lock_free r m : m = PmFree r -> safe_lock robust pid m = Ret (true, PmHeld r pid).
Proof. by intros ->. Qed.

(** A write: the status and as much of the text as fits, whatever was there. *)
Lemma segment_write_stores d r st msg text :
  sd_mtx d = PmFree r -> length (sd_message d) = cap -> cstring msg = Some text ->
  exists d', segment_write robust pid d st msg = Ret (true, d') /\
    seg_ok cap r d' st (take (cap - 1) text) /\ sd_updated d' = sd_updated d.
Proof.
  intros Hm Hl Ht. unfold segment_write. rewrite (safe_lock_free r) by done. run.
  rewrite Ht. run. cbn [negb].
  destruct (snprintf_fresh (sd_message d) text) as (m' & -> & Hh & Hl').
  { intros E. rewrite E in Hl. cbn in Hl. lia. }
  run. cbn [pthread_mutex_unlock]. run. eexists; split; [done|]. split; [|done].
  split; [done|]. split; [done|]. split; [cbn; congruence|]. cbn. rewrite Hl in Hh.
  apply holds_cstring; [|done]. apply Forall_take. by eapply cstring_no_nul.
Qed.

Lemma segment_read_loads d r st t st0 out :
  seg_ok cap r d st t -> (cap <= length out)%nat ->
  exists out', segment_read robust pid d (Some st0) (Some out) = Ret (true, Some st, Some out', d) /\
    cstring out' = Some t /\ length out' = length out.
Proof.
  intros (Hm & Hst & Hl & Ht) Ho. unfold segment_read.
  rewrite (safe_lock_free r) by done. run. cbn [negb]. rewrite Hl.
  rewrite (proj2 (Nat.ltb_ge _ _)) by lia.
  rewrite (bounded_str_cstring _ _ t Ht). run.
  assert (length t < cap)%nat as Hlt by (rewrite <- Hl; by eapply cstring_length).
  rewrite take_ge by lia. unfold snprintf. rewrite (proj2 (Z.eqb_neq _ 0)) by lia.
  rewrite take_ge by lia. rewrite write_at_safe by (rewrite length_app; cbn; lia). run.
  cbn [pthread_mutex_unlock]. run. cbn [fmap option_fmap option_map].
  eexists. split; [|split].
  - repeat f_equal; [done|]. destruct d; cbn in *. by rewrite Hm.
  - rewrite take_0. cbn [app]. rewrite <- app_assoc. apply cstring_app.
    by eapply cstring_no_nul.
  - rewrite !length_app, length_take, length_drop. cbn. lia.
Qed.

(** Without the robust attribute the death of an owner blocks everybody. *)
Lemma safe_lock_after_death r owner :
  safe_lock robust pid (owner_dies owner (PmHeld r owner)) =
    if r then Ret (robust, if robust then PmHeld true pid else PmInconsistent pid)
    else Blocked.
Proof.
  unfold safe_lock, owner_dies. destruct r; [|done]. rewrite Z.eqb_refl. run. cbn.
  by destruct robust.
Qed.
End access_lemmas.

(** Against the interface: what is written through one connection is read
    through another one of the same segment. *)
Lemma write_then_read {S H : Type} `{!ShmOps S H, !ShmApi S H} (hw hr : H) (s : S) st0 t0 st msg text so out :
  shm_at hw s st0 t0 -> shm_same hw hr -> cstring msg = Some text ->
  (shm_capacity (S := S) (H := H) <= length out)%nat ->
  exists s1 out' s2, shm_write hw st msg s = Ret (true, s1) /\
    shm_read hr (Some so) (Some out) s1 = Ret (true, Some st, Some out', s2) /\
    cstring out' = Some (take (shm_capacity (S := S) (H := H) - 1) text) /\
    length out' = length out /\
    shm_at hr s2 st (take (shm_capacity (S := S) (H := H) - 1) text).
Proof.
  intros Hw Hs Ht Ho.
  destruct (shm_write_spec hw s st0 t0 st msg text Hw Ht) as (s1 & H1 & Hat).
  apply (shm_at_same hw hr) in Hat; [|done].
  destruct (shm_read_spec hr s1 st _ so out Hat Ho) as (out' & s2 & H2 & Hc & Hl & Hat2).
  by exists s1, out', s2.
Qed.
