(* ===== verification/Shm.v ===== *)
(** * System V shared memory (SHM/src/shm_api.c)

    The system keeps segments by identifier, each with its data, the number of
    attachments and the mark of a removal; the key SHM_KEY is bound to at most
    one of them.  A handle is the context structure; NULL is [None]. *)

From S2P Require Import Prelude CLib ShmData.

Definition MAX_PAYLOAD_SIZE : nat := 1024.

(** ** State *)

Record Segment := mkSeg { seg_data : SharedData; seg_nattch : Z; seg_removed : bool }.

Record ShmSystem := mkShmSys { shm_segs : gmap Z Segment; shm_key : option Z }.

Record ShmContext := mkCtx { shmid : Z; is_creator : bool }.
Abbreviation ShmHandle := (option ShmContext).

(** What the calls of [shm_api_init] answer: memory, a new segment under a
    fresh identifier ([None]: shmget fails), the lookup of an existing one,
    the attachment. *)
Record InitEnv := mkInitEnv {
  ie_malloc : bool; ie_create : option Z; ie_lookup : bool; ie_attach : bool }.

Section shm_api.
Variable robust : bool.

Definition update_seg (id : Z) (f : Segment -> option Segment) (s : ShmSystem) : ShmSystem :=
  mkShmSys (partial_alter (fun o => o ≫= f) id (shm_segs s)) (shm_key s).

(** A removed segment goes away with its last attachment. *)
Definition detach (g : Segment) : option Segment :=
  if seg_removed g && (seg_nattch g - 1 <=? 0) then None
  else Some (mkSeg (seg_data g) (seg_nattch g - 1) (seg_removed g)).

Definition attach (g : Segment) : option Segment :=
  Some (mkSeg (seg_data g) (seg_nattch g + 1) (seg_removed g)).

(** [IPC_RMID] *)
Definition remove (g : Segment) : option Segment :=
  if seg_nattch g <=? 0 then None else Some (mkSeg (seg_data g) (seg_nattch g) true).

Definition set_data (d : SharedData) (g : Segment) : option Segment :=
  Some (mkSeg d (seg_nattch g) (seg_removed g)).

(** The two calls of shmget: the identifier, and whether it was created. *)
Definition shmget (e : InitEnv) (s : ShmSystem) : option (Z * bool) * ShmSystem :=
  match shm_key s with
  | None =>
      match ie_create e with
      | Some id =>
          (Some (id, true),
           mkShmSys (<[id := mkSeg (zero_shared MAX_PAYLOAD_SIZE) 0 false]> (shm_segs s))
             (Some id))
      | None => (None, s)
      end
  | Some id => (if ie_lookup e then Some (id, false) else None, s)
  end.

Definition shm_api_init (e : InitEnv) (s : ShmSystem) : ShmHandle * ShmSystem :=
  if negb (ie_malloc e) then (None, s)
  else
    match shmget e s with
    | (None, s) => (None, s)
    | (Some (id, creator), s) =>
        if negb (ie_attach e) then (None, s)
        else
          let s := update_seg id attach s in
          let s := if creator then
                     update_seg id (fun g => set_data (set_mtx (seg_data g) (init_mutex robust)) g) s
                   else s in
          (Some (mkCtx id creator), s)
    end.

(** The attached structure behind a handle; touching it after it has gone is
    undefined. *)
Definition data_of (h : ShmContext) (s : ShmSystem) : exec SharedData :=
  obj (seg_data <$> shm_segs s !! shmid h).

Definition shm_api_write (pid : Z) (h : ShmHandle) (status : Z) (msg : list byte)
    (s : ShmSystem) : exec (bool * ShmSystem) :=
  match h with
  | None => Ret (false, s)
  | Some c =>
      d ← data_of c s;
      '(ok, d) ← segment_write robust pid d status msg;
      Ret (ok, update_seg (shmid c) (set_data d) s)
  end.

Definition shm_api_read (pid : Z) (h : ShmHandle) (out_status : option Z)
    (out_msg : option (list byte)) (s : ShmSystem)
    : exec (bool * option Z * option (list byte) * ShmSystem) :=
  match h with
  | None => Ret (false, out_status, out_msg, s)
  | Some c =>
      d ← data_of c s;
      '(ok, st, out, d) ← segment_read robust pid d out_status out_msg;
      Ret (ok, st, out, update_seg (shmid c) (set_data d) s)
  end.

Definition shm_api_close (h : ShmHandle) (s : ShmSystem) : ShmSystem :=
  match h with
  | None => s
  | Some c => update_seg (shmid c) detach s
  end.

Definition shm_api_destroy (h : ShmHandle) (s : ShmSystem) : ShmSystem :=
  match h with
  | None => s
  | Some c =>
      let s := update_seg (shmid c) detach s in
      if is_creator c then
        let s := update_seg (shmid c) remove s in
        mkShmSys (shm_segs s) (if decide (shm_key s = Some (shmid c)) then None else shm_key s)
      else s
  end.
End shm_api.

(** A connection: the process and its handle. *)
Abbreviation connection := (Z * ShmHandle)%type.

Definition connected (robust : bool) (h : connection) (s : ShmSystem) (st : Z) (t : list byte)
    : Prop :=
  exists c g, snd h = Some c /\ shm_segs s !! shmid c = Some g /\
    seg_ok MAX_PAYLOAD_SIZE robust (seg_data g) st t.

(** * Lemmas *)

Lemma update_seg_lookup id f s :
  shm_segs (update_seg id f s) !! id = shm_segs s !! id ≫= f.
Proof. apply lookup_partial_alter_eq. Qed.

Lemma update_seg_key id f s : shm_key (update_seg id f s) = shm_key s.
Proof. done. Qed.

Lemma data_of_lookup c s g : shm_segs s !! shmid c = Some g -> data_of c s = Ret (seg_data g).
Proof. intros H. unfold data_of. by rewrite H. Qed.

Definition sysv_ops (robust : bool) : ShmOps ShmSystem connection := {|
  shm_capacity := MAX_PAYLOAD_SIZE;
  shm_write h := shm_api_write robust (fst h) (snd h);
  shm_read h := shm_api_read robust (fst h) (snd h) |}.

Section sysv.
Context (robust : bool).

Lemma sysv_write_spec (h : connection) s st t st' msg text :
  connected robust h s st t -> cstring msg = Some text ->
  exists s', shm_api_write robust (fst h) (snd h) st' msg s = Ret (true, s') /\
    connected robust h s' st' (take (MAX_PAYLOAD_SIZE - 1) text) /\ shm_key s' = shm_key s.
Proof.
  intros (c & g & Hh & Hg & Hm & _ & Hl & _) Ht. rewrite Hh. cbn [shm_api_write].
  rewrite (data_of_lookup _ _ g) by done. run.
  destruct (segment_write_stores robust (fst h) MAX_PAYLOAD_SIZE ltac:(unfold MAX_PAYLOAD_SIZE; lia)
    (seg_data g) robust st' msg text) as (d & -> & Hd & _); try done. run.
  eexists; split; [done|]. split; [|done].
  exists c. eexists. split; [done|]. rewrite update_seg_lookup, Hg. by split.
Qed.

Lemma sysv_read_spec (h : connection) s st t st0 out :
  connected robust h s st t -> (MAX_PAYLOAD_SIZE <= length out)%nat ->
  exists out' s', shm_api_read robust (fst h) (snd h) (Some st0) (Some out) s
      = Ret (true, Some st, Some out', s') /\
    cstring out' = Some t /\ length out' = length out /\ connected robust h s' st t /\ s' = s.
Proof.
  intros (c & g & Hh & Hg & Hd) Ho. rewrite Hh. cbn [shm_api_read].
  rewrite (data_of_lookup _ _ g) by done. run.
  destruct (segment_read_loads robust (fst h) MAX_PAYLOAD_SIZE ltac:(unfold MAX_PAYLOAD_SIZE; lia)
    (seg_data g) robust st t st0 out Hd Ho) as (out' & -> & Ht & Hl). run.
  assert (update_seg (shmid c) (set_data (seg_data g)) s = s) as Es.
  { destruct s as [segs k]. unfold update_seg. cbn. f_equal.
    rewrite (partial_alter_ext _ (fun _ => segs !! shmid c)) by
      (intros x <-; cbn in *; rewrite Hg; by destruct g). apply partial_alter_self. }
  do 2 eexists. split; [done|]. rewrite Es. split_and!; try done. by exists c, g.
Qed.
End sysv.

#[export] Program Instance sysv_api (robust : bool) :
    @ShmApi ShmSystem connection (sysv_ops robust) := {
  shm_at := connected robust;
  shm_same h h' := shmid <$> snd h = shmid <$> snd h' }.
Next Obligation.
  intros robust [p h] [p' h'] s st t E (c & g & Hh & Hg & Hd). cbn in *. subst h.
  destruct h' as [c'|]; [|done]. injection E as E.
  exists c', g. by rewrite <- E.
Qed.
Next Obligation.
  intros robust h s st t st' msg text Hc Ht.
  destruct (sysv_write_spec robust h s st t st' msg text Hc Ht) as (s' & ? & ? & _). by exists s'.
Qed.
Next Obligation.
  intros robust h s st t st0 out Hc Ho.
  destruct (sysv_read_spec robust h s st t st0 out Hc Ho) as (o & s' & ? & ? & ? & ? & _).
  by exists o, s'.
Qed.

(** ** Initialization *)

(** An environment in which everything succeeds; a new segment would get the
    identifier [id]. *)
Definition granting (id : Z) : InitEnv := mkInitEnv true (Some id) true true.

Section init.
Context (robust : bool).

Lemma cstring_zeros n : (0 < n)%nat -> cstring (zeros n) = Some [].
Proof. by destruct n as [|n]; [lia|]. Qed.

(** The segment a creator leaves. *)
Definition fresh_segment : Segment :=
  mkSeg (set_mtx (zero_shared MAX_PAYLOAD_SIZE) (init_mutex robust)) 1 false.

Lemma init_creates id s :
  shm_key s = None ->
  exists s', shm_api_init robust (granting id) s = (Some (mkCtx id true), s') /\
    shm_key s' = Some id /\ shm_segs s' = <[id := fresh_segment]> (shm_segs s).
Proof.
  intros Hk. unfold shm_api_init, shmget. cbn [granting ie_malloc ie_create ie_attach negb].
  rewrite Hk. eexists. split; [done|]. split; [done|]. cbn.
  apply map_eq. intros j. destruct (decide (j = id)) as [->|Hne].
  - by rewrite lookup_partial_alter_eq, lookup_partial_alter_eq, !lookup_insert_eq.
  - by rewrite !lookup_partial_alter_ne, !lookup_insert_ne by done.
Qed.

Lemma fresh_connected pid id creator s :
  shm_segs s !! id = Some fresh_segment ->
  connected robust (pid, Some (mkCtx id creator)) s 0 [].
Proof.
  intros Hg. exists (mkCtx id creator), fresh_segment. split; [done|]. split; [done|].
  split; [done|]. split; [done|]. split; [done|]. apply cstring_zeros. unfold MAX_PAYLOAD_SIZE. lia.
Qed.

Lemma init_attaches e s id g :
  ie_malloc e = true -> ie_lookup e = true -> ie_attach e = true ->
  shm_key s = Some id -> shm_segs s !! id = Some g ->
  exists s', shm_api_init robust e s = (Some (mkCtx id false), s') /\
    shm_key s' = Some id /\
    shm_segs s' = <[id := mkSeg (seg_data g) (seg_nattch g + 1) (seg_removed g)]> (shm_segs s).
Proof.
  intros Em El Ea Hk Hg. unfold shm_api_init, shmget.
  rewrite Em, Hk, El, Ea. cbn [negb]. eexists. split; [done|]. split; [done|]. cbn.
  apply map_eq. intros j. destruct (decide (j = id)) as [->|Hne].
  - by rewrite lookup_partial_alter_eq, lookup_insert_eq, Hg.
  - by rewrite lookup_partial_alter_ne, lookup_insert_ne by done.
Qed.

(** The creator's destruction while peers are attached. *)
Lemma destroy_shared id s g :
  shm_key s = Some id -> shm_segs s !! id = Some g -> seg_removed g = false ->
  1 < seg_nattch g ->
  shm_api_destroy (Some (mkCtx id true)) s =
    mkShmSys (<[id := mkSeg (seg_data g) (seg_nattch g - 1) true]> (shm_segs s)) None.
Proof.
  intros Hk Hg Hr Hn. unfold shm_api_destroy. cbn [is_creator shmid].
  rewrite decide_True by done. f_equal. cbn. apply map_eq. intros j.
  destruct (decide (j = id)) as [->|Hne].
  - rewrite !lookup_partial_alter_eq, lookup_insert_eq, Hg. cbn. unfold detach.
    rewrite Hr. cbn. unfold remove. cbn. rewrite (proj2 (Z.leb_gt _ _)) by lia. done.
  - by rewrite !lookup_partial_alter_ne, lookup_insert_ne by done.
Qed.
End init.

(** ** Attachments

    How often each segment is attached and whether it is marked for removal. *)
Definition attachments (s : ShmSystem) : gmap Z (Z * bool) :=
  (fun g => (seg_nattch g, seg_removed g)) <$> shm_segs s.

Lemma attachments_set_data id d s : attachments (update_seg id (set_data d) s) = attachments s.
Proof.
  apply map_eq. intros j. unfold attachments, update_seg. cbn [shm_segs]. rewrite !lookup_fmap.
  destruct (decide (j = id)) as [->|Hne].
  - rewrite lookup_partial_alter_eq. by destruct (shm_segs s !! id).
  - by rewrite lookup_partial_alter_ne.
Qed.

Lemma write_attachments robust pid h st msg s ok s' :
  shm_api_write robust pid h st msg s = Ret (ok, s') -> attachments s' = attachments s.
Proof.
  destruct h as [c|]; cbn [shm_api_write]; [|by intros [= _ <-]].
  intros (d & _ & H)%exec_bind_inv. apply exec_bind_inv in H as ([ok' d'] & _ & H).
  injection H as _ <-. apply attachments_set_data.
Qed.

Lemma read_attachments robust pid h st out s r s' :
  shm_api_read robust pid h st out s = Ret (r, s') -> attachments s' = attachments s.
Proof.
  destruct h as [c|]; cbn [shm_api_read]; [|by intros [= _ <-]].
  intros (d & _ & H)%exec_bind_inv. apply exec_bind_inv in H as ([[[ok st'] out'] d'] & _ & H).
  injection H as _ <-. apply attachments_set_data.
Qed.

(** The segment behind the key, if there is one, has been initialized and is
    neither locked nor removed; a new segment gets a new identifier. *)
Definition shm_sound (robust : bool) (e : InitEnv) (s : ShmSystem) : Prop :=
  (forall id, shm_key s = Some id -> exists g st t, shm_segs s !! id = Some g /\
     seg_removed g = false /\ seg_ok MAX_PAYLOAD_SIZE robust (seg_data g) st t) /\
  (forall id, ie_create e = Some id -> shm_segs s !! id = None).

(** The segment a successful initialization gives. *)
Lemma init_segment robust e s c s' :
  shm_sound robust e s -> shm_api_init robust e s = (Some c, s') ->
  exists g, shm_segs s' !! shmid c = Some g /\ seg_removed g = false /\
    (exists st t, seg_ok MAX_PAYLOAD_SIZE robust (seg_data g) st t) /\
    forall id a, attachments s !! id = Some a ->
      if decide (id = shmid c) then a = (seg_nattch g - 1, false)
      else attachments s' !! id = Some a.
Proof.
  intros [Hk Hf] Hi. unfold shm_api_init in Hi. destruct (ie_malloc e) eqn:Em; [|done].
  cbn [negb] in Hi. unfold shmget in Hi. destruct (shm_key s) as [id|] eqn:Ek.
  - destruct (ie_lookup e); [|done]. destruct (ie_attach e); [|done]. injection Hi as <- <-.
    destruct (Hk id eq_refl) as (g & st & t & Hg & Hr & Hd).
    exists (mkSeg (seg_data g) (seg_nattch g + 1) (seg_removed g)). cbn [shmid].
    rewrite update_seg_lookup, Hg. split_and!; [done|done|by eauto|].
    intros j a. unfold attachments. rewrite !lookup_fmap. cbn. case_decide as Hj.
    + subst j. rewrite Hg. intros [= <-]. cbn. rewrite Hr. f_equal. lia.
    + by rewrite lookup_partial_alter_ne by done.
  - destruct (ie_create e) as [id|] eqn:Ec; [|done]. destruct (ie_attach e); [|done].
    cbn [negb] in Hi. injection Hi as <- <-. exists (fresh_segment robust). cbn [shmid].
    rewrite !update_seg_lookup. cbn [shm_segs]. rewrite lookup_insert_eq.
    split_and!; [done|done| |].
    { exists 0, []. by split_and!. }
    intros j a. unfold attachments. rewrite !lookup_fmap. cbn. case_decide as Hj.
    + subst j. by rewrite (Hf id eq_refl).
    + by rewrite !lookup_partial_alter_ne, lookup_insert_ne by done.
Qed.

Lemma close_attachments c s n id :
  attachments s !! shmid c = Some (n, false) ->
  attachments (shm_api_close (Some c) s) !! id =
    if decide (id = shmid c) then Some (n - 1, false) else attachments s !! id.
Proof.
  unfold attachments, shm_api_close, update_seg. cbn [shm_segs]. rewrite !lookup_fmap. intros H.
  case_decide as Hj; [subst id|by rewrite lookup_partial_alter_ne].
  rewrite lookup_partial_alter_eq. destruct (shm_segs s !! shmid c) as [g|]; [|done].
  cbn in H. injection H as H1 H2. cbn. unfold detach. rewrite H2. cbn. by rewrite H1.
Qed.

(** A successful initialization connects, and closing undoes its attachment:
    the counts are those of before, but for a segment it has created. *)
Lemma init_then_close robust pid e s c s' :
  shm_sound robust e s -> shm_api_init robust e s = (Some c, s') ->
  (exists st t, connected robust (pid, Some c) s' st t) /\
  forall s'', attachments s'' = attachments s' ->
    forall id a, attachments s !! id = Some a ->
      attachments (shm_api_close (Some c) s'') !! id = Some a.
Proof.
  intros Hs Hi. destruct (init_segment _ _ _ _ _ Hs Hi) as (g & Hg & Hr & (st & t & Hd) & Ha).
  split; [by exists st, t, c, g|]. intros s'' E id a Hid. specialize (Ha id a Hid).
  rewrite (close_attachments c s'' (seg_nattch g)).
  - case_decide; [by rewrite Ha|by rewrite E].
  - rewrite E. unfold attachments. rewrite lookup_fmap, Hg. cbn. by rewrite Hr.
Qed.

(** An initialization that fails leaves the attachments as they were. *)
Lemma init_failed robust e s s' id a :
  shm_sound robust e s -> shm_api_init robust e s = (None, s') ->
  attachments s !! id = Some a -> attachments s' !! id = Some a.
Proof.
  intros [_ Hf]. unfold shm_api_init. destruct (ie_malloc e); [|by intros [= <-]].
  cbn [negb]. unfold shmget. destruct (shm_key s) as [i|].
  - destruct (ie_lookup e); [|by intros [= <-]]. destruct (ie_attach e); [done|by intros [= <-]].
  - destruct (ie_create e) as [i|]; [|by intros [= <-]].
    destruct (ie_attach e); [done|]. intros [= <-]. unfold attachments. rewrite !lookup_fmap.
    cbn [shm_segs]. destruct (decide (id = i)) as [->|Hne].
    + by rewrite (Hf i eq_refl).
    + by rewrite lookup_insert_ne.
Qed.

(** * Properties *)

(** C23: what one process writes, another process connected to the same segment
    reads: the write succeeds, and a later read into a buffer of at least 1024
    bytes returns the status and the first 1023 bytes of the message,
    terminated, without writing outside of the buffer; the segment keeps its
    contents. *)
Theorem shm_api_write_then_read robust pw pr (cw cr : ShmContext) s st0 t0 st msg text so out :
  connected robust (pw, Some cw) s st0 t0 -> shmid cr = shmid cw ->
  cstring msg = Some text -> (MAX_PAYLOAD_SIZE <= length out)%nat ->
  exists s1 out' s2, shm_api_write robust pw (Some cw) st msg s = Ret (true, s1) /\
    shm_api_read robust pr (Some cr) (Some so) (Some out) s1 = Ret (true, Some st, Some out', s2) /\
    cstring out' = Some (take 1023 text) /\ length out' = length out /\
    connected robust (pr, Some cr) s2 st (take 1023 text).
Proof.
  intros Hc Hid Ht Ho.
  refine (@write_then_read ShmSystem connection (sysv_ops robust) (sysv_api robust)
    (pw, Some cw) (pr, Some cr) s st0 t0 st msg text so out Hc _ Ht Ho).
  cbn. by rewrite Hid.
Qed.

(** C34: the first process to initialize creates the segment, with an
    initialized lock, status 0 and an empty message; every later one attaches
    the same segment and finds what was written there.  When the creator
    destroys it the key is free again, the peers that are still attached can
    go on, and the next initialization starts from an empty segment. *)
Theorem shm_api_lifecycle robust pid id1 id2 s :
  shm_key s = None -> id1 <> id2 ->
  exists s1 s2, shm_api_init robust (granting id1) s = (Some (mkCtx id1 true), s1) /\
    connected robust (pid, Some (mkCtx id1 true)) s1 0 [] /\
    (forall st t s', shm_key s' = Some id1 ->
       connected robust (pid, Some (mkCtx id1 true)) s' st t ->
       exists s'', shm_api_init robust (granting id2) s' = (Some (mkCtx id1 false), s'') /\
         connected robust (pid, Some (mkCtx id1 false)) s'' st t) /\
    shm_api_init robust (granting id2) s1 = (Some (mkCtx id1 false), s2) /\
    let s3 := shm_api_destroy (Some (mkCtx id1 true)) s2 in
    shm_key s3 = None /\
    connected robust (pid, Some (mkCtx id1 false)) s3 0 [] /\
    exists s4, shm_api_init robust (granting id2) s3 = (Some (mkCtx id2 true), s4) /\
      connected robust (pid, Some (mkCtx id2 true)) s4 0 [].
Proof.
  intros Hk Hne. destruct (init_creates robust id1 s Hk) as (s1 & H1 & Hk1 & Hs1).
  assert (shm_segs s1 !! id1 = Some (fresh_segment robust)) as Hg1
    by by rewrite Hs1, lookup_insert_eq.
  destruct (init_attaches robust (granting id2) s1 id1 _ eq_refl eq_refl eq_refl Hk1 Hg1)
    as (s2 & H2 & Hk2 & Hs2).
  assert (shm_segs s2 !! id1 = Some (mkSeg (seg_data (fresh_segment robust)) 2 false)) as Hg2
    by by rewrite Hs2, lookup_insert_eq.
  exists s1, s2. split; [done|]. split; [by apply fresh_connected|]. split.
  { intros st t s' Hk' (c & g & [= <-] & Hg & Hd).
    destruct (init_attaches robust (granting id2) s' id1 g eq_refl eq_refl eq_refl Hk' Hg)
      as (s'' & H'' & _ & Hs''). exists s''. split; [done|].
    exists (mkCtx id1 false). eexists. split; [done|]. cbn [shmid].
    rewrite Hs'', lookup_insert_eq. by split. }
  split; [done|]. cbn zeta. rewrite (destroy_shared id1 s2 _ Hk2 Hg2) by (done || cbn; lia).
  split; [done|]. split.
  - exists (mkCtx id1 false). eexists. split; [done|]. cbn [shmid shm_segs].
    rewrite lookup_insert_eq. split; [done|]. split; [done|]. split; [done|]. split; [done|].
    apply cstring_zeros. unfold MAX_PAYLOAD_SIZE. lia.
  - destruct (init_creates robust id2 (mkShmSys (<[id1 := mkSeg
      (seg_data (mkSeg (seg_data (fresh_segment robust)) 2 false))
      (seg_nattch (mkSeg (seg_data (fresh_segment robust)) 2 false) - 1) true]>
      (shm_segs s2)) None) eq_refl) as (s4 & H4 & _ & Hs4).
    exists s4. split; [done|]. apply fresh_connected. by rewrite Hs4, lookup_insert_eq.
Qed.

Definition no_segments : ShmSystem := mkShmSys ∅ None.

Lemma shm_api_lifecycle_witness :
  exists s1, shm_api_init false (granting 7) no_segments = (Some (mkCtx 7 true), s1) /\
    connected false (100, Some (mkCtx 7 true)) s1 0 [].
Proof.
  destruct (shm_api_lifecycle false 100 7 8 no_segments) as (s1 & s2 & H1 & H2 & _).
  - reflexivity.
  - lia.
  - exists s1. split; [exact H1|exact H2].
Defined.

Lemma shm_api_write_then_read_witness :
  exists s out' s1 s2, shm_api_write false 100 (Some (mkCtx 7 true)) 100 (lit "hello") s = Ret (true, s1) /\
    shm_api_read false 200 (Some (mkCtx 7 false)) (Some 0) (Some (zeros 1024)) s1
      = Ret (true, Some 100, Some out', s2) /\
    cstring out' = Some (take 1023 (bs "hello")).
Proof.
  destruct (init_creates false 7 no_segments eq_refl) as (s & _ & _ & Hs).
  destruct (shm_api_write_then_read false 100 200 (mkCtx 7 true) (mkCtx 7 false) s 0 [] 100
    (lit "hello") (bs "hello") 0 (zeros 1024)) as (s1 & out' & s2 & H1 & H2 & H3 & _).
  - apply fresh_connected. rewrite Hs. apply lookup_insert_eq.
  - reflexivity.
  - reflexivity.
  - vm_compute. lia.
  - exists s, out', s1, s2. split; [exact H1|]. split; [exact H2|exact H3].
Defined.

(** When a process dies inside [shm_api_write] or [shm_api_read], the lock
    recovers only if the mutex was made robust: with [PTHREAD_MUTEX_ROBUST]
    visible to the preprocessor the next write takes the lock over and
    succeeds; without it (the name is an enumerator in glibc's pthread.h, so
    the [#ifdef] is false) every later write blocks. *)
Theorem shm_api_owner_death robust pid owner c s g st msg text :
  shm_segs s !! shmid c = Some g -> sd_mtx (seg_data g) = PmHeld robust owner ->
  length (sd_message (seg_data g)) = MAX_PAYLOAD_SIZE -> cstring msg = Some text ->
  let dead := update_seg (shmid c)
    (fun g => set_data (set_mtx (seg_data g) (owner_dies owner (sd_mtx (seg_data g)))) g) s in
  if robust then
    exists s', shm_api_write robust pid (Some c) st msg dead = Ret (true, s') /\
      connected robust (pid, Some c) s' st (take 1023 text)
  else shm_api_write robust pid (Some c) st msg dead = Blocked.
Proof.
  intros Hg Hm Hl Ht dead.
  assert (shm_segs dead !! shmid c =
    Some (mkSeg (set_mtx (seg_data g) (owner_dies owner (PmHeld robust owner)))
            (seg_nattch g) (seg_removed g))) as Hd
    by (unfold dead; rewrite update_seg_lookup, Hg; cbn; by rewrite Hm).
  cbn [shm_api_write]. rewrite (data_of_lookup _ _ _ Hd). run.
  unfold segment_write. cbn [seg_data set_mtx sd_mtx]. rewrite safe_lock_after_death.
  destruct robust; [|done]. run. cbn [negb]. rewrite Ht. run.
  destruct (snprintf_fresh (sd_message (seg_data g)) text) as (m' & E & Hh & Hl').
  { intros E. rewrite E in Hl. done. }
  cbn [sd_message set_mtx seg_data]. rewrite E. run. cbn [pthread_mutex_unlock]. run.
  eexists. split; [done|]. exists c. eexists. split; [done|].
  rewrite update_seg_lookup, Hd. split; [done|].
  split; [done|]. split; [done|]. split; [cbn; congruence|]. cbn. rewrite Hl in Hh.
  apply holds_cstring; [|done]. apply Forall_take. by eapply cstring_no_nul.
Qed.

Lemma shm_api_owner_death_witness :
  let g := mkSeg (mkShared (PmHeld false 41) 0 (zeros 1024) 0) 1 false in
  shm_api_write false 42 (Some (mkCtx 7 false)) 100 (lit "x")
    (update_seg 7 (fun g => set_data (set_mtx (seg_data g) (owner_dies 41 (sd_mtx (seg_data g)))) g)
       (mkShmSys {[7 := g]} (Some 7))) = Blocked.
Proof.
  intros g.
  refine (shm_api_owner_death false 42 41 (mkCtx 7 false) (mkShmSys {[7 := g]} (Some 7)) g 100
    (lit "x") (bs "x") _ _ _ _).
  - reflexivity.
  - reflexivity.
  - reflexivity.
  - reflexivity.
Defined.

(** A creator whose attachment fails leaves the segment behind with a lock
    that nobody will initialize: the next initialization finds the key taken,
    succeeds as a non-creator, and its first access locks an uninitialized
    mutex. *)
Theorem shm_api_init_poisoned robust pid id id2 s st msg :
  shm_key s = None ->
  exists s1 c s2,
    shm_api_init robust (mkInitEnv true (Some id) true false) s = (None, s1) /\
    shm_key s1 = Some id /\
    shm_api_init robust (granting id2) s1 = (Some c, s2) /\ is_creator c = false /\
    shm_api_write robust pid (Some c) st msg s2 = UB.
Proof.
  intros Hk. unfold shm_api_init at 1, shmget.
  cbn [ie_malloc ie_create ie_attach negb]. rewrite Hk.
  set (s1 := mkShmSys _ _). exists s1.
  destruct (init_attaches robust (granting id2) s1 id
    (mkSeg (zero_shared MAX_PAYLOAD_SIZE) 0 false)) as (s2 & H2 & _ & Hs2); try done.
  { apply lookup_insert_eq. }
  exists (mkCtx id false), s2. split_and!; try done.
  cbn [shm_api_write]. unfold data_of. cbn [shmid]. by rewrite Hs2, lookup_insert_eq.
Qed.

Lemma shm_api_init_poisoned_witness :
  exists s1 c s2,
    shm_api_init false (mkInitEnv true (Some 7) true false) no_segments = (None, s1) /\
    shm_api_init false (granting 8) s1 = (Some c, s2) /\
    shm_api_write false 42 (Some c) 100 (lit "x") s2 = UB.
Proof.
  destruct (shm_api_init_poisoned false 42 7 8 no_segments 100 (lit "x") eq_refl)
    as (s1 & c & s2 & H1 & _ & H2 & _ & H3).
  exists s1, c, s2. split; [exact H1|]. split; [exact H2|exact H3].
Defined.
