(* ===== verification/PosixShm.v ===== *)
(** * POSIX shared memory (PosixSHM/src/shm_api.c, PosixSHM/src/shm_common.h)

    Objects by identifier, the name SHM_NAME bound to at most one of them, and
    the open descriptors.  An object starts with size 0 and is usable once its
    creator has set its size. *)

From S2P Require Import Prelude CLib ShmData.

(** [char message[256]] *)
Definition MESSAGE_SIZE : nat := 256.

(** ** State *)

Record ShmObject := mkObj { ob_data : SharedData; ob_sized : bool; ob_refs : Z; ob_unlinked : bool }.

Record PosixSystem := mkPosix {
  px_objs : gmap Z ShmObject; px_name : option Z; px_fds : gset Z }.

Record ShmContext := mkCtx { shm_fd : Z; shm_ptr : Z; is_creator : bool }.
Abbreviation ShmHandle := (option ShmContext).

(** What the calls of [shm_api_init] answer: memory, the exclusive creation (a
    descriptor and the identifier of the object), the setting of the size, the
    opening of an existing object, its status, the mapping. *)
Record InitEnv := mkInitEnv {
  ie_malloc : bool; ie_create : option (Z * Z); ie_ftruncate : bool;
  ie_open : option Z; ie_fstat : bool; ie_mmap : bool }.

Section shm_api.
Variable robust : bool.

Definition update_obj (id : Z) (f : ShmObject -> option ShmObject) (s : PosixSystem)
    : PosixSystem :=
  mkPosix (partial_alter (fun o => o ≫= f) id (px_objs s)) (px_name s) (px_fds s).

Definition open_fd (fd : Z) (s : PosixSystem) : PosixSystem :=
  mkPosix (px_objs s) (px_name s) ({[fd]} ∪ px_fds s).
Definition close_fd (fd : Z) (s : PosixSystem) : PosixSystem :=
  mkPosix (px_objs s) (px_name s) (px_fds s ∖ {[fd]}).

(** An unlinked object goes away with its last reference. *)
Definition unref (o : ShmObject) : option ShmObject :=
  if ob_unlinked o && (ob_refs o - 1 <=? 0) then None
  else Some (mkObj (ob_data o) (ob_sized o) (ob_refs o - 1) (ob_unlinked o)).
Definition ref (o : ShmObject) : option ShmObject :=
  Some (mkObj (ob_data o) (ob_sized o) (ob_refs o + 1) (ob_unlinked o)).
Definition set_sized (o : ShmObject) : option ShmObject :=
  Some (mkObj (ob_data o) true (ob_refs o) (ob_unlinked o)).
Definition set_obj_data (d : SharedData) (o : ShmObject) : option ShmObject :=
  Some (mkObj d (ob_sized o) (ob_refs o) (ob_unlinked o)).

(** [shm_unlink(SHM_NAME)] *)
Definition unlink (s : PosixSystem) : PosixSystem :=
  match px_name s with
  | None => s
  | Some id =>
      let s := update_obj id (fun o => if ob_refs o <=? 0 then None else
                 Some (mkObj (ob_data o) (ob_sized o) (ob_refs o) true)) s in
      mkPosix (px_objs s) None (px_fds s)
  end.

(** The mapping and what follows it, for the object [id] open as [fd]. *)
Definition map_object (e : InitEnv) (fd id : Z) (creator : bool) (s : PosixSystem)
    : ShmHandle * PosixSystem :=
  if negb (ie_mmap e) then (None, update_obj id unref (close_fd fd s))
  else
    let s := if creator then
               update_obj id (fun o => set_obj_data (set_mtx (ob_data o) (init_mutex robust)) o) s
             else s in
    (Some (mkCtx fd id creator), s).

Definition shm_api_init (e : InitEnv) (s : PosixSystem) : exec (ShmHandle * PosixSystem) :=
  if negb (ie_malloc e) then Ret (None, s)
  else
    match px_name s with
    | None =>
        match ie_create e with
        | None => Ret (None, s)
        | Some (fd, id) =>
            let s := open_fd fd
              (mkPosix (<[id := mkObj (zero_shared MESSAGE_SIZE) false 1 false]> (px_objs s))
                 (Some id) (px_fds s)) in
            if negb (ie_ftruncate e)
            then Ret (None, unlink (update_obj id unref (close_fd fd s)))
            else Ret (map_object e fd id true (update_obj id set_sized s))
        end
    | Some id =>
        match ie_open e with
        | None => Ret (None, s)
        | Some fd =>
            let s := update_obj id ref (open_fd fd s) in
            o ← obj (px_objs s !! id);
            (* the loop that waits for the creator to set the size *)
            if ie_fstat e && negb (ob_sized o) then Blocked
            else Ret (map_object e fd id false s)
        end
    end.

Definition data_of (h : ShmContext) (s : PosixSystem) : exec SharedData :=
  obj (o ← px_objs s !! shm_ptr h; if ob_sized o then Some (ob_data o) else None).

Definition shm_api_write (pid : Z) (h : ShmHandle) (status : Z) (msg : list byte)
    (s : PosixSystem) : exec (bool * PosixSystem) :=
  match h with
  | None => Ret (false, s)
  | Some c =>
      d ← data_of c s;
      '(ok, d) ← segment_write robust pid d status msg;
      Ret (ok, update_obj (shm_ptr c) (set_obj_data d) s)
  end.

Definition shm_api_read (pid : Z) (h : ShmHandle) (out_status : option Z)
    (out_msg : option (list byte)) (s : PosixSystem)
    : exec (bool * option Z * option (list byte) * PosixSystem) :=
  match h with
  | None => Ret (false, out_status, out_msg, s)
  | Some c =>
      d ← data_of c s;
      '(ok, st, out, d) ← segment_read robust pid d out_status out_msg;
      Ret (ok, st, out, update_obj (shm_ptr c) (set_obj_data d) s)
  end.

Definition shm_api_close (h : ShmHandle) (s : PosixSystem) : PosixSystem :=
  match h with
  | None => s
  | Some c => close_fd (shm_fd c) (update_obj (shm_ptr c) unref s)
  end.

Definition shm_api_destroy (h : ShmHandle) (s : PosixSystem) : PosixSystem :=
  match h with
  | None => s
  | Some c =>
      let s := shm_api_close h s in
      if is_creator c then unlink s else s
  end.
End shm_api.

Abbreviation connection := (Z * ShmHandle)%type.

Definition connected (robust : bool) (h : connection) (s : PosixSystem) (st : Z) (t : list byte)
    : Prop :=
  exists c o, snd h = Some c /\ px_objs s !! shm_ptr c = Some o /\ ob_sized o = true /\
    seg_ok MESSAGE_SIZE robust (ob_data o) st t.

(** * Lemmas *)

Lemma update_obj_lookup id f s :
  px_objs (update_obj id f s) !! id = px_objs s !! id ≫= f.
Proof. apply lookup_partial_alter_eq. Qed.

Lemma object_data c s o :
  px_objs s !! shm_ptr c = Some o -> ob_sized o = true -> data_of c s = Ret (ob_data o).
Proof. intros H Hs. unfold data_of. rewrite H. cbn. by rewrite Hs. Qed.

Definition posix_ops (robust : bool) : ShmOps PosixSystem connection := {|
  shm_capacity := MESSAGE_SIZE;
  shm_write h := shm_api_write robust (fst h) (snd h);
  shm_read h := shm_api_read robust (fst h) (snd h) |}.

#[export] Program Instance posix_api (robust : bool) :
    @ShmApi PosixSystem connection (posix_ops robust) := {
  shm_at := connected robust;
  shm_same h h' := shm_ptr <$> snd h = shm_ptr <$> snd h' }.
Next Obligation.
  intros robust [p h] [p' h'] s st t E (c & g & Hh & Hg & Hd). cbn in *. subst h.
  destruct h' as [c'|]; [|done]. injection E as E. exists c', g. by rewrite <- E.
Qed.
Next Obligation.
  intros robust h s st t st' msg text (c & o & Hh & Ho & Hsz & Hm & _ & Hl & _) Ht.
  cbn. rewrite Hh. cbn [shm_api_write]. rewrite (object_data _ _ o) by done. run.
  destruct (segment_write_stores robust (fst h) MESSAGE_SIZE ltac:(unfold MESSAGE_SIZE; lia)
    (ob_data o) robust st' msg text) as (d & -> & Hd & _); try done. run.
  eexists; split; [done|]. exists c. eexists. split; [done|].
  rewrite update_obj_lookup, Ho. by split_and!.
Qed.
Next Obligation.
  intros robust h s st t st0 out (c & o & Hh & Ho & Hsz & Hd) Hl.
  cbn. rewrite Hh. cbn [shm_api_read]. rewrite (object_data _ _ o) by done. run.
  destruct (segment_read_loads robust (fst h) MESSAGE_SIZE ltac:(unfold MESSAGE_SIZE; lia)
    (ob_data o) robust st t st0 out Hd Hl) as (out' & -> & Ht & Hlen). run.
  do 2 eexists. split; [done|]. split; [done|]. split; [done|].
  exists c. eexists. split; [done|]. rewrite update_obj_lookup, Ho. by split_and!.
Qed.

(** * Properties *)

(** The POSIX implementation keeps the same contract as the System V one,
    but carries only the first 255 bytes of a message: what one process writes,
    another one connected to the same object reads, cut there. *)
Theorem posix_write_then_read robust pw pr (cw cr : ShmContext) s st0 t0 st msg text so out :
  connected robust (pw, Some cw) s st0 t0 -> shm_ptr cr = shm_ptr cw ->
  cstring msg = Some text -> (MESSAGE_SIZE <= length out)%nat ->
  exists s1 out' s2, shm_api_write robust pw (Some cw) st msg s = Ret (true, s1) /\
    shm_api_read robust pr (Some cr) (Some so) (Some out) s1 = Ret (true, Some st, Some out', s2) /\
    cstring out' = Some (take 255 text) /\ length out' = length out /\
    connected robust (pr, Some cr) s2 st (take 255 text).
Proof.
  intros Hc Hid Ht Ho.
  refine (@write_then_read PosixSystem connection (posix_ops robust) (posix_api robust)
    (pw, Some cw) (pr, Some cr) s st0 t0 st msg text so out Hc _ Ht Ho).
  cbn. by rewrite Hid.
Qed.

Definition demo_object : ShmObject := mkObj (set_mtx (zero_shared 256) (PmFree true)) true 2 false.

Lemma posix_write_then_read_witness :
  exists out' s1 s2,
    shm_api_write true 100 (Some (mkCtx 3 7 true)) 100 (lit "hello")
      (mkPosix {[7 := demo_object]} (Some 7) {[3]}) = Ret (true, s1) /\
    shm_api_read true 200 (Some (mkCtx 4 7 false)) (Some 0) (Some (zeros 1024)) s1
      = Ret (true, Some 100, Some out', s2) /\ cstring out' = Some (take 255 (bs "hello")).
Proof.
  destruct (posix_write_then_read true 100 200 (mkCtx 3 7 true) (mkCtx 4 7 false)
    (mkPosix {[7 := demo_object]} (Some 7) {[3]}) 0 [] 100 (lit "hello") (bs "hello") 0
    (zeros 1024)) as (s1 & out' & s2 & H1 & H2 & H3 & _).
  - exists (mkCtx 3 7 true), demo_object. split; [reflexivity|]. split; [reflexivity|].
    split; [reflexivity|]. split; [reflexivity|]. split; [reflexivity|].
    split; reflexivity.
  - reflexivity.
  - reflexivity.
  - vm_compute. lia.
  - exists out', s1, s2. split; [exact H1|]. split; [exact H2|exact H3].
Defined.

(** No path of [shm_api_init] loses a descriptor: it fails with the
    descriptors unchanged, or returns a handle on the one new descriptor, and
    closing that handle restores them.  A failed size setting also removes the
    name again, so that the next process can create the object. *)
Theorem posix_init_no_leak robust e s h s' :
  (forall fd id, ie_create e = Some (fd, id) -> fd ∉ px_fds s) ->
  (forall fd, ie_open e = Some fd -> fd ∉ px_fds s) ->
  shm_api_init robust e s = Ret (h, s') ->
  match h with
  | None => px_fds s' = px_fds s
  | Some c => px_fds s' = {[shm_fd c]} ∪ px_fds s /\
      px_fds (shm_api_close h s') = px_fds s
  end /\ (ie_ftruncate e = false -> px_name s = None -> h = None /\ px_name s' = None).
Proof.
  intros Hc Ho. unfold shm_api_init, map_object.
  destruct (ie_malloc e); cbn [negb]; [|by intros [= <- <-]].
  destruct (px_name s) as [id|] eqn:En.
  - destruct (ie_open e) as [fd|]; [|by intros [= <- <-]].
    specialize (Ho fd eq_refl). destruct (px_objs _ !! id) as [o|]; run; [|done].
    destruct (ie_fstat e && negb (ob_sized o)); [done|].
    destruct (ie_mmap e); cbn [negb]; intros [= <- <-]; cbn; (split; [|done]); set_solver.
  - destruct (ie_create e) as [[fd id]|]; [|by intros [= <- <-]].
    specialize (Hc fd id eq_refl).
    destruct (ie_ftruncate e); cbn [negb].
    + destruct (ie_mmap e); cbn [negb]; intros [= <- <-]; cbn; (split; [|done]); set_solver.
    + intros [= <- <-]. cbn. split; [set_solver|done].
Qed.

Lemma posix_init_no_leak_witness :
  exists s', shm_api_init true (mkInitEnv true (Some (3, 7)) true None true false)
      (mkPosix ∅ None {[0; 1; 2]}) = Ret (None, s') /\ px_fds s' = {[0; 1; 2]}.
Proof.
  eexists. split; [reflexivity|].
  refine (proj1 (posix_init_no_leak true (mkInitEnv true (Some (3, 7)) true None true false)
    (mkPosix ∅ None {[0; 1; 2]}) None _ _ _ _)).
  - intros fd id E. injection E as <- _. cbn. rewrite !not_elem_of_union, !not_elem_of_singleton. lia.
  - intros fd [=].
  - reflexivity.
Defined.
