(* ===== verification/ShmSpec.v ===== *)
(** * The shared-memory interface as an atomic cell (SHM/src/shm_api.c, PosixSHM/src/shm_api.c)

    Through any number of connections the segment behaves like one cell that
    holds a status and a text.  Every implementation of the interface refines
    that cell, so that the two implementations cannot be told apart by texts
    that fit into both.  The last part takes the initialization apart at the
    point where other processes can see the segment. *)

From S2P Require Import Prelude CLib ShmData Shm PosixShm.

(** ** Calls and what they show *)

Inductive shm_call := CellWrite (status : Z) (msg : list byte) | CellRead.

(** What the caller sees: the answer, and of a read the status and the text. *)
Inductive shm_view := Wrote (ok : bool) | Saw (ok : bool) (status : option Z) (text : option (list byte)).

Section runs.
Context {S H : Type} `{!ShmOps S H}.

(** A call through a connection; a reader gives a cleared buffer of
    MAX_PAYLOAD_SIZE bytes, as the Router does. *)
Definition shm_do (h : H) (c : shm_call) (s : S) : exec (shm_view * S) :=
  match c with
  | CellWrite st msg => '(ok, s) ← shm_write h st msg s; Ret (Wrote ok, s)
  | CellRead =>
      '(ok, st, out, s) ← shm_read h (Some 0) (Some (zeros MAX_PAYLOAD_SIZE)) s;
      Ret (Saw ok st (out ≫= cstring), s)
  end.

(** A sequence of calls through the connections [hs], given by their number. *)
Fixpoint shm_run (hs : list H) (l : list (nat * shm_call)) (s : S) : exec (list shm_view) :=
  match l with
  | [] => Ret []
  | (i, c) :: l' =>
      h ← obj (hs !! i);
      '(v, s) ← shm_do h c s;
      vs ← shm_run hs l' s;
      Ret (v :: vs)
  end.
End runs.

(** The cell: a write keeps at most [cap - 1] bytes of the text. *)
Fixpoint cell_run (cap : nat) (l : list (nat * shm_call)) (st : Z) (t : list byte) : list shm_view :=
  match l with
  | [] => []
  | (_, CellWrite st' msg) :: l' =>
      Wrote true :: cell_run cap l' st' (take (cap - 1) (default [] (cstring msg)))
  | (_, CellRead) :: l' => Saw true (Some st) (Some t) :: cell_run cap l' st t
  end.

(** Calls through existing connections with terminated messages. *)
Definition calls_ok (n : nat) (l : list (nat * shm_call)) : Prop :=
  Forall (fun x => (x.1 < n)%nat /\
    match x.2 with CellWrite _ msg => terminated msg | CellRead => True end) l.

(** The texts have at most [n] bytes. *)
Definition texts_fit (n : nat) (l : list (nat * shm_call)) : Prop :=
  Forall (fun x => match x.2 with
    | CellWrite _ msg => (length (default [] (cstring msg)) <= n)%nat
    | CellRead => True end) l.

(** * Lemmas *)

(** Every implementation of the interface refines the cell. *)
Lemma shm_run_cell {S H : Type} `{!ShmOps S H, !ShmApi S H} (hs : list H) h0 l s st t :
  (shm_capacity (S := S) (H := H) <= MAX_PAYLOAD_SIZE)%nat ->
  (forall h, h ∈ hs -> shm_same h0 h /\ shm_same h h0) ->
  calls_ok (length hs) l -> shm_at h0 s st t ->
  shm_run hs l s = Ret (cell_run (shm_capacity (S := S) (H := H)) l st t).
Proof.
  intros Hcap Hsame Hl. revert s st t. induction Hl as [|[i c] l [Hi Hc] Hl IH]; intros s st t Hat; [done|].
  destruct (lookup_lt_is_Some_2 hs i Hi) as [h Hh]. cbn [shm_run]. cbn [fst snd] in *.
  rewrite Hh. run. destruct (Hsame h) as [H1 H2]; [by eapply list_elem_of_lookup_2|].
  apply (shm_at_same h0 h) in Hat; [|done]. destruct c as [st' msg|]; cbn [shm_do cell_run].
  - destruct Hc as [text Ht]. destruct (shm_write_spec h s st t st' msg text Hat Ht) as (s' & -> & Hat').
    run. rewrite Ht. apply (shm_at_same h h0) in Hat'; [|done]. rewrite (IH s' _ _ Hat'). by run.
  - destruct (shm_read_spec h s st t 0 (zeros MAX_PAYLOAD_SIZE) Hat) as (out & s' & -> & Hc' & _ & Hat').
    { unfold zeros. by rewrite length_replicate. }
    run. rewrite Hc'. apply (shm_at_same h h0) in Hat'; [|done]. rewrite (IH s' _ _ Hat'). by run.
Qed.

(** The capacity does not show when the texts fit. *)
Lemma cell_run_capacity n c1 c2 l st t :
  (n < c1)%nat -> (n < c2)%nat -> texts_fit n l -> cell_run c1 l st t = cell_run c2 l st t.
Proof.
  intros H1 H2 Hl. revert st t. induction Hl as [|[i [st' msg|]] l Hm Hl IH]; intros st t; cbn; [done| |].
  - cbn in Hm. rewrite !take_ge by lia. f_equal. apply IH.
  - f_equal. apply IH.
Qed.

(** ** The initialization in two steps *)

Section sysv_init.
Context (robust : bool).

(** Up to the attachment: the segment exists under the key from here on. *)
Definition sysv_begin (e : Shm.InitEnv) (s : ShmSystem) : option Shm.ShmContext * ShmSystem :=
  if negb (Shm.ie_malloc e) then (None, s)
  else
    match shmget e s with
    | (None, s) => (None, s)
    | (Some (id, creator), s) =>
        if negb (ie_attach e) then (None, s)
        else (Some (Shm.mkCtx id creator), update_seg id attach s)
    end.

(** The creator initializes the mutex. *)
Definition sysv_finish (c : Shm.ShmContext) (s : ShmSystem) : ShmSystem :=
  if Shm.is_creator c
  then update_seg (shmid c) (fun g => set_data (set_mtx (seg_data g) (init_mutex robust)) g) s
  else s.

Lemma sysv_init_split e s :
  Shm.shm_api_init robust e s =
    let '(h, s1) := sysv_begin e s in
    (h, match h with Some c => sysv_finish c s1 | None => s1 end).
Proof using Type.
  unfold Shm.shm_api_init, sysv_begin, sysv_finish. destruct (negb (Shm.ie_malloc e)); [done|].
  destruct (shmget e s) as [[[id creator]|] s1]; [|done]. by destruct (negb (ie_attach e)).
Qed.
End sysv_init.

Section posix_init.
Context (robust : bool).

(** Up to the mapping, for a creator: the object has its name and its size. *)
Definition posix_begin (fd id : Z) (s : PosixSystem) : PosixSystem :=
  update_obj id set_sized
    (open_fd fd (mkPosix (<[id := mkObj (zero_shared MESSAGE_SIZE) false 1 false]> (px_objs s))
                   (Some id) (px_fds s))).

Definition posix_finish (id : Z) (s : PosixSystem) : PosixSystem :=
  update_obj id (fun o => set_obj_data (set_mtx (ob_data o) (init_mutex robust)) o) s.

Lemma posix_init_split fd id open s :
  px_name s = None ->
  PosixShm.shm_api_init robust (PosixShm.mkInitEnv true (Some (fd, id)) true open true true) s =
    Ret (Some (PosixShm.mkCtx fd id true), posix_finish id (posix_begin fd id s)).
Proof using Type. intros Hn. unfold PosixShm.shm_api_init. cbn [PosixShm.ie_malloc negb]. by rewrite Hn. Qed.

(** The object another process finds from here on. *)
Lemma posix_begin_object fd id s :
  px_name (posix_begin fd id s) = Some id /\
  px_objs (posix_begin fd id s) !! id = Some (mkObj (zero_shared MESSAGE_SIZE) true 1 false).
Proof using Type.
  split; [done|]. unfold posix_begin. rewrite update_obj_lookup. cbn [px_objs open_fd].
  by rewrite lookup_insert_eq.
Qed.

(** Opening an object that has its size. *)
Lemma posix_attaches create id fd s o :
  px_name s = Some id -> px_objs s !! id = Some o -> ob_sized o = true ->
  PosixShm.shm_api_init robust (PosixShm.mkInitEnv true create true (Some fd) true true) s =
    Ret (Some (PosixShm.mkCtx fd id false), update_obj id ref (open_fd fd s)).
Proof using Type.
  intros Hn Ho Hs. unfold PosixShm.shm_api_init. cbn [PosixShm.ie_malloc negb PosixShm.ie_open].
  rewrite Hn, update_obj_lookup. cbn [open_fd px_objs]. rewrite Ho. run.
  cbn [ref obj ob_sized]. run. by rewrite Hs.
Qed.
End posix_init.

(** Locking a mutex nobody has initialized yet is undefined. *)
Lemma uninit_access robust pid d st msg o out :
  sd_mtx d = PmUninit ->
  segment_write robust pid d st msg = UB /\ segment_read robust pid d o out = UB.
Proof. intros E. unfold segment_write, segment_read, safe_lock. by rewrite E. Qed.

(** * Properties *)

(** C20: the two implementations of the shared-memory interface are equivalent
    for texts of at most 255 bytes: the same sequence of writes and reads,
    through any connections to one segment in each system, started with the same
    contents, returns and shows the same answers, statuses and texts to every
    caller, namely those of one cell. *)
Theorem shm_implementations_equivalent robust robust' (hs : list Shm.connection)
    (hs' : list PosixShm.connection) l s s' st t h0 h0' :
  Shm.connected robust h0 s st t -> PosixShm.connected robust' h0' s' st t ->
  length hs = length hs' ->
  (forall h, h ∈ hs -> shmid <$> snd h0 = shmid <$> snd h) ->
  (forall h, h ∈ hs' -> shm_ptr <$> snd h0' = shm_ptr <$> snd h) ->
  calls_ok (length hs) l -> texts_fit 255 l ->
  @shm_run _ _ (sysv_ops robust) hs l s = Ret (cell_run MAX_PAYLOAD_SIZE l st t) /\
  @shm_run _ _ (posix_ops robust') hs' l s' = @shm_run _ _ (sysv_ops robust) hs l s.
Proof.
  intros Hc Hc' Hlen Hs Hs' Hl Hfit.
  assert (@shm_run _ _ (sysv_ops robust) hs l s = Ret (cell_run MAX_PAYLOAD_SIZE l st t)) as E.
  { refine (@shm_run_cell _ _ (sysv_ops robust) (sysv_api robust) hs h0 l s st t _ _ Hl Hc);
      [done|]. intros h Hh. cbn. split; [|symmetry]; by apply Hs. }
  assert (@shm_run _ _ (posix_ops robust') hs' l s' = Ret (cell_run MESSAGE_SIZE l st t)) as E'.
  { rewrite Hlen in Hl.
    refine (@shm_run_cell _ _ (posix_ops robust') (posix_api robust') hs' h0' l s' st t _ _ Hl Hc');
      [cbn; unfold MESSAGE_SIZE, MAX_PAYLOAD_SIZE; lia|].
    intros h Hh. cbn. split; [|symmetry]; by apply Hs'. }
  split; [done|]. rewrite E, E'. f_equal. apply (cell_run_capacity 255); [| |done].
  - unfold MESSAGE_SIZE. lia.
  - unfold MAX_PAYLOAD_SIZE. lia.
Qed.

Definition posix_demo : PosixSystem := mkPosix {[7 := demo_object]} (Some 7) {[3]}.

Lemma shm_implementations_equivalent_witness :
  exists s, @shm_run _ _ (sysv_ops true) [(10, Some (Shm.mkCtx 5 true)); (11, Some (Shm.mkCtx 5 false))]
      [(0%nat, CellWrite 100 (lit "hello")); (1%nat, CellRead)] s
    = Ret [Wrote true; Saw true (Some 100) (Some (bs "hello"))] /\
    @shm_run _ _ (posix_ops true) [(10, Some (PosixShm.mkCtx 3 7 true)); (11, Some (PosixShm.mkCtx 4 7 false))]
      [(0%nat, CellWrite 100 (lit "hello")); (1%nat, CellRead)] posix_demo
    = Ret [Wrote true; Saw true (Some 100) (Some (bs "hello"))].
Proof.
  exists (mkShmSys {[5 := fresh_segment true]} (Some 5)).
  destruct (shm_implementations_equivalent true true
    [(10, Some (Shm.mkCtx 5 true)); (11, Some (Shm.mkCtx 5 false))]
    [(10, Some (PosixShm.mkCtx 3 7 true)); (11, Some (PosixShm.mkCtx 4 7 false))]
    [(0%nat, CellWrite 100 (lit "hello")); (1%nat, CellRead)]
    (mkShmSys {[5 := fresh_segment true]} (Some 5)) posix_demo 0 []
    (10, Some (Shm.mkCtx 5 true)) (10, Some (PosixShm.mkCtx 3 7 true))) as [E1 E2].
  - apply fresh_connected. reflexivity.
  - exists (PosixShm.mkCtx 3 7 true), demo_object. repeat (split; [reflexivity|]). reflexivity.
  - reflexivity.
  - intros h [->|[->|H%not_elem_of_nil]%elem_of_cons]%elem_of_cons; [reflexivity..|destruct H].
  - intros h [->|[->|H%not_elem_of_nil]%elem_of_cons]%elem_of_cons; [reflexivity..|destruct H].
  - repeat constructor. eexists; reflexivity.
  - repeat constructor.
  - split; [exact E1|]. rewrite E2. exact E1.
Defined.

(** Both implementations publish the segment before its lock exists: a
    process whose initialization falls between the creation and the
    initialization of the mutex gets a handle, although with the POSIX one it
    waits for the size, and its next read or write locks an uninitialized mutex;
    only after the creator has finished the same calls are sound. *)
Theorem shm_init_race robust pid e s id fd id' open fd2 px st msg text o out :
  shm_key s = None -> Shm.ie_malloc e = true -> Shm.ie_create e = Some id ->
  ie_attach e = true -> ie_lookup e = true -> px_name px = None -> open = Some fd2 ->
  cstring msg = Some text ->
  (exists c1 s1 c2 s2, sysv_begin e s = (Some c1, s1) /\
     Shm.shm_api_init robust e s1 = (Some c2, s2) /\ Shm.is_creator c2 = false /\
     Shm.shm_api_write robust pid (Some c2) st msg s2 = UB /\
     Shm.shm_api_read robust pid (Some c2) o out s2 = UB /\
     exists s3, Shm.shm_api_write robust pid (Some c2) st msg (sysv_finish robust c1 s2)
       = Ret (true, s3)) /\
  (exists c2 p2, PosixShm.shm_api_init robust
       (PosixShm.mkInitEnv true (Some (fd, id')) true open true true) (posix_begin fd id' px)
       = Ret (Some c2, p2) /\ PosixShm.is_creator c2 = false /\
     PosixShm.shm_api_write robust pid (Some c2) st msg p2 = UB /\
     PosixShm.shm_api_read robust pid (Some c2) o out p2 = UB /\
     exists p3, PosixShm.shm_api_write robust pid (Some c2) st msg (posix_finish robust id' p2)
       = Ret (true, p3)).
Proof.
  intros Hk Hm Hc Ha Hl Hn -> Ht. split.
  - exists (Shm.mkCtx id true). eexists. exists (Shm.mkCtx id false). eexists.
    unfold sysv_begin, shmget. rewrite Hm, Hk, Hc, Ha. cbn [negb]. split; [done|].
    unfold Shm.shm_api_init, shmget. rewrite Hm, Hl, Ha. cbn [negb shm_key update_seg].
    split; [done|]. split; [done|].
    match goal with |- context [Shm.shm_api_write _ _ _ _ _ ?x] => set (s2 := x) end.
    assert (shm_segs s2 !! id = Some (mkSeg (zero_shared MAX_PAYLOAD_SIZE) 2 false)) as Hg.
    { unfold s2. by rewrite !update_seg_lookup; cbn [shm_segs]; rewrite lookup_insert_eq. }
    cbn [Shm.shm_api_write Shm.shm_api_read]. unfold Shm.data_of. cbn [shmid]. rewrite Hg.
    cbn [fmap option_fmap option_map seg_data]. run.
    destruct (uninit_access robust pid (zero_shared MAX_PAYLOAD_SIZE) st msg o out eq_refl) as [-> ->].
    split; [done|]. split; [done|]. unfold sysv_finish. cbn [Shm.is_creator shmid].
    rewrite update_seg_lookup, Hg. cbn [mbind option_bind fmap option_fmap option_map set_data seg_data].
    run. destruct (segment_write_stores robust pid MAX_PAYLOAD_SIZE ltac:(unfold MAX_PAYLOAD_SIZE; lia)
      (set_mtx (zero_shared MAX_PAYLOAD_SIZE) (init_mutex robust)) robust st msg text) as (d & -> & _); try done.
    run. by eexists.
  - destruct (posix_begin_object fd id' px) as [Hn1 Ho1].
    exists (PosixShm.mkCtx fd2 id' false). eexists.
    split; [by eapply posix_attaches|]. split; [done|].
    set (p2 := update_obj id' ref (open_fd fd2 (posix_begin fd id' px))).
    assert (px_objs p2 !! id' = Some (mkObj (zero_shared MESSAGE_SIZE) true 2 false)) as Hg.
    { unfold p2. rewrite update_obj_lookup. cbn [px_objs open_fd]. by rewrite Ho1. }
    cbn [PosixShm.shm_api_write PosixShm.shm_api_read]. unfold PosixShm.data_of. cbn [shm_ptr]. rewrite Hg. run.
    cbn [ob_sized ob_data obj]. run.
    destruct (uninit_access robust pid (zero_shared MESSAGE_SIZE) st msg o out eq_refl) as [-> ->].
    split; [done|]. split; [done|]. unfold posix_finish. rewrite update_obj_lookup, Hg. run.
    cbn [set_obj_data mbind option_bind ob_sized ob_data obj]. run.
    destruct (segment_write_stores robust pid MESSAGE_SIZE ltac:(unfold MESSAGE_SIZE; lia)
      (set_mtx (zero_shared MESSAGE_SIZE) (init_mutex robust)) robust st msg text) as (d & -> & _); try done.
    run. by eexists.
Qed.

Lemma shm_init_race_witness :
  exists c1 s1 c2 s2, sysv_begin (granting 5) (mkShmSys ∅ None) = (Some c1, s1) /\
    Shm.shm_api_init true (granting 5) s1 = (Some c2, s2) /\
    Shm.shm_api_write true 11 (Some c2) 100 (lit "hello") s2 = UB.
Proof.
  destruct (shm_init_race true 11 (granting 5) (mkShmSys ∅ None) 5 3 7 (Some 4) 4 (mkPosix ∅ None {[0]})
    100 (lit "hello") (bs "hello") None None) as [(c1 & s1 & c2 & s2 & H1 & H2 & _ & H3 & _) _].
  - reflexivity.
  - reflexivity.
  - reflexivity.
  - reflexivity.
  - reflexivity.
  - reflexivity.
  - reflexivity.
  - reflexivity.
  - exists c1, s1, c2, s2. split; [exact H1|]. split; [exact H2|exact H3].
Defined.
