(* ===== verification/NetworkConfig.v ===== *)
(** * Ports (Common/include/network_config.h)

    Each port is read from an environment variable ([None]: unset), as
    getenv(3) and atoi(3) give it, with a default. *)

From S2P Require Import Prelude CLib.

Definition DEFAULT_NETWORK_UDP_PORT : Z := 9999.
Definition DEFAULT_NETWORK_TCP_PORT : Z := 7777.
Definition DEFAULT_NETWORK_UDP_SEND_PORT : Z := 8888.

Definition get_network_udp_port (env : option (list byte)) : Z :=
  match env with Some s => atoi s | None => DEFAULT_NETWORK_UDP_PORT end.

Definition get_network_tcp_port (env : option (list byte)) : Z :=
  match env with Some s => atoi s | None => DEFAULT_NETWORK_TCP_PORT end.

Definition get_network_udp_send_port (env : option (list byte)) : Z :=
  match env with Some s => atoi s | None => DEFAULT_NETWORK_UDP_SEND_PORT end.

(** [htons(port)]: the argument is converted to 16 bits, high byte first. *)
Definition htons (port : Z) : list byte := rev (le_bytes 2 port).

(** The port a socket address stands for. *)
Definition bound_port (sin_port : list byte) : Z := le_int (rev sin_port).

Lemma bound_port_htons p : bound_port (htons p) = p mod 65536.
Proof. unfold bound_port, htons. rewrite rev_involutive. apply le_int_bytes. Qed.

(** * Properties *)

(** With the variable unset the socket is bound to the default port, and
    with the decimal text of a number n in it to n modulo 2^16: every port
    number reaches the socket address unchanged, and the code does not refuse
    a larger number. *)
Theorem port_from_environment n rest :
  0 <= n <= INT_MAX ->
  (forall b rest', rest = b :: rest' -> is_digit b = false) ->
  bound_port (htons (get_network_udp_port (Some (fmt_u n ++ rest)))) = n mod 65536 /\
  (n < 65536 -> bound_port (htons (get_network_tcp_port (Some (fmt_u n ++ rest)))) = n) /\
  bound_port (htons (get_network_udp_port None)) = 9999 /\
  bound_port (htons (get_network_tcp_port None)) = 7777 /\
  bound_port (htons (get_network_udp_send_port None)) = 8888.
Proof.
  intros Hn Hr. unfold get_network_udp_port, get_network_tcp_port.
  assert (atoi (fmt_u n ++ rest) = n) as ->.
  { unfold atoi, INT_MAX in *. rewrite strtol_fmt_u by (done || unfold LONG_MAX; lia).
    apply swrap_id; [lia|]. unfold in_s. cbn [fst]. lia. }
  rewrite bound_port_htons. split; [done|]. split; [|done].
  intros. apply Z.mod_small. lia.
Qed.

Lemma port_from_environment_witness :
  bound_port (htons (get_network_udp_port (Some (fmt_u 70000 ++ [])))) = 70000 mod 65536.
Proof.
  refine (proj1 (port_from_environment 70000 [] _ _)).
  - unfold INT_MAX. lia.
  - intros b l [=].
Defined.
