(* ===== verification/RouterMsg.v ===== *)
(** * The Router's internal messages (Router/src/msg_common.h, Router/src/msg_common.c)

    The events the worker threads send to the main thread through its private
    message queue.  The three members of the union share the same 256 bytes. *)

From S2P Require Import Prelude CLib Ipc.

(** ** Data *)

Inductive EventType := EV_QUIT | EV_UDP | EV_IPC | EV_FATAL | EV_SIGNAL.

#[export] Instance EventType_eq_dec : EqDecision EventType.
Proof. solve_decision. Defined.

Definition event_code (e : EventType) : Z :=
  match e with EV_QUIT => 0 | EV_UDP => 1 | EV_IPC => 2 | EV_FATAL => 3 | EV_SIGNAL => 4 end.

(** [EventData]: the bytes of the union, and its members. *)
Definition EVENT_DATA_SIZE : nat := 256.

Record InternalMsg := mkMsg { im_mtype : Z; im_event : Z; im_data : list byte }.

Definition sig_num (m : InternalMsg) : Z := swrap 32 (le_int (take 4 (im_data m))).

Definition MSG_TYPE : Z := 1.

(** [sizeof(InternalMsg) - sizeof(long)]: the event, the union, and 4 bytes of
    padding that bring the structure to a multiple of 8. *)
Definition MSG_SIZE : nat := 264.

Definition msg_body (m : InternalMsg) : list byte :=
  le_bytes 4 (im_event m) ++ im_data m ++ zeros 4.

Definition msg_of (mtype : Z) (body : list byte) : InternalMsg :=
  mkMsg mtype (le_int (take 4 body)) (take EVENT_DATA_SIZE (drop 4 body)).

(** ** Operations *)

Definition build_internal_msg (type : EventType) (text : option (list byte)) (sig : Z)
    : option InternalMsg :=
  let data := zeros EVENT_DATA_SIZE in
  data ← match text with
         | Some t => d ← strncpy data t (EVENT_DATA_SIZE - 1);
                     store d (EVENT_DATA_SIZE - 1) x00
         | None => Some data
         end;
  data ← (if negb (sig =? 0) then write_at data 0 (le_bytes 4 sig) else Some data);
  Some (mkMsg MSG_TYPE (event_code type) data).

Definition send_to_main (q : option MsgQueue) (msg : option InternalMsg)
    : exec (Z * option MsgQueue) :=
  match msg with
  | None => Ret (-1, q)
  | Some m =>
      '(a, q) ← msgsnd false q (im_mtype m) (msg_body m);
      match a with
      | IpcErr _ => Ret (-1, q)
      | IpcOk _ => Ret (0, q)
      end
  end.

Definition send_quit_event (q : option MsgQueue) : exec (Z * option MsgQueue) :=
  m ← obj (build_internal_msg EV_QUIT None 0); send_to_main q (Some m).

Definition send_udp_event (q : option MsgQueue) (payload : option (list byte))
    : exec (Z * option MsgQueue) :=
  m ← obj (build_internal_msg EV_UDP payload 0); send_to_main q (Some m).

Definition send_fatal_event (q : option MsgQueue) (payload : option (list byte))
    : exec (Z * option MsgQueue) :=
  m ← obj (build_internal_msg EV_FATAL payload 0); send_to_main q (Some m).

Definition send_signal_event (q : option MsgQueue) (sig : Z) : exec (Z * option MsgQueue) :=
  m ← obj (build_internal_msg EV_SIGNAL None sig); send_to_main q (Some m).

Definition send_ipc_event (q : option MsgQueue) (payload : option (list byte))
    : exec (Z * option MsgQueue) :=
  m ← obj (build_internal_msg EV_IPC payload 0); send_to_main q (Some m).

(** * Lemmas *)

Lemma event_code_inj a b : event_code a = event_code b -> a = b.
Proof. by destruct a, b. Qed.

Record wf_msg (m : InternalMsg) : Prop := {
  wm_type : im_mtype m = MSG_TYPE;
  wm_event : exists e, im_event m = event_code e;
  wm_data : length (im_data m) = EVENT_DATA_SIZE }.

Lemma length_msg_body m : wf_msg m -> length (msg_body m) = MSG_SIZE.
Proof.
  intros []. unfold msg_body, zeros. rewrite !length_app, length_le_bytes, length_replicate.
  rewrite wm_data0. done.
Qed.

Lemma msg_roundtrip m : wf_msg m -> msg_of (im_mtype m) (msg_body m) = m.
Proof.
  destruct m as [t e d]. intros [_ [ev He] Hd]. cbn [im_mtype im_event im_data] in *.
  unfold msg_of, msg_body. cbn [im_mtype im_event im_data].
  f_equal.
  - rewrite take_app_length' by by rewrite length_le_bytes. rewrite le_int_bytes, He.
    by destruct ev.
  - rewrite drop_app_length' by by rewrite length_le_bytes. by apply take_app_length'.
Qed.

(** Text events: the first 255 bytes of the text. *)
Lemma build_text type t s :
  cstring t = Some s ->
  exists m, build_internal_msg type (Some t) 0 = Some m /\ wf_msg m /\
    im_event m = event_code type /\ cstring (im_data m) = Some (take 255 s).
Proof.
  intros Hs. unfold build_internal_msg. cbn [negb Z.eqb].
  destruct (strncpy_store_cstring (zeros EVENT_DATA_SIZE) t s (EVENT_DATA_SIZE - 1) Hs)
    as (d & n & -> & Hst & Hc & Hl); [by apply length_replicate|].
  cbn [mbind option_bind]. rewrite Hst. cbn [mbind option_bind].
  eexists; split; [done|]. split; [|done].
  split; [done|by exists type|]. cbn. by rewrite Hl.
Qed.

(** Signal events. *)
Lemma build_signal sig :
  in_s 32 sig -> sig <> 0 ->
  exists m, build_internal_msg EV_SIGNAL None sig = Some m /\ wf_msg m /\
    im_event m = event_code EV_SIGNAL /\ sig_num m = sig.
Proof.
  intros Hs Hne. unfold build_internal_msg. cbn [mbind option_bind].
  rewrite (proj2 (Z.eqb_neq _ _) Hne). cbn [negb].
  assert (length (le_bytes 4 sig) = 4%nat) as Hl4 by apply length_le_bytes.
  rewrite write_at_safe by (rewrite Hl4; unfold zeros; rewrite length_replicate;
    unfold EVENT_DATA_SIZE; lia). cbn [mbind option_bind].
  eexists; split; [done|]. split; [split; [done|by exists EV_SIGNAL|]|split; [done|]].
  - cbn [im_data]. rewrite !length_app, length_take, length_drop, Hl4. unfold zeros.
    rewrite length_replicate. unfold EVENT_DATA_SIZE. lia.
  - unfold sig_num. cbn [im_data]. rewrite take_0. cbn [app]. rewrite take_app_length' by done.
    rewrite le_int_bytes. etransitivity; [by apply (swrap_wrap 32)|]. by apply swrap_id.
Qed.

(** Putting a well-formed message into a queue with room. *)
Lemma send_to_main_room q m :
  wf_msg m -> room q (msg_body m) = true ->
  send_to_main (Some q) (Some m) =
    Ret (0, Some (mkQueue (q_messages q ++ [(MSG_TYPE, msg_body m)]) (q_bytes q))).
Proof.
  intros Hm Hr. unfold send_to_main, msgsnd. rewrite (wm_type _ Hm). cbn [MSG_TYPE Z.leb Z.compare].
  by rewrite Hr.
Qed.

(** The main thread's [msgrcv] always has room for a message of its queue. *)
Lemma receive_internal q m rest :
  wf_msg m -> q_messages q = (MSG_TYPE, msg_body m) :: rest ->
  msgrcv false false (Some q) MSG_SIZE 0 =
    Ret (IpcOk (MSG_TYPE, msg_body m), Some (mkQueue rest (q_bytes q))).
Proof.
  intros Hm Hq. unfold msgrcv. rewrite Hq. cbn [take_message Z.eqb orb].
  rewrite (length_msg_body m Hm), Nat.ltb_irrefl. cbn [andb].
  by rewrite take_ge by by rewrite length_msg_body.
Qed.

(** * Properties *)

(** An event a worker sends arrives unchanged: when the queue was empty and
    has room, [send_signal_event] and the text events succeed, and the main
    thread's next receive gets a message with the same event, the signal
    number, or the first 255 bytes of the text, terminated. *)
Theorem internal_event_delivery q type t s sig :
  q_messages q = [] -> Z.of_nat MSG_SIZE <= q_bytes q ->
  cstring t = Some s -> in_s 32 sig -> sig <> 0 ->
  (exists m q', (m' ← obj (build_internal_msg type (Some t) 0); send_to_main (Some q) (Some m'))
       = Ret (0, Some q') /\
     msgrcv false false (Some q') MSG_SIZE 0 = Ret (IpcOk (MSG_TYPE, msg_body m), Some q) /\
     msg_of MSG_TYPE (msg_body m) = m /\ im_event m = event_code type /\
     cstring (im_data m) = Some (take 255 s)) /\
  (exists m q', send_signal_event (Some q) sig = Ret (0, Some q') /\
     msgrcv false false (Some q') MSG_SIZE 0 = Ret (IpcOk (MSG_TYPE, msg_body m), Some q) /\
     msg_of MSG_TYPE (msg_body m) = m /\ im_event m = event_code EV_SIGNAL /\ sig_num m = sig).
Proof.
  intros Hq Hcap Hs Hsig Hne.
  assert (forall m, wf_msg m -> room q (msg_body m) = true) as Hroom.
  { intros m Hm. unfold room, q_used. rewrite Hq, length_msg_body by done. cbn.
    unfold MSG_SIZE in *. apply andb_true_iff. split; apply Z.leb_le; lia. }
  assert (forall m, wf_msg m -> exists q', send_to_main (Some q) (Some m) = Ret (0, Some q') /\
     msgrcv false false (Some q') MSG_SIZE 0 = Ret (IpcOk (MSG_TYPE, msg_body m), Some q) /\
     msg_of MSG_TYPE (msg_body m) = m) as Hsend.
  { intros m Hm. eexists. split; [apply send_to_main_room; auto|].
    rewrite (receive_internal _ m []) by (done || by rewrite Hq). split.
    - destruct q; cbn in *. by rewrite Hq.
    - rewrite <- (wm_type _ Hm). by apply msg_roundtrip. }
  split.
  - destruct (build_text type t s Hs) as (m & -> & Hm & He & Hc).
    destruct (Hsend m Hm) as (q' & H1 & H2 & H3). exists m, q'. by split_and!.
  - unfold send_signal_event.
    destruct (build_signal sig Hsig Hne) as (m & -> & Hm & He & Hc).
    destruct (Hsend m Hm) as (q' & H1 & H2 & H3). exists m, q'. by split_and!.
Qed.

Lemma internal_event_delivery_witness :
  exists m q', send_signal_event (Some (mkQueue [] 16384)) 15 = Ret (0, Some q') /\
    msgrcv false false (Some q') MSG_SIZE 0 = Ret (IpcOk (MSG_TYPE, msg_body m), Some (mkQueue [] 16384)) /\
    sig_num m = 15.
Proof.
  destruct (internal_event_delivery (mkQueue [] 16384) EV_UDP (lit "hi") (bs "hi") 15)
    as [_ (m & q' & H1 & H2 & _ & _ & H3)].
  - reflexivity.
  - vm_compute. congruence.
  - reflexivity.
  - split; vm_compute; congruence.
  - lia.
  - exists m, q'. split; [exact H1|]. split; [exact H2|exact H3].
Defined.
