(* ===== verification/Handlers.v ===== *)
(** * The management handlers of a module, and their contract

    Collector, Router and Viewer each register three handlers (their
    mgmt_handlers.c): PING and GET_STATUS differ only in the module name, and
    are defined here for any name; SHUTDOWN differs in what it does to the
    process, so each module has its own file.  The class [MgmtModule] is the
    contract a module offers to the management protocol. *)

From S2P Require Import Prelude CLib MgmtProtocol EventHandler MgmtSocket.

(** The functions a module registers, by address (any distinct non-zero
    numbers would do). *)
Definition HANDLER_PING : Z := 4096.
Definition HANDLER_GET_STATUS : Z := 4352.
Definition HANDLER_SHUTDOWN : Z := 4608.

(** [mgmt_response_init(resp, req->request_id, MGMT_RESULT_OK, module, text,
    strlen(text) + 1)], for the contents of a terminated text. *)
Definition reply (now : timespec) (module : string) (text : list byte)
    (req : MgmtCommandRequest) (resp : MgmtCommandResponse) : option MgmtCommandResponse :=
  r ← mgmt_response_init now (Some resp) (rq_request_id req) MGMT_RESULT_OK
        (Some (lit module)) (Some (text ++ [x00])) (Z.of_nat (length text) + 1);
  r.

Definition ping_with (module : string) (now : timespec) (req : MgmtCommandRequest)
    (resp : MgmtCommandResponse) : option (Z * MgmtCommandResponse) :=
  r ← reply now module (bs "pong") req resp; Some (0, r).

(** [{"status":"running","uptime_s":%ld}] *)
Definition status_text (uptime : Z) : list byte :=
  bs "{" ++ quoted "status" ++ bs ":" ++ quoted "running" ++ bs "," ++
  quoted "uptime_s" ++ bs ":" ++ fmt_d uptime ++ bs "}".

(** [time] is what time(2) answers.  Only the part of [buf] that snprintf(3)
    wrote is read again. *)
Definition status_with (module : string) (now : timespec) (time start_time : Z)
    (req : MgmtCommandRequest) (resp : MgmtCommandResponse)
    : option (Z * MgmtCommandResponse) :=
  let uptime := swrap 64 (time - start_time) in
  let buf := zeros 256 in
  '(buf, _) ← snprintf buf 0 256 (status_text uptime);
  text ← cstring buf;
  r ← reply now module text req resp; Some (0, r).

(** The three registrations, each with its early return. *)
Definition register_three (module : string) (ctx : Z) (r : EventHandlerRegistry)
    : option (Z * EventHandlerRegistry) :=
  '(res, r) ← handler_register r (Some (lit module)) MGMT_CMD_PING HANDLER_PING ctx;
  if res <? 0 then Some (-1, r) else
  '(res, r) ← handler_register r (Some (lit module)) MGMT_CMD_GET_STATUS HANDLER_GET_STATUS ctx;
  if res <? 0 then Some (-1, r) else
  '(res, r) ← handler_register r (Some (lit module)) MGMT_CMD_SHUTDOWN HANDLER_SHUTDOWN ctx;
  if res <? 0 then Some (-1, r) else Some (0, r).

(** ** The contract *)

(** [p] answers the request [q] with success and the text [text]. *)
Record answers (module : string) (text : list byte) (now : timespec)
    (q : MgmtCommandRequest) (p : MgmtCommandResponse) : Prop := {
  an_wf : wf_response p;
  an_id : rs_request_id p = rq_request_id q;
  an_result : rs_result_code p = MGMT_RESULT_OK;
  an_source : cstring (rs_source_module p) = Some (bs module);
  an_payload : cstring (rs_payload p) = Some text;
  an_request_time : rs_request_timestamp p = zero_timespec;
  an_time : rs_response_timestamp p = now }.

(** [W] is the process state; [mm_ready ctx w]: the context at address [ctx]
    is valid and the process can take one more request; [mm_stop w w']: what
    SHUTDOWN changes. *)
Class MgmtModule (W : Type) := {
  mm_name : string;
  mm_invoke : Z -> Z -> MgmtCommandRequest -> MgmtCommandResponse -> W ->
    option (Z * MgmtCommandResponse * W);
  mm_register : Z -> EventHandlerRegistry -> option (Z * EventHandlerRegistry);
  mm_ready : Z -> W -> Prop;
  mm_now : W -> timespec;
  mm_uptime : Z -> W -> Z;
  mm_stop : Z -> W -> W -> Prop;
  mm_name_ok : no_nul (bs mm_name) /\ (0 < length (bs mm_name) <= 63)%nat;
  mm_register_three : forall ctx r, mm_register ctx r = register_three mm_name ctx r;
  mm_ping : forall ctx q p w, mm_ready ctx w -> wf_request q -> wf_response p ->
    exists p', mm_invoke HANDLER_PING ctx q p w = Some (0, p', w) /\
      answers mm_name (bs "pong") (mm_now w) q p';
  mm_status : forall ctx q p w, mm_ready ctx w -> wf_request q -> wf_response p ->
    exists p', mm_invoke HANDLER_GET_STATUS ctx q p w = Some (0, p', w) /\
      answers mm_name (status_text (mm_uptime ctx w)) (mm_now w) q p';
  mm_shutdown : forall ctx q p w, mm_ready ctx w -> wf_request q -> wf_response p ->
    exists p' w', mm_invoke HANDLER_SHUTDOWN ctx q p w = Some (0, p', w') /\
      answers mm_name (bs "shutdown initiated") (mm_now w) q p' /\ mm_stop ctx w w' }.

(** * Lemmas *)

(** A reply whose text fits into the payload. *)
Lemma reply_answers now module text q p :
  wf_timespec now -> wf_request q -> no_nul (bs module) -> (length (bs module) <= 63)%nat ->
  no_nul text -> (length text < MGMT_PAYLOAD_RESPONSE_SIZE)%nat ->
  exists p', reply now module text q p = Some p' /\ answers module text now q p'.
Proof.
  intros Hnow Hq Hm Hml Ht Hl. unfold MGMT_PAYLOAD_RESPONSE_SIZE in Hl.
  assert (cstring (lit module) = Some (bs module)) as Hcm by (by apply cstring_app).
  assert (copied (Some (text ++ [x00])) (Z.of_nat (length text) + 1) MGMT_PAYLOAD_RESPONSE_SIZE
    = Z.of_nat (length text) + 1) as Hcp.
  { unfold copied, MGMT_PAYLOAD_RESPONSE_SIZE. lia. }
  destruct (response_init_result now (lit module) (bs module) Hcm (Some (text ++ [x00]))
    (Z.of_nat (length text) + 1) ltac:(lia) p (rq_request_id q) MGMT_RESULT_OK)
    as (sm & Hsm & Hlsm & E).
  { rewrite Hcp. cbn [payload_obj]. rewrite length_app. cbn. lia. }
  cbn zeta in E. unfold reply. rewrite E. cbn [mbind option_bind].
  eexists. split; [done|]. rewrite Hcp. cbn [payload_obj].
  replace (Z.to_nat (Z.of_nat (length text) + 1)) with (length (text ++ [x00]))
    by (rewrite length_app; cbn; lia).
  rewrite take_ge by lia.
  split; cbn [rs_request_id rs_result_code rs_source_module rs_payload rs_request_timestamp
    rs_response_timestamp]; try done.
  - split; cbn [rs_request_id rs_result_code rs_reserved rs_source_module rs_payload
      rs_request_timestamp rs_response_timestamp]; try done; try apply Hq.
    rewrite length_app. unfold zeros. rewrite length_replicate, length_app. cbn [length].
    unfold MGMT_PAYLOAD_RESPONSE_SIZE. lia.
  - by rewrite Hsm, take_ge.
  - rewrite <- app_assoc. by apply cstring_app.
Qed.

Lemma status_text_ok uptime :
  no_nul (status_text uptime) /\ (length (status_text uptime) < 256)%nat.
Proof.
  split; [unfold status_text; repeat apply no_nul_app; auto with cbuf|].
  unfold status_text. rewrite !length_app. pose proof (fmt_d_length uptime). cbn. lia.
Qed.

Lemma ping_answers now module q p :
  wf_timespec now -> wf_request q -> no_nul (bs module) -> (length (bs module) <= 63)%nat ->
  exists p', ping_with module now q p = Some (0, p') /\ answers module (bs "pong") now q p'.
Proof.
  intros. destruct (reply_answers now module (bs "pong") q p) as (p' & E & Ha); auto with cbuf.
  { cbn. unfold MGMT_PAYLOAD_RESPONSE_SIZE. lia. }
  exists p'. unfold ping_with. by rewrite E.
Qed.

Lemma status_answers now time start module q p :
  wf_timespec now -> wf_request q -> no_nul (bs module) -> (length (bs module) <= 63)%nat ->
  exists p', status_with module now time start q p = Some (0, p') /\
    answers module (status_text (swrap 64 (time - start))) now q p'.
Proof.
  intros. set (uptime := swrap 64 (time - start)).
  destruct (status_text_ok uptime) as [Hnn Hlen].
  destruct (snprintf_fresh (zeros 256) (status_text uptime)) as (d & E & Hh & Hl); [done|].
  destruct (reply_answers now module (status_text uptime) q p) as (p' & Er & Ha); auto.
  { unfold MGMT_PAYLOAD_RESPONSE_SIZE. lia. }
  exists p'. unfold status_with. fold uptime.
  change (Z.of_nat (length (zeros 256))) with 256 in E. rewrite E. cbn [mbind option_bind].
  rewrite take_ge in Hh by (unfold zeros; rewrite length_replicate; lia).
  rewrite (holds_cstring d (status_text uptime)) by done. cbn [mbind option_bind].
  by rewrite Er.
Qed.

(** ** Registration *)

(** The map after the three registrations. *)
Definition three_handlers (module : string) (ctx : Z) : gmap (Z * list byte) HandlerInfo :=
  <[(cmd_code MGMT_CMD_SHUTDOWN, bs module) := mkInfo HANDLER_SHUTDOWN ctx 0 0]>
  (<[(cmd_code MGMT_CMD_GET_STATUS, bs module) := mkInfo HANDLER_GET_STATUS ctx 0 0]>
   {[(cmd_code MGMT_CMD_PING, bs module) := mkInfo HANDLER_PING ctx 0 0]}).

Section registration.
Context (module : string) (Hm : no_nul (bs module)) (Hl : (length (bs module) <= 63)%nat).

Lemma register_small r cmd h c :
  reg_wf r -> reg_unique r -> (size (abs r) < MAX_EVENT_HANDLERS)%nat -> h <> 0 ->
  0 <= cmd < MGMT_CMD_MAX ->
  exists r', handler_register r (Some (lit module)) cmd h c = Some (0, r') /\
    reg_wf r' /\ reg_unique r' /\ abs r' = <[(cmd, bs module) := mkInfo h c 0 0]> (abs r).
Proof.
  intros Hr Hu Hs Hh Hc.
  destruct (register_map r (lit module) (bs module) cmd h c)
    as (ret & r' & E & Hr' & Hu' & [[-> Ha]|(_ & _ & _ & Hsz)]); try done.
  - by apply cstring_app.
  - by exists r'.
  - lia.
Qed.

Lemma size_insert_le {A} (m : gmap (Z * list byte) A) k x : (size (<[k:=x]> m) <= S (size m))%nat.
Proof. rewrite map_size_insert. case_match; cbn; lia. Qed.

Lemma register_three_empty r ctx :
  reg_wf r -> reg_unique r -> abs r = ∅ ->
  exists r', register_three module ctx r = Some (0, r') /\
    reg_wf r' /\ reg_unique r' /\ abs r' = three_handlers module ctx.
Proof.
  intros Hr Hu Ha. unfold register_three.
  assert (size (abs r) = 0%nat) as Hs by (rewrite Ha; apply map_size_empty).
  destruct (register_small r MGMT_CMD_PING HANDLER_PING ctx) as (r1 & -> & Hr1 & Hu1 & Ha1);
    [done|done|unfold MAX_EVENT_HANDLERS; lia|done|done|].
  cbn [mbind option_bind Z.ltb Z.compare].
  pose proof (size_insert_le (abs r) (cmd_code MGMT_CMD_PING, bs module)
    (mkInfo HANDLER_PING ctx 0 0)) as H1. rewrite <- Ha1 in H1.
  destruct (register_small r1 MGMT_CMD_GET_STATUS HANDLER_GET_STATUS ctx)
    as (r2 & -> & Hr2 & Hu2 & Ha2); [done|done|unfold MAX_EVENT_HANDLERS; lia|done|done|].
  cbn [mbind option_bind Z.ltb Z.compare].
  pose proof (size_insert_le (abs r1) (cmd_code MGMT_CMD_GET_STATUS, bs module)
    (mkInfo HANDLER_GET_STATUS ctx 0 0)) as H2. rewrite <- Ha2 in H2.
  destruct (register_small r2 MGMT_CMD_SHUTDOWN HANDLER_SHUTDOWN ctx)
    as (r3 & -> & Hr3 & Hu3 & Ha3); [done|done|unfold MAX_EVENT_HANDLERS; lia|done|done|].
  cbn [mbind option_bind Z.ltb Z.compare]. exists r3. split_and!; try done.
  by rewrite Ha3, Ha2, Ha1, Ha.
Qed.

Lemma three_handlers_lookup ctx cmd :
  three_handlers module ctx !! (cmd, bs module) =
    if cmd =? MGMT_CMD_PING then Some (mkInfo HANDLER_PING ctx 0 0)
    else if cmd =? MGMT_CMD_GET_STATUS then Some (mkInfo HANDLER_GET_STATUS ctx 0 0)
    else if cmd =? MGMT_CMD_SHUTDOWN then Some (mkInfo HANDLER_SHUTDOWN ctx 0 0) else None.
Proof.
  unfold three_handlers. cbn [cmd_code].
  destruct (cmd =? 0) eqn:E1; tests; [subst|destruct (cmd =? 2) eqn:E2; tests;
    [subst|destruct (cmd =? 7) eqn:E3; tests; [subst|]]].
  - by rewrite !lookup_insert_ne, lookup_singleton_eq by by intros [=].
  - by rewrite lookup_insert_ne, lookup_insert_eq by by intros [=].
  - by rewrite lookup_insert_eq.
  - by rewrite !lookup_insert_ne, lookup_singleton_ne by by intros [=].
Qed.
End registration.

(** The functions and contexts behind a registry of the three handlers. *)
Lemma unique_lookup r e :
  reg_unique r -> e ∈ live r -> abs r !! entry_key e = Some (entry_info e).
Proof.
  unfold reg_unique, abs. intros Hu [i Hi]%list_elem_of_lookup. eapply abs_entries_lookup; [done|].
  intros j e'' Hj He'' E.
  assert (j = i); [|lia]. eapply NoDup_lookup; [done| |]; rewrite list_lookup_fmap.
  - rewrite He''. cbn. by rewrite E.
  - by rewrite Hi.
Qed.

Lemma three_handlers_ptrs module ctx r f c :
  reg_unique r -> abs r = three_handlers module ctx -> (f, c) ∈ handler_ptrs r ->
  (f = HANDLER_PING \/ f = HANDLER_GET_STATUS \/ f = HANDLER_SHUTDOWN) /\ c = ctx.
Proof.
  intros Hu Ha (e & [= -> ->] & He)%list_elem_of_fmap.
  pose proof (unique_lookup r e Hu He) as Hl. rewrite Ha in Hl. unfold three_handlers in Hl.
  rewrite !lookup_insert_Some, lookup_singleton_Some in Hl. unfold entry_info in Hl.
  destruct Hl as [[_ [= <- <- _ _]]|[_ [[_ [= <- <- _ _]]|[_ [_ [= <- <- _ _]]]]]]; auto.
Qed.

(** ** Requests to a module *)

Definition request_for (module : string) (q : MgmtCommandRequest) : Prop :=
  wf_request q /\ mgmt_request_validate (Some q) = 1 /\
  cstring (rq_target_module q) = Some (bs module).

(** The registry of a running module: its three handlers, with any statistics. *)
Definition serving (module : string) (ctx : Z) (r : EventHandlerRegistry) : Prop :=
  reg_wf r /\
  forall cmd, (fun i => (hi_handler i, hi_context i)) <$> (abs r !! (cmd, bs module)) =
    if cmd =? MGMT_CMD_PING then Some (HANDLER_PING, ctx)
    else if cmd =? MGMT_CMD_GET_STATUS then Some (HANDLER_GET_STATUS, ctx)
    else if cmd =? MGMT_CMD_SHUTDOWN then Some (HANDLER_SHUTDOWN, ctx) else None.

Lemma serving_three module ctx r :
  reg_wf r -> abs r = three_handlers module ctx -> serving module ctx r.
Proof.
  intros Hr Ha. split; [done|]. intros cmd. rewrite Ha, three_handlers_lookup.
  by repeat case_match.
Qed.

(** Which function and which context a key has. *)
Definition functions (r : EventHandlerRegistry) : gmap (Z * list byte) (Z * Z) :=
  (fun i => (hi_handler i, hi_context i)) <$> abs r.

(** Counting a call keeps them. *)
Lemma functions_counted r i e res latency :
  live r !! i = Some e -> functions (counted r i e res latency) = functions r.
Proof.
  intros Hi. unfold functions, abs, abs_entries.
  rewrite <- !list_to_map_fmap, <- !list_fmap_compose. f_equal.
  destruct (live_lookup _ _ _ Hi) as [_ ?]. unfold counted.
  change (live (set_totals ?r _ _)) with (live r). rewrite live_insert by done.
  rewrite list_fmap_insert. apply list_insert_id. by rewrite list_lookup_fmap, Hi.
Qed.

(** The registry has the three handlers of a module and nothing else. *)
Definition serves_only (module : string) (ctx : Z) (r : EventHandlerRegistry) : Prop :=
  reg_wf r /\ functions r = (fun i => (hi_handler i, hi_context i)) <$> three_handlers module ctx.

Lemma serves_only_three module ctx r :
  reg_wf r -> abs r = three_handlers module ctx -> serves_only module ctx r.
Proof. intros Hr Ha. split; [done|]. unfold functions. by rewrite Ha. Qed.

Lemma serves_only_lookup module ctx r cmd s :
  serves_only module ctx r ->
  functions r !! (cmd, s) =
    if bool_decide (s = bs module) then
      if cmd =? MGMT_CMD_PING then Some (HANDLER_PING, ctx)
      else if cmd =? MGMT_CMD_GET_STATUS then Some (HANDLER_GET_STATUS, ctx)
      else if cmd =? MGMT_CMD_SHUTDOWN then Some (HANDLER_SHUTDOWN, ctx) else None
    else None.
Proof.
  intros [_ ->]. rewrite lookup_fmap. case_bool_decide as Hs.
  - subst. rewrite three_handlers_lookup. by repeat case_match.
  - unfold three_handlers. by rewrite !lookup_insert_ne, lookup_singleton_ne by (by intros [=]).
Qed.

Lemma serves_only_serving module ctx r : serves_only module ctx r -> serving module ctx r.
Proof.
  intros Hs. split; [apply Hs|]. intros cmd. rewrite <- lookup_fmap.
  fold (functions r). by rewrite (serves_only_lookup module ctx), bool_decide_true by done.
Qed.

(** A module that serves its commands keeps serving them, whatever is requested. *)
Lemma functions_dispatch {W} invoke r q p (w : W) res p' r' w' :
  reg_wf r -> wf_request q -> wf_response p ->
  handler_dispatch invoke r w (Some q) (Some p) = Some (res, p', r', w') ->
  reg_wf r' /\ functions r' = functions r.
Proof.
  intros Hr Hq Hp H. unfold handler_dispatch in H.
  pose proof (dispatch_lookup_effect r q p Hr (wq_module _ Hq) (ws_module _ Hp)) as Hl.
  destruct (mgmt_request_validate (Some q) =? 0).
  { rewrite Hl in H. cbn in H. by simplify_eq. }
  destruct Hl as [(i & sm & (e & Hi & _) & _ & Hl)|[_ Hl]]; rewrite Hl in H; cbn in H;
    [|by simplify_eq].
  destruct (live_lookup _ _ _ Hi) as [He _]. rewrite He in H. cbn in H.
  apply bind_Some in H as ([[res1 p1] w1] & _ & H).
  rewrite (dispatch_finish_effect _ _ _ _ _ Hr Hi) in H. cbn in H. simplify_eq.
  split; [by apply reg_wf_counted|by apply functions_counted].
Qed.

Lemma serves_only_dispatch {W} invoke module ctx r q p (w : W) res p' r' w' :
  serves_only module ctx r -> wf_request q -> wf_response p ->
  handler_dispatch invoke r w (Some q) (Some p) = Some (res, p', r', w') -> serves_only module ctx r'.
Proof.
  intros [Hr Hf] Hq Hp H. destruct (functions_dispatch _ _ _ _ _ _ _ _ _ Hr Hq Hp H). split; [done|congruence].
Qed.

Lemma serving_dispatch {W} invoke module ctx r q p (w : W) res p' r' w' :
  serving module ctx r -> wf_request q -> wf_response p ->
  handler_dispatch invoke r w (Some q) (Some p) = Some (res, p', r', w') -> serving module ctx r'.
Proof.
  intros [Hr Hs] Hq Hp H. destruct (functions_dispatch _ _ _ _ _ _ _ _ _ Hr Hq Hp H) as [Hr' Hf].
  split; [done|]. intros cmd. rewrite <- Hs, <- !lookup_fmap. by f_equal.
Qed.

Lemma serving_process_one {W} invoke module ctx e ms timeout r (w : W) sv :
  serving module ctx r -> length (pe_stack e) = MGMT_REQUEST_SIZE ->
  mgmt_socket_process_one invoke e (Some ms) timeout r w = Some sv -> serving module ctx (sv_registry sv).
Proof.
  intros Hs He H. unfold mgmt_socket_process_one in H.
  destruct (_ <? _); [by simplify_eq|]. destruct (_ && _); [by simplify_eq|].
  destruct (pe_recv e) as [|d client]; [by simplify_eq|].
  apply bind_Some in H as (ms1 & _ & H). apply bind_Some in H as ([[[res p] r'] w'] & Hd & H).
  apply bind_Some in H as (ms2 & _ & H). apply bind_Some in H as (p1 & _ & H).
  assert (serving module ctx r').
  { eapply serving_dispatch; [done| |apply wf_zero_response|done]. apply wf_decode_request.
    by rewrite length_recv_into. }
  destruct (negb _); [by simplify_eq|]. apply bind_Some in H as (ms3 & _ & H). by simplify_eq.
Qed.

(** What an iteration of the management thread does to the process state. *)
Lemma process_one_post {W} invoke (post : W -> Prop) e ms timeout r w sv :
  reg_wf r -> length (pe_stack e) = MGMT_REQUEST_SIZE ->
  handlers_return invoke (fun w' => w' = w) post r ->
  mgmt_socket_process_one invoke e (Some ms) timeout r w = Some sv -> post (sv_world sv).
Proof.
  intros Hr He Hh H. pose proof (proj1 Hh w eq_refl) as Hw. unfold mgmt_socket_process_one in H.
  destruct (_ <? _); [by simplify_eq|]. destruct (_ && _); [by simplify_eq|].
  destruct (pe_recv e) as [|d client]; [by simplify_eq|].
  destruct (handler_dispatch_total invoke _ post r w (decode_request (recv_into (pe_stack e) d)) zero_response
    Hr Hh eq_refl) as (res & p & r' & w' & Hd & _ & _ & _ & Hw');
    [apply wf_decode_request; by rewrite length_recv_into|apply wf_zero_response|].
  apply bind_Some in H as (ms1 & _ & H). rewrite Hd in H. cbn [mbind option_bind] in H.
  apply bind_Some in H as (ms2 & _ & H). destruct (negb (pe_send e)); [by simplify_eq|].
  apply bind_Some in H as (ms3 & _ & H). by simplify_eq.
Qed.

Lemma answers_conclude module text now q p :
  answers module text now q p -> conclude 0 p = p.
Proof. done. Qed.

Section module.
Context {W : Type} `{!MgmtModule W}.

(** What a module answers to one of its commands. *)
Definition module_text (ctx : Z) (w : W) (cmd : Z) : list byte :=
  if cmd =? MGMT_CMD_PING then bs "pong"
  else if cmd =? MGMT_CMD_GET_STATUS then status_text (mm_uptime ctx w)
  else bs "shutdown initiated".

Definition known_command (cmd : Z) : Prop :=
  cmd = MGMT_CMD_PING \/ cmd = MGMT_CMD_GET_STATUS \/ cmd = MGMT_CMD_SHUTDOWN.

Lemma module_invoke ctx q p w h :
  mm_ready ctx w -> wf_request q -> wf_response p ->
  (if rq_cmd_type q =? MGMT_CMD_PING then Some (HANDLER_PING, ctx)
   else if rq_cmd_type q =? MGMT_CMD_GET_STATUS then Some (HANDLER_GET_STATUS, ctx)
   else if rq_cmd_type q =? MGMT_CMD_SHUTDOWN then Some (HANDLER_SHUTDOWN, ctx) else None)
    = Some h ->
  exists p' w', mm_invoke (fst h) (snd h) q p w = Some (0, p', w') /\
    answers mm_name (module_text ctx w (rq_cmd_type q)) (mm_now w) q p' /\
    (if rq_cmd_type q =? MGMT_CMD_SHUTDOWN then mm_stop ctx w w' else w' = w).
Proof.
  intros Hw Hq Hp Hh. unfold module_text.
  destruct (rq_cmd_type q =? MGMT_CMD_PING) eqn:E1;
    [|destruct (rq_cmd_type q =? MGMT_CMD_GET_STATUS) eqn:E2;
      [|destruct (rq_cmd_type q =? MGMT_CMD_SHUTDOWN) eqn:E3; [|done]]];
    injection Hh as <-; cbn [fst snd].
  - destruct (mm_ping ctx q p w) as (p' & E & Ha); try done. exists p', w.
    split_and!; try done. tests. by rewrite E1.
  - destruct (mm_status ctx q p w) as (p' & E & Ha); try done. exists p', w.
    split_and!; try done. tests. by rewrite E2.
  - destruct (mm_shutdown ctx q p w) as (p' & w' & E & Ha & Hst); try done. by exists p', w'.
Qed.

(** A request for a running module: one of its three commands is answered by
    its handler, with latency statistics that count from the epoch because the
    handler has cleared the request time; the others are not found. *)
Lemma module_dispatch ctx r q w :
  serving mm_name ctx r -> request_for mm_name q -> mm_ready ctx w ->
  (known_command (rq_cmd_type q) ->
   exists info p r' w',
     abs r !! (rq_cmd_type q, bs mm_name) = Some info /\
     handler_dispatch mm_invoke r w (Some q) (Some zero_response) = Some (0, Some p, r', w') /\
     answers mm_name (module_text ctx w (rq_cmd_type q)) (mm_now w) q p /\
     reg_wf r' /\
     abs r' = <[(rq_cmd_type q, bs mm_name) := mkInfo (hi_handler info) (hi_context info)
       (u32 (hi_count info + 1))
       (u64 (hi_latency info + timespec_us (mm_now w)))]> (abs r) /\
     (if rq_cmd_type q =? MGMT_CMD_SHUTDOWN then mm_stop ctx w w' else w' = w)) /\
  (~ known_command (rq_cmd_type q) ->
   handler_dispatch mm_invoke r w (Some q) (Some zero_response) =
     Some (-1, Some (set_result_code zero_response MGMT_RESULT_MODULE_NOT_FOUND), r, w)).
Proof.
  intros [Hr Hs] (Hq & Hv & Ht) Hw. specialize (Hs (rq_cmd_type q)). split.
  - intros Hk. destruct (abs r !! (rq_cmd_type q, bs mm_name)) as [info|] eqn:Ha; first last.
    { exfalso. destruct Hk as [E|[E|E]]; by rewrite E in Hs. }
    destruct (dispatch_found mm_invoke r w q zero_response (bs mm_name) info)
      as (sm & Hsm & Hd); auto with wf.
    cbn [fmap option_fmap option_map] in Hs.
    destruct (module_invoke ctx q (echo q zero_response sm) w (hi_handler info, hi_context info))
      as (p & w' & E & Han & Hst); auto with wf.
    destruct (Hd 0 p w' E) as (r' & E' & Hr' & Ha' & _).
    exists info, p, r', w'. split_and!; try done. rewrite Ha'. do 3 f_equal.
    unfold conclude. cbn [Z.eqb mgmt_response_latency_us].
    rewrite (an_request_time _ _ _ _ _ Han), (an_time _ _ _ _ _ Han).
    change (timespec_us zero_timespec) with 0.
    assert (0 <= timespec_us (mm_now w)) by (apply (wrap_range 64); lia).
    destruct (0 <? timespec_us (mm_now w)) eqn:Elt; tests; lia.
  - intros Hk. rewrite dispatch_rejected; auto with wf; [by rewrite Hv|].
    intros s Hs'. assert (s = bs mm_name) as -> by congruence.
    destruct (abs r !! _); [exfalso|done]. cbn in Hs. apply Hk.
    destruct (rq_cmd_type q =? 0) eqn:E1; [tests; by left|].
    destruct (rq_cmd_type q =? 2) eqn:E2; [tests; by right; left|].
    destruct (rq_cmd_type q =? 7) eqn:E3; [tests; by right; right|]. done.
Qed.

(** The registered functions are the module's, with its context. *)
Definition own_handlers (ctx : Z) (r : EventHandlerRegistry) : Prop :=
  forall f c, (f, c) ∈ handler_ptrs r ->
    (f = HANDLER_PING \/ f = HANDLER_GET_STATUS \/ f = HANDLER_SHUTDOWN) /\ c = ctx.

(** Whatever is requested, they return; the state stays as it is or a SHUTDOWN
    has taken effect. *)
Lemma module_handlers_return ctx r w :
  mm_ready ctx w -> own_handlers ctx r ->
  handlers_return mm_invoke (fun w' => w' = w) (fun w' => w' = w \/ mm_stop ctx w w') r.
Proof.
  intros Hw Hp. split; [auto|]. intros f c Hfc q p w1 Hq Hwp ->.
  destruct (Hp f c Hfc) as [Hf ->]. destruct_or! Hf; subst f.
  - destruct (mm_ping ctx q p w Hw Hq Hwp) as (p' & E & Han). exists 0, p', w.
    split_and!; [done|apply Han|by left].
  - destruct (mm_status ctx q p w Hw Hq Hwp) as (p' & E & Han). exists 0, p', w.
    split_and!; [done|apply Han|by left].
  - destruct (mm_shutdown ctx q p w Hw Hq Hwp) as (p' & w' & E & Han & Hst). exists 0, p', w'.
    split_and!; [done|apply Han|by right].
Qed.

(** They keep every state ready if a SHUTDOWN does. *)
Lemma module_handlers_total ctx r :
  (forall w w', mm_ready ctx w -> mm_stop ctx w w' -> mm_ready ctx w') ->
  own_handlers ctx r -> handlers_total mm_invoke (mm_ready ctx) r.
Proof.
  intros Hstop Hp. split; [done|]. intros f c Hfc q p w Hq Hwp Hw.
  destruct (proj2 (module_handlers_return ctx r w Hw Hp) f c Hfc q p w Hq Hwp eq_refl)
    as (res & p' & w' & E & Hp' & Hw'). exists res, p', w'. split; [done|]. split; [done|].
  destruct Hw' as [->|Hs]; [done|by eapply Hstop].
Qed.
End module.

(** * Properties *)

(** The latency a module's dispatcher records is not that of the request:
    every handler of the three modules answers through [mgmt_response_init],
    which clears the request time, so that each successful command adds the
    time since the epoch to the statistics, whatever time the client had put
    into the request. *)
Theorem module_latency_from_epoch {W} `{!MgmtModule W} ctx r q w info :
  serving mm_name ctx r -> request_for mm_name q -> mm_ready ctx w ->
  known_command (rq_cmd_type q) -> clock_ok (mm_now w) ->
  abs r !! (rq_cmd_type q, bs mm_name) = Some info ->
  exists p r' w' info', handler_dispatch mm_invoke r w (Some q) (Some zero_response)
      = Some (0, Some p, r', w') /\
    abs r' !! (rq_cmd_type q, bs mm_name) = Some info' /\
    hi_latency info' = u64 (hi_latency info + us_of (mm_now w)).
Proof.
  intros Hs Hq Hw Hk Hc Hi.
  destruct (proj1 (module_dispatch ctx r q w Hs Hq Hw) Hk)
    as (info0 & p & r' & w' & Hi0 & Hd & _ & _ & Ha & _).
  assert (info0 = info) as -> by congruence.
  exists p, r', w'. eexists. split; [done|]. rewrite Ha, lookup_insert_eq. split; [done|].
  cbn. by rewrite timespec_us_exact.
Qed.
