(* ===== verification/CollectorMgmt.v ===== *)
(** * The Collector's management handlers (Collector/src/mgmt_handlers.c)

    The process state the handlers see: the clocks, the contexts by address,
    and the flag of the main loop, to which every context's [keep_running]
    points. *)

From S2P Require Import Prelude CLib MgmtProtocol EventHandler MgmtSocket Handlers.

Record CollectorMgmtCtx := mkCollectorCtx { start_time : Z }.

Record CollectorWorld := mkCollectorWorld {
  cw_now : timespec; cw_time : Z; cw_ctxs : gmap Z CollectorMgmtCtx; g_keep_running : Z }.

Definition handler_ping (req : MgmtCommandRequest) (resp : MgmtCommandResponse) (ctx : Z)
    (w : CollectorWorld) : option (Z * MgmtCommandResponse * CollectorWorld) :=
  '(res, resp) ← ping_with "collector" (cw_now w) req resp; Some (res, resp, w).

Definition handler_get_status (req : MgmtCommandRequest) (resp : MgmtCommandResponse) (ctx : Z)
    (w : CollectorWorld) : option (Z * MgmtCommandResponse * CollectorWorld) :=
  c ← cw_ctxs w !! ctx;
  '(res, resp) ← status_with "collector" (cw_now w) (cw_time w) (start_time c) req resp;
  Some (res, resp, w).

Definition handler_shutdown (req : MgmtCommandRequest) (resp : MgmtCommandResponse) (ctx : Z)
    (w : CollectorWorld) : option (Z * MgmtCommandResponse * CollectorWorld) :=
  resp ← reply (cw_now w) "collector" (bs "shutdown initiated") req resp;
  _ ← cw_ctxs w !! ctx;
  Some (0, resp, mkCollectorWorld (cw_now w) (cw_time w) (cw_ctxs w) 0).

Definition collector_mgmt_register (ctx : Z) (r : EventHandlerRegistry)
    : option (Z * EventHandlerRegistry) :=
  register_three "collector" ctx r.

(** The call of a registered function. *)
Definition collector_invoke (f ctx : Z) (req : MgmtCommandRequest) (resp : MgmtCommandResponse)
    (w : CollectorWorld) : option (Z * MgmtCommandResponse * CollectorWorld) :=
  if f =? HANDLER_PING then handler_ping req resp ctx w
  else if f =? HANDLER_GET_STATUS then handler_get_status req resp ctx w
  else if f =? HANDLER_SHUTDOWN then handler_shutdown req resp ctx w else None.

Definition collector_ready (ctx : Z) (w : CollectorWorld) : Prop :=
  is_Some (cw_ctxs w !! ctx) /\ wf_timespec (cw_now w).

Definition collector_uptime (ctx : Z) (w : CollectorWorld) : Z :=
  swrap 64 (cw_time w - match cw_ctxs w !! ctx with Some c => start_time c | None => 0 end).

(** SHUTDOWN clears the flag of the main loop and nothing else. *)
Definition collector_stop (ctx : Z) (w w' : CollectorWorld) : Prop :=
  w' = mkCollectorWorld (cw_now w) (cw_time w) (cw_ctxs w) 0.

#[export] Program Instance collector_module : MgmtModule CollectorWorld := {
  mm_name := "collector";
  mm_invoke := collector_invoke;
  mm_register := collector_mgmt_register;
  mm_ready := collector_ready;
  mm_now := cw_now;
  mm_uptime := collector_uptime;
  mm_stop := collector_stop }.
Next Obligation. split; [by apply no_nul_lit|cbn; lia]. Qed.
Next Obligation. done. Qed.
Next Obligation.
  intros ctx q p w [_ Hn] Hq Hp.
  destruct (ping_answers (cw_now w) "collector" q p) as (p' & E & Ha); auto with cbuf.
  { cbn. lia. }
  exists p'. unfold collector_invoke, handler_ping. cbn [Z.eqb HANDLER_PING Pos.eqb].
  by rewrite E.
Qed.
Next Obligation.
  intros ctx q p w [[c Hc] Hn] Hq Hp. unfold collector_uptime. rewrite Hc.
  destruct (status_answers (cw_now w) (cw_time w) (start_time c) "collector" q p)
    as (p' & E & Ha); auto with cbuf.
  { cbn. lia. }
  exists p'. unfold collector_invoke, handler_get_status. cbn [Z.eqb HANDLER_PING HANDLER_GET_STATUS Pos.eqb].
  rewrite Hc. cbn [mbind option_bind]. by rewrite E.
Qed.
Next Obligation.
  intros ctx q p w [[c Hc] Hn] Hq Hp.
  destruct (reply_answers (cw_now w) "collector" (bs "shutdown initiated") q p)
    as (p' & E & Ha); auto with cbuf.
  { cbn. lia. }
  { cbn. unfold MGMT_PAYLOAD_RESPONSE_SIZE. lia. }
  exists p'. eexists. unfold collector_invoke, handler_shutdown.
  cbn [Z.eqb HANDLER_PING HANDLER_GET_STATUS HANDLER_SHUTDOWN Pos.eqb].
  rewrite E. cbn [mbind option_bind]. rewrite Hc. cbn [mbind option_bind]. by split_and!.
Qed.

(** The three handlers return in every ready state, and keep it ready. *)
Lemma collector_handlers_total ctx r :
  reg_unique r -> abs r = three_handlers "collector" ctx ->
  handlers_total collector_invoke (collector_ready ctx) r.
Proof.
  intros Hu Ha. refine (@module_handlers_total CollectorWorld collector_module ctx r _ _);
    [|intros f c; by apply (three_handlers_ptrs _ _ _ _ _ Hu Ha)]. by intros w w' Hw ->.
Qed.
