(* ===== verification/ViewerMgmt.v ===== *)
(** * The Viewer's management handlers (Viewer/src/mgmt_handlers.c, Viewer/src/udp_common.h)

    SHUTDOWN stops the management thread and asks the main thread, which waits
    on a condition variable, to end: both through the shared application
    context and its mutex. *)

From S2P Require Import Prelude CLib MgmtProtocol EventHandler MgmtSocket Handlers.

(** [AppContext] without the condition variable, whose waiters test
    [shutdown_requested]; [signalled] counts the signals sent to it. *)
Record AppContext := mkApp {
  app_mtx : mutex; shutdown_requested : Z; signal_thread_ready : bool; signalled : nat }.

Record ViewerMgmtCtx := mkViewerCtx { start_time : Z }.

(** [vw_running] is the flag of the management thread, [vw_app] the context
    every [ViewerMgmtCtx] points to. *)
Record ViewerWorld := mkViewerWorld {
  vw_now : timespec; vw_time : Z; vw_ctxs : gmap Z ViewerMgmtCtx;
  vw_running : bool; vw_app : AppContext }.

(** The critical section that asks the main thread to end, as the handler, the
    signal thread and the error path of [main] execute it. *)
Definition request_shutdown (a : AppContext) : option AppContext :=
  m ← mutex_lock (app_mtx a);
  let a := mkApp m 1 (signal_thread_ready a) (S (signalled a)) in
  m ← mutex_unlock (app_mtx a);
  Some (mkApp m (shutdown_requested a) (signal_thread_ready a) (signalled a)).

Definition handler_ping (req : MgmtCommandRequest) (resp : MgmtCommandResponse) (ctx : Z)
    (w : ViewerWorld) : option (Z * MgmtCommandResponse * ViewerWorld) :=
  '(res, resp) ← ping_with "viewer" (vw_now w) req resp; Some (res, resp, w).

Definition handler_get_status (req : MgmtCommandRequest) (resp : MgmtCommandResponse) (ctx : Z)
    (w : ViewerWorld) : option (Z * MgmtCommandResponse * ViewerWorld) :=
  c ← vw_ctxs w !! ctx;
  '(res, resp) ← status_with "viewer" (vw_now w) (vw_time w) (start_time c) req resp;
  Some (res, resp, w).

Definition handler_shutdown (req : MgmtCommandRequest) (resp : MgmtCommandResponse) (ctx : Z)
    (w : ViewerWorld) : option (Z * MgmtCommandResponse * ViewerWorld) :=
  resp ← reply (vw_now w) "viewer" (bs "shutdown initiated") req resp;
  _ ← vw_ctxs w !! ctx;
  let w := mkViewerWorld (vw_now w) (vw_time w) (vw_ctxs w) false (vw_app w) in
  app ← request_shutdown (vw_app w);
  Some (0, resp, mkViewerWorld (vw_now w) (vw_time w) (vw_ctxs w) (vw_running w) app).

Definition viewer_mgmt_register (ctx : Z) (r : EventHandlerRegistry)
    : option (Z * EventHandlerRegistry) :=
  register_three "viewer" ctx r.

Definition viewer_invoke (f ctx : Z) (req : MgmtCommandRequest) (resp : MgmtCommandResponse)
    (w : ViewerWorld) : option (Z * MgmtCommandResponse * ViewerWorld) :=
  if f =? HANDLER_PING then handler_ping req resp ctx w
  else if f =? HANDLER_GET_STATUS then handler_get_status req resp ctx w
  else if f =? HANDLER_SHUTDOWN then handler_shutdown req resp ctx w else None.

Definition viewer_ready (ctx : Z) (w : ViewerWorld) : Prop :=
  is_Some (vw_ctxs w !! ctx) /\ wf_timespec (vw_now w) /\ app_mtx (vw_app w) = MtxFree.

Definition viewer_uptime (ctx : Z) (w : ViewerWorld) : Z :=
  swrap 64 (vw_time w - match vw_ctxs w !! ctx with Some c => start_time c | None => 0 end).

(** SHUTDOWN stops the management thread and wakes the main thread. *)
Definition viewer_stop (ctx : Z) (w w' : ViewerWorld) : Prop :=
  w' = mkViewerWorld (vw_now w) (vw_time w) (vw_ctxs w) false
         (mkApp MtxFree 1 (signal_thread_ready (vw_app w)) (S (signalled (vw_app w)))).

Lemma request_shutdown_free a :
  app_mtx a = MtxFree ->
  request_shutdown a = Some (mkApp MtxFree 1 (signal_thread_ready a) (S (signalled a))).
Proof. intros E. unfold request_shutdown. by rewrite E. Qed.

#[export] Program Instance viewer_module : MgmtModule ViewerWorld := {
  mm_name := "viewer";
  mm_invoke := viewer_invoke;
  mm_register := viewer_mgmt_register;
  mm_ready := viewer_ready;
  mm_now := vw_now;
  mm_uptime := viewer_uptime;
  mm_stop := viewer_stop }.
Next Obligation. split; [by apply no_nul_lit|cbn; lia]. Qed.
Next Obligation. done. Qed.
Next Obligation.
  intros ctx q p w (_ & Hn & _) Hq Hp.
  destruct (ping_answers (vw_now w) "viewer" q p) as (p' & E & Ha); auto with cbuf.
  { cbn. lia. }
  exists p'. unfold viewer_invoke, handler_ping. cbn [Z.eqb HANDLER_PING Pos.eqb].
  by rewrite E.
Qed.
Next Obligation.
  intros ctx q p w ([c Hc] & Hn & _) Hq Hp. unfold viewer_uptime. rewrite Hc.
  destruct (status_answers (vw_now w) (vw_time w) (start_time c) "viewer" q p)
    as (p' & E & Ha); auto with cbuf.
  { cbn. lia. }
  exists p'. unfold viewer_invoke, handler_get_status. cbn [Z.eqb HANDLER_PING HANDLER_GET_STATUS Pos.eqb].
  rewrite Hc. cbn [mbind option_bind]. by rewrite E.
Qed.
Next Obligation.
  intros ctx q p w ([c Hc] & Hn & Hm) Hq Hp.
  destruct (reply_answers (vw_now w) "viewer" (bs "shutdown initiated") q p)
    as (p' & E & Ha); auto with cbuf.
  { cbn. lia. }
  { cbn. unfold MGMT_PAYLOAD_RESPONSE_SIZE. lia. }
  exists p'. eexists. unfold viewer_invoke, handler_shutdown.
  cbn [Z.eqb HANDLER_PING HANDLER_GET_STATUS HANDLER_SHUTDOWN Pos.eqb].
  rewrite E. cbn [mbind option_bind]. rewrite Hc. cbn [mbind option_bind vw_app].
  rewrite request_shutdown_free by done. cbn [mbind option_bind]. by split_and!.
Qed.

Lemma viewer_handlers_total ctx r : own_handlers ctx r -> handlers_total viewer_invoke (viewer_ready ctx) r.
Proof.
  refine (@module_handlers_total ViewerWorld viewer_module ctx r _). intros w w' (Hc & Hn & _) ->. by split.
Qed.
