(* ===== verification/RouterMgmt.v ===== *)
(** * The Router's management handlers (Router/src/mgmt_handlers.c)

    SHUTDOWN does not stop the process itself: it puts a SIGTERM event into the
    main thread's queue, the same way the signal thread does. *)

From S2P Require Import Prelude CLib MgmtProtocol EventHandler MgmtSocket Handlers Ipc RouterMsg.

Record RouterMgmtCtx := mkRouterCtx { start_time : Z }.

(** [rw_queue] is the queue [mainmsqid] of every context names. *)
Record RouterWorld := mkRouterWorld {
  rw_now : timespec; rw_time : Z; rw_ctxs : gmap Z RouterMgmtCtx;
  rw_queue : option MsgQueue }.

Definition SIGINT : Z := 2.
Definition SIGTERM : Z := 15.

(** A call that does not return does not let the handler return. *)
Definition returned {A} (e : exec A) : option A := match e with Ret a => Some a | _ => None end.

Definition handler_ping (req : MgmtCommandRequest) (resp : MgmtCommandResponse) (ctx : Z)
    (w : RouterWorld) : option (Z * MgmtCommandResponse * RouterWorld) :=
  '(res, resp) ← ping_with "router" (rw_now w) req resp; Some (res, resp, w).

Definition handler_get_status (req : MgmtCommandRequest) (resp : MgmtCommandResponse) (ctx : Z)
    (w : RouterWorld) : option (Z * MgmtCommandResponse * RouterWorld) :=
  c ← rw_ctxs w !! ctx;
  '(res, resp) ← status_with "router" (rw_now w) (rw_time w) (start_time c) req resp;
  Some (res, resp, w).

Definition handler_shutdown (req : MgmtCommandRequest) (resp : MgmtCommandResponse) (ctx : Z)
    (w : RouterWorld) : option (Z * MgmtCommandResponse * RouterWorld) :=
  resp ← reply (rw_now w) "router" (bs "shutdown initiated") req resp;
  _ ← rw_ctxs w !! ctx;
  '(_, q) ← returned (send_signal_event (rw_queue w) SIGTERM);
  Some (0, resp, mkRouterWorld (rw_now w) (rw_time w) (rw_ctxs w) q).

Definition router_mgmt_register (ctx : Z) (r : EventHandlerRegistry)
    : option (Z * EventHandlerRegistry) :=
  register_three "router" ctx r.

Definition router_invoke (f ctx : Z) (req : MgmtCommandRequest) (resp : MgmtCommandResponse)
    (w : RouterWorld) : option (Z * MgmtCommandResponse * RouterWorld) :=
  if f =? HANDLER_PING then handler_ping req resp ctx w
  else if f =? HANDLER_GET_STATUS then handler_get_status req resp ctx w
  else if f =? HANDLER_SHUTDOWN then handler_shutdown req resp ctx w else None.

(** The main queue has room for one more event. *)
Definition router_ready (ctx : Z) (w : RouterWorld) : Prop :=
  is_Some (rw_ctxs w !! ctx) /\ wf_timespec (rw_now w) /\
  exists q, rw_queue w = Some q /\ q_used q + Z.of_nat MSG_SIZE <= q_bytes q /\
    Z.of_nat (length (q_messages q)) + 1 <= q_bytes q.

Definition router_uptime (ctx : Z) (w : RouterWorld) : Z :=
  swrap 64 (rw_time w - match rw_ctxs w !! ctx with Some c => start_time c | None => 0 end).

(** SHUTDOWN appends one EV_SIGNAL/SIGTERM event to the main queue. *)
Definition router_stop (ctx : Z) (w w' : RouterWorld) : Prop :=
  exists q m, rw_queue w = Some q /\ wf_msg m /\ im_event m = event_code EV_SIGNAL /\
    sig_num m = SIGTERM /\
    w' = mkRouterWorld (rw_now w) (rw_time w) (rw_ctxs w)
           (Some (mkQueue (q_messages q ++ [(MSG_TYPE, msg_body m)]) (q_bytes q))).

#[export] Program Instance router_module : MgmtModule RouterWorld := {
  mm_name := "router";
  mm_invoke := router_invoke;
  mm_register := router_mgmt_register;
  mm_ready := router_ready;
  mm_now := rw_now;
  mm_uptime := router_uptime;
  mm_stop := router_stop }.
Next Obligation. split; [by apply no_nul_lit|cbn; lia]. Qed.
Next Obligation. done. Qed.
Next Obligation.
  intros ctx q p w (_ & Hn & _) Hq Hp.
  destruct (ping_answers (rw_now w) "router" q p) as (p' & E & Ha); auto with cbuf.
  { cbn. lia. }
  exists p'. unfold router_invoke, handler_ping. cbn [Z.eqb HANDLER_PING Pos.eqb].
  by rewrite E.
Qed.
Next Obligation.
  intros ctx q p w ([c Hc] & Hn & _) Hq Hp. unfold router_uptime. rewrite Hc.
  destruct (status_answers (rw_now w) (rw_time w) (start_time c) "router" q p)
    as (p' & E & Ha); auto with cbuf.
  { cbn. lia. }
  exists p'. unfold router_invoke, handler_get_status. cbn [Z.eqb HANDLER_PING HANDLER_GET_STATUS Pos.eqb].
  rewrite Hc. cbn [mbind option_bind]. by rewrite E.
Qed.
Next Obligation.
  intros ctx q p w ([c Hc] & Hn & qu & Hqu & Hroom1 & Hroom2) Hq Hp.
  destruct (reply_answers (rw_now w) "router" (bs "shutdown initiated") q p)
    as (p' & E & Ha); auto with cbuf.
  { cbn. lia. }
  { cbn. unfold MGMT_PAYLOAD_RESPONSE_SIZE. lia. }
  destruct (build_signal SIGTERM) as (m & Em & Hm & He & Hsig);
    [by split; vm_compute; congruence|done|].
  exists p'. eexists. unfold router_invoke, handler_shutdown.
  cbn [Z.eqb HANDLER_PING HANDLER_GET_STATUS HANDLER_SHUTDOWN Pos.eqb].
  rewrite E. cbn [mbind option_bind]. rewrite Hc. cbn [mbind option_bind].
  unfold send_signal_event. rewrite Em, Hqu. run. rewrite send_to_main_room; first last.
  { unfold room. rewrite length_msg_body by done. by apply andb_true_iff; split; apply Z.leb_le. }
  { done. }
  cbn [returned mbind option_bind]. split; [done|]. split; [done|]. by exists qu, m.
Qed.
