(* ===== verification/RouterServe.v ===== *)
(** * An iteration of the Router's management thread with a queue that may be full

    RouterMgmt serves requests while the main queue has room.  Here a request of
    any bytes meets any queue: only a SHUTDOWN for the Router touches it, and
    waits in msgsnd(2) while it is full. *)

From S2P Require Import Prelude CLib MgmtProtocol EventHandler MgmtSocket Handlers Ipc RouterMsg RouterMgmt.

(** The request runs the SHUTDOWN handler. *)
Definition stop_request (q : MgmtCommandRequest) : bool :=
  (mgmt_request_validate (Some q) =? 1) && (rq_cmd_type q =? MGMT_CMD_SHUTDOWN) &&
  bool_decide (cstring (rq_target_module q) = Some (bs "router")).

(** ... when it is received in this iteration. *)
Definition stops (e : ProcessEnv) : bool :=
  pe_setsockopt e &&
  match pe_recv e with
  | RecvError => false
  | RecvFrom d _ => stop_request (decode_request (recv_into (pe_stack e) d))
  end.

Definition with_queue (w : RouterWorld) (q : option MsgQueue) : RouterWorld :=
  mkRouterWorld (rw_now w) (rw_time w) (rw_ctxs w) q.

(** * Lemmas *)

Lemma validate_cases q : mgmt_request_validate (Some q) = 0 \/ mgmt_request_validate (Some q) = 1.
Proof. unfold mgmt_request_validate. repeat case_match; auto. Qed.

Lemma send_signal_safe q sig : in_s 32 sig -> sig <> 0 -> safe (send_signal_event q sig) (fun _ => True).
Proof.
  intros Hs Hn. unfold send_signal_event. destruct (build_signal sig Hs Hn) as (m & -> & Hm & _). run.
  unfold send_to_main, msgsnd. rewrite (wm_type _ Hm). destruct q as [q|]; [|done].
  cbn [MSG_TYPE Z.leb Z.compare]. by destruct (room q _).
Qed.

Section serve.
Context (ctx : Z) (w : RouterWorld) (Hctx : is_Some (rw_ctxs w !! ctx)) (Hnow : wf_timespec (rw_now w)).

(** The handlers themselves. *)
Lemma router_ping q p :
  wf_request q -> exists p', router_invoke HANDLER_PING ctx q p w = Some (0, p', w) /\ wf_response p'.
Proof using Hnow.
  intros Hq. destruct (ping_answers (rw_now w) "router" q p) as (p' & E & Ha); auto with cbuf; [cbn; lia|].
  exists p'. unfold router_invoke, handler_ping. cbn [Z.eqb HANDLER_PING Pos.eqb]. rewrite E.
  split; [done|apply Ha].
Qed.

Lemma router_status q p :
  wf_request q -> exists p', router_invoke HANDLER_GET_STATUS ctx q p w = Some (0, p', w) /\ wf_response p'.
Proof using Hctx Hnow.
  intros Hq. destruct Hctx as [c Hc].
  destruct (status_answers (rw_now w) (rw_time w) (start_time c) "router" q p) as (p' & E & Ha);
    auto with cbuf; [cbn; lia|].
  exists p'. unfold router_invoke, handler_get_status.
  cbn [Z.eqb HANDLER_PING HANDLER_GET_STATUS Pos.eqb]. rewrite Hc. cbn [mbind option_bind]. rewrite E.
  split; [done|apply Ha].
Qed.

Lemma router_shutdown q p :
  wf_request q -> exists p', wf_response p' /\ router_invoke HANDLER_SHUTDOWN ctx q p w =
    match send_signal_event (rw_queue w) SIGTERM with
    | Ret (_, mq) => Some (0, p', with_queue w mq)
    | _ => None
    end.
Proof using Hctx Hnow.
  intros Hq. destruct Hctx as [c Hc].
  destruct (reply_answers (rw_now w) "router" (bs "shutdown initiated") q p) as (p' & E & Ha); auto with cbuf.
  { cbn. lia. }
  { cbn. unfold MGMT_PAYLOAD_RESPONSE_SIZE. lia. }
  exists p'. split; [apply Ha|]. unfold router_invoke, handler_shutdown.
  cbn [Z.eqb HANDLER_PING HANDLER_GET_STATUS HANDLER_SHUTDOWN Pos.eqb].
  rewrite E. cbn [mbind option_bind]. rewrite Hc. cbn [mbind option_bind].
  by destruct (send_signal_event _ _) as [[]| |].
Qed.

Abbreviation dispatched r q := (handler_dispatch router_invoke r w (Some q) (Some zero_response)).

(** What the registered function makes of it. *)
Lemma router_runs r q info :
  reg_wf r -> wf_request q -> mgmt_request_validate (Some q) = 1 ->
  cstring (rq_target_module q) = Some (bs "router") ->
  abs r !! (rq_cmd_type q, bs "router") = Some info -> hi_context info = ctx ->
  (hi_handler info = HANDLER_PING \/ hi_handler info = HANDLER_GET_STATUS ->
     exists p r', dispatched r q = Some (0, Some p, r', w) /\ wf_response p) /\
  (hi_handler info = HANDLER_SHUTDOWN ->
     match send_signal_event (rw_queue w) SIGTERM with
     | Ret (_, mq) => exists p r', dispatched r q = Some (0, Some p, r', with_queue w mq) /\ wf_response p
     | Blocked => dispatched r q = None
     | UB => False
     end).
Proof using Hctx Hnow.
  intros Hr Hq Hv Ht Ha Hc.
  destruct (dispatch_found router_invoke r w q zero_response _ info Hr Hq wf_zero_response Hv Ht Ha) as (sm & _ & Hd).
  rewrite Hc in Hd. split.
  - intros Hh. assert (exists p', router_invoke (hi_handler info) ctx q (echo q zero_response sm) w = Some (0, p', w) /\
      wf_response p') as (p' & E & Hp') by (destruct Hh as [-> | ->]; [by apply router_ping|by apply router_status]).
    destruct (Hd _ _ _ E) as (r' & E' & _). exists (conclude 0 p'), r'. split; [done|by apply wf_conclude].
  - intros Hh. rewrite Hh in Hd.
    pose proof (send_signal_safe (rw_queue w) SIGTERM ltac:(split; vm_compute; congruence) ltac:(done)) as Hs.
    destruct (send_signal_event (rw_queue w) SIGTERM) as [[x mq]| |] eqn:Es; [|done|].
    + destruct (router_shutdown q (echo q zero_response sm) Hq) as (p' & Hp' & E). rewrite Es in E.
      destruct (Hd _ _ _ E) as (r' & E' & _). exists (conclude 0 p'), r'. split; [done|by apply wf_conclude].
    + eapply dispatch_not_returned; [done|done|apply wf_zero_response|done..|]. intros sm' _. rewrite Hh, Hc.
      destruct (router_shutdown q (echo q zero_response sm') Hq) as (p' & _ & ->). by rewrite Es.
Qed.

(** A request whose key is not registered. *)
Lemma router_rejects r q :
  reg_wf r -> wf_request q ->
  (mgmt_request_validate (Some q) = 1 ->
   forall s, cstring (rq_target_module q) = Some s -> abs r !! (rq_cmd_type q, s) = None) ->
  exists res p r', dispatched r q = Some (res, Some p, r', w) /\ wf_response p.
Proof using Type.
  intros Hr Hq Hno. destruct (validate_cases q) as [Hv|Hv].
  - unfold handler_dispatch.
    pose proof (dispatch_lookup_effect r q zero_response Hr (wq_module _ Hq) (ws_module _ wf_zero_response)) as Hl.
    rewrite Hv in Hl. cbn [Z.eqb] in Hl. rewrite Hl. do 3 eexists. split; [done|].
    apply wf_set_result_code, result_in_u8; apply wf_zero_response.
  - rewrite dispatch_rejected; [|done|done|apply wf_zero_response|by apply Hno]. rewrite Hv.
    do 3 eexists. split; [done|]. apply wf_set_result_code, result_in_u8; apply wf_zero_response.
Qed.

(** Dispatching a request of any contents. *)
Lemma router_dispatch r q :
  serves_only "router" ctx r -> wf_request q ->
  if stop_request q then
    match send_signal_event (rw_queue w) SIGTERM with
    | Ret (_, mq) => exists p r', dispatched r q = Some (0, Some p, r', with_queue w mq) /\ wf_response p
    | Blocked => dispatched r q = None
    | UB => False
    end
  else exists res p r', dispatched r q = Some (res, Some p, r', w) /\ wf_response p.
Proof using Hctx Hnow.
  intros Hs Hq. pose proof (proj1 Hs) as Hr. unfold stop_request.
  destruct (validate_cases q) as [Hv|Hv]; rewrite Hv; cbn [Z.eqb Pos.eqb andb];
    [apply router_rejects; [done|done|by rewrite Hv]|].
  destruct (cstring (rq_target_module q)) as [s|] eqn:Et.
  2: { rewrite bool_decide_false, andb_false_r by done. apply router_rejects; [done|done|by rewrite Et]. }
  pose proof (serves_only_lookup _ _ r (rq_cmd_type q) s Hs) as Hl. unfold functions in Hl.
  rewrite lookup_fmap in Hl. destruct (decide (s = bs "router")) as [->|Hne].
  2: { rewrite bool_decide_false in Hl |- * by congruence. rewrite andb_false_r.
       apply router_rejects; [done|done|]. rewrite Et. intros _ s' [= <-]. by destruct (abs r !! _). }
  rewrite !bool_decide_true in Hl |- * by done. rewrite andb_true_r.
  destruct (abs r !! (rq_cmd_type q, bs "router")) as [info|] eqn:Ea; cbn in Hl.
  - destruct (rq_cmd_type q =? 0) eqn:E0; [|destruct (rq_cmd_type q =? 2) eqn:E2;
      [|destruct (rq_cmd_type q =? 7) eqn:E7; [|done]]]; injection Hl as Hh Hc;
      destruct (router_runs r q info Hr Hq Hv Et Ea Hc) as [H1 H2]; rewrite Hh in *; tests; rewrite ?E0, ?E2, ?E7.
    + destruct H1 as (p & r' & ? & ?); [by left|]. by exists 0, p, r'.
    + destruct H1 as (p & r' & ? & ?); [by right|]. by exists 0, p, r'.
    + by apply H2.
  - destruct (rq_cmd_type q =? 7) eqn:E7; [tests; by rewrite E7 in Hl|].
    change (cmd_code MGMT_CMD_SHUTDOWN) with 7. rewrite E7.
    apply router_rejects; [done|done|]. rewrite Et. by intros _ s' [= <-].
Qed.
(** An iteration of the thread, whatever arrives. *)
Lemma router_process_one r e ms :
  serves_only "router" ctx r -> sock_wf ms -> length (pe_stack e) = MGMT_REQUEST_SIZE ->
  let d := mgmt_socket_process_one router_invoke e (Some ms) 1000 r w in
  let returns w' := exists sv ms', d = Some sv /\ sv_socket sv = Some ms' /\ sock_wf ms' /\
    socket_fd ms' = socket_fd ms /\ socket_path ms' = socket_path ms /\
    serves_only "router" ctx (sv_registry sv) /\ sv_world sv = w' in
  if stops e then
    match send_signal_event (rw_queue w) SIGTERM with
    | Ret (_, mq) => returns (with_queue w mq) | Blocked => d = None | UB => False
    end
  else returns w.
Proof using Hctx Hnow.
  intros Hs Hms Hst d returns. unfold stops. destruct (pe_setsockopt e) eqn:Hso; cbn [andb].
  2: { do 2 eexists. unfold d, mgmt_socket_process_one. rewrite sock_wf_fd, Hso by done. by split_and!. }
  destruct (pe_recv e) as [|dg client] eqn:Hrv.
  { do 2 eexists. unfold d, mgmt_socket_process_one. rewrite sock_wf_fd, Hso, andb_false_r, Hrv by done. by split_and!. }
  set (q := decode_request _).
  assert (wf_request q) as Hq by (apply wf_decode_request; by rewrite length_recv_into).
  assert (forall res p r' w', dispatched r q = Some (res, Some p, r', w') -> returns w') as Hret.
  { intros res p r' w' E. do 2 eexists.
    split; [by apply (process_one_dispatched _ e dg client ms 1000 r w res p r' w')|]. split; [done|].
    split_and!; [by apply sock_wf_tally|done|done| |done].
    by eapply serves_only_dispatch; [| |apply wf_zero_response|]. }
  pose proof (router_dispatch r q Hs Hq) as Hd. destruct (stop_request q).
  - destruct (send_signal_event _ _) as [[x mq]| |]; [|done|].
    + destruct Hd as (p & r' & E & _). by eapply Hret.
    + unfold d, mgmt_socket_process_one. rewrite (sock_wf_fd _ Hms), Hso, andb_false_r, Hrv, (incr_requests_locked _ Hms).
      cbn [mbind option_bind]. fold q. by rewrite Hd.
  - destruct Hd as (res & p & r' & E & _). by eapply Hret.
Qed.
End serve.
