(* ===== verification/ModuleSession.v ===== *)
(** * Management sessions (Mgmt/src/mgmt_worker.c with the handlers of a module)

    The management thread of a module over a whole sequence of requests, from
    the creation of its socket to the end of the thread after a SHUTDOWN.  The
    specification is the list of the requests with the process states they
    find: each gets one answer that depends on these alone, and each key of the
    registry counts its requests.  Proved for any module of the class
    [MgmtModule], and applied to the Viewer's. *)

From S2P Require Import Prelude CLib MgmtProtocol EventHandler MgmtSocket Handlers ViewerMgmt.

(** ** The specification *)

(** The request an iteration of the worker receives, with its sender. *)
Definition received (e : ProcessEnv) : option (list byte * MgmtCommandRequest) :=
  match pe_recv e with
  | RecvError => None
  | RecvFrom d client => Some (client, decode_request (recv_into (pe_stack e) d))
  end.

Definition known (cmd : Z) : bool :=
  (cmd =? MGMT_CMD_PING) || (cmd =? MGMT_CMD_GET_STATUS) || (cmd =? MGMT_CMD_SHUTDOWN).

Section specification.
Context {W : Type}.

(** The requests of the iterations, each with the process state it finds: only
    the other threads change it, as long as no request is a SHUTDOWN. *)
Fixpoint session (its : list ((W -> W) * ProcessEnv)) (w : W)
    : list (list byte * MgmtCommandRequest * W) :=
  match its with
  | [] => []
  | (others, e) :: its' =>
      let w := others w in
      match received e with
      | None => session its' w
      | Some x => (x, w) :: session its' w
      end
  end.

(** The process state after the iterations. *)
Fixpoint after_others (its : list ((W -> W) * ProcessEnv)) (w : W) : W :=
  match its with [] => w | (others, _) :: its' => after_others its' (others w) end.

(** How often a command was asked for. *)
Definition calls (cmd : Z) (xs : list (list byte * MgmtCommandRequest * W)) : Z :=
  Z.of_nat (length (filter (fun x => rq_cmd_type x.1.2 = cmd) xs)).

Context `{!MgmtModule W}.

(** The answer [m] to a request. *)
Definition replied (ctx : Z) (x : list byte * MgmtCommandRequest * W) (m : sent) : Prop :=
  let '(client, q, w) := x in
  m.1 = client /\ exists p, m.2 = encode_response p /\
    if known (rq_cmd_type q)
    then answers mm_name (module_text ctx w (rq_cmd_type q)) (mm_now w) q p
    else p = set_result_code zero_response MGMT_RESULT_MODULE_NOT_FOUND.

(** An iteration of the session: the other threads keep [wok], the calls
    succeed, and a request is one for this module and not a SHUTDOWN. *)
Definition session_ok (wok : W -> Prop) (it : (W -> W) * ProcessEnv) : Prop :=
  iteration_ok wok it /\ pe_setsockopt it.2 = true /\ pe_send it.2 = true /\
  forall client q, received it.2 = Some (client, q) ->
    request_for mm_name q /\ rq_cmd_type q <> MGMT_CMD_SHUTDOWN.

(** The registry has counted [n cmd] calls of each command. *)
Definition counts_advance (n : Z -> Z) (r r' : EventHandlerRegistry) : Prop :=
  forall cmd info, abs r !! (cmd, bs mm_name) = Some info ->
    exists info', abs r' !! (cmd, bs mm_name) = Some info' /\
      hi_count info' = u32 (hi_count info + n cmd).
End specification.

(** * Lemmas *)

Lemma known_spec cmd : known cmd = true <-> known_command cmd.
Proof.
  unfold known, known_command. rewrite !orb_true_iff, !Z.eqb_eq. tauto.
Qed.

Lemma abs_count_range r k info : reg_wf r -> abs r !! k = Some info -> in_u 32 (hi_count info).
Proof.
  intros Hr H. unfold abs, abs_entries in H.
  apply elem_of_list_to_map_2 in H. apply list_elem_of_fmap in H as (e & [= -> ->] & He).
  cbn. apply (we_count e). by eapply Forall_forall; [apply Hr|].
Qed.

Lemma calls_cons {W} cmd (x : list byte * MgmtCommandRequest * W) xs :
  calls cmd (x :: xs) = (if rq_cmd_type x.1.2 =? cmd then 1 else 0) + calls cmd xs.
Proof.
  unfold calls. rewrite filter_cons. destruct (rq_cmd_type x.1.2 =? cmd) eqn:E; tests.
  - rewrite decide_True by done. cbn [length]. lia.
  - by rewrite decide_False.
Qed.

Lemma calls_session_snoc {W} cmd its (others : W -> W) e client q w :
  received e = Some (client, q) ->
  calls cmd (session (its ++ [(others, e)]) w) =
    calls cmd (session its w) + (if rq_cmd_type q =? cmd then 1 else 0).
Proof.
  intros He. revert w; induction its as [|[o e1] its IH]; intros w; cbn [app session].
  - rewrite He, calls_cons. cbn. lia.
  - destruct (received e1); [rewrite !calls_cons, IH; lia|apply IH].
Qed.

Section serving.
Context {W : Type} `{!MgmtModule W}.

Lemma counts_advance_refl r : reg_wf r -> counts_advance (fun _ => 0) r r.
Proof using Type.
  intros Hr cmd info Hi. exists info. split; [done|]. rewrite Z.add_0_r. symmetry. apply wrap_id.
  by eapply abs_count_range.
Qed.

Lemma counts_advance_trans n1 n2 r1 r2 r3 :
  counts_advance n1 r1 r2 -> counts_advance n2 r2 r3 ->
  counts_advance (fun cmd => n1 cmd + n2 cmd) r1 r3.
Proof using Type.
  intros H1 H2 cmd info Hi. destruct (H1 cmd info Hi) as (i2 & Hi2 & E2).
  destruct (H2 cmd i2 Hi2) as (i3 & Hi3 & E3). exists i3. split; [done|].
  rewrite E3, E2, wrap_add_l. f_equal. lia.
Qed.

(** One request, SHUTDOWN or not. *)
Lemma serve_request ctx r q w :
  serving mm_name ctx r -> request_for mm_name q -> mm_ready ctx w ->
  exists res p r' w',
    handler_dispatch mm_invoke r w (Some q) (Some zero_response) = Some (res, Some p, r', w') /\
    replied ctx ([], q, w) ([], encode_response p) /\ serving mm_name ctx r' /\
    counts_advance (fun cmd => if rq_cmd_type q =? cmd then 1 else 0) r r' /\
    (if rq_cmd_type q =? MGMT_CMD_SHUTDOWN
     then mm_stop ctx w w' /\ answers mm_name (bs "shutdown initiated") (mm_now w) q p
     else w' = w).
Proof using Type.
  intros Hs Hq Hw. destruct (module_dispatch ctx r q w Hs Hq Hw) as [Hk Hn].
  destruct (known (rq_cmd_type q)) eqn:E.
  - destruct (Hk (proj1 (known_spec _) E)) as (info & p & r' & w' & Hi & Hd & Ha & Hr' & Habs & Hst).
    exists 0, p, r', w'. split; [done|]. split; [|split; [|split]].
    + split; [done|]. exists p. by rewrite E.
    + split; [done|]. intros cmd. rewrite <- (proj2 Hs cmd), Habs.
      destruct (decide (rq_cmd_type q = cmd)) as [<-|Hne].
      * by rewrite lookup_insert_eq, Hi.
      * by rewrite lookup_insert_ne by by intros [=].
    + intros cmd i Hc. rewrite Habs. destruct (rq_cmd_type q =? cmd) eqn:Ec; tests.
      * subst cmd. rewrite lookup_insert_eq. eexists; split; [done|]. cbn. congruence.
      * rewrite lookup_insert_ne by by intros [=]. exists i. split; [done|].
        rewrite Z.add_0_r. symmetry. apply wrap_id. eapply abs_count_range; [apply Hs|done].
    + destruct (rq_cmd_type q =? MGMT_CMD_SHUTDOWN) eqn:Es; [|done]. split; [done|].
      tests. unfold module_text in Ha. by rewrite Es in Ha.
  - rewrite Hn by (intros Hk'; apply known_spec in Hk'; congruence).
    exists (-1). eexists _, r, w. split; [done|]. split; [|split; [done|split]].
    + split; [done|]. eexists. rewrite E. by split.
    + intros cmd i Hc. destruct (rq_cmd_type q =? cmd) eqn:Ec; tests.
      * exfalso. pose proof (proj2 Hs cmd) as H. rewrite Hc in H. subst cmd. unfold known in E.
        by destruct (rq_cmd_type q =? MGMT_CMD_PING), (rq_cmd_type q =? MGMT_CMD_GET_STATUS),
          (rq_cmd_type q =? MGMT_CMD_SHUTDOWN).
      * exists i. split; [done|]. rewrite Z.add_0_r. symmetry. apply wrap_id.
        eapply abs_count_range; [apply Hs|done].
    + unfold known in E. by apply orb_false_iff in E as [_ ->].
Qed.

(** The worker over iterations without a SHUTDOWN. *)
Context (running : W -> bool) (wok : W -> Prop) (ctx : Z).
Context (Hwok : forall w, wok w -> running w = true /\ mm_ready ctx w).

Lemma worker_session its rest ms r w s out :
  Forall (session_ok wok) its -> sock_wf ms -> serving mm_name ctx r -> wok w ->
  exists ms' r' ans,
    worker_loop mm_invoke running (its ++ rest) ms r w s out =
      worker_loop mm_invoke running rest ms' r' (after_others its w) s (out ++ ans) /\
    sock_wf ms' /\ socket_fd ms' = socket_fd ms /\ socket_path ms' = socket_path ms /\
    serving mm_name ctx r' /\ wok (after_others its w) /\
    Forall2 (replied ctx) (session its w) ans /\
    counts_advance (fun cmd => calls cmd (session its w)) r r'.
Proof using Hwok.
  intros Hits. revert ms r w out. induction Hits as [|[others e] its ([Hoth Hst] & Hso & Hsend & Hrq) Hits IH];
    intros ms r w out Hms Hr Hw.
  { exists ms, r, []. rewrite app_nil_r. split_and!; try done. apply counts_advance_refl, Hr. }
  cbn [app worker_loop session after_others]. cbn [fst snd] in *.
  specialize (Hoth w Hw). destruct (Hwok _ Hoth) as [-> Hready]. cbn [negb].
  unfold received in *. destruct (pe_recv e) as [|d client] eqn:Erv.
  - unfold mgmt_socket_process_one. rewrite sock_wf_fd, Hso, andb_false_r, Erv by done.
    cbn [mbind option_bind sv_socket sv_registry sv_world sv_sent].
    destruct (IH ms r (others w) (out ++ []) Hms Hr Hoth) as (ms' & r' & ans & -> & H).
    rewrite app_nil_r. by exists ms', r', ans.
  - destruct (Hrq _ _ eq_refl) as [Hq Hnot].
    destruct (serve_request ctx r _ (others w) Hr Hq Hready)
      as (res & p & r1 & w1 & Hd & [_ Hp] & Hr1 & Hc1 & Hw1).
    rewrite (proj2 (Z.eqb_neq _ _) Hnot) in Hw1. subst w1.
    rewrite (process_one_dispatched _ e d client ms 1000 r (others w) res p r1 (others w)) by done.
    cbn [mbind option_bind sv_socket sv_registry sv_world sv_sent]. rewrite Hsend.
    destruct (IH (tally ms (negb (res =? 0)) true) r1 (others w)
      (out ++ [(client, encode_response p)])) as (ms' & r' & ans & -> & ? & ? & ? & ? & ? & ? & ?);
      [by apply sock_wf_tally|done|done|].
    exists ms', r', ((client, encode_response p) :: ans). rewrite <- app_assoc.
    split_and!; try done; [by constructor|].
    intros cmd info Hi. destruct (counts_advance_trans _ _ _ _ _ Hc1 ltac:(eassumption) cmd info Hi)
      as (info' & Hi' & E). exists info'. split; [done|]. rewrite calls_cons. exact E.
Qed.
End serving.

(** * Properties *)

(** C14: the management thread of a module implements its session
    specification.  Over any sequence of iterations, idle ones and requests for
    the module in any order, followed by a SHUTDOWN, it sends exactly one answer
    per request, in order, to the sender: the text of the command in the process
    state the request finds, or MODULE_NOT_FOUND for a command without a
    handler, whatever was asked before; the SHUTDOWN takes effect once; every
    key has counted its requests modulo 2^32; and the thread ends with its
    descriptor closed and its socket file removed.  Requests are answered whatever
    their flags are, also with the flag 0x02 that the header documents as
    "no-response": the code does not look at the flags. *)
Theorem mgmt_worker_session {W} `{!MgmtModule W} running (wok : W -> Prop) ctx path s fd its others e
    client q others' e' rest r w sys :
  cstring path = Some s -> 0 <= fd -> (fd ∉ sys_fds sys) ->
  (forall w, wok w -> running w = true /\ mm_ready ctx w) ->
  Forall (session_ok wok) its ->
  iteration_ok wok (others, e) -> pe_setsockopt e = true -> pe_send e = true ->
  received e = Some (client, q) -> request_for mm_name q -> rq_cmd_type q = MGMT_CMD_SHUTDOWN ->
  (forall w w', mm_stop ctx w w' -> running (others' w') = false) ->
  serving mm_name ctx r -> wok w ->
  let stopped := others (after_others its w) in
  exists r' w' sys' ans p,
    mgmt_worker mm_invoke running (mkCreateEnv true (Some fd) true)
      (its ++ (others, e) :: (others', e') :: rest) (Some (Some path, true)) r w sys
      = Some (WorkerDone r' (others' w') sys' (ans ++ [(client, encode_response p)])) /\
    Forall2 (replied ctx) (session its w) ans /\
    answers mm_name (bs "shutdown initiated") (mm_now stopped) q p /\ mm_stop ctx stopped w' /\
    counts_advance (fun cmd => calls cmd (session (its ++ [(others, e)]) w)) r r' /\
    sys_fds sys' = sys_fds sys /\ sys_files sys' ⊆ sys_files sys.
Proof.
  intros Hs Hpos Hnew Hwok Hits [Hoth Hst] Hso Hsend Hrecv Hq Hcmd Hend Hr Hw stopped.
  unfold mgmt_worker.
  destruct (create_bound (mkCreateEnv true (Some fd) true) path s sys Hs fd eq_refl eq_refl eq_refl)
    as (d & Hd & ->). cbn [mbind option_bind].
  destruct (worker_session running wok ctx Hwok its ((others, e) :: (others', e') :: rest)
    (mkSocket fd d d 0 0 0 MtxFree) r w (sys_bind (take 107 s) (sys_unlink s (sys_open fd sys))) [])
    as (ms & r1 & ans & -> & Hms & Hfd & Hpath & Hr1 & Hw1 & Hans & Hc1); [done| |done|done|].
  { split; cbn; try done. by eexists. }
  destruct (Hwok _ (Hoth _ Hw1)) as [Hrun Hready]. cbn [fst] in Hoth, Hrun, Hready.
  fold stopped in Hrun, Hready. cbn [worker_loop app]. fold stopped. rewrite Hrun. cbn [negb].
  destruct (serve_request ctx r1 q stopped Hr1 Hq Hready)
    as (res & p & r2 & w2 & Hd2 & _ & Hr2 & Hc2 & Hst2).
  rewrite Hcmd in Hst2. destruct Hst2 as [Hstop Hans2].
  unfold received in Hrecv. destruct (pe_recv e) as [|dg cl] eqn:Erv; [done|]. injection Hrecv as -> Hqd.
  rewrite <- Hqd in Hd2.
  rewrite (process_one_dispatched _ e dg client ms 1000 r1 stopped res p r2 w2) by done.
  cbn [mbind option_bind sv_socket sv_registry sv_world sv_sent]. rewrite (Hend _ _ Hstop), Hsend.
  cbn [negb]. unfold mgmt_socket_destroy.
  cbn [tally socket_fd socket_path set_stats]. rewrite Hfd, Hpath. cbn [socket_fd socket_path].
  rewrite (proj2 (Z.leb_le _ _)), Hd by done. cbn [mbind option_bind].
  exists r2, w2. eexists _, ans, p. split; [done|]. do 3 (split; [done|]). split.
  - intros cmd info Hi. destruct (counts_advance_trans _ _ _ _ _ Hc1 Hc2 cmd info Hi) as (info' & Hi' & E).
    exists info'. split; [done|]. rewrite E, (calls_session_snoc cmd its others e client q); [done|].
    unfold received. by rewrite Erv, Hqd.
  - cbn. split; set_solver.
Qed.

(** A Viewer in service, and requests to it. *)
Definition viewer_world : ViewerWorld :=
  mkViewerWorld (mkTimespec 100 0) 130 {[8192 := mkViewerCtx 100]} true (mkApp MtxFree 0 true 0).

Definition viewer_request (cmd : MgmtCommandType) : MgmtCommandRequest :=
  mkRequest 7 (cmd_code cmd) 0 0 zero_timespec (lit "viewer" ++ zeros 57) (zeros 512).

Definition asks (cmd : MgmtCommandType) : (ViewerWorld -> ViewerWorld) * ProcessEnv :=
  (id, mkProcessEnv true (RecvFrom (encode_request (viewer_request cmd)) (bs "/tmp/c"))
         (zeros 600) true).

Definition idle : (ViewerWorld -> ViewerWorld) * ProcessEnv :=
  (id, mkProcessEnv true RecvError (zeros 600) true).

Lemma viewer_request_for cmd : cmd <> MGMT_CMD_MAX -> request_for "viewer" (viewer_request cmd).
Proof.
  intros Hc. split; [|split; [by destruct cmd|done]].
  split; try reflexivity; try (repeat split; vm_compute; congruence).
  destruct cmd; split; vm_compute; congruence.
Qed.

Lemma asks_received cmd : received (asks cmd).2 = Some (bs "/tmp/c", viewer_request cmd).
Proof. destruct cmd; vm_compute; reflexivity. Qed.

Lemma mgmt_worker_session_witness :
  exists r r' w' sys' ans p,
    mgmt_worker viewer_invoke vw_running (mkCreateEnv true (Some 3) true)
      ([asks MGMT_CMD_PING; idle; asks MGMT_CMD_GET_METRICS; asks MGMT_CMD_PING] ++
       asks MGMT_CMD_SHUTDOWN :: idle :: []) (Some (Some (lit "/tmp/v"), true)) r viewer_world
      (mkSys {[0; 1; 2]} ∅) = Some (WorkerDone r' w' sys' (ans ++ [(bs "/tmp/c", encode_response p)])) /\
    length ans = 3%nat /\ vw_running w' = false /\
    exists info, abs r' !! (cmd_code MGMT_CMD_PING, bs "viewer") = Some info /\ hi_count info = 2.
Proof.
  destruct (register_three_empty "viewer" ltac:(by apply no_nul_lit) ltac:(cbn; lia) empty_registry 8192)
    as (r & _ & Hr & _ & Habs); [apply reg_wf_empty|constructor|reflexivity|].
  exists r.
  assert (Forall (session_ok (fun w => w = viewer_world))
    [asks MGMT_CMD_PING; idle; asks MGMT_CMD_GET_METRICS; asks MGMT_CMD_PING]) as Hits.
  { repeat apply Forall_cons_2; [..|apply Forall_nil_2];
      (split; [split; [intros w ->; reflexivity|reflexivity]|split; [reflexivity|split; [reflexivity|]]]);
      intros c q E; try discriminate; rewrite asks_received in E; injection E as <- <-;
      (split; [apply viewer_request_for; discriminate|vm_compute; congruence]). }
  destruct (mgmt_worker_session vw_running (fun w => w = viewer_world) 8192 (lit "/tmp/v") (bs "/tmp/v") 3
    [asks MGMT_CMD_PING; idle; asks MGMT_CMD_GET_METRICS; asks MGMT_CMD_PING] id (asks MGMT_CMD_SHUTDOWN).2
    (bs "/tmp/c") (viewer_request MGMT_CMD_SHUTDOWN) id idle.2 [] r viewer_world (mkSys {[0; 1; 2]} ∅))
    as (r' & w' & sys' & ans & p & H & Hans & _ & Hstop & Hcount & _).
  - reflexivity.
  - lia.
  - cbn. set_solver.
  - intros w ->. split; [reflexivity|].
    split; [eexists; reflexivity|split; [split; vm_compute; split; congruence|reflexivity]].
  - exact Hits.
  - split; [intros w ->; reflexivity|reflexivity].
  - reflexivity.
  - reflexivity.
  - apply asks_received.
  - apply viewer_request_for. discriminate.
  - reflexivity.
  - intros w w1 ->. reflexivity.
  - apply serving_three; [exact Hr|exact Habs].
  - reflexivity.
  - exists r', (id w'), sys', ans, p. split; [exact H|]. split; [|split].
    + apply Forall2_length in Hans. rewrite <- Hans. vm_compute. reflexivity.
    + rewrite Hstop. reflexivity.
    + destruct (Hcount MGMT_CMD_PING (mkInfo HANDLER_PING 8192 0 0)) as (info & Hi & E).
      * rewrite Habs. vm_compute. reflexivity.
      * exists info. split; [exact Hi|]. rewrite E. vm_compute. reflexivity.
Defined.
