(* ===== verification/MgmtCtl.v ===== *)
(** * The command line client (MgmtCtl/src/main.c, MgmtCtl/src/mgmt_send.c)

    The arguments are the contents of the [argv] strings.  The exchange of
    datagrams is an argument [deliver]: what becomes of a request sent to a
    socket path from a client path, in a state [N] of the other processes. *)

From S2P Require Import Prelude CLib MgmtProtocol EventHandler MgmtSocket Handlers.
From S2P Require Import CollectorMgmt.

Definition MGMT_SOCKET_PATH_COLLECTOR : list byte := bs "/tmp/studyc_collector.sock".
Definition MGMT_SOCKET_PATH_ROUTER : list byte := bs "/tmp/studyc_router.sock".
Definition MGMT_SOCKET_PATH_VIEWER : list byte := bs "/tmp/studyc_viewer.sock".

(** ** Sending a command (mgmt_send.c) *)

Inductive delivery := SendFails | NoReply | Reply (datagram : list byte).

(** [cli.sun_path] *)
Definition client_path (pid : Z) : list byte :=
  bs "/tmp/studyc_mgmtctl_" ++ fmt_d pid ++ bs ".sock".

Section send.
Context {N : Type}.
Variable deliver : N -> list byte -> list byte -> list byte -> delivery * N.

(** [fd] is what socket(2) answers, [bind_ok] what bind(2) does; [resp] are the
    bytes of the response object before the call. *)
Definition mgmt_send_command (fd : option Z) (bind_ok : bool) (pid : Z)
    (socket_path : option (list byte)) (req : option MgmtCommandRequest)
    (resp : option (list byte)) (sys : Sys) (net : N)
    : option (Z * option (list byte) * Sys * N) :=
  match socket_path, req, resp with
  | Some path, Some q, Some obj =>
      match fd with
      | None => Some (-1, resp, sys, net)
      | Some fd =>
          let sys := sys_open fd sys in
          '(cli, _) ← snprintf (zeros UNIX_PATH_MAX) 0 (Z.of_nat UNIX_PATH_MAX) (client_path pid);
          me ← cstring cli;
          let sys := sys_unlink me sys in
          if negb bind_ok then Some (-1, resp, sys_close fd (sys_unlink me sys), net)
          else
            let sys := sys_bind me sys in
            srv ← strncpy (zeros UNIX_PATH_MAX) path (UNIX_PATH_MAX - 1);
            srv ← cstring srv;
            let '(d, net) := deliver net srv me (encode_request q) in
            let cleanup := sys_close fd (sys_unlink me sys) in
            match d with
            | SendFails | NoReply => Some (-1, resp, cleanup, net)
            | Reply data =>
                let obj := recv_into obj data in
                let n := Nat.min (length data) (length obj) in
                Some (if (n =? MGMT_RESPONSE_SIZE)%nat then 0 else -1, Some obj, cleanup, net)
            end
      end
  | _, _, _ => Some (-1, resp, sys, net)
  end.
End send.

(** ** The command line (main.c) *)

Definition module_to_path (module : list byte) : option (list byte) :=
  if bool_decide (module = bs "collector") then Some MGMT_SOCKET_PATH_COLLECTOR
  else if bool_decide (module = bs "router") then Some MGMT_SOCKET_PATH_ROUTER
  else if bool_decide (module = bs "viewer") then Some MGMT_SOCKET_PATH_VIEWER
  else None.

(** The search of a table for a name. *)
Fixpoint lookup_name {A} (s : list byte) (table : list (string * A)) : option A :=
  match table with
  | [] => None
  | (name, x) :: table' => if bool_decide (s = bs name) then Some x else lookup_name s table'
  end.

Definition command_table : list (string * MgmtCommandType) :=
  [("ping", MGMT_CMD_PING); ("status", MGMT_CMD_GET_STATUS);
   ("metrics", MGMT_CMD_GET_METRICS); ("reset", MGMT_CMD_RESET_METRICS);
   ("loglevel", MGMT_CMD_SET_LOG_LEVEL); ("bufsize", MGMT_CMD_SET_BUFFER_SIZE);
   ("profiling", MGMT_CMD_ENABLE_PROFILING); ("tracing", MGMT_CMD_ENABLE_TRACING);
   ("config", MGMT_CMD_GET_CONFIG); ("shutdown", MGMT_CMD_SHUTDOWN)].

Definition parse_command (s : list byte) : option Z :=
  (fun t => u8 (cmd_code t)) <$> lookup_name s command_table.

Definition loglevel_table : list (string * LogLevel) :=
  [("trace", LOG_LEVEL_TRACE); ("debug", LOG_LEVEL_DEBUG); ("info", LOG_LEVEL_INFO);
   ("warn", LOG_LEVEL_WARN); ("error", LOG_LEVEL_ERROR); ("fatal", LOG_LEVEL_FATAL)].

Definition parse_loglevel (s : list byte) : option Z :=
  (fun l => u8 (level_code l)) <$> lookup_name s loglevel_table.

(** What goes to the standard error when there are too few arguments. *)
Definition print_usage (prog : list byte) : list byte :=
  bs "Usage: " ++ prog ++ bs " <module> <command> [arg]" ++ [x0a; x0a] ++
  bs "Modules : collector, router, viewer" ++ [x0a; x0a] ++
  bs "Commands:" ++ [x0a] ++
  bs "  ping                  Liveness check" ++ [x0a] ++
  bs "  status                Get module status" ++ [x0a] ++
  bs "  metrics               Get performance metrics" ++ [x0a] ++
  bs "  reset                 Reset metric counters" ++ [x0a] ++
  bs "  loglevel <level>      Set log level  (trace|debug|info|warn|error|fatal)" ++ [x0a] ++
  bs "  bufsize  <size>       Resize buffer capacity" ++ [x0a] ++
  bs "  profiling             Enable performance profiling" ++ [x0a] ++
  bs "  tracing               Enable event tracing" ++ [x0a] ++
  bs "  config                Dump current configuration" ++ [x0a] ++
  bs "  shutdown              Request graceful shutdown" ++ [x0a].

(** The payload of a command: the buffer and the number of bytes used, or the
    message when the argument is missing or refused. *)
Definition command_payload (cmd : Z) (arg : option (list byte)) : list byte + list byte * Z :=
  let payload := zeros MGMT_PAYLOAD_REQUEST_SIZE in
  if cmd =? MGMT_CMD_SET_LOG_LEVEL then
    match arg with
    | None => inl (bs "loglevel requires a level argument" ++ [x0a])
    | Some s =>
        match parse_loglevel s with
        | None => inl (bs "Unknown log level: " ++ s ++ [x0a])
        | Some level => inr (<[0%nat := Z_to_byte level]> payload, 1)
        end
    end
  else if cmd =? MGMT_CMD_SET_BUFFER_SIZE then
    match arg with
    | None => inl (bs "bufsize requires a size argument" ++ [x0a])
    | Some s =>
        let '(size_l, endptr) := strtol s in
        if negb (bool_decide (endptr = [])) || (size_l <=? 0) || (INT_MAX <? size_l)
        then inl (bs "Invalid buffer size: " ++ s ++ [x0a])
        else inr (le_bytes 4 (swrap 32 size_l) ++ drop 4 payload, 4)
    end
  else inr (payload, 0).

(** What [main] does with its arguments before it sends: it reports an error,
    or goes on with a socket path, a module, a command and its payload.  The
    first argument, the program's name, exists. *)
Inductive parsed :=
| Rejected (err : list byte)
| Command (path module : list byte) (cmd : Z) (payload : list byte) (len : Z).

Definition parse_args (argv : list (list byte)) : parsed :=
  match argv with
  | _ :: module :: cmd_str :: rest =>
      match module_to_path module with
      | None => Rejected (bs "Unknown module: " ++ module ++ [x0a])
      | Some path =>
          match parse_command cmd_str with
          | None => Rejected (bs "Unknown command: " ++ cmd_str ++ [x0a])
          | Some cmd =>
              match command_payload cmd (head rest) with
              | inl err => Rejected err
              | inr (payload, len) => Command path module cmd payload len
              end
          end
      end
  | _ => Rejected (print_usage (default [] (head argv)))
  end.

(** [printf("[%s] %s -> %s\n", ...)] *)
Definition result_line (module : list byte) (cmd result : Z) : list byte :=
  bs "[" ++ module ++ bs "] " ++ bs (mgmt_command_str cmd) ++ bs " -> " ++
  bs (mgmt_result_str result) ++ [x0a].

Section main.
Context {N : Type}.
Variable deliver : N -> list byte -> list byte -> list byte -> delivery * N.

(** The exit status and what was printed on the standard output and error. *)
Definition main (fd : option Z) (bind_ok : bool) (pid : Z) (now : timespec)
    (resp : list byte) (argv : list (list byte)) (sys : Sys) (net : N)
    : option (Z * list byte * list byte * Sys * N) :=
  match parse_args argv with
  | Rejected err => Some (1, [], err, sys, net)
  | Command path module cmd payload len =>
      req ← mgmt_request_init now (Some zero_request) cmd (Some (module ++ [x00]))
              (if negb (len =? 0) then Some payload else None) len;
      '(ret, resp, sys, net) ←
        mgmt_send_command deliver fd bind_ok pid (Some (path ++ [x00])) req (Some resp) sys net;
      if ret <? 0 then
        Some (1, [], bs "No response from " ++ module ++ bs " (is it running?)" ++ [x0a], sys, net)
      else
        resp ← resp;
        let r := decode_response resp in
        let out := result_line module cmd (rs_result_code r) in
        out ← (if negb (is_nul (nth 0 (rs_payload r) x00)) then
                 text ← cstring (rs_payload r); Some (out ++ text ++ [x0a])
               else Some out);
        Some (if rs_result_code r =? MGMT_RESULT_OK then 0 else 1, out, [], sys, net)
  end.
End main.

(** ** A running module on the other side *)

(** The state of a module's management socket. *)
Record Server (W : Type) := mkServer {
  sr_socket : MgmtSocket; sr_registry : EventHandlerRegistry; sr_world : W }.
Arguments mkServer {W}.
Arguments sr_socket {W}.
Arguments sr_registry {W}.
Arguments sr_world {W}.

(** One call of [mgmt_socket_process_one] in the module bound to [path]
    receives the datagram; its answer goes back to the sender.  [stack] is the
    memory under the module's request object. *)
Definition module_net {W} `{!MgmtModule W} (path stack : list byte) (s : Server W)
    (to from data : list byte) : delivery * Server W :=
  if negb (bool_decide (to = path)) then (SendFails, s)
  else
    match mgmt_socket_process_one mm_invoke (mkProcessEnv true (RecvFrom data from) stack true)
            (Some (sr_socket s)) 1000 (sr_registry s) (sr_world s) with
    | Some (mkServed _ (Some ms) r w [(client, d)]) =>
        (if bool_decide (client = from) then Reply d else NoReply, mkServer ms r w)
    | _ => (NoReply, s)
    end.

(** * Lemmas *)

Lemma client_path_stored pid :
  exists cli, snprintf (zeros UNIX_PATH_MAX) 0 (Z.of_nat UNIX_PATH_MAX) (client_path pid)
      = Some (cli, Z.of_nat (length (client_path pid))) /\ cstring cli = Some (client_path pid).
Proof.
  assert (no_nul (client_path pid)) as Hnn
    by (unfold client_path; repeat apply no_nul_app; auto with cbuf).
  assert (length (client_path pid) < UNIX_PATH_MAX)%nat as Hl.
  { unfold client_path. rewrite !length_app. pose proof (fmt_d_length pid). cbn.
    unfold UNIX_PATH_MAX. lia. }
  destruct (snprintf_fresh (zeros UNIX_PATH_MAX) (client_path pid)) as (d & E & Hh & _); [done|].
  unfold zeros in E at 2. rewrite length_replicate in E.
  unfold zeros in Hh. rewrite length_replicate, take_ge in Hh by lia.
  exists d. split; [done|]. by apply holds_cstring.
Qed.

Section send_lemmas.
Context {N : Type} (deliver : N -> list byte -> list byte -> list byte -> delivery * N).

(** The exchange itself, once the client socket is bound. *)
Lemma send_command_exchange fd pid path s q obj sys net :
  cstring path = Some s -> (length s <= 107)%nat ->
  mgmt_send_command deliver (Some fd) true pid (Some path) (Some q) (Some obj) sys net =
  let '(d, net') := deliver net s (client_path pid) (encode_request q) in
  let sys' := sys_close fd (sys_unlink (client_path pid) (sys_bind (client_path pid)
                (sys_unlink (client_path pid) (sys_open fd sys)))) in
  match d with
  | SendFails | NoReply => Some (-1, Some obj, sys', net')
  | Reply data =>
      Some (if (Nat.min (length data) (length (recv_into obj data)) =? MGMT_RESPONSE_SIZE)%nat
            then 0 else -1, Some (recv_into obj data), sys', net')
  end.
Proof.
  intros Hp Hl. unfold mgmt_send_command.
  destruct (client_path_stored pid) as (cli & -> & Hcli). cbn [mbind option_bind].
  rewrite Hcli. cbn [mbind option_bind negb].
  destruct (path_stored path s Hp) as (d & -> & Hd & _). cbn [mbind option_bind].
  rewrite Hd, take_ge by done. cbn [mbind option_bind].
  destruct (deliver _ _ _ _) as [[| |data] net']; done.
Qed.
End send_lemmas.

(** ** Parsing *)

Lemma module_to_path_ok m p :
  module_to_path m = Some p ->
  (m = bs "collector" \/ m = bs "router" \/ m = bs "viewer") /\ no_nul p /\ (length p <= 107)%nat.
Proof.
  unfold module_to_path. intros H.
  repeat (case_bool_decide; [injection H as <-; split; [by auto|];
    split; [by apply no_nul_lit|cbn; lia]|]). done.
Qed.

Lemma lookup_name_in {A} s (table : list (string * A)) x :
  lookup_name s table = Some x -> x ∈ table.*2.
Proof.
  induction table as [|[n y] table IH]; cbn; [done|].
  case_bool_decide; [intros [= ->]; by left|intros; right; auto].
Qed.

Lemma parse_command_range s cmd : parse_command s = Some cmd -> 0 <= cmd < MGMT_CMD_MAX.
Proof.
  unfold parse_command. intros (t & Ht & ->)%fmap_Some. apply lookup_name_in in Ht.
  cbn in Ht. rewrite !elem_of_cons in Ht.
  destruct_or! Ht; subst; try (by split; vm_compute; congruence).
  by apply not_elem_of_nil in Ht.
Qed.

Lemma command_payload_ok cmd arg payload len :
  command_payload cmd arg = inr (payload, len) ->
  length payload = MGMT_PAYLOAD_REQUEST_SIZE /\ 0 <= len <= 4.
Proof.
  assert (length (zeros MGMT_PAYLOAD_REQUEST_SIZE) = MGMT_PAYLOAD_REQUEST_SIZE) as Hz
    by apply length_replicate.
  unfold command_payload. intros H.
  repeat case_match; simplify_eq; (split; [|lia]); [|done..].
  by rewrite length_insert.
Qed.

Lemma parse_args_ok argv path module cmd payload len :
  parse_args argv = Command path module cmd payload len ->
  module_to_path module = Some path /\ 0 <= cmd < MGMT_CMD_MAX /\
  length payload = MGMT_PAYLOAD_REQUEST_SIZE /\ 0 <= len <= 4.
Proof.
  destruct argv as [|a [|m [|c rest]]]; try done. cbn [parse_args]. intros H.
  destruct (module_to_path m) as [p|] eqn:Ep; [|done].
  destruct (parse_command c) as [cm|] eqn:Ec; [|done].
  destruct (command_payload cm (head rest)) as [|[pl l]] eqn:Epl; [done|].
  injection H as <- <- <- <- <-. split; [done|]. split; [by eapply parse_command_range|].
  by eapply command_payload_ok.
Qed.

(** The request [main] builds. *)
Lemma main_request now path module cmd payload len argv :
  wf_timespec now -> parse_args argv = Command path module cmd payload len ->
  exists q, mgmt_request_init now (Some zero_request) cmd (Some (module ++ [x00]))
      (if negb (len =? 0) then Some payload else None) len = Some (Some q) /\
    wf_request q /\ rq_cmd_type q = cmd /\ mgmt_request_validate (Some q) = 1 /\
    cstring (rq_target_module q) = Some module /\
    rq_payload_len q = len /\ take (Z.to_nat len) (rq_payload q) = take (Z.to_nat len) payload.
Proof.
  intros Hnow Hp. destruct (parse_args_ok _ _ _ _ _ _ Hp) as (Hm & Hc & Hl & Hlen).
  destruct (module_to_path_ok _ _ Hm) as (Hname & _).
  assert (cstring (module ++ [x00]) = Some module) as Hcs
    by (apply cstring_app; destruct_or! Hname; subst; by apply no_nul_lit).
  assert (take 63 module = module /\ module <> []) as [Htake Hne]
    by (by destruct_or! Hname; subst).
  set (pl := if negb (len =? 0) then Some payload else None).
  assert (copied pl len MGMT_PAYLOAD_REQUEST_SIZE = len) as Hcp.
  { unfold pl, copied, MGMT_PAYLOAD_REQUEST_SIZE. destruct (len =? 0) eqn:E; tests; cbn; lia. }
  destruct (request_init_full now zero_request cmd (module ++ [x00]) module pl len)
    as (q & E & Hq & _ & Hcmd & _ & Ht & Hplen & Hpl & Hv); try done; try lia.
  { unfold in_u. cbn in Hc. lia. }
  { rewrite Hcp. unfold pl. destruct (len =? 0) eqn:E0; tests; cbn [payload_obj negb length].
    - lia.
    - rewrite Hl. unfold MGMT_PAYLOAD_REQUEST_SIZE. lia. }
  exists q. rewrite Hcp in Hplen. rewrite Htake in Ht. split_and!; try done.
  - rewrite Hv, (proj2 (Z.ltb_lt _ _)), bool_decide_true by (done || lia). done.
  - rewrite Hpl, Hplen. unfold pl. destruct (len =? 0) eqn:E0; tests; [by subst|].
    cbn [negb payload_obj]. rewrite take_app_length'; [done|].
    rewrite length_take, Hl. unfold MGMT_PAYLOAD_REQUEST_SIZE. lia.
Qed.

Lemma cstring_first buf s :
  cstring buf = Some s -> is_nul (nth 0 buf x00) = bool_decide (s = []).
Proof.
  destruct buf as [|b buf]; [done|]. cbn. destruct (is_nul b).
  - intros [= <-]. by rewrite bool_decide_true.
  - intros (s' & _ & ->)%fmap_Some. by rewrite bool_decide_false.
Qed.

Lemma wf_recv_full resp p :
  wf_response p -> length resp = MGMT_RESPONSE_SIZE ->
  recv_into resp (encode_response p) = encode_response p.
Proof. intros Hp Hl. apply recv_into_full. by rewrite Hl, length_encode_response. Qed.

(** The client prints the reply the network brings. *)
Lemma main_reply {net} (deliver : net -> list byte -> list byte -> list byte -> delivery * net)
    n n' fd pid now resp argv path module cmd payload len sys q p text :
  length resp = MGMT_RESPONSE_SIZE -> parse_args argv = Command path module cmd payload len ->
  mgmt_request_init now (Some zero_request) cmd (Some (module ++ [x00]))
    (if negb (len =? 0) then Some payload else None) len = Some (Some q) ->
  deliver n path (client_path pid) (encode_request q) = (Reply (encode_response p), n') ->
  wf_response p -> cstring (rs_payload p) = Some text ->
  exists sys', main deliver (Some fd) true pid now resp argv sys n =
    Some (if rs_result_code p =? MGMT_RESULT_OK then 0 else 1,
          result_line module cmd (rs_result_code p) ++
            (if bool_decide (text = []) then [] else text ++ [x0a]), [], sys', n').
Proof.
  intros Hresp Hparse Hinit Hd Hp Htext.
  destruct (parse_args_ok _ _ _ _ _ _ Hparse) as (Hpath & _).
  destruct (module_to_path_ok _ _ Hpath) as (_ & Hpn & Hpl).
  unfold main. rewrite Hparse, Hinit. cbn [mbind option_bind].
  rewrite (send_command_exchange _ fd pid (path ++ [x00]) path q resp sys n)
    by (done || by apply cstring_app).
  rewrite Hd. cbn [mbind option_bind].
  rewrite wf_recv_full, length_encode_response by done.
  rewrite Nat.min_id, Nat.eqb_refl. cbn [Z.ltb Z.compare mbind option_bind].
  rewrite decode_encode_response_wf, (cstring_first _ _ Htext) by done.
  eexists. destruct (bool_decide (text = [])); cbn [negb mbind option_bind].
  - by rewrite app_nil_r.
  - by rewrite Htext.
Qed.

(** ... and says so when there is none. *)
Lemma main_no_reply {net} (deliver : net -> list byte -> list byte -> list byte -> delivery * net)
    n n' fd pid now resp argv path module cmd payload len sys q :
  parse_args argv = Command path module cmd payload len ->
  mgmt_request_init now (Some zero_request) cmd (Some (module ++ [x00]))
    (if negb (len =? 0) then Some payload else None) len = Some (Some q) ->
  deliver n path (client_path pid) (encode_request q) = (NoReply, n') ->
  exists sys', main deliver (Some fd) true pid now resp argv sys n =
    Some (1, [], bs "No response from " ++ module ++ bs " (is it running?)" ++ [x0a], sys', n').
Proof.
  intros Hparse Hinit Hd.
  destruct (parse_args_ok _ _ _ _ _ _ Hparse) as (Hpath & _).
  destruct (module_to_path_ok _ _ Hpath) as (_ & Hpn & Hpl).
  unfold main. rewrite Hparse, Hinit. cbn [mbind option_bind].
  rewrite (send_command_exchange _ fd pid (path ++ [x00]) path q resp sys n)
    by (done || by apply cstring_app).
  rewrite Hd. by eexists.
Qed.

Section exchange.
Context {W : Type} `{!MgmtModule W}.

(** The client prints the answer of a module, given what the module's
    dispatcher makes of the request. *)
Lemma main_prints s fd pid now stack resp argv path cmd payload len sys q res p r' w' text :
  sock_wf (sr_socket s) -> length resp = MGMT_RESPONSE_SIZE -> length stack = MGMT_REQUEST_SIZE ->
  parse_args argv = Command path (bs mm_name) cmd payload len ->
  mgmt_request_init now (Some zero_request) cmd (Some (bs mm_name ++ [x00]))
    (if negb (len =? 0) then Some payload else None) len = Some (Some q) ->
  wf_request q ->
  handler_dispatch mm_invoke (sr_registry s) (sr_world s) (Some q) (Some zero_response)
    = Some (res, Some p, r', w') ->
  wf_response p -> cstring (rs_payload p) = Some text ->
  exists sys' ms', main (module_net path stack) (Some fd) true pid now resp argv sys s =
    Some (if rs_result_code p =? MGMT_RESULT_OK then 0 else 1,
          result_line (bs mm_name) cmd (rs_result_code p) ++
            (if bool_decide (text = []) then [] else text ++ [x0a]),
          [], sys', mkServer ms' r' w') /\ sock_wf ms'.
Proof.
  intros Hms Hresp Hst Hparse Hinit Hq Hd Hp Htext.
  assert (recv_into stack (encode_request q) = encode_request q) as Hrecv
    by (apply recv_into_full; by rewrite length_encode_request, Hst).
  destruct (main_reply (module_net path stack) s (mkServer (tally (sr_socket s) (negb (res =? 0)) true) r' w')
    fd pid now resp argv path (bs mm_name) cmd payload len sys q p text) as (sys' & E); try done.
  { unfold module_net. rewrite bool_decide_true by done. cbn [negb].
    rewrite (process_one_dispatched mm_invoke
      (mkProcessEnv true (RecvFrom (encode_request q) (client_path pid)) stack true)
      (encode_request q) (client_path pid) (sr_socket s) 1000 (sr_registry s) (sr_world s)
      res p r' w') by (try done; cbn [pe_stack]; by rewrite Hrecv, decode_encode_request_wf).
    cbn [pe_send]. by rewrite bool_decide_true by done. }
  exists sys'. eexists. split; [exact E|by apply sock_wf_tally].
Qed.

Lemma module_text_nonempty ctx w cmd : module_text ctx w cmd <> [].
Proof. unfold module_text, status_text. by repeat case_match. Qed.
End exchange.

(** A command line that parses, sent to a running module. *)
Lemma client_exchange {W} `{!MgmtModule W} ctx s fd pid now stack resp argv path cmd
    payload len sys :
  wf_timespec now -> sock_wf (sr_socket s) -> serving mm_name ctx (sr_registry s) ->
  mm_ready ctx (sr_world s) -> length stack = MGMT_REQUEST_SIZE ->
  length resp = MGMT_RESPONSE_SIZE ->
  parse_args argv = Command path (bs mm_name) cmd payload len ->
  exists code out sys' s',
    main (module_net path stack) (Some fd) true pid now resp argv sys s
      = Some (code, out, [], sys', s') /\ sock_wf (sr_socket s') /\ reg_wf (sr_registry s') /\
    (known_command cmd ->
       code = 0 /\ out = result_line (bs mm_name) cmd MGMT_RESULT_OK ++
                        module_text ctx (sr_world s) cmd ++ [x0a] /\
       if cmd =? MGMT_CMD_SHUTDOWN then mm_stop ctx (sr_world s) (sr_world s')
       else sr_world s' = sr_world s) /\
    (~ known_command cmd ->
       code = 1 /\ out = result_line (bs mm_name) cmd MGMT_RESULT_MODULE_NOT_FOUND /\
       sr_world s' = sr_world s /\ sr_registry s' = sr_registry s).
Proof.
  intros Hnow Hms Hserv Hready Hst Hresp Hparse.
  destruct (main_request now _ _ _ _ _ _ Hnow Hparse) as (q & Hinit & Hq & Hcmd & Hv & Ht & _).
  destruct (module_dispatch ctx (sr_registry s) q (sr_world s)) as [Hknown Hunknown];
    [done|done|done|]. rewrite Hcmd in Hknown, Hunknown.
  assert (known_command cmd \/ ~ known_command cmd) as [Hk|Hk].
  { unfold known_command. destruct (decide (cmd = MGMT_CMD_PING)); [by auto|].
    destruct (decide (cmd = MGMT_CMD_GET_STATUS)); [by auto|].
    destruct (decide (cmd = MGMT_CMD_SHUTDOWN)); [by auto|]. right. naive_solver. }
  - destruct (Hknown Hk) as (info & p & r' & w' & _ & Hd & Ha & Hr' & _ & Hw).
    destruct (main_prints s fd pid now stack resp argv path cmd payload len sys q 0 p r' w'
      (module_text ctx (sr_world s) cmd)) as (sys' & ms' & E & Hms'); try done; try apply Ha.
    do 4 eexists. split; [exact E|]. split; [done|]. split; [done|]. split; [|done].
    intros _. rewrite (an_result _ _ _ _ _ Ha), bool_decide_false by apply module_text_nonempty.
    by split_and!.
  - specialize (Hunknown Hk).
    destruct (main_prints s fd pid now stack resp argv path cmd payload len sys q (-1)
      (set_result_code zero_response MGMT_RESULT_MODULE_NOT_FOUND) (sr_registry s) (sr_world s) [])
      as (sys' & ms' & E & Hms'); try done; auto with wf.
    do 4 eexists. split; [exact E|]. split; [done|]. split; [apply Hserv|]. split; [done|].
    intros _. by rewrite bool_decide_true, app_nil_r.
Qed.

(** ** Usage *)

(** The text of the usage behind the program's name. *)
Definition usage_tail : list byte := drop 7 (print_usage []).

Lemma print_usage_tail prog : print_usage prog = bs "Usage: " ++ prog ++ usage_tail.
Proof. reflexivity. Qed.

(** Search for a text. *)
Fixpoint occurs (s l : list byte) : bool :=
  bool_decide (take (length s) l = s) || match l with [] => false | _ :: l' => occurs s l' end.

Lemma occurs_split s l : occurs s l = true -> exists l1 l2, l = l1 ++ s ++ l2.
Proof.
  induction l as [|b l IH]; cbn [occurs]; rewrite orb_true_iff.
  - intros [H|H]; [|done]. apply bool_decide_eq_true in H. exists [], []. by rewrite <- H, take_nil.
  - intros [H|H]; [apply bool_decide_eq_true in H|].
    + exists [], (drop (length s) (b :: l)). cbn [app]. rewrite <- H at 1. by rewrite take_drop.
    + destruct (IH H) as (l1 & l2 & ->). by exists (b :: l1), l2.
Qed.

Lemma lookup_name_known {A} s (table : list (string * A)) :
  is_Some (lookup_name s table) -> s ∈ (bs ∘ fst) <$> table.
Proof.
  induction table as [|[n y] table IH]; cbn [lookup_name]; [by intros [? [=]]|].
  rewrite fmap_cons, elem_of_cons. case_bool_decide; [by left|intros H'; right; auto].
Qed.

Lemma usage_names s :
  is_Some (module_to_path s) \/ is_Some (parse_command s) \/ is_Some (parse_loglevel s) ->
  occurs s usage_tail = true.
Proof.
  assert (forall l, forallb (fun s => occurs s usage_tail) l = true -> s ∈ l ->
    occurs s usage_tail = true) as Hall.
  { intros l Hl Hs. rewrite forallb_forall in Hl. by apply Hl, list_elem_of_In. }
  unfold parse_command, parse_loglevel. rewrite !fmap_is_Some.
  intros [[p Hp]|[H%lookup_name_known|H%lookup_name_known]].
  - destruct (module_to_path_ok _ _ Hp) as (Hm & _). by destruct_or! Hm; subst; vm_compute.
  - revert H. apply Hall. by vm_compute.
  - revert H. apply Hall. by vm_compute.
Qed.

Lemma payload_refusal cmd arg err :
  command_payload cmd arg = inl err -> last err = Some x0a.
Proof.
  unfold command_payload. intros H. repeat case_match; simplify_eq; rewrite ?app_assoc, last_snoc; done.
Qed.

(** * Properties *)

(** C9: the client, the socket, the dispatcher and the handlers together: for
    every command line that parses, sent to a running module, the command
    exits.  PING, GET_STATUS and SHUTDOWN print the module's text under a
    result line with OK and exit with 0, and only SHUTDOWN changes the module's
    state, exactly as the module's contract says; every other command prints
    MODULE_NOT_FOUND, exits with 1 and leaves the module as it was. *)
Theorem mgmtctl_end_to_end {W} `{!MgmtModule W} ctx s fd pid now stack resp argv path cmd
    payload len sys :
  wf_timespec now -> sock_wf (sr_socket s) -> serving mm_name ctx (sr_registry s) ->
  mm_ready ctx (sr_world s) -> length stack = MGMT_REQUEST_SIZE ->
  length resp = MGMT_RESPONSE_SIZE ->
  parse_args argv = Command path (bs mm_name) cmd payload len ->
  exists code out sys' s',
    main (module_net path stack) (Some fd) true pid now resp argv sys s
      = Some (code, out, [], sys', s') /\ sock_wf (sr_socket s') /\ reg_wf (sr_registry s') /\
    (known_command cmd ->
       code = 0 /\ out = result_line (bs mm_name) cmd MGMT_RESULT_OK ++
                        module_text ctx (sr_world s) cmd ++ [x0a] /\
       if cmd =? MGMT_CMD_SHUTDOWN then mm_stop ctx (sr_world s) (sr_world s')
       else sr_world s' = sr_world s) /\
    (~ known_command cmd ->
       code = 1 /\ out = result_line (bs mm_name) cmd MGMT_RESULT_MODULE_NOT_FOUND /\
       sr_world s' = sr_world s /\ sr_registry s' = sr_registry s).
Proof. apply client_exchange. Qed.

Definition demo_world : CollectorWorld :=
  mkCollectorWorld (mkTimespec 1700000000 5000) 1700000100 {[8192 := mkCollectorCtx 1700000000]} 1.

Lemma demo_world_ready : collector_ready 8192 demo_world.
Proof.
  split; [by eexists|]. split; vm_compute; split; congruence.
Qed.

(** A Collector that has registered its handlers. *)
Lemma demo_collector : exists r, collector_mgmt_register 8192 empty_registry = Some (0, r) /\
  serving "collector" 8192 r.
Proof.
  destruct (register_three_empty "collector" ltac:(by apply no_nul_lit) ltac:(cbn; lia)
    empty_registry 8192 reg_wf_empty) as (r & E & Hr & _ & Ha); [by constructor|done|].
  exists r. split; [done|]. by apply serving_three.
Qed.

Lemma mgmtctl_end_to_end_witness :
  exists r code out sys' s',
    main (module_net MGMT_SOCKET_PATH_COLLECTOR (zeros 600)) (Some 3) true 77 zero_timespec
      (zeros 2152) [bs "mgmtctl"; bs "collector"; bs "ping"] (mkSys ∅ ∅)
      (mkServer demo_socket r demo_world) = Some (code, out, [], sys', s') /\
    code = 0 /\ out = bs "[collector] PING -> OK" ++ [x0a] ++ bs "pong" ++ [x0a].
Proof.
  destruct demo_collector as (r & _ & Hserv). exists r.
  destruct (mgmtctl_end_to_end (W := CollectorWorld) 8192 (mkServer demo_socket r demo_world) 3 77
    zero_timespec (zeros 600) (zeros 2152) [bs "mgmtctl"; bs "collector"; bs "ping"]
    MGMT_SOCKET_PATH_COLLECTOR MGMT_CMD_PING (zeros 512) 0 (mkSys ∅ ∅))
    as (code & out & sys' & s' & H & _ & _ & Hk & _).
  - split; vm_compute; split; congruence.
  - exact demo_socket_wf.
  - exact Hserv.
  - exact demo_world_ready.
  - reflexivity.
  - reflexivity.
  - reflexivity.
  - destruct Hk as (-> & -> & _); [left; reflexivity|].
    exists 0. eexists. exists sys', s'. split; [exact H|]. split; reflexivity.
Defined.

(** Sending a command never leaks: whatever the calls answer, the client's
    descriptors are those of before and its socket file is gone; the call
    answers 0 only when a whole 2152-byte response arrived, and that response
    is then in the caller's object. *)
Theorem mgmt_send_command_clean {N} (deliver : N -> list byte -> list byte -> list byte ->
    delivery * N) fd bind_ok pid path s q resp sys net :
  cstring path = Some s -> (length s <= 107)%nat -> length resp = MGMT_RESPONSE_SIZE ->
  (forall x, fd = Some x -> x ∉ sys_fds sys) ->
  exists ret resp' sys' net',
    mgmt_send_command deliver fd bind_ok pid (Some path) (Some q) (Some resp) sys net
      = Some (ret, Some resp', sys', net') /\
    sys_fds sys' = sys_fds sys /\ sys_files sys' ⊆ sys_files sys /\
    (fd <> None -> client_path pid ∉ sys_files sys') /\
    (ret = 0 <-> fd <> None /\ bind_ok = true /\ exists d,
       fst (deliver net s (client_path pid) (encode_request q)) = Reply d /\
       (MGMT_RESPONSE_SIZE <= length d)%nat) /\
    (ret = 0 -> forall d, fst (deliver net s (client_path pid) (encode_request q)) = Reply d ->
       resp' = take MGMT_RESPONSE_SIZE d).
Proof.
  intros Hp Hl Hresp Hfd. destruct fd as [fd|]; first last.
  { do 4 eexists. split; [done|]. split_and!; try done. split; [done|]. by intros [? _]. }
  specialize (Hfd fd eq_refl).
  assert (({[fd]} ∪ sys_fds sys) ∖ {[fd]} = sys_fds sys) as Hclose by set_solver.
  destruct bind_ok; first last.
  { unfold mgmt_send_command. destruct (client_path_stored pid) as (cli & -> & Hcli).
    cbn [mbind option_bind]. rewrite Hcli. cbn [mbind option_bind negb].
    do 4 eexists. split; [done|]. cbn. rewrite Hclose. split_and!; try done; set_solver. }
  rewrite (send_command_exchange deliver fd pid path s q resp sys net Hp Hl).
  destruct (deliver net s (client_path pid) (encode_request q)) as [d net'] eqn:Ed.
  cbn [fst]. cbn zeta. clear Ed.
  set (sys' := sys_close fd _).
  assert (sys_fds sys' = sys_fds sys /\ sys_files sys' ⊆ sys_files sys /\
          (Some fd <> None -> client_path pid ∉ sys_files sys')) as (Hs1 & Hs2 & Hs3)
    by (unfold sys'; cbn; rewrite Hclose; set_solver).
  destruct d as [| |data]; (do 4 eexists; split; [done|]); do 3 (split; [done|]).
  - split; [|done]. split; [done|]. by intros (_ & _ & x & Hx & _).
  - split; [|done]. split; [done|]. by intros (_ & _ & x & Hx & _).
  - rewrite length_recv_into, Hresp. split.
    + destruct (_ =? _)%nat eqn:E.
      * split; [intros _|done]. apply Nat.eqb_eq in E.
        split_and!; try done. exists data. split; [done|]. lia.
      * split; [done|]. intros (_ & _ & x & [= <-] & Hx). apply Nat.eqb_neq in E. lia.
    + destruct (_ =? _)%nat eqn:E; [intros _|done]. apply Nat.eqb_eq in E.
      intros x [= <-]. unfold recv_into. rewrite Hresp, (drop_ge resp) by lia. apply app_nil_r.
Qed.

Lemma mgmt_send_command_clean_witness :
  exists ret resp' sys' net',
    mgmt_send_command (fun (n : nat) _ _ _ => (Reply (zeros 10), S n)) (Some 3) true 77
      (Some (lit "/tmp/a")) (Some demo_request) (Some (zeros 2152)) (mkSys {[0]} ∅) 0%nat
      = Some (ret, Some resp', sys', net') /\ sys_fds sys' = {[0]}.
Proof.
  destruct (mgmt_send_command_clean (fun (n : nat) _ _ _ => (Reply (zeros 10), S n)) (Some 3) true
    77 (lit "/tmp/a") (bs "/tmp/a") demo_request (zeros 2152) (mkSys {[0]} ∅) 0%nat)
    as (ret & resp' & sys' & net' & H & H1 & _).
  - reflexivity.
  - vm_compute. lia.
  - reflexivity.
  - intros x [= <-]. set_solver.
  - exists ret, resp', sys', net'. split; [exact H|exact H1].
Defined.

(** A command line the client cannot use is refused before anything is
    opened or sent, with exit code 1, nothing on the standard output and a line
    on the standard error that says why: the usage for fewer than two arguments.
    And the usage lists every module, command and log level the parser
    accepts. *)
Theorem mgmtctl_refuses {N} (deliver : N -> list byte -> list byte -> list byte -> delivery * N)
    fd bind_ok pid now resp argv err sys net prog :
  parse_args argv = Rejected err ->
  main deliver fd bind_ok pid now resp argv sys net = Some (1, [], err, sys, net) /\
  last err = Some x0a /\
  ((length argv < 3)%nat -> err = print_usage (default [] (head argv))) /\
  (forall s, is_Some (module_to_path s) \/ is_Some (parse_command s) \/ is_Some (parse_loglevel s) ->
     exists l1 l2, print_usage prog = l1 ++ s ++ l2).
Proof.
  intros H. split; [unfold main; by rewrite H|]. split; [|split].
  - destruct argv as [|a [|m [|c rest]]]; cbn [parse_args] in H;
      [injection H as <-; rewrite print_usage_tail, !last_app; reflexivity..|].
    destruct (module_to_path m).
    2: { assert (err = bs "Unknown module: " ++ m ++ [x0a]) as -> by congruence.
         by rewrite app_assoc, last_snoc. }
    destruct (parse_command c).
    2: { assert (err = bs "Unknown command: " ++ c ++ [x0a]) as -> by congruence.
         by rewrite app_assoc, last_snoc. }
    destruct (command_payload _ _) as [e|[pl len]] eqn:Ep; [|done].
    injection H as <-. by eapply payload_refusal.
  - intros Hl. destruct argv as [|a [|m [|c rest]]]; [by injection H..|]. cbn in Hl. lia.
  - intros s (l1 & l2 & E)%usage_names%occurs_split. exists (bs "Usage: " ++ prog ++ l1), l2.
    rewrite print_usage_tail, E. by rewrite !app_assoc.
Qed.

Lemma mgmtctl_refuses_witness :
  main (fun (n : nat) _ _ _ => (NoReply, S n)) (Some 3) true 77 zero_timespec (zeros 2152)
    [bs "mgmtctl"; bs "router"; bs "loglevel"; bs "loud"] (mkSys {[0]} ∅) 0%nat
  = Some (1, [], bs "Unknown log level: loud" ++ [x0a], mkSys {[0]} ∅, 0%nat).
Proof.
  apply (mgmtctl_refuses (fun (n : nat) _ _ _ => (NoReply, S n)) (Some 3) true 77 zero_timespec
    (zeros 2152) [bs "mgmtctl"; bs "router"; bs "loglevel"; bs "loud"] _ _ _ []).
  reflexivity.
Defined.

(** A buffer size survives the trip: for every decimal n from 1 to INT_MAX,
    "bufsize n" is accepted and the request a module receives carries n as its
    integer payload; 0, larger numbers, and text behind the digits are refused
    before anything is sent. *)
Theorem bufsize_roundtrip now prog m path n rest :
  wf_timespec now -> module_to_path m = Some path -> 0 <= n <= LONG_MAX ->
  (forall b l, rest = b :: l -> is_digit b = false) ->
  let argv := [prog; m; bs "bufsize"; fmt_u n ++ rest] in
  if bool_decide (rest = []) && (1 <=? n) && (n <=? INT_MAX) then
    exists payload q,
      parse_args argv = Command path m MGMT_CMD_SET_BUFFER_SIZE payload 4 /\
      mgmt_request_init now (Some zero_request) MGMT_CMD_SET_BUFFER_SIZE (Some (m ++ [x00]))
        (Some payload) 4 = Some (Some q) /\
      MGMT_REQ_PAYLOAD_AS_INT (decode_request (encode_request q)) = n
  else parse_args argv = Rejected (bs "Invalid buffer size: " ++ (fmt_u n ++ rest) ++ [x0a]).
Proof.
  intros Hnow Hm Hn Hrest argv.
  assert (parse_args argv =
    if bool_decide (rest = []) && (1 <=? n) && (n <=? INT_MAX)
    then Command path m MGMT_CMD_SET_BUFFER_SIZE (le_bytes 4 n ++ zeros 508) 4
    else Rejected (bs "Invalid buffer size: " ++ (fmt_u n ++ rest) ++ [x0a])) as Hp.
  { unfold argv. cbn [parse_args]. rewrite Hm.
    change (parse_command (bs "bufsize")) with (Some 4). cbn [head].
    unfold command_payload. cbn [Z.eqb cmd_code Pos.eqb mbind option_bind].
    rewrite strtol_fmt_u by done.
    destruct (bool_decide (rest = [])); cbn [negb orb andb]; [|done].
    destruct (1 <=? n) eqn:E1; tests; [rewrite (proj2 (Z.leb_gt n 0)) by lia|
      by rewrite (proj2 (Z.leb_le n 0)) by lia].
    destruct (n <=? INT_MAX) eqn:E2; tests; cbn [orb andb];
      [rewrite (proj2 (Z.ltb_ge INT_MAX n)) by lia|by rewrite (proj2 (Z.ltb_lt INT_MAX n)) by lia].
    by rewrite swrap_id by (unfold in_s, INT_MAX in *; lia). }
  destruct (bool_decide (rest = []) && (1 <=? n) && (n <=? INT_MAX)) eqn:E; [|done].
  apply andb_true_iff in E as [[_ E1]%andb_true_iff E2]. tests. unfold INT_MAX in *.
  destruct (main_request now _ _ _ _ _ _ Hnow Hp) as (q & Hq & Hwf & _ & _ & _ & _ & Hpl).
  exists (le_bytes 4 n ++ zeros 508), q. split; [done|]. split; [done|].
  rewrite decode_encode_request_wf by done. unfold MGMT_REQ_PAYLOAD_AS_INT.
  change (Z.to_nat 4) with 4%nat in Hpl. rewrite Hpl, take_app_length' by by rewrite length_le_bytes.
  rewrite le_int_bytes. etransitivity; [by apply (swrap_wrap 32)|]. apply swrap_id; [lia|].
  unfold in_s. lia.
Qed.

Lemma bufsize_roundtrip_witness :
  exists payload q,
    parse_args [bs "mgmtctl"; bs "router"; bs "bufsize"; fmt_u 65536 ++ []]
      = Command MGMT_SOCKET_PATH_ROUTER (bs "router") MGMT_CMD_SET_BUFFER_SIZE payload 4 /\
    mgmt_request_init zero_timespec (Some zero_request) MGMT_CMD_SET_BUFFER_SIZE
      (Some (bs "router" ++ [x00])) (Some payload) 4 = Some (Some q) /\
    MGMT_REQ_PAYLOAD_AS_INT (decode_request (encode_request q)) = 65536.
Proof.
  refine (bufsize_roundtrip zero_timespec (bs "mgmtctl") (bs "router") MGMT_SOCKET_PATH_ROUTER
    65536 [] _ _ _ _).
  - split; vm_compute; split; congruence.
  - reflexivity.
  - split; vm_compute; congruence.
  - intros b l [=].
Defined.

Lemma module_latency_from_epoch_witness :
  exists r p r' w' info', handler_dispatch collector_invoke r demo_world
      (Some (mkRequest 0 MGMT_CMD_PING 0 0 (mkTimespec 1700000000 0)
               (lit "collector" ++ zeros 54) (zeros 512)))
      (Some zero_response) = Some (0, Some p, r', w') /\
    abs r' !! (0, bs "collector") = Some info' /\ hi_latency info' = 1700000000000005.
Proof.
  destruct (register_three_empty "collector" ltac:(by apply no_nul_lit) ltac:(cbn; lia)
    empty_registry 8192 reg_wf_empty) as (r & _ & Hr & _ & Ha); [by constructor|done|].
  exists r.
  destruct (module_latency_from_epoch (W := CollectorWorld) 8192 r
    (mkRequest 0 MGMT_CMD_PING 0 0 (mkTimespec 1700000000 0)
       (lit "collector" ++ zeros 54) (zeros 512)) demo_world (mkInfo HANDLER_PING 8192 0 0))
    as (p & r' & w' & info' & H1 & H2 & H3).
  - exact (serving_three _ _ _ Hr Ha).
  - split; [|split; reflexivity].
    split; try reflexivity; repeat split; vm_compute; congruence.
  - exact demo_world_ready.
  - left. reflexivity.
  - split; vm_compute; split; congruence.
  - rewrite Ha. apply three_handlers_lookup.
  - exists p, r', w', info'. split; [exact H1|]. split; [exact H2|]. rewrite H3. reflexivity.
Defined.
