(* ===== verification/Metrics.v ===== *)
(** * The metrics collector (Mgmt/include/metrics_collector.h, Mgmt/src/metrics_collector.c)

    Counters of the three modules behind one mutex, a running latency average,
    and the JSON text of a snapshot.  [time] arguments are the answers of
    time(2); a handle is the state it points to ([None]: NULL). *)

From S2P Require Import Prelude CLib.

(** ** Data *)

Record LatencyStats := mkLatency {
  min_us : Z; max_us : Z; avg_us : Z; p99_us : Z; sample_count : Z }.

Record MetricsCollector := mkCollector {
  events_processed : Z; events_per_sec : Z; bytes_received : Z;
  shm_writes_ok : Z; shm_writes_failed : Z; mq_sends_ok : Z; mq_sends_failed : Z;
  cl_buffer_util_pct : Z; cl_latency : LatencyStats }.

Record MetricsRouter := mkRouter {
  shm_reads_total : Z; shm_reads_failed : Z; tcp_forwards_total : Z; tcp_bytes_sent : Z;
  active_tcp_conns : Z; rt_buffer_util_pct : Z; router_thread_alive : Z;
  rt_latency : LatencyStats }.

Record MetricsViewer := mkViewer {
  tcp_accepts_total : Z; tcp_bytes_received : Z; messages_processed : Z; output_count : Z;
  active_clients : Z; output_buffer_util_pct : Z; vw_latency : LatencyStats }.

Record MetricsSnapshot := mkSnapshot {
  timestamp : Z; snapshot_id : Z; collector : MetricsCollector; router : MetricsRouter;
  viewer : MetricsViewer; total_events : Z; total_errors : Z; uptime_seconds : Z }.

Record MetricsState := mkState {
  snapshot : MetricsSnapshot; lock : mutex; startup_time : Z; next_snapshot_id : Z }.
Abbreviation MetricsHandle := (option MetricsState).

(** [memset(_, 0, _)] *)
Definition zero_latency : LatencyStats := mkLatency 0 0 0 0 0.
Definition zero_collector : MetricsCollector := mkCollector 0 0 0 0 0 0 0 0 zero_latency.
Definition zero_router : MetricsRouter := mkRouter 0 0 0 0 0 0 0 zero_latency.
Definition zero_viewer : MetricsViewer := mkViewer 0 0 0 0 0 0 zero_latency.
Definition zero_snapshot (t : Z) : MetricsSnapshot :=
  mkSnapshot t 0 zero_collector zero_router zero_viewer 0 0 0.

(** ** Latency *)

(** The divisor [sample_count + 1] is a 32-bit sum: at the last value of the
    counter it is 0 and the division is undefined. *)
Definition latency_record (stats : LatencyStats) (latency_us : Z) : option LatencyStats :=
  let '(mn, mx) :=
    if sample_count stats =? 0 then (latency_us, latency_us)
    else (if latency_us <? min_us stats then latency_us else min_us stats,
          if max_us stats <? latency_us then latency_us else max_us stats) in
  let n := u32 (sample_count stats + 1) in
  if n =? 0 then None
  else
    let avg := u64 (u64 (avg_us stats * sample_count stats) + latency_us) / n in
    Some (mkLatency mn mx avg (p99_us stats) (u32 (sample_count stats + 1))).

Definition latency_reset (stats : option LatencyStats) : option LatencyStats :=
  match stats with Some _ => Some zero_latency | None => None end.

(** ** The handle *)

Definition metrics_init (malloc_ok : bool) (time : Z) : MetricsHandle :=
  if negb malloc_ok then None
  else Some (mkState (zero_snapshot time) MtxFree time 0).

(** An operation between lock and unlock. *)
Definition locked_update (st : MetricsState)
    (f : MetricsSnapshot -> option MetricsSnapshot) : option MetricsState :=
  l ← mutex_lock (lock st);
  sn ← f (snapshot st);
  l ← mutex_unlock l;
  Some (mkState sn l (startup_time st) (next_snapshot_id st)).

Definition set_collector (s : MetricsSnapshot) (c : MetricsCollector) : MetricsSnapshot :=
  mkSnapshot (timestamp s) (snapshot_id s) c (router s) (viewer s) (total_events s)
    (total_errors s) (uptime_seconds s).
Definition set_router (s : MetricsSnapshot) (r : MetricsRouter) : MetricsSnapshot :=
  mkSnapshot (timestamp s) (snapshot_id s) (collector s) r (viewer s) (total_events s)
    (total_errors s) (uptime_seconds s).
Definition set_viewer (s : MetricsSnapshot) (v : MetricsViewer) : MetricsSnapshot :=
  mkSnapshot (timestamp s) (snapshot_id s) (collector s) (router s) v (total_events s)
    (total_errors s) (uptime_seconds s).

(** The answer, the snapshot written through the pointer ([want]: not NULL),
    and the state. *)
Definition metrics_snapshot (h : MetricsHandle) (want : bool) (time : Z)
    : option (Z * option MetricsSnapshot * MetricsHandle) :=
  match h with
  | None => Some (-1, None, h)
  | Some st =>
      if negb want then Some (-1, None, h)
      else
        l ← mutex_lock (lock st);
        let s := snapshot st in
        let snap := mkSnapshot time (next_snapshot_id st) (collector s) (router s) (viewer s)
          (u64 (u64 (events_processed (collector s) + shm_reads_total (router s)) +
                messages_processed (viewer s)))
          (u64 (u64 (shm_writes_failed (collector s) + mq_sends_failed (collector s)) +
                shm_reads_failed (router s)))
          (u32 (time - startup_time st)) in
        l ← mutex_unlock l;
        Some (0, Some snap, Some (mkState s l (startup_time st) (u32 (next_snapshot_id st + 1))))
  end.

Definition metrics_update_collector (h : MetricsHandle) (latency_us success : Z)
    : option (Z * MetricsHandle) :=
  match h with
  | None => Some (-1, h)
  | Some st =>
      st ← locked_update st (fun s =>
        let c := collector s in
        if negb (success =? 0) then
          lat ← latency_record (cl_latency c) latency_us;
          Some (set_collector s (mkCollector (u64 (events_processed c + 1)) (events_per_sec c)
            (bytes_received c) (u64 (shm_writes_ok c + 1)) (shm_writes_failed c) (mq_sends_ok c)
            (mq_sends_failed c) (cl_buffer_util_pct c) lat))
        else
          Some (set_collector s (mkCollector (u64 (events_processed c + 1)) (events_per_sec c)
            (bytes_received c) (shm_writes_ok c) (u64 (shm_writes_failed c + 1)) (mq_sends_ok c)
            (mq_sends_failed c) (cl_buffer_util_pct c) (cl_latency c))));
      Some (0, Some st)
  end.

Definition metrics_update_router (h : MetricsHandle) (shm_success tcp_bytes latency_us : Z)
    : option (Z * MetricsHandle) :=
  match h with
  | None => Some (-1, h)
  | Some st =>
      st ← locked_update st (fun s =>
        let r := router s in
        if negb (shm_success =? 0) then
          lat ← latency_record (rt_latency r) latency_us;
          Some (set_router s (mkRouter (u64 (shm_reads_total r + 1)) (shm_reads_failed r)
            (u64 (tcp_forwards_total r + 1)) (u64 (tcp_bytes_sent r + tcp_bytes))
            (active_tcp_conns r) (rt_buffer_util_pct r) (router_thread_alive r) lat))
        else
          Some (set_router s (mkRouter (u64 (shm_reads_total r + 1)) (u64 (shm_reads_failed r + 1))
            (tcp_forwards_total r) (tcp_bytes_sent r) (active_tcp_conns r)
            (rt_buffer_util_pct r) (router_thread_alive r) (rt_latency r))));
      Some (0, Some st)
  end.

Definition metrics_update_viewer (h : MetricsHandle) (bytes_rcvd latency_us : Z)
    : option (Z * MetricsHandle) :=
  match h with
  | None => Some (-1, h)
  | Some st =>
      st ← locked_update st (fun s =>
        let v := viewer s in
        lat ← latency_record (vw_latency v) latency_us;
        Some (set_viewer s (mkViewer (tcp_accepts_total v)
          (u64 (tcp_bytes_received v + bytes_rcvd)) (u64 (messages_processed v + 1))
          (output_count v) (active_clients v) (output_buffer_util_pct v) lat)));
      Some (0, Some st)
  end.

(** The module names of the two setters; a name is the contents of the string. *)
Definition metrics_set_buffer_util (h : MetricsHandle) (module : option (list byte))
    (util_pct : Z) : option (Z * MetricsHandle) :=
  match h, module with
  | Some st, Some m =>
      if bool_decide (m = bs "collector") then
        st ← locked_update st (fun s => let c := collector s in
          Some (set_collector s (mkCollector (events_processed c) (events_per_sec c)
            (bytes_received c) (shm_writes_ok c) (shm_writes_failed c) (mq_sends_ok c)
            (mq_sends_failed c) util_pct (cl_latency c))));
        Some (0, Some st)
      else if bool_decide (m = bs "router") then
        st ← locked_update st (fun s => let r := router s in
          Some (set_router s (mkRouter (shm_reads_total r) (shm_reads_failed r)
            (tcp_forwards_total r) (tcp_bytes_sent r) (active_tcp_conns r) util_pct
            (router_thread_alive r) (rt_latency r))));
        Some (0, Some st)
      else if bool_decide (m = bs "viewer") then
        st ← locked_update st (fun s => let v := viewer s in
          Some (set_viewer s (mkViewer (tcp_accepts_total v) (tcp_bytes_received v)
            (messages_processed v) (output_count v) (active_clients v) util_pct (vw_latency v))));
        Some (0, Some st)
      else st ← locked_update st Some; Some (-1, Some st)
  | _, _ => Some (-1, h)
  end.

Definition metrics_set_active_connections (h : MetricsHandle) (module : option (list byte))
    (count : Z) : option (Z * MetricsHandle) :=
  match h, module with
  | Some st, Some m =>
      if bool_decide (m = bs "router") then
        st ← locked_update st (fun s => let r := router s in
          Some (set_router s (mkRouter (shm_reads_total r) (shm_reads_failed r)
            (tcp_forwards_total r) (tcp_bytes_sent r) count (rt_buffer_util_pct r)
            (router_thread_alive r) (rt_latency r))));
        Some (0, Some st)
      else if bool_decide (m = bs "viewer") then
        st ← locked_update st (fun s => let v := viewer s in
          Some (set_viewer s (mkViewer (tcp_accepts_total v) (tcp_bytes_received v)
            (messages_processed v) (output_count v) count (output_buffer_util_pct v)
            (vw_latency v))));
        Some (0, Some st)
      else st ← locked_update st Some; Some (-1, Some st)
  | _, _ => Some (-1, h)
  end.

Definition metrics_reset (h : MetricsHandle) (time : Z) : option (Z * MetricsHandle) :=
  match h with
  | None => Some (-1, h)
  | Some st => st ← locked_update st (fun _ => Some (zero_snapshot time)); Some (0, Some st)
  end.

(** ** JSON *)

(** [name:] with the name in quotes. *)
Definition jkey (name : string) : list byte := quoted name ++ bs ":".

(** The texts of the successive APPENDs. *)
Definition json_parts (s : MetricsSnapshot) : list (list byte) :=
  [ bs "{" ++ jkey "timestamp" ++ fmt_d (timestamp s) ++ bs "," ++
      jkey "snapshot_id" ++ fmt_u (snapshot_id s) ++ bs "," ++
      jkey "uptime_seconds" ++ fmt_u (uptime_seconds s) ++ bs ",";
    jkey "collector" ++ bs "{";
    jkey "events_processed" ++ fmt_u (events_processed (collector s)) ++ bs ",";
    jkey "buffer_util_pct" ++ fmt_u (cl_buffer_util_pct (collector s)) ++ bs ",";
    jkey "latency_avg_us" ++ fmt_u (avg_us (cl_latency (collector s))) ++ bs ",";
    jkey "latency_p99_us" ++ fmt_u (p99_us (cl_latency (collector s)));
    bs "},";
    jkey "router" ++ bs "{";
    jkey "shm_reads_total" ++ fmt_u (shm_reads_total (router s)) ++ bs ",";
    jkey "tcp_forwards_total" ++ fmt_u (tcp_forwards_total (router s)) ++ bs ",";
    jkey "active_tcp_conns" ++ fmt_u (active_tcp_conns (router s));
    bs "},";
    jkey "viewer" ++ bs "{";
    jkey "messages_processed" ++ fmt_u (messages_processed (viewer s)) ++ bs ",";
    jkey "tcp_bytes_received" ++ fmt_u (tcp_bytes_received (viewer s)) ++ bs ",";
    jkey "active_clients" ++ fmt_u (active_clients (viewer s));
    bs "},";
    jkey "total_events" ++ fmt_u (total_events s) ++ bs ",";
    jkey "total_errors" ++ fmt_u (total_errors s) ++ bs "}" ].

(** [APPEND]: the text behind the offset, and the test for the end of the
    buffer; [None] in the first component is the early return of -1. *)
Fixpoint append_parts (parts : list (list byte)) (buf : list byte) (buf_size offset : Z)
    : option (option Z * list byte) :=
  match parts with
  | [] => Some (Some offset, buf)
  | t :: parts' =>
      '(buf, offset) ← append buf buf_size offset t;
      if swrap 32 buf_size - 1 <=? offset then Some (None, buf)
      else append_parts parts' buf buf_size offset
  end.

Definition metrics_snapshot_to_json (snap : option MetricsSnapshot) (buf : option (list byte))
    (buf_size : Z) : option (Z * option (list byte)) :=
  match snap, buf with
  | Some s, Some b =>
      if buf_size =? 0 then Some (-1, buf)
      else
        '(r, b) ← append_parts (json_parts s) b buf_size 0;
        Some (match r with Some offset => offset | None => -1 end, Some b)
  | _, _ => Some (-1, buf)
  end.

Definition metrics_close (h : MetricsHandle) : MetricsHandle := None.

(** * The latency statistics *)

Definition record_all (xs : list Z) : option LatencyStats :=
  foldl (fun o x => s ← o; latency_record s x) (Some zero_latency) xs.

Definition sum_of (xs : list Z) : Z := foldr Z.add 0 xs.

Lemma sum_of_snoc xs x : sum_of (xs ++ [x]) = sum_of xs + x.
Proof.
  unfold sum_of. induction xs as [|y xs IH]; cbn [app foldr]; [lia|]. rewrite IH. lia.
Qed.

(** The statistics after the samples [xs]: the extremes are exact, the average
    is below the true one by at most (n - 1) / 2. *)
Record latency_inv (xs : list Z) (s : LatencyStats) : Prop := {
  li_count : sample_count s = Z.of_nat (length xs);
  li_min_le : forall x, x ∈ xs -> min_us s <= x;
  li_max_ge : forall x, x ∈ xs -> x <= max_us s;
  li_min_in : xs <> [] -> min_us s ∈ xs;
  li_max_in : xs <> [] -> max_us s ∈ xs;
  li_avg : xs <> [] -> min_us s <= avg_us s <= max_us s;
  li_low : Z.of_nat (length xs) * avg_us s <= sum_of xs;
  li_high : 2 * sum_of xs <= 2 * (Z.of_nat (length xs) * avg_us s) +
              Z.of_nat (length xs) * (Z.of_nat (length xs) - 1) }.

Lemma latency_inv_nil : latency_inv [] zero_latency.
Proof. split; try done; cbn; try lia; by intros x Hx%not_elem_of_nil. Qed.

(** One more sample, in exact arithmetic. *)
Lemma average_step n avg mn mx x S :
  0 < n -> mn <= avg <= mx -> n * avg <= S -> 2 * S <= 2 * (n * avg) + n * (n - 1) ->
  let avg' := (avg * n + x) / (n + 1) in
  Z.min mn x <= avg' <= Z.max mx x /\ (n + 1) * avg' <= S + x /\
  2 * (S + x) <= 2 * ((n + 1) * avg') + (n + 1) * n.
Proof.
  intros Hn Havg Hlo Hhi avg'.
  pose proof (Z.div_mod (avg * n + x) (n + 1) ltac:(lia)) as Hdm.
  pose proof (Z.mod_pos_bound (avg * n + x) (n + 1) ltac:(lia)) as Hr.
  fold avg' in Hdm. split; [|split; nia]. split.
  - apply Z.div_le_lower_bound; [lia|].
    assert (n * Z.min mn x <= n * avg) by (apply Z.mul_le_mono_nonneg_l; lia). lia.
  - apply Z.div_le_upper_bound; [lia|].
    assert (n * avg <= n * Z.max mx x) by (apply Z.mul_le_mono_nonneg_l; lia). lia.
Qed.

Lemma latency_inv_snoc xs s x :
  latency_inv xs s -> Forall (in_u 64) xs -> in_u 64 x -> sum_of xs + x < 2 ^ 64 ->
  Z.of_nat (length xs) < 2 ^ 32 - 1 ->
  exists s', latency_record s x = Some s' /\ latency_inv (xs ++ [x]) s'.
Proof.
  intros [Hc Hmin Hmax Hmi Hma Havg Hlo Hhi] Hxs Hx Hsum Hlen. unfold latency_record. rewrite Hc.
  unfold in_u in Hx.
  assert (u32 (Z.of_nat (length xs) + 1) = Z.of_nat (length xs) + 1) as Hn
    by (apply wrap_id; unfold in_u; lia).
  rewrite Hn, (proj2 (Z.eqb_neq (Z.of_nat (length xs) + 1) 0)) by lia.
  destruct xs as [|y xs].
  { cbn [length Z.of_nat Z.eqb]. eexists. split; [done|].
    rewrite Z.mul_0_r. change (u64 0) with 0. rewrite Z.add_0_l, wrap_id by (unfold in_u; lia).
    rewrite Z.add_0_l, Z.div_1_r.
    split; cbn [sample_count min_us max_us avg_us app length sum_of foldr];
      intros; rewrite ?list_elem_of_singleton in *; subst; try done; lia. }
  set (n := Z.of_nat (length (y :: xs))) in *. assert (0 < n) by (unfold n; cbn; lia).
  rewrite (proj2 (Z.eqb_neq n 0)) by lia.
  destruct (Havg ltac:(done)) as [Ha1 Ha2].
  pose proof (proj1 (Forall_forall _ _) Hxs _ (Hmi ltac:(done))) as [Hm1 Hm2].
  pose proof (proj1 (Forall_forall _ _) Hxs _ (Hma ltac:(done))) as [Hx1 Hx2].
  assert (u64 (u64 (avg_us s * n) + x) = avg_us s * n + x) as ->.
  { rewrite wrap_add_l. apply wrap_id. unfold in_u. split; [nia|].
    fold n in Hlo. lia. }
  eexists. split; [done|].
  destruct (average_step n (avg_us s) (min_us s) (max_us s) x (sum_of (y :: xs)))
    as (Hav & Hl & Hh); [done|done|done|done|].
  assert (Z.of_nat (length ((y :: xs) ++ [x])) = n + 1) as Hlen'
    by (rewrite length_app; unfold n; cbn; lia).
  split; cbn [sample_count min_us max_us avg_us]; rewrite ?sum_of_snoc, ?Hlen'; try done.
  - intros z [Hz|Hz%list_elem_of_singleton]%elem_of_app; [pose proof (Hmin z Hz)|subst z];
      case_match; tests; lia.
  - intros z [Hz|Hz%list_elem_of_singleton]%elem_of_app; [pose proof (Hmax z Hz)|subst z];
      case_match; tests; lia.
  - intros _. apply elem_of_app. case_match; [right; by left|left; auto].
  - intros _. apply elem_of_app. case_match; [right; by left|left; auto].
  - intros _. case_match; case_match; tests; lia.
  - replace (n + 1 - 1) with n by lia. done.
Qed.

Lemma record_all_inv xs :
  Forall (in_u 64) xs -> sum_of xs < 2 ^ 64 -> Z.of_nat (length xs) < 2 ^ 32 ->
  exists s, record_all xs = Some s /\ latency_inv xs s.
Proof.
  induction xs as [|x xs IH] using rev_ind; intros Hxs Hsum Hl.
  { exists zero_latency. split; [done|apply latency_inv_nil]. }
  apply Forall_app in Hxs as [Hxs Hx]. apply Forall_cons in Hx as [Hx _].
  rewrite length_app in Hl. cbn [length] in Hl. rewrite sum_of_snoc in Hsum. unfold in_u in Hx.
  destruct IH as (s & Hs & Hi); [done|lia|lia|].
  destruct (latency_inv_snoc xs s x Hi Hxs Hx Hsum ltac:(lia)) as (s' & Hs' & Hi').
  exists s'. split; [|done]. unfold record_all in *. rewrite foldl_app. cbn [foldl]. by rewrite Hs.
Qed.

(** * Invariants of the counters *)

(** Every event is counted once, as a success or as a failure (modulo 2^64). *)
Record counters_ok (s : MetricsSnapshot) : Prop := {
  ck_collector : events_processed (collector s) =
    u64 (shm_writes_ok (collector s) + shm_writes_failed (collector s));
  ck_router : shm_reads_total (router s) =
    u64 (tcp_forwards_total (router s) + shm_reads_failed (router s));
  ck_cl_samples : sample_count (cl_latency (collector s)) = u32 (shm_writes_ok (collector s));
  ck_rt_samples : sample_count (rt_latency (router s)) = u32 (tcp_forwards_total (router s));
  ck_vw_samples : sample_count (vw_latency (viewer s)) = u32 (messages_processed (viewer s)) }.

Definition metrics_ok (st : MetricsState) : Prop :=
  lock st = MtxFree /\ counters_ok (snapshot st).

(** One call of the interface on a live handle, by any thread. *)
Inductive metrics_step : MetricsState -> MetricsState -> Prop :=
| ms_snapshot st st' want t r o :
    metrics_snapshot (Some st) want t = Some (r, o, Some st') -> metrics_step st st'
| ms_collector st st' lat ok r :
    metrics_update_collector (Some st) lat ok = Some (r, Some st') -> metrics_step st st'
| ms_router st st' ok bytes lat r :
    metrics_update_router (Some st) ok bytes lat = Some (r, Some st') -> metrics_step st st'
| ms_viewer st st' bytes lat r :
    metrics_update_viewer (Some st) bytes lat = Some (r, Some st') -> metrics_step st st'
| ms_util st st' m pct r :
    metrics_set_buffer_util (Some st) m pct = Some (r, Some st') -> metrics_step st st'
| ms_conns st st' m n r :
    metrics_set_active_connections (Some st) m n = Some (r, Some st') -> metrics_step st st'
| ms_reset st st' t r : metrics_reset (Some st) t = Some (r, Some st') -> metrics_step st st'.

(** An update that keeps the counters consistent keeps the state so. *)
Lemma locked_update_keeps st f st' :
  metrics_ok st -> locked_update st f = Some st' ->
  (forall s, f (snapshot st) = Some s -> counters_ok s) -> metrics_ok st'.
Proof.
  intros [Hl Hc] H Hf. unfold locked_update in H. rewrite Hl in H.
  cbn [mutex_lock mutex_unlock mbind option_bind] in H.
  destruct (f (snapshot st)) as [s|]; cbn in H; [|done]. injection H as <-. split; auto.
Qed.

Lemma latency_record_count s x s' :
  latency_record s x = Some s' -> sample_count s' = u32 (sample_count s + 1).
Proof. unfold latency_record. repeat case_match; try done; by intros [= <-]. Qed.

Lemma u32_u64_succ z : u32 (u32 z + 1) = u32 (u64 (z + 1)).
Proof.
  rewrite wrap_add_l. unfold wrap. symmetry. apply Z.mod_mod_divide.
  exists (2 ^ 32). done.
Qed.

Lemma u64_succ_l a b : u64 (u64 (a + b) + 1) = u64 (u64 (a + 1) + b).
Proof. rewrite !wrap_add_l. f_equal. lia. Qed.

Lemma u64_succ_r a b : u64 (u64 (a + b) + 1) = u64 (a + u64 (b + 1)).
Proof. rewrite wrap_add_l, wrap_add_r. f_equal. lia. Qed.

(** Take the updates of a step apart. *)
Ltac step_update :=
  match goal with
  | H : (locked_update _ _ ≫= _) = Some _ |- _ =>
      let st := fresh "st" in let Hu := fresh "Hu" in
      apply bind_Some in H as (st & Hu & H); injection H as <- <-;
      eapply locked_update_keeps; [done|exact Hu|]; intros s Hs
  end.

Lemma metrics_step_ok st st' : metrics_ok st -> metrics_step st st' -> metrics_ok st'.
Proof.
  intros Hok Hs. pose proof Hok as [Hl [H1 H2 H3 H4 H5]].
  destruct Hs as [st st' want t r o H|st st' lat ok r H|st st' ok bytes lat r H
    |st st' bytes lat r H|st st' m pct r H|st st' m n r H|st st' t r H].
  - unfold metrics_snapshot in H. rewrite Hl in H. destruct want; cbn in H; by simplify_eq.
  - unfold metrics_update_collector in H. step_update. destruct (negb (ok =? 0)).
    + apply bind_Some in Hs as (l & Hr & [= <-]). apply latency_record_count in Hr.
      split; cbn; try done; [by rewrite H1, u64_succ_l|by rewrite Hr, H3, u32_u64_succ].
    + injection Hs as <-. split; cbn; try done. by rewrite H1, u64_succ_r.
  - unfold metrics_update_router in H. step_update. destruct (negb (ok =? 0)).
    + apply bind_Some in Hs as (l & Hr & [= <-]). apply latency_record_count in Hr.
      split; cbn; try done; [by rewrite H2, u64_succ_l|by rewrite Hr, H4, u32_u64_succ].
    + injection Hs as <-. split; cbn; try done. by rewrite H2, u64_succ_r.
  - unfold metrics_update_viewer in H. step_update.
    apply bind_Some in Hs as (l & Hr & [= <-]). apply latency_record_count in Hr.
    split; cbn; try done. by rewrite Hr, H5, u32_u64_succ.
  - unfold metrics_set_buffer_util in H. destruct m as [m|]; [|by simplify_eq].
    repeat case_bool_decide; step_update; injection Hs as <-; by split.
  - unfold metrics_set_active_connections in H. destruct m as [m|]; [|by simplify_eq].
    repeat case_bool_decide; step_update; injection Hs as <-; by split.
  - unfold metrics_reset in H. step_update. injection Hs as <-. by split.
Qed.

(** * The JSON text *)

Definition snapshot_json (s : MetricsSnapshot) : list byte := concat (json_parts s).

(** As long as everything fits with one byte to spare, the parts are appended;
    otherwise the call gives up inside of the buffer. *)
Lemma append_parts_spec parts buf s :
  holds buf s \/ s = [] -> Z.of_nat (length buf) <= INT_MAX ->
  Z.of_nat (length s) < Z.of_nat (length buf) - 1 ->
  exists r b, append_parts parts buf (Z.of_nat (length buf)) (Z.of_nat (length s)) = Some (r, b) /\
    length b = length buf /\
    if Z.of_nat (length (s ++ concat parts)) <? Z.of_nat (length buf) - 1
    then r = Some (Z.of_nat (length (s ++ concat parts))) /\ (parts <> [] -> holds b (s ++ concat parts))
    else r = None.
Proof.
  revert buf s. induction parts as [|t parts IH]; intros buf s Hs Hb Hl; cbn [append_parts concat].
  { rewrite app_nil_r. do 2 eexists. split; [done|]. split; [done|].
    by rewrite (proj2 (Z.ltb_lt _ _)) by done. }
  assert (swrap 32 (Z.of_nat (length buf)) = Z.of_nat (length buf)) as Hsw
    by (apply swrap_id; [lia|]; unfold in_s, INT_MAX in *; lia).
  rewrite Hsw. clear Hsw.
  destruct (decide (Z.of_nat (length (s ++ t)) < Z.of_nat (length buf) - 1)) as [Hfit|Hno].
  - destruct (append_to buf s t Hs) as (b & -> & Hh & Hlb); [lia|done|].
    cbn [mbind option_bind]. rewrite (proj2 (Z.leb_gt _ _)) by lia. rewrite <- Hlb.
    destruct (IH b (s ++ t)) as (r & b' & E & Hl' & Hc); [by left|lia|lia|].
    exists r, b'. rewrite E, <- app_assoc in *. split; [done|]. split; [lia|].
    destruct (_ <? _); [|done]. destruct Hc as [-> Hc]. split; [done|]. intros _.
    destruct parts; [|by apply Hc]. cbn in E. injection E as _ <-. cbn. by rewrite app_nil_r.
  - destruct (append_safe buf (Z.of_nat (length s)) t) as (b & -> & Hlb);
      [lia|unfold INT_MAX in *; lia|].
    cbn [mbind option_bind]. rewrite length_app in Hno. rewrite (proj2 (Z.leb_le _ _)) by lia.
    do 2 eexists. split; [done|]. split; [done|].
    rewrite (proj2 (Z.ltb_ge _ _)); [done|]. rewrite !length_app. lia.
Qed.

(** * Properties *)

(** C38: the running latency statistics, for up to 2^32 - 1 samples of 64 bits
    whose sum is below 2^64 microseconds (as for samples below 2^32): the number
    of samples, the minimum and the maximum are exact; the average stays between
    them and, since every step rounds down, is at most (n - 1) / 2 below the true
    average and never above it.  The sample after the last of 2^32 - 1 divides by
    a counter that has wrapped to 0.  Beyond a sum of 2^64 the average is not one:
    see [latency_average_wraps]. *)
Theorem latency_running_average xs :
  xs <> [] -> Forall (in_u 64) xs -> sum_of xs < 2 ^ 64 -> Z.of_nat (length xs) < 2 ^ 32 ->
  exists s, record_all xs = Some s /\ sample_count s = Z.of_nat (length xs) /\
    (min_us s ∈ xs /\ forall x, x ∈ xs -> min_us s <= x) /\
    (max_us s ∈ xs /\ forall x, x ∈ xs -> x <= max_us s) /\
    min_us s <= avg_us s <= max_us s /\
    Z.of_nat (length xs) * avg_us s <= sum_of xs /\
    2 * sum_of xs <= Z.of_nat (length xs) * (2 * avg_us s + (Z.of_nat (length xs) - 1)) /\
    (Z.of_nat (length xs) = 2 ^ 32 - 1 -> forall x, latency_record s x = None).
Proof.
  intros Hne Hxs Hsum Hl. destruct (record_all_inv xs Hxs Hsum Hl) as (s & Hs & []).
  destruct (li_avg0 Hne). exists s. split_and!; auto; try lia.
  intros E x. unfold latency_record. rewrite li_count0, E. by case_match.
Qed.

Lemma latency_running_average_witness :
  exists s, record_all [1; 2; 3] = Some s /\ sample_count s = 3 /\ 3 * avg_us s <= 6.
Proof.
  destruct (latency_running_average [1; 2; 3]) as (s & H & Hc & _ & _ & _ & Hlo & _).
  - congruence.
  - repeat constructor; vm_compute; congruence.
  - vm_compute. congruence.
  - vm_compute. congruence.
  - exists s. split; [exact H|]. split; [exact Hc|exact Hlo].
Defined.

(** Two equal samples whose sum reaches 2^64: the sum wraps, and the average of
    2^63 and 2^63 is 0, below the minimum. *)
Theorem latency_average_wraps :
  exists s, record_all [2 ^ 63; 2 ^ 63] = Some s /\ min_us s = 2 ^ 63 /\ avg_us s = 0.
Proof. eexists. split; [vm_compute; reflexivity|]. by split. Qed.

(** C37: in every state reachable from [metrics_init] by calls of the interface,
    in any order, the lock is free between the calls and every event is counted
    exactly once: for the Collector and the Router the total is the sum of the
    successes and the failures (modulo 2^64), and the sample counts are those
    of the successes (modulo 2^32); a snapshot then reports the three totals'
    sum and the errors of the two modules. *)
Theorem metrics_conservation t0 st0 st t :
  metrics_init true t0 = Some st0 -> rtc metrics_step st0 st ->
  metrics_ok st /\
  exists snap st', metrics_snapshot (Some st) true t = Some (0, Some snap, Some st') /\
    snapshot_id snap = next_snapshot_id st /\ collector snap = collector (snapshot st) /\
    total_events snap = u64 (shm_writes_ok (collector snap) + shm_writes_failed (collector snap) +
      (tcp_forwards_total (router snap) + shm_reads_failed (router snap)) +
      messages_processed (viewer snap)) /\
    total_errors snap = u64 (shm_writes_failed (collector snap) +
      mq_sends_failed (collector snap) + shm_reads_failed (router snap)).
Proof.
  intros [= <-] Hr.
  assert (metrics_ok st) as Hok by (eapply rtc_invariant; [apply metrics_step_ok| |done]; by split).
  split; [done|]. destruct Hok as [Hl [H1 H2 _ _ _]].
  unfold metrics_snapshot. rewrite Hl. cbn [negb mutex_lock mutex_unlock mbind option_bind].
  do 2 eexists. split; [done|]. cbn. split; [done|]. split; [done|].
  rewrite H1, H2, !wrap_add_l. split; [|done].
  rewrite <- Z.add_assoc, wrap_add_l, Z.add_comm, <- Z.add_assoc, wrap_add_l. f_equal. lia.
Qed.

Lemma metrics_conservation_witness :
  exists st0 st, metrics_init true 100 = Some st0 /\
    metrics_update_collector (Some st0) 5 1 = Some (0, Some st) /\ metrics_ok st.
Proof.
  eexists. eexists. split; [reflexivity|]. split; [reflexivity|].
  refine (proj1 (metrics_conservation 100 _ _ 0 eq_refl _)).
  eapply rtc_once, (ms_collector _ _ 5 1 0). reflexivity.
Defined.

(** [metrics_snapshot_to_json] never leaves its buffer, whatever its size
    (up to INT_MAX): it answers the length of the JSON text, and the buffer
    holds exactly that text, when at least two more bytes than the text are
    there; otherwise it answers -1. *)
Theorem metrics_json_bounded s buf :
  buf <> [] -> Z.of_nat (length buf) <= INT_MAX ->
  exists r b, metrics_snapshot_to_json (Some s) (Some buf) (Z.of_nat (length buf)) = Some (r, Some b) /\
    length b = length buf /\
    if Z.of_nat (length (snapshot_json s)) <? Z.of_nat (length buf) - 1
    then r = Z.of_nat (length (snapshot_json s)) /\ holds b (snapshot_json s)
    else r = -1.
Proof.
  intros Hne Hb. assert (0 < length buf)%nat by (destruct buf; cbn; [done|lia]).
  unfold metrics_snapshot_to_json. rewrite (proj2 (Z.eqb_neq _ 0)) by lia.
  destruct (decide (length buf = 1%nat)) as [E1|E1].
  - destruct (append_safe buf 0 (nth 0 (json_parts s) [])) as (b & E & Hl); [lia|unfold INT_MAX in *; lia|].
    cbn [json_parts append_parts]. cbn [json_parts nth] in E. rewrite E. cbn [mbind option_bind].
    rewrite E1. change (swrap 32 (Z.of_nat 1) - 1) with 0. rewrite (proj2 (Z.leb_le _ _)) by lia.
    cbn [mbind option_bind]. do 2 eexists. split; [done|]. split; [lia|].
    by rewrite (proj2 (Z.ltb_ge _ _)) by lia.
  - destruct (append_parts_spec (json_parts s) buf []) as (r & b & E & Hl & Hc);
      [by right|done|cbn; lia|]. cbn [length app] in E, Hc. change (Z.of_nat 0) with 0 in E. rewrite E.
    cbn [mbind option_bind]. do 2 eexists. split; [done|]. split; [done|].
    fold (snapshot_json s) in Hc. destruct (_ <? _); [|by subst r].
    destruct Hc as [-> Hh]. split; [done|]. by apply Hh.
Qed.

Lemma metrics_json_bounded_witness :
  exists r b, metrics_snapshot_to_json (Some (zero_snapshot 0)) (Some (zeros 16)) 16
      = Some (r, Some b) /\ length b = 16%nat.
Proof.
  destruct (metrics_json_bounded (zero_snapshot 0) (zeros 16)) as (r & b & H & Hl & _).
  - vm_compute. congruence.
  - vm_compute. congruence.
  - exists r, b. split; [exact H|exact Hl].
Defined.
