(* ===== verification/Logger.v ===== *)
(** * The unified logger (Common/include/unified_logger.h, Common/src/unified_logger.c)

    A log call formats a prefix and the message into one 2048-byte buffer under
    the logger's mutex and writes it to syslog and, if enabled, to a file.  The
    message proper is an argument, the text its format string stands for. *)

From S2P Require Import Prelude CLib.

Definition MAX_LOG_MESSAGE_LEN : nat := 2048.

(** ** Levels *)

Inductive UlogLevel :=
| ULOG_LEVEL_TRACE | ULOG_LEVEL_DEBUG | ULOG_LEVEL_INFO
| ULOG_LEVEL_WARN | ULOG_LEVEL_ERROR | ULOG_LEVEL_FATAL.

Definition ulog_code (l : UlogLevel) : Z :=
  match l with
  | ULOG_LEVEL_TRACE => 0 | ULOG_LEVEL_DEBUG => 1 | ULOG_LEVEL_INFO => 2
  | ULOG_LEVEL_WARN => 3 | ULOG_LEVEL_ERROR => 4 | ULOG_LEVEL_FATAL => 5
  end.
Coercion ulog_code : UlogLevel >-> Z.

(** The priorities of syslog(3). *)
Definition LOG_CRIT : Z := 2.
Definition LOG_ERR : Z := 3.
Definition LOG_WARNING : Z := 4.
Definition LOG_INFO : Z := 6.
Definition LOG_DEBUG : Z := 7.

Definition ulog_level_to_syslog_priority (level : Z) : Z :=
  if (level =? ULOG_LEVEL_TRACE) || (level =? ULOG_LEVEL_DEBUG) then LOG_DEBUG
  else if level =? ULOG_LEVEL_INFO then LOG_INFO
  else if level =? ULOG_LEVEL_WARN then LOG_WARNING
  else if level =? ULOG_LEVEL_ERROR then LOG_ERR
  else if level =? ULOG_LEVEL_FATAL then LOG_CRIT
  else LOG_INFO.

Definition ulog_level_str (level : Z) : string :=
  if level =? ULOG_LEVEL_TRACE then "TRACE"
  else if level =? ULOG_LEVEL_DEBUG then "DEBUG"
  else if level =? ULOG_LEVEL_INFO then "INFO"
  else if level =? ULOG_LEVEL_WARN then "WARN"
  else if level =? ULOG_LEVEL_ERROR then "ERROR"
  else if level =? ULOG_LEVEL_FATAL then "FATAL"
  else "UNKNOWN".

(** ** State *)

Record UlogContext := mkLogger {
  ident : list byte; min_level : Z; flags : Z; syslog_enabled : bool; file_enabled : bool;
  file_ptr : bool; total_messages : Z; dropped_messages : Z; context_tag : list byte;
  ulog_lock : mutex }.
Abbreviation UlogHandle := (option UlogContext).

(** What left the process: a line to syslog with its priority, or to the file. *)
Inductive log_line := Syslog (priority : Z) (text : list byte) | LogFile (text : list byte).

(** What the environment contributes to a line: the formatted local time and
    the thread's identifier. *)
Record LogEnv := mkLogEnv { le_time : list byte; le_tid : Z }.

(** The source location of a call, as contents of its strings. *)
Abbreviation location := (list byte * Z * list byte)%type.

(** ** Output *)

Definition bracketed (s : list byte) : list byte := bs "[" ++ s ++ bs "] ".

(** The texts in front of the message, in order; the tag is read up to its
    terminator. *)
Definition prefix_parts (e : LogEnv) (lg : UlogContext) (tag : list byte) (level : Z)
    (loc : option location) : list (list byte) :=
  (if Z.testbit (flags lg) 2 then [bracketed (le_time e)] else []) ++
  [bracketed (bs (ulog_level_str level))] ++
  (if Z.testbit (flags lg) 1 then [bracketed (bs "TID:" ++ fmt_u (le_tid e))] else []) ++
  (if is_nul (nth 0 (context_tag lg) x00) then [] else [bracketed tag]) ++
  match loc with
  | Some (file, line, func) =>
      [bracketed (file ++ bs ":" ++ fmt_d line ++ bs ":" ++ func)]
  | None => []
  end.

(** The successive [offset += snprintf(message + offset, sizeof(message) - offset, ...)],
    with no test of the offset in between. *)
Fixpoint append_all (parts : list (list byte)) (buf : list byte) (size offset : Z)
    : option (list byte * Z) :=
  match parts with
  | [] => Some (buf, offset)
  | t :: parts' =>
      '(buf, offset) ← append buf size offset t; append_all parts' buf size offset
  end.

Definition set_counts (lg : UlogContext) (t d : Z) (m : mutex) : UlogContext :=
  mkLogger (ident lg) (min_level lg) (flags lg) (syslog_enabled lg) (file_enabled lg)
    (file_ptr lg) t d (context_tag lg) m.

(** [stack] is the memory under [message] before the call. *)
Definition ulog_output (e : LogEnv) (stack : list byte) (logger : UlogHandle) (level : Z)
    (loc : option location) (text : list byte) : option (UlogHandle * list log_line) :=
  match logger with
  | None => Some (None, [])
  | Some lg =>
      m ← mutex_lock (ulog_lock lg);
      tag ← cstring (context_tag lg);
      let size := Z.of_nat MAX_LOG_MESSAGE_LEN in
      '(buf, offset) ← append_all (prefix_parts e lg tag level loc) stack size 0;
      '(buf, _) ← append buf size offset text;
      message ← cstring buf;
      let out := (if syslog_enabled lg
                  then [Syslog (ulog_level_to_syslog_priority level) message] else []) ++
                 (if file_enabled lg && file_ptr lg then [LogFile message] else []) in
      m ← mutex_unlock m;
      Some (Some (set_counts lg (u64 (total_messages lg + 1)) (dropped_messages lg) m), out)
  end.

(** ** Configuration *)

(** [fopen_ok]: whether the log file can be opened. *)
Definition ulog_init (malloc_ok fopen_ok : bool) (id : option (list byte)) (level flags : Z)
    : option UlogHandle :=
  if negb malloc_ok then Some None
  else
    idn ← match id with
          | Some s => strncpy (zeros 64) s 63
          | None => Some (zeros 64)
          end;
    let file := Z.testbit flags 0 && fopen_ok in
    Some (Some (mkLogger idn level flags true file file 0 0 (zeros 32) MtxFree)).

Definition ulog_close (logger : UlogHandle) : option UlogHandle :=
  match logger with
  | None => Some None
  | Some lg => m ← mutex_lock (ulog_lock lg); m ← mutex_unlock m; Some None
  end.

(** A change of the structure between lock and unlock. *)
Definition with_ulog_lock (lg : UlogContext) (f : UlogContext -> option UlogContext)
    : option UlogContext :=
  m ← mutex_lock (ulog_lock lg);
  lg ← f (set_counts lg (total_messages lg) (dropped_messages lg) m);
  m ← mutex_unlock (ulog_lock lg);
  Some (set_counts lg (total_messages lg) (dropped_messages lg) m).

Definition ulog_set_level (logger : UlogHandle) (level : Z) : option UlogHandle :=
  match logger with
  | None => Some None
  | Some lg =>
      lg ← with_ulog_lock lg (fun lg =>
        Some (mkLogger (ident lg) level (flags lg) (syslog_enabled lg) (file_enabled lg)
                (file_ptr lg) (total_messages lg) (dropped_messages lg) (context_tag lg)
                (ulog_lock lg)));
      Some (Some lg)
  end.

Definition ulog_get_level (logger : UlogHandle) : option (Z * UlogHandle) :=
  match logger with
  | None => Some (ulog_code ULOG_LEVEL_INFO, None)
  | Some lg => lg ← with_ulog_lock lg Some; Some (min_level lg, Some lg)
  end.

Definition ulog_set_context_tag (logger : UlogHandle) (tag : option (list byte))
    : option (Z * UlogHandle) :=
  match logger with
  | None => Some (-1, None)
  | Some lg =>
      lg ← with_ulog_lock lg (fun lg =>
        t ← match tag with
            | Some s => strncpy (context_tag lg) s 31
            | None => store (context_tag lg) 0 x00
            end;
        Some (mkLogger (ident lg) (min_level lg) (flags lg) (syslog_enabled lg) (file_enabled lg)
                (file_ptr lg) (total_messages lg) (dropped_messages lg) t (ulog_lock lg)));
      Some (0, Some lg)
  end.

(** ** Logging *)

Section log.
Variable e : LogEnv.
Variable stack : list byte.

(** The common shape of the calls that filter: below the minimum level the
    message is only counted. *)
Definition log_filtered (logger : UlogHandle) (level : Z) (loc : option location)
    (text : list byte) : option (UlogHandle * list log_line) :=
  match logger with
  | None => Some (None, [])
  | Some lg =>
      if level <? min_level lg then
        lg ← with_ulog_lock lg (fun lg =>
          Some (set_counts lg (total_messages lg) (u64 (dropped_messages lg + 1)) (ulog_lock lg)));
        Some (Some lg, [])
      else ulog_output e stack logger level loc text
  end.

Definition ulog_trace (logger : UlogHandle) (text : list byte) :=
  log_filtered logger ULOG_LEVEL_TRACE None text.
Definition ulog_debug (logger : UlogHandle) (text : list byte) :=
  log_filtered logger ULOG_LEVEL_DEBUG None text.
Definition ulog_info (logger : UlogHandle) (text : list byte) :=
  log_filtered logger ULOG_LEVEL_INFO None text.
Definition ulog_warn (logger : UlogHandle) (text : list byte) :=
  log_filtered logger ULOG_LEVEL_WARN None text.
Definition ulog_error (logger : UlogHandle) (text : list byte) :=
  log_filtered logger ULOG_LEVEL_ERROR None text.

(** FATAL messages are never filtered. *)
Definition ulog_fatal (logger : UlogHandle) (text : list byte) :=
  ulog_output e stack logger ULOG_LEVEL_FATAL None text.

Definition ulog_log (logger : UlogHandle) (level : Z) (text : list byte) :=
  log_filtered logger level None text.

Definition ulog_log_at (logger : UlogHandle) (level : Z) (loc : option location)
    (text : list byte) :=
  log_filtered logger level loc text.

(** ** The default logger *)

Definition log_init (malloc_ok fopen_ok : bool) (g : UlogHandle) (id : option (list byte))
    : option UlogHandle :=
  match g with
  | None => ulog_init malloc_ok fopen_ok id ULOG_LEVEL_INFO 0
  | Some _ => Some g
  end.

Definition log_close (g : UlogHandle) : option UlogHandle :=
  match g with None => Some None | Some _ => ulog_close g end.

(** [log_info], [log_warn], [log_err]: the default logger is created on first
    use, and the message is put out without a test of the level. *)
Definition log_legacy (malloc_ok : bool) (level : Z) (g : UlogHandle) (text : list byte)
    : option (UlogHandle * list log_line) :=
  g ← log_init malloc_ok false g (Some (lit "unknown"));
  ulog_output e stack g level None text.

Definition log_info (malloc_ok : bool) := log_legacy malloc_ok ULOG_LEVEL_INFO.
Definition log_warn (malloc_ok : bool) := log_legacy malloc_ok ULOG_LEVEL_WARN.
Definition log_err (malloc_ok : bool) := log_legacy malloc_ok ULOG_LEVEL_ERROR.
End log.

(** ** Statistics *)

(** The outputs are written through pointers that may be NULL ([false]). *)
Definition ulog_stats (p_total p_dropped : bool) (logger : UlogHandle)
    : option (Z * option Z * option Z * UlogHandle) :=
  match logger with
  | None => Some (-1, None, None, None)
  | Some lg =>
      lg ← with_ulog_lock lg Some;
      Some (0, if p_total then Some (u64 (total_messages lg + dropped_messages lg)) else None,
            if p_dropped then Some (dropped_messages lg) else None, Some lg)
  end.

Definition ulog_stats_reset (logger : UlogHandle) : option (Z * UlogHandle) :=
  match logger with
  | None => Some (-1, None)
  | Some lg =>
      lg ← with_ulog_lock lg (fun lg => Some (set_counts lg 0 0 (ulog_lock lg)));
      Some (0, Some lg)
  end.

(** * Invariant *)

(** The last byte of the tag is never written, so that the tag is terminated. *)
Record logger_wf (lg : UlogContext) : Prop := {
  lw_lock : ulog_lock lg = MtxFree;
  lw_tag_len : length (context_tag lg) = 32%nat;
  lw_tag_end : context_tag lg !! 31%nat = Some x00;
  lw_total : in_u 64 (total_messages lg);
  lw_dropped : in_u 64 (dropped_messages lg) }.

Definition tag_of (lg : UlogContext) : list byte := default [] (cstring (context_tag lg)).

(** A call the caller's strings allow: none contains a NUL, the time is what
    strftime(3) fits into its 32 bytes. *)
Record call_ok (e : LogEnv) (loc : option location) (text : list byte) : Prop := {
  co_time : no_nul (le_time e);
  co_tid : 0 <= le_tid e;
  co_loc : match loc with Some (file, _, func) => no_nul file /\ no_nul func | None => True end;
  co_text : no_nul text }.

Definition log_prefix (e : LogEnv) (lg : UlogContext) (level : Z) (loc : option location)
    : list byte := concat (prefix_parts e lg (tag_of lg) level loc).

(** The lines a message leaves. *)
Definition lines (lg : UlogContext) (level : Z) (message : list byte) : list log_line :=
  (if syslog_enabled lg then [Syslog (ulog_level_to_syslog_priority level) message] else []) ++
  (if file_enabled lg && file_ptr lg then [LogFile message] else []).

(** * Lemmas *)

Lemma logger_tag lg : logger_wf lg -> cstring (context_tag lg) = Some (tag_of lg).
Proof.
  intros []. destruct (cstring_lookup_nul _ _ lw_tag_end0) as [s Hs].
  unfold tag_of. by rewrite Hs.
Qed.

Lemma level_str_no_nul level : no_nul (bs (ulog_level_str level)).
Proof. unfold ulog_level_str. repeat case_match; auto with cbuf. Qed.

Lemma no_nul_bracketed s : no_nul s -> no_nul (bracketed s).
Proof. intros. unfold bracketed. repeat apply no_nul_app; auto with cbuf. Qed.

Lemma no_nul_concat l : Forall no_nul l -> no_nul (concat l).
Proof. induction 1; [constructor|by apply no_nul_app]. Qed.

Lemma prefix_no_nul e lg level loc text :
  logger_wf lg -> call_ok e loc text -> no_nul (log_prefix e lg level loc).
Proof.
  intros Hl []. apply no_nul_concat. unfold prefix_parts.
  assert (forall (b : bool) x, no_nul x -> Forall no_nul (if b then [bracketed x] else [])) as Hif
    by (intros [] x Hx; [apply Forall_singleton; by apply no_nul_bracketed|apply Forall_nil; done]).
  apply Forall_app. split; [by apply Hif|]. apply Forall_app.
  split; [apply (Hif true), level_str_no_nul|]. apply Forall_app.
  split; [apply Hif, no_nul_app; auto with cbuf|]. apply Forall_app. split.
  - destruct (is_nul _); [by apply Forall_nil|]. apply (Hif true). by eapply cstring_no_nul, logger_tag.
  - destruct loc as [[[file line] func]|]; [|by apply Forall_nil]. destruct co_loc0.
    apply (Hif true). repeat apply no_nul_app; auto with cbuf.
Qed.

(** Parts that fit are put one behind the other. *)
Lemma append_all_fits parts buf s :
  holds buf s \/ s = [] -> Z.of_nat (length buf) <= INT_MAX ->
  (length (s ++ concat parts) < length buf)%nat ->
  exists b, append_all parts buf (Z.of_nat (length buf)) (Z.of_nat (length s))
      = Some (b, Z.of_nat (length (s ++ concat parts))) /\
    length b = length buf /\ (holds b (s ++ concat parts) \/ s ++ concat parts = []).
Proof.
  revert buf s. induction parts as [|t parts IH]; intros buf s Hs Hb Hl; cbn [append_all concat].
  - exists buf. by rewrite app_nil_r.
  - cbn [concat] in Hl. rewrite app_assoc in Hl |- *.
    destruct (append_to buf s t Hs) as (b & -> & Hh & Hlb); [rewrite length_app in Hl; lia|done|].
    cbn [mbind option_bind]. rewrite <- Hlb in *. destruct (IH b (s ++ t)) as (b' & E & ? & ?); auto.
Qed.

(** A part that ends past the buffer makes the next one write outside of it. *)
Lemma append_all_snoc parts t buf size off :
  append_all (parts ++ [t]) buf size off =
    '(b, o) ← append_all parts buf size off; append b size o t.
Proof.
  revert buf off. induction parts as [|p parts IH]; intros buf off; cbn [app append_all].
  - cbn [mbind option_bind]. by destruct (append buf size off t) as [[b o]|].
  - destruct (append buf size off p) as [[b o]|]; [|done]. cbn [mbind option_bind]. apply IH.
Qed.

(** The message itself is cut to what is left. *)
Lemma append_cut buf s text :
  holds buf s -> Z.of_nat (length buf) <= INT_MAX ->
  exists b o, append buf (Z.of_nat (length buf)) (Z.of_nat (length s)) text = Some (b, o) /\
    holds b (take (length buf - 1) (s ++ text)).
Proof.
  intros [rest ->] Hb. unfold INT_MAX in Hb.
  destruct (snprintf_append (s ++ x00 :: rest) s (x00 :: rest) text) as (d & E & Hh & _); [done..|].
  unfold append. rewrite wrap_id by (unfold in_u; rewrite length_app in *; lia).
  rewrite E. cbn [mbind option_bind]. do 2 eexists. split; [done|].
  rewrite take_app, length_app. cbn [length] in *.
  rewrite take_ge by lia.
  by replace (length s + S (length rest) - 1 - length s)%nat with (S (length rest) - 1)%nat by lia.
Qed.

Lemma with_ulog_lock_free lg f lg' :
  ulog_lock lg = MtxFree ->
  f (set_counts lg (total_messages lg) (dropped_messages lg) MtxHeld) = Some lg' ->
  ulog_lock lg' = MtxHeld ->
  with_ulog_lock lg f = Some (set_counts lg' (total_messages lg') (dropped_messages lg') MtxFree).
Proof. intros Hl Hf Hl'. unfold with_ulog_lock. rewrite Hl. cbn. rewrite Hf. cbn. by rewrite Hl'. Qed.

Lemma prefix_nonempty e lg level loc : log_prefix e lg level loc <> [].
Proof.
  unfold log_prefix, prefix_parts. by destruct (Z.testbit (flags lg) 2).
Qed.

(** The logger after a message was put out, or dropped. *)
Definition emitted (lg : UlogContext) : UlogContext :=
  set_counts lg (u64 (total_messages lg + 1)) (dropped_messages lg) MtxFree.
Definition dropped (lg : UlogContext) : UlogContext :=
  set_counts lg (total_messages lg) (u64 (dropped_messages lg + 1)) MtxFree.

Lemma wf_emitted lg : logger_wf lg -> logger_wf (emitted lg).
Proof. intros []. split; cbn; try done. apply wrap_range; lia. Qed.

Lemma wf_dropped lg : logger_wf lg -> logger_wf (dropped lg).
Proof. intros []. split; cbn; try done. apply wrap_range; lia. Qed.

#[export] Hint Resolve wf_emitted wf_dropped : wf.

Lemma output_fits e stack lg level loc text :
  logger_wf lg -> length stack = MAX_LOG_MESSAGE_LEN -> call_ok e loc text ->
  (length (log_prefix e lg level loc) < MAX_LOG_MESSAGE_LEN)%nat ->
  ulog_output e stack (Some lg) level loc text =
    Some (Some (emitted lg), lines lg level (take 2047 (log_prefix e lg level loc ++ text))).
Proof.
  intros Hlg Hst Hok Hfit. unfold ulog_output. rewrite (lw_lock _ Hlg), (logger_tag _ Hlg).
  cbn [mutex_lock mbind option_bind]. rewrite <- Hst in *.
  assert (Z.of_nat (length stack) <= INT_MAX) as Hmax
    by (rewrite Hst; unfold MAX_LOG_MESSAGE_LEN, INT_MAX; lia).
  destruct (append_all_fits (prefix_parts e lg (tag_of lg) level loc) stack [])
    as (b & E & Hlb & Hh); [by right|done|done|].
  cbn [app length] in E, Hh. change (Z.of_nat 0) with 0 in E. rewrite E. cbn [mbind option_bind].
  fold (log_prefix e lg level loc) in *.
  destruct Hh as [Hh|Hh]; [|by destruct (prefix_nonempty e lg level loc)]. rewrite <- Hlb.
  destruct (append_cut b (log_prefix e lg level loc) text Hh) as (b' & o & -> & Hh'); [by rewrite Hlb|].
  cbn [mbind option_bind]. rewrite Hlb, Hst in Hh'. change (MAX_LOG_MESSAGE_LEN - 1)%nat with 2047%nat in Hh'.
  rewrite (holds_cstring _ _ (Forall_take _ _ _
    (no_nul_app _ _ (prefix_no_nul e lg level loc text Hlg Hok) (co_text _ _ _ Hok))) Hh').
  done.
Qed.

Lemma filtered_fits e stack lg level loc text :
  logger_wf lg -> length stack = MAX_LOG_MESSAGE_LEN -> call_ok e loc text ->
  (length (log_prefix e lg level loc) < MAX_LOG_MESSAGE_LEN)%nat ->
  log_filtered e stack (Some lg) level loc text =
    if level <? min_level lg then Some (Some (dropped lg), [])
    else Some (Some (emitted lg), lines lg level (take 2047 (log_prefix e lg level loc ++ text))).
Proof.
  intros Hlg Hst Hok Hfit. unfold log_filtered. destruct (level <? min_level lg).
  - by rewrite (with_ulog_lock_free lg _ (set_counts lg (total_messages lg)
      (u64 (dropped_messages lg + 1)) MtxHeld)) by (done || apply Hlg).
  - by apply output_fits.
Qed.

(** All texts but the location together are short. *)
Lemma bounded_parts e lg level loc :
  logger_wf lg -> (length (le_time e) <= 31)%nat ->
  exists parts, (length (concat parts) < 256)%nat /\
    prefix_parts e lg (tag_of lg) level loc = parts ++
      match loc with Some (file, line, func) =>
        [bracketed (file ++ bs ":" ++ fmt_d line ++ bs ":" ++ func)] | None => [] end.
Proof.
  intros Hlg Ht. eexists. split; [|unfold prefix_parts; by rewrite !app_assoc].
  assert (length (tag_of lg) < 32)%nat as Htag
    by (rewrite <- (lw_tag_len _ Hlg); eapply cstring_length, logger_tag, Hlg).
  assert (length (bs (ulog_level_str level)) <= 7)%nat as Hls
    by (unfold ulog_level_str; repeat case_match; cbn; lia).
  pose proof (dec_digits_length dec_fuel (le_tid e)) as Htid. unfold dec_fuel in Htid.
  assert (forall s, length (bracketed s) = (length s + 3)%nat) as Hbr
    by (intros; unfold bracketed; rewrite !length_app; cbn; lia).
  rewrite !concat_app, !length_app. cbn [concat]. rewrite !app_nil_r, Hbr.
  destruct (Z.testbit (flags lg) 2), (Z.testbit (flags lg) 1), (is_nul _);
    cbn [concat]; rewrite ?app_nil_r, ?Hbr, ?length_app; unfold fmt_u, dec_fuel;
    try change (length (bs "TID:")) with 4%nat; cbn [length]; lia.
Qed.

Lemma output_overflows e stack lg level loc text :
  logger_wf lg -> length stack = MAX_LOG_MESSAGE_LEN -> (length (le_time e) <= 31)%nat ->
  (MAX_LOG_MESSAGE_LEN < length (log_prefix e lg level loc))%nat ->
  Z.of_nat (length (log_prefix e lg level loc)) < 2 ^ 63 ->
  ulog_output e stack (Some lg) level loc text = None.
Proof.
  intros Hlg Hst Ht Hover Hmax. destruct (bounded_parts e lg level loc Hlg Ht) as (parts & Hsm & Hp).
  unfold log_prefix in *. unfold ulog_output. rewrite (lw_lock _ Hlg), (logger_tag _ Hlg).
  cbn [mutex_lock mbind option_bind]. rewrite Hp in *.
  unfold MAX_LOG_MESSAGE_LEN in *.
  destruct loc as [[[file line] func]|]; [|rewrite app_nil_r in *; lia].
  rewrite concat_app, length_app in Hover, Hmax. cbn [concat] in Hover, Hmax.
  rewrite app_nil_r in Hover, Hmax.
  rewrite append_all_snoc, <- Hst.
  destruct (append_all_fits parts stack []) as (b & E & Hlb & _);
    [by right|rewrite Hst; unfold INT_MAX; lia|cbn [app]; lia|].
  cbn [app length] in E. change (Z.of_nat 0) with 0 in E. rewrite E. cbn [mbind option_bind].
  rewrite <- Hlb. destruct (append_safe b (Z.of_nat (length (concat parts)))
    (bracketed (file ++ bs ":" ++ fmt_d line ++ bs ":" ++ func))) as (b' & -> & Hlb'); [lia|lia|].
  cbn [mbind option_bind]. rewrite <- Hlb'. rewrite append_overflow by lia. done.
Qed.

(** ** Sequences of calls *)

Record log_call := mkCall {
  lc_env : LogEnv; lc_stack : list byte; lc_level : Z; lc_loc : option location;
  lc_text : list byte }.

Definition call_fits (lg : UlogContext) (c : log_call) : Prop :=
  length (lc_stack c) = MAX_LOG_MESSAGE_LEN /\ call_ok (lc_env c) (lc_loc c) (lc_text c) /\
  (length (le_time (lc_env c)) <= 31)%nat /\
  (length (log_prefix (lc_env c) lg (lc_level c) (lc_loc c)) < MAX_LOG_MESSAGE_LEN)%nat.

Fixpoint run_calls (lg : UlogHandle) (calls : list log_call)
    : option (UlogHandle * list log_line) :=
  match calls with
  | [] => Some (lg, [])
  | c :: calls' =>
      '(lg, out) ← ulog_log_at (lc_env c) (lc_stack c) lg (lc_level c) (lc_loc c) (lc_text c);
      '(lg, out') ← run_calls lg calls';
      Some (lg, out ++ out')
  end.

Definition expected_lines (lg : UlogContext) (calls : list log_call) : list log_line :=
  concat ((fun c => if lc_level c <? min_level lg then [] else
    lines lg (lc_level c) (take 2047
      (log_prefix (lc_env c) lg (lc_level c) (lc_loc c) ++ lc_text c))) <$> calls).

(** The parts of a logger that calls leave alone. *)
Definition same_config (a b : UlogContext) : Prop :=
  min_level a = min_level b /\ flags a = flags b /\ syslog_enabled a = syslog_enabled b /\
  file_enabled a = file_enabled b /\ file_ptr a = file_ptr b /\ context_tag a = context_tag b.

Lemma same_config_prefix a b e level loc :
  same_config a b -> log_prefix e b level loc = log_prefix e a level loc.
Proof.
  intros (_ & Hf & _ & _ & _ & Ht). unfold log_prefix, prefix_parts, tag_of. by rewrite Hf, Ht.
Qed.

Lemma same_config_lines a b level m : same_config a b -> lines b level m = lines a level m.
Proof. intros (_ & _ & Hs & He & Hp & _). unfold lines. by rewrite Hs, He, Hp. Qed.

Lemma run_calls_spec calls lg :
  logger_wf lg -> Forall (call_fits lg) calls ->
  exists lg', run_calls (Some lg) calls = Some (Some lg', expected_lines lg calls) /\
    same_config lg lg' /\ logger_wf lg' /\
    total_messages lg' = u64 (total_messages lg + (Z.of_nat (length calls) -
      Z.of_nat (length (filter (fun c => lc_level c < min_level lg) calls)))) /\
    dropped_messages lg' = u64 (dropped_messages lg +
      Z.of_nat (length (filter (fun c => lc_level c < min_level lg) calls))).
Proof.
  revert lg. induction calls as [|c calls IH]; intros lg Hlg Hc; cbn [run_calls].
  { exists lg. split; [done|]. split; [done|]. split; [done|]. cbn. rewrite !Z.add_0_r.
    split; symmetry; apply wrap_id; apply Hlg. }
  apply Forall_cons in Hc as [(Hst & Hok & Htm & Hfit) Hc].
  set (low := lc_level c <? min_level lg).
  set (lg1 := if low then dropped lg else emitted lg).
  set (out1 := if low then [] else lines lg (lc_level c) (take 2047
    (log_prefix (lc_env c) lg (lc_level c) (lc_loc c) ++ lc_text c))).
  assert (ulog_log_at (lc_env c) (lc_stack c) (Some lg) (lc_level c) (lc_loc c) (lc_text c)
    = Some (Some lg1, out1)) as ->.
  { unfold ulog_log_at. rewrite filtered_fits by done. unfold lg1, out1, low. by case_match. }
  cbn [mbind option_bind].
  assert (logger_wf lg1) as Hlg1 by (unfold lg1; destruct low; auto with wf).
  assert (same_config lg lg1) as Hsame by (unfold lg1; by destruct low).
  destruct (IH lg1 Hlg1) as (lg' & Hrun & Hs & Hw & Et & Ed).
  { eapply Forall_impl; [done|]. intros x (? & ? & ? & ?). unfold call_fits.
    by rewrite (same_config_prefix lg lg1) by done. }
  assert (min_level lg1 = min_level lg) as Hmin by (symmetry; apply Hsame).
  rewrite Hmin in Et, Ed.
  assert (expected_lines lg1 calls = expected_lines lg calls) as Hexp.
  { unfold expected_lines. f_equal. apply list_fmap_ext. intros i x _. rewrite Hmin.
    by rewrite (same_config_lines lg lg1), (same_config_prefix lg lg1). }
  rewrite Hrun. cbn [mbind option_bind]. exists lg'.
  split. { rewrite Hexp. unfold expected_lines. by rewrite fmap_cons. }
  split. { unfold same_config in *. intuition congruence. }
  split; [done|]. rewrite Et, Ed, filter_cons. unfold lg1, low.
  destruct (lc_level c <? min_level lg) eqn:El; tests;
    [rewrite decide_True by done|rewrite decide_False by lia];
    cbn [length dropped emitted total_messages dropped_messages set_counts];
    rewrite ?wrap_add_l; split; f_equal; lia.
Qed.

(** ** Every logger the interface produces is well-formed *)

Lemma init_wf fopen_ok id level fl lg :
  ulog_init true fopen_ok id level fl = Some (Some lg) -> logger_wf lg.
Proof.
  unfold ulog_init. cbn [negb]. intros (idn & _ & [= <-])%bind_Some.
  split; cbn; try done; split; lia.
Qed.

Lemma set_tag_spec lg tag s :
  logger_wf lg -> cstring tag = Some s ->
  exists lg', ulog_set_context_tag (Some lg) (Some tag) = Some (0, Some lg') /\ logger_wf lg' /\
    tag_of lg' = take 31 s.
Proof.
  intros Hlg Hs. destruct (strncpy_split (context_tag lg) tag s 31 Hs) as (w & c & E & Hl & Hc & Hcs);
    [apply Hlg|].
  rewrite (lw_tag_end _ Hlg) in Hc. injection Hc as <-.
  unfold ulog_set_context_tag.
  rewrite (with_ulog_lock_free lg _ (mkLogger (ident lg) (min_level lg) (flags lg)
    (syslog_enabled lg) (file_enabled lg) (file_ptr lg) (total_messages lg) (dropped_messages lg)
    (w ++ [x00]) MtxHeld)); [|apply Hlg|cbn [context_tag set_counts]; by rewrite E|done].
  cbn [mbind option_bind]. eexists. split; [done|]. split.
  - destruct Hlg. split; cbn [context_tag set_counts ulog_lock total_messages dropped_messages];
      try done.
    + rewrite length_app, Hl. done.
    + by rewrite lookup_app_r, Hl by lia.
  - unfold tag_of. cbn [context_tag set_counts]. by rewrite Hcs.
Qed.

Lemma clear_tag_spec lg :
  logger_wf lg ->
  exists lg', ulog_set_context_tag (Some lg) None = Some (0, Some lg') /\ logger_wf lg' /\
    tag_of lg' = [].
Proof.
  intros Hlg. pose proof (lw_tag_len _ Hlg) as Hl. unfold ulog_set_context_tag.
  rewrite (with_ulog_lock_free lg _ (mkLogger (ident lg) (min_level lg) (flags lg)
    (syslog_enabled lg) (file_enabled lg) (file_ptr lg) (total_messages lg) (dropped_messages lg)
    (<[0%nat:=x00]> (context_tag lg)) MtxHeld));
    [|apply Hlg|cbn [context_tag set_counts]; by rewrite store_safe by lia|done].
  cbn [mbind option_bind]. eexists. split; [done|]. split.
  - destruct Hlg. split; cbn [context_tag set_counts ulog_lock total_messages dropped_messages];
      try done.
    + by rewrite length_insert.
    + by rewrite list_lookup_insert_ne by done.
  - unfold tag_of. cbn [context_tag set_counts]. by destruct (context_tag lg).
Qed.

(** * Properties *)

(** A log line is the prefix (time, level, thread, tag, location, each when
    enabled) followed by the message, cut to 2047 bytes, and goes to syslog
    with the priority of its level and to the file when that is open; it is
    counted once.  This needs a prefix shorter than the 2048-byte buffer: a
    location that makes it longer than the buffer wraps the remaining size, and
    the message is then written outside of the buffer. *)
Theorem ulog_output_line e stack lg level loc text :
  logger_wf lg -> length stack = MAX_LOG_MESSAGE_LEN -> call_ok e loc text ->
  (length (le_time e) <= 31)%nat ->
  if (length (log_prefix e lg level loc) <? MAX_LOG_MESSAGE_LEN)%nat then
    exists lg', ulog_output e stack (Some lg) level loc text =
        Some (Some lg', lines lg level (take 2047 (log_prefix e lg level loc ++ text))) /\
      logger_wf lg' /\ total_messages lg' = u64 (total_messages lg + 1) /\
      dropped_messages lg' = dropped_messages lg
  else (MAX_LOG_MESSAGE_LEN < length (log_prefix e lg level loc))%nat ->
       Z.of_nat (length (log_prefix e lg level loc)) < 2 ^ 63 ->
       ulog_output e stack (Some lg) level loc text = None.
Proof.
  intros Hlg Hst Hok Htime. destruct (_ <? _)%nat eqn:Efit.
  - apply Nat.ltb_lt in Efit. exists (emitted lg).
    split; [by apply output_fits|]. split; [by apply wf_emitted|done].
  - intros Hover Hmax. by apply output_overflows.
Qed.

Definition demo_logger : UlogContext :=
  mkLogger (lit "Router" ++ zeros 57) 2 0 true false false 0 0 (zeros 32) MtxFree.

Lemma demo_logger_wf : logger_wf demo_logger.
Proof. split; try reflexivity; split; vm_compute; congruence. Qed.

Lemma demo_call_ok : call_ok (mkLogEnv [] 1) None (bs "ready").
Proof. split; try done; [by apply Forall_nil|by apply no_nul_lit]. Qed.

Lemma ulog_output_line_witness :
  exists lg', ulog_output (mkLogEnv [] 1) (zeros 2048) (Some demo_logger) ULOG_LEVEL_INFO None (bs "ready")
    = Some (Some lg', [Syslog 6 (bs "[INFO] ready")]) /\ logger_wf lg'.
Proof.
  destruct (ulog_output_line (mkLogEnv [] 1) (zeros 2048) demo_logger ULOG_LEVEL_INFO None (bs "ready"))
    as (lg' & H & Hw & _).
  - exact demo_logger_wf.
  - reflexivity.
  - exact demo_call_ok.
  - vm_compute. lia.
  - exists lg'. split; [exact H|exact Hw].
Defined.

(** C39: level filtering and the statistics agree: after any sequence of calls
    on a logger, each call at or above the minimum level has put out its lines,
    in order, and every other one only advanced the drop counter; [ulog_stats]
    then reports the number of all calls and of the dropped ones, modulo 2^64.
    FATAL messages and the legacy functions are put out without this test. *)
Theorem ulog_stats_exact lg calls :
  logger_wf lg -> total_messages lg = 0 -> dropped_messages lg = 0 ->
  Forall (call_fits lg) calls -> Z.of_nat (length calls) < 2 ^ 64 ->
  exists lg', run_calls (Some lg) calls = Some (Some lg', expected_lines lg calls) /\
    logger_wf lg' /\ min_level lg' = min_level lg /\
    ulog_stats true true (Some lg') = Some (0, Some (Z.of_nat (length calls)),
      Some (Z.of_nat (length (filter (fun c => lc_level c < min_level lg) calls))), Some lg') /\
    (forall c, call_fits lg c -> exists lg'',
       ulog_fatal (lc_env c) (lc_stack c) (Some lg') (lc_text c) = Some (Some lg'',
         lines lg 5 (take 2047 (log_prefix (lc_env c) lg 5 None ++ lc_text c)))).
Proof.
  intros Hlg Ht Hd Hcalls Hn. destruct (run_calls_spec calls lg Hlg Hcalls) as (lg' & Hrun & Hs & Hw & Et & Ed).
  exists lg'. rewrite Ht in Et. rewrite Hd in Ed. rewrite !Z.add_0_l in *.
  split; [done|]. split; [done|]. split; [symmetry; apply Hs|]. split.
  - unfold ulog_stats. rewrite (with_ulog_lock_free lg' _ (set_counts lg' (total_messages lg')
      (dropped_messages lg') MtxHeld)) by (done || apply Hw).
    pose proof (length_filter (fun c => lc_level c < min_level lg) calls) as Hle.
    rewrite wrap_id in Et, Ed by (unfold in_u; lia).
    cbn [mbind option_bind total_messages dropped_messages set_counts].
    assert (set_counts (set_counts lg' (total_messages lg') (dropped_messages lg') MtxHeld)
      (total_messages lg') (dropped_messages lg') MtxFree = lg') as ->
      by (pose proof (lw_lock _ Hw); destruct lg'; cbn in *; by subst).
    rewrite Et, Ed, wrap_id by (unfold in_u; lia). repeat (f_equal; try lia).
  - intros c (Hst & Hok & Htm & _). exists (emitted lg'). unfold ulog_fatal.
    rewrite output_fits; [|done|done|by destruct Hok; split|].
    + by rewrite (same_config_lines lg lg'), (same_config_prefix lg lg').
    + destruct (bounded_parts (lc_env c) lg' ULOG_LEVEL_FATAL None Hw Htm) as (parts & Hsm & Hp).
      unfold log_prefix. rewrite Hp, app_nil_r. unfold MAX_LOG_MESSAGE_LEN. lia.
Qed.

Lemma ulog_stats_exact_witness :
  exists lg', run_calls (Some demo_logger)
      [mkCall (mkLogEnv [] 1) (zeros 2048) 2 None (bs "ready");
       mkCall (mkLogEnv [] 1) (zeros 2048) 1 None (bs "ready")] =
      Some (Some lg', [Syslog 6 (bs "[INFO] ready")]) /\
    ulog_stats true true (Some lg') = Some (0, Some 2, Some 1, Some lg').
Proof.
  destruct (ulog_stats_exact demo_logger
    [mkCall (mkLogEnv [] 1) (zeros 2048) 2 None (bs "ready");
     mkCall (mkLogEnv [] 1) (zeros 2048) 1 None (bs "ready")])
    as (lg' & H & _ & _ & Hs & _).
  - exact demo_logger_wf.
  - reflexivity.
  - reflexivity.
  - apply Forall_cons; split; [|apply Forall_singleton];
      (split; [reflexivity|]; split; [exact demo_call_ok|]; split; vm_compute; lia).
  - vm_compute. reflexivity.
  - exists lg'. split; [exact H|exact Hs].
Defined.
