(* ===== verification/LogMacros.v ===== *)
(** * The logging macros and error texts (Common/include/unified_logger.h, debug_log.h)

    The programs log through macros that add the source location and take the
    default logger.  [safe_strerror] words the error numbers in their messages;
    the answer of strerror_r(3), in either of its versions, is an argument. *)

From S2P Require Import Prelude CLib Logger.

(** ** Macros *)

(** [log_get_handle] *)
Definition log_get_handle (g_default_logger : UlogHandle) : UlogHandle := g_default_logger.

Section macros.
Variable e : LogEnv.
Variable stack : list byte.

Definition ULOG_TRACE := ulog_trace e stack.
Definition ULOG_DEBUG := ulog_debug e stack.
Definition ULOG_INFO := ulog_info e stack.
Definition ULOG_WARN := ulog_warn e stack.
Definition ULOG_ERROR := ulog_error e stack.
Definition ULOG_FATAL := ulog_fatal e stack.

(** [here] is [__FILE__], [__LINE__] and [__func__]. *)
Variable here : location.

Definition ULOG_TRACE_AT (log : UlogHandle) := ulog_log_at e stack log ULOG_LEVEL_TRACE (Some here).
Definition ULOG_DEBUG_AT (log : UlogHandle) := ulog_log_at e stack log ULOG_LEVEL_DEBUG (Some here).
Definition ULOG_INFO_AT (log : UlogHandle) := ulog_log_at e stack log ULOG_LEVEL_INFO (Some here).
Definition ULOG_WARN_AT (log : UlogHandle) := ulog_log_at e stack log ULOG_LEVEL_WARN (Some here).
Definition ULOG_ERROR_AT (log : UlogHandle) := ulog_log_at e stack log ULOG_LEVEL_ERROR (Some here).
Definition ULOG_FATAL_AT (log : UlogHandle) := ulog_log_at e stack log ULOG_LEVEL_FATAL (Some here).

Definition GLOG_TRACE (g : UlogHandle) := ULOG_TRACE_AT (log_get_handle g).
Definition GLOG_DEBUG (g : UlogHandle) := ULOG_DEBUG_AT (log_get_handle g).
Definition GLOG_INFO (g : UlogHandle) := ULOG_INFO_AT (log_get_handle g).
Definition GLOG_WARN (g : UlogHandle) := ULOG_WARN_AT (log_get_handle g).
Definition GLOG_ERR (g : UlogHandle) := ULOG_ERROR_AT (log_get_handle g).
Definition GLOG_FATAL (g : UlogHandle) := ULOG_FATAL_AT (log_get_handle g).

(** [DBG]: what goes to the standard error; [debug] tells that DEBUG is
    defined, [module] is MODULE_NAME. *)
Definition DBG (debug : bool) (module : string) (text : list byte) : list byte :=
  let '(file, line, func) := here in
  if debug then bs "[DBG][" ++ bs module ++ bs "] " ++ file ++ bs ":" ++ fmt_d line ++
                bs " (" ++ func ++ bs "): " ++ text ++ [x0a]
  else [].
End macros.

(** ** Error texts *)

Definition ERRBUF_SIZE : nat := 64.

(** The GNU version of strerror_r returns the buffer, filled, or a text of its
    own; the XSI version answers 0 or an error, with the buffer as it left it. *)
Inductive strerror_answer :=
| GnuFilled (errbuf : list byte)
| GnuElsewhere (text : list byte)
| Xsi (ret : Z) (errbuf : list byte).

Definition safe_strerror (errbuf : list byte) (errnum : Z) (a : strerror_answer)
    : option (list byte) :=
  match a with
  | GnuFilled b => Some b
  | GnuElsewhere p =>
      '(b, _) ← snprintf errbuf 0 (Z.of_nat ERRBUF_SIZE) p; Some b
  | Xsi ret b =>
      if ret =? 0 then Some b
      else '(b, _) ← snprintf b 0 (Z.of_nat ERRBUF_SIZE) (bs "error " ++ fmt_d errnum); Some b
  end.

(** What the manual page promises of the answers: the buffer keeps its size and
    holds a terminated text when it is filled. *)
Definition strerror_ok (a : strerror_answer) : Prop :=
  match a with
  | GnuFilled b => length b = ERRBUF_SIZE /\ terminated b
  | GnuElsewhere p => no_nul p
  | Xsi ret b => length b = ERRBUF_SIZE /\ (ret = 0 -> terminated b)
  end.

(** * Lemmas *)

(** The text of an error is always terminated in its 64 bytes. *)
Lemma safe_strerror_terminated errbuf errnum a :
  length errbuf = ERRBUF_SIZE -> strerror_ok a ->
  exists b s, safe_strerror errbuf errnum a = Some b /\ length b = ERRBUF_SIZE /\
    cstring b = Some s /\ (length s <= 63)%nat /\ no_nul s.
Proof.
  intros Hl Ha.
  assert (forall buf t, length buf = ERRBUF_SIZE -> no_nul t ->
    exists b s, ('(b, _) ← snprintf buf 0 (Z.of_nat ERRBUF_SIZE) t; Some b) = Some b /\
      length b = ERRBUF_SIZE /\ cstring b = Some s) as Hprint.
  { intros buf t Hb Ht. destruct (snprintf_fresh buf t) as (d & E & Hh & Hd);
      [by intros ->|]. rewrite Hb in *. rewrite E. cbn [mbind option_bind]. eexists d, _.
    split; [done|]. split; [done|]. apply holds_cstring; [by apply Forall_take|done]. }
  enough (exists b s, safe_strerror errbuf errnum a = Some b /\ length b = ERRBUF_SIZE /\
    cstring b = Some s) as (b & s & E & Hb & Hs).
  { exists b, s. split_and!; try done; [|by eapply cstring_no_nul].
    apply cstring_length in Hs. unfold ERRBUF_SIZE in Hb. lia. }
  destruct a as [b|p|ret b]; cbn [safe_strerror strerror_ok] in *.
  - destruct Ha as [Hb [s Hs]]. by exists b, s.
  - by apply Hprint.
  - destruct Ha as [Hb Ht]. destruct (ret =? 0) eqn:E; tests.
    + destruct (Ht E) as [s Hs]. by exists b, s.
    + apply Hprint; [done|]. apply no_nul_app; auto with cbuf.
Qed.

(** The prefix of a message with a location, for a logger without flags or tag. *)
Definition plain_prefix (level : Z) (here : location) : list byte :=
  let '(file, line, func) := here in
  bracketed (bs (ulog_level_str level)) ++
  bracketed (file ++ bs ":" ++ fmt_d line ++ bs ":" ++ func).

Lemma log_init_default fopen_ok id g :
  log_init true fopen_ok None id = Some (Some g) ->
  logger_wf g /\ min_level g = ULOG_LEVEL_INFO /\ flags g = 0 /\ syslog_enabled g = true /\
  file_enabled g = false /\ context_tag g = zeros 32.
Proof.
  intros H. split; [by eapply init_wf|]. unfold log_init, ulog_init in H. cbn [negb] in H.
  apply bind_Some in H as (idn & _ & [= <-]). done.
Qed.

Lemma plain_log_prefix e g level file line func :
  flags g = 0 -> context_tag g = zeros 32 ->
  log_prefix e g level (Some (file, line, func)) = plain_prefix level (file, line, func).
Proof.
  intros Hf Ht. unfold log_prefix, prefix_parts, plain_prefix. rewrite Hf, Ht. cbn [Z.testbit].
  change (is_nul (nth 0 (zeros 32) x00)) with true. cbn. by rewrite app_nil_r.
Qed.

Lemma length_plain_prefix level file line func :
  (length (plain_prefix level (file, line, func)) <= length file + length func + 64)%nat.
Proof.
  unfold plain_prefix, bracketed. rewrite !length_app. pose proof (fmt_d_length line).
  assert (length (bs (ulog_level_str level)) <= 7)%nat
    by (unfold ulog_level_str; repeat case_match; cbn; lia).
  cbn [length bs String.list_byte_of_string]. cbn. lia.
Qed.

(** What a call at [level] through the default logger does. *)
Lemma default_logger_call e stack fopen_ok id g level file line func text :
  log_init true fopen_ok None id = Some (Some g) ->
  length stack = MAX_LOG_MESSAGE_LEN -> call_ok e (Some (file, line, func)) text ->
  (length file + length func <= 1900)%nat ->
  ulog_log_at e stack (log_get_handle (Some g)) level (Some (file, line, func)) text =
    if level <? ULOG_LEVEL_INFO then Some (Some (dropped g), [])
    else Some (Some (emitted g), [Syslog (ulog_level_to_syslog_priority level)
           (take 2047 (plain_prefix level (file, line, func) ++ text))]).
Proof.
  intros (Hw & Hm & Hf & Hs & Hfile & Ht)%log_init_default Hst Hok Hl.
  unfold ulog_log_at, log_get_handle.
  pose proof (length_plain_prefix level file line func) as Hp.
  rewrite filtered_fits; rewrite ?plain_log_prefix; try done;
    [|unfold MAX_LOG_MESSAGE_LEN; lia].
  rewrite Hm. unfold lines. by rewrite Hs, Hfile.
Qed.

(** * Properties *)

(** C40: after [log_init] the location macros of the programs put out what the
    header says: the default logger drops TRACE and DEBUG and only counts them;
    INFO, WARN, ERR and FATAL leave exactly one line, for syslog(3) with the
    matching priority, that names the file, the line and the function in front
    of the text, cut to 2047 bytes.  Before [log_init], with no default logger,
    they do nothing. *)
Theorem glog_default_logger e stack fopen_ok id g file line func text :
  log_init true fopen_ok None id = Some (Some g) ->
  length stack = MAX_LOG_MESSAGE_LEN -> call_ok e (Some (file, line, func)) text ->
  (length file + length func <= 1900)%nat ->
  let here := (file, line, func) in
  let line_of prio tag := Some (Some (emitted g), [Syslog prio (take 2047
        (bs tag ++ (bs "[" ++ (file ++ bs ":" ++ fmt_d line ++ bs ":" ++ func) ++ bs "] ") ++ text))]) in
  GLOG_TRACE e stack here (Some g) text = Some (Some (dropped g), []) /\
  GLOG_DEBUG e stack here (Some g) text = Some (Some (dropped g), []) /\
  GLOG_INFO e stack here (Some g) text = line_of 6 "[INFO] " /\
  GLOG_WARN e stack here (Some g) text = line_of 4 "[WARN] " /\
  GLOG_ERR e stack here (Some g) text = line_of 3 "[ERROR] " /\
  GLOG_FATAL e stack here (Some g) text = line_of 2 "[FATAL] " /\
  forall macro, In macro [GLOG_TRACE; GLOG_DEBUG; GLOG_INFO; GLOG_WARN; GLOG_ERR; GLOG_FATAL] ->
    macro e stack here None text = Some (None, []).
Proof.
  intros Hi Hst Hok Hl here line_of.
  pose proof (fun level => default_logger_call e stack _ _ g level file line func text Hi Hst Hok Hl)
    as H.
  split_and!; try exact (H _).
  intros macro Hin. cbn [In] in Hin. by destruct_or! Hin; subst.
Qed.

Definition default_logger : UlogContext :=
  mkLogger (lit "Router" ++ zeros 57) 2 0 true false false 0 0 (zeros 32) MtxFree.

Lemma glog_default_logger_witness :
  log_init true true None (Some (lit "Router")) = Some (Some default_logger) /\
  GLOG_ERR (mkLogEnv [] 1) (zeros 2048) (bs "main.c", 7, bs "main") (Some default_logger) (bs "stop")
    = Some (Some (emitted default_logger), [Syslog 3 (bs "[ERROR] [main.c:7:main] stop")]).
Proof.
  split; [vm_compute; reflexivity|].
  destruct (glog_default_logger (mkLogEnv [] 1) (zeros 2048) true (Some (lit "Router"))
    default_logger (bs "main.c") 7 (bs "main") (bs "stop")) as (_ & _ & _ & _ & H & _).
  - vm_compute. reflexivity.
  - reflexivity.
  - split; try split; cbn; try apply no_nul_lit; try apply Forall_nil_2; done.
  - vm_compute. lia.
  - exact H.
Defined.
