(* ===== verification/Collector.v ===== *)
(** * The Collector (Collector/src/poll_io.c, Collector/src/main.c)

    UDP datagrams are copied into the shared segment and announced on the
    notification queue; a poll loop serves the UDP socket and the management
    socket until its flag is cleared, by the SHUTDOWN handler or by the signal
    handler.  The segment is used through the interface of file ShmData; log
    output is left out. *)

From S2P Require Import Prelude CLib MgmtProtocol EventHandler MgmtSocket Handlers.
From S2P Require Import Ipc ShmData Shm CollectorMgmt NetworkConfig.

(** ** Setup *)

(** [fd]: what socket(2) answers ([None]: an error). *)
Definition setup_udp_socket (fd : option Z) (bind_ok : bool) (port : Z) (s : Sys) : Z * Sys :=
  match fd with
  | None => (-1, s)
  | Some fd =>
      let s := sys_open fd s in
      if negb bind_ok then (-1, sys_close fd s) else (fd, s)
  end.

Definition close_udp_socket (fd : Z) (s : Sys) : Sys :=
  if 0 <=? fd then sys_close fd s else s.

(** ** Events *)

Definition UDP_BUFFER_SIZE : nat := 1024.

(** The status the Collector writes with every payload. *)
Definition COLLECTOR_STATUS : Z := 100.

Section events.
Context {S H : Type} {ops : ShmOps S H}.

(** The received bytes into the segment: [stack] is the memory under [buffer]. *)
Definition store_datagram (d stack : list byte) (h : H) (s : S) : exec (bool * S) :=
  let n := Nat.min (length d) (UDP_BUFFER_SIZE - 1) in
  buffer ← obj (store (take n d ++ drop n stack) n x00);
  shm_write h COLLECTOR_STATUS buffer s.

(** The notification, not waiting for room; [pad] is its padding. *)
Definition notify_router (pad : list byte) (q : option MsgQueue) : exec (option MsgQueue) :=
  let notify := mkNotify MSG_TYPE_SHM_NOTIFY COLLECTOR_STATUS in
  '(_, q) ← msgsnd true q (nt_mtype notify) (notify_body notify pad);
  Ret q.

(** [received]: the datagram ([None]: recvfrom fails). *)
Definition handle_udp_read (received : option (list byte)) (stack pad : list byte)
    (q : option MsgQueue) (h : H) (s : S) : exec (option MsgQueue * S) :=
  match received with
  | None => Ret (q, s)
  | Some d =>
      if (Nat.min (length d) (UDP_BUFFER_SIZE - 1) =? 0)%nat then Ret (q, s)
      else
        '(ok, s) ← store_datagram d stack h s;
        if negb ok then Ret (q, s)
        else q ← notify_router pad q; Ret (q, s)
  end.

(** ** The event loop *)

(** When a signal arrives in an iteration: its handler clears the flag; during
    the poll it also interrupts it. *)
Inductive signal_point := NoSignal | BeforeTest | BeforePoll | DuringPoll.

(** One iteration: the clocks, the signal, whether poll fails for another
    reason, what recvfrom gives if the UDP socket is readable, and the calls of
    the management socket if that one is. *)
Record Iteration := mkIteration {
  it_now : timespec; it_time : Z; it_signal : signal_point; it_error : bool;
  it_udp : option (option (list byte)); it_mgmt : option ProcessEnv;
  it_stack : list byte; it_pad : list byte }.

Record LoopState := mkLoop {
  lp_world : CollectorWorld; lp_registry : EventHandlerRegistry; lp_socket : option MgmtSocket;
  lp_queue : option MsgQueue; lp_shm : S; lp_sent : list sent }.

Definition set_flag (w : CollectorWorld) (f : Z) : CollectorWorld :=
  mkCollectorWorld (cw_now w) (cw_time w) (cw_ctxs w) f.

(** The signal handler. *)
Definition sig_handler (w : CollectorWorld) : CollectorWorld := set_flag w 0.

Definition set_world (st : LoopState) (w : CollectorWorld) : LoopState :=
  mkLoop w (lp_registry st) (lp_socket st) (lp_queue st) (lp_shm st) (lp_sent st).

Definition signal_at (p p' : signal_point) (st : LoopState) : LoopState :=
  if match p, p' with
     | BeforeTest, BeforeTest | BeforePoll, BeforePoll | DuringPoll, DuringPoll => true
     | _, _ => false
     end
  then set_world st (sig_handler (lp_world st)) else st.

(** The body after poll(2) has returned a positive count. *)
Definition serve_events (it : Iteration) (h : H) (st : LoopState) : exec LoopState :=
  st ← match it_udp it with
       | Some received =>
           '(q, s) ← handle_udp_read received (it_stack it) (it_pad it) (lp_queue st) h (lp_shm st);
           Ret (mkLoop (lp_world st) (lp_registry st) (lp_socket st) q s (lp_sent st))
       | None => Ret st
       end;
  match lp_socket st, it_mgmt it with
  | Some ms, Some e =>
      sv ← obj (mgmt_socket_process_one collector_invoke e (Some ms) 0 (lp_registry st) (lp_world st));
      Ret (mkLoop (sv_world sv) (sv_registry sv) (sv_socket sv) (lp_queue st) (lp_shm st)
             (lp_sent st ++ sv_sent sv))
  | _, _ => Ret st
  end.

(** Whether something poll(2) watches is readable. *)
Definition readable (it : Iteration) (st : LoopState) : bool :=
  bool_decide (is_Some (it_udp it)) ||
  (bool_decide (is_Some (lp_socket st)) && bool_decide (is_Some (it_mgmt it))).

(** The loop over the iterations given; the flag of the result tells that it
    has ended. *)
Fixpoint run_event_loop (its : list Iteration) (h : H) (st : LoopState) : exec (bool * LoopState) :=
  match its with
  | [] => Ret (false, st)
  | it :: its' =>
      let st := set_world st (mkCollectorWorld (it_now it) (it_time it) (cw_ctxs (lp_world st))
                                (g_keep_running (lp_world st))) in
      let st := signal_at BeforeTest (it_signal it) st in
      if g_keep_running (lp_world st) =? 0 then Ret (true, st)
      else
        let st := signal_at BeforePoll (it_signal it) st in
        let st := signal_at DuringPoll (it_signal it) st in
        match it_signal it with
        | DuringPoll => Ret (true, st)
        | _ =>
            if it_error it then Ret (true, st)
            else if negb (readable it st) then Blocked
            else st ← serve_events it h st; run_event_loop its' h st
        end
  end.
End events.

Arguments LoopState : clear implicits.
Arguments mkLoop {S}.

(** ** The program *)

(** The system the process runs in. *)
Record CollectorSys := mkCollectorSys {
  cs_sys : Sys; cs_shm : ShmSystem; cs_globals : Globals; cs_queue : option MsgQueue }.

(** What the calls of [main] answer. *)
Record CollectorEnv := mkCollectorEnv {
  ev_robust : bool; ev_pid : Z; ev_time : Z; ev_now : timespec;
  ev_shm : InitEnv; ev_mutex_ok : bool; ev_socket : CreateEnv;
  ev_udp_fd : option Z; ev_udp_bind : bool; ev_port : option (list byte);
  ev_iterations : list Iteration }.

(** The address of the context in the frame of [main]. *)
Definition MGMT_CTX : Z := 8192.

Definition socket_name : list byte := bs "/tmp/studyc_collector.sock".
Definition COLLECTOR_PATH : list byte := socket_name ++ [x00].

(** The exit status ([None]: the loop is still going after the iterations
    given) and the state. *)
Definition main (e : CollectorEnv) (st : CollectorSys)
    : exec (option Z * CollectorSys) :=
  queue ← drain (drain_fuel (cs_queue st)) (cs_queue st) NOTIFY_SIZE;
  let '(shm_handle, shm) := shm_api_init (ev_robust e) (ev_shm e) (cs_shm st) in
  match shm_handle with
  | None => Ret (Some 1, mkCollectorSys (cs_sys st) shm (cs_globals st) queue)
  | Some _ =>
      let w := mkCollectorWorld (ev_now e) (ev_time e) {[MGMT_CTX := mkCollectorCtx (ev_time e)]} 1 in
      let '(r, g) := handler_registry_init (ev_mutex_ok e) (cs_globals st) in
      if r <? 0 then
        Ret (Some 1, mkCollectorSys (cs_sys st) (shm_api_close shm_handle shm) g queue)
      else
        '(r, reg) ← obj (collector_mgmt_register MGMT_CTX (g_registry g));
        let g := mkGlobals reg (g_registry_initialized g) in
        if r <? 0 then
          g ← obj (handler_registry_destroy g);
          Ret (Some 1, mkCollectorSys (cs_sys st) (shm_api_close shm_handle shm) g queue)
        else
          '(sock, sys) ← obj (mgmt_socket_create (ev_socket e) (Some COLLECTOR_PATH) (cs_sys st));
          match sock with
          | None =>
              g ← obj (handler_registry_destroy g);
              Ret (Some 1, mkCollectorSys sys (shm_api_close shm_handle shm) g queue)
          | Some ms =>
              let '(udp_fd, sys) := setup_udp_socket (ev_udp_fd e) (ev_udp_bind e)
                                      (u16 (get_network_udp_port (ev_port e))) sys in
              if udp_fd <? 0 then
                sys ← obj (mgmt_socket_destroy sock sys);
                g ← obj (handler_registry_destroy g);
                Ret (Some 1, mkCollectorSys sys (shm_api_close shm_handle shm) g queue)
              else
                '(ended, lp) ← run_event_loop (ops := sysv_ops (ev_robust e)) (ev_iterations e)
                                 (ev_pid e, shm_handle)
                                 (mkLoop w (g_registry g) sock queue shm []);
                if negb ended then
                  Ret (None, mkCollectorSys sys (lp_shm lp)
                               (mkGlobals (lp_registry lp) (g_registry_initialized g)) (lp_queue lp))
                else
                  let shm := shm_api_close shm_handle (lp_shm lp) in
                  let sys := close_udp_socket udp_fd sys in
                  sys ← obj (mgmt_socket_destroy (lp_socket lp) sys);
                  g ← obj (handler_registry_destroy
                             (mkGlobals (lp_registry lp) (g_registry_initialized g)));
                  Ret (Some 0, mkCollectorSys sys shm g (lp_queue lp))
          end
  end.

(** * Lemmas *)

(** The text a datagram stands for: what precedes its first NUL, of the first
    1023 bytes. *)
Definition payload_text (d : list byte) : list byte := until_nul (take 1023 d).

(** The queue after a notification: it is there if there was room. *)
Definition notified (q : MsgQueue) (pad : list byte) : MsgQueue :=
  mkQueue (q_messages q ++ [(MSG_TYPE_SHM_NOTIFY,
    notify_body (mkNotify MSG_TYPE_SHM_NOTIFY COLLECTOR_STATUS) pad)]) (q_bytes q).

Lemma notify_send q pad :
  msgsnd true (Some q) MSG_TYPE_SHM_NOTIFY
    (notify_body (mkNotify MSG_TYPE_SHM_NOTIFY COLLECTOR_STATUS) pad) =
  if room q (notify_body (mkNotify MSG_TYPE_SHM_NOTIFY COLLECTOR_STATUS) pad)
  then Ret (IpcOk tt, Some (notified q pad)) else Ret (IpcErr EAGAIN, Some q).
Proof. done. Qed.

Section udp.
Context {S H : Type} {ops : ShmOps S H} {api : ShmApi S H}.

Lemma store_datagram_stores d stack h s st t :
  shm_at h s st t -> d <> [] -> length stack = UDP_BUFFER_SIZE ->
  exists s', store_datagram d stack h s = Ret (true, s') /\
    shm_at h s' COLLECTOR_STATUS (take (shm_capacity (S := S) (H := H) - 1) (payload_text d)).
Proof.
  intros Hat Hd Hst. unfold store_datagram, UDP_BUFFER_SIZE in *.
  set (n := Nat.min (length d) (1024 - 1)).
  assert (0 < n < 1024)%nat as Hn by (destruct d; [done|cbn [length] in n; lia]).
  assert (length (take n d) = n) as Hlt by (rewrite length_take; lia).
  rewrite store_safe by (rewrite length_app, length_drop, Hlt; lia). run.
  assert (cstring (<[n:=x00]> (take n d ++ drop n stack)) = Some (payload_text d)) as Hc.
  { rewrite terminate_received by lia. unfold payload_text. do 2 f_equal. unfold n.
    destruct (decide (length d <= 1023)%nat).
    - rewrite !take_ge by lia. done.
    - f_equal. lia. }
  by destruct (shm_write_spec h s st t COLLECTOR_STATUS _ _ Hat Hc) as (s' & -> & Hat'); exists s'.
Qed.

Lemma udp_read_stores d stack pad q h s st t :
  shm_at h s st t -> d <> [] -> length stack = UDP_BUFFER_SIZE ->
  exists s', handle_udp_read (Some d) stack pad q h s =
      ('(_, q') ← msgsnd true q MSG_TYPE_SHM_NOTIFY
        (notify_body (mkNotify MSG_TYPE_SHM_NOTIFY COLLECTOR_STATUS) pad); Ret (q', s')) /\
    shm_at h s' COLLECTOR_STATUS (take (shm_capacity (S := S) (H := H) - 1) (payload_text d)).
Proof.
  intros Hat Hd Hst. unfold handle_udp_read.
  rewrite (proj2 (Nat.eqb_neq _ _)) by (destruct d; [done|unfold UDP_BUFFER_SIZE; cbn [length]; lia]).
  destruct (store_datagram_stores d stack h s st t Hat Hd Hst) as (s' & -> & Hat'). run.
  exists s'. split; [|done]. cbn [negb]. unfold notify_router. cbn [nt_mtype].
  by destruct (msgsnd _ _ _ _) as [[? ?]| |].
Qed.
End udp.

(** ** The loop *)

(** Objects of the right sizes and a clock after the epoch. *)
Definition iteration_fit (it : Iteration) : Prop :=
  wf_timespec (it_now it) /\ length (it_stack it) = UDP_BUFFER_SIZE /\
  forall e, it_mgmt it = Some e -> length (pe_stack e) = MGMT_REQUEST_SIZE.

Section loop.
Context (robust : bool) (h : connection) (s0 : ShmSystem) (fd : Z) (path : list byte).

(** The invariant of the loop: connected, the attachments of [s0], the socket
    of [fd] and [path], handlers that return. *)
Record loop_ok (st : LoopState ShmSystem) : Prop := {
  lo_shm : exists c t, connected robust h (lp_shm st) c t;
  lo_attached : attachments (lp_shm st) = attachments s0;
  lo_socket : exists ms, lp_socket st = Some ms /\ sock_wf ms /\ socket_fd ms = fd /\
    cstring (socket_path ms) = Some path;
  lo_registry : reg_wf (lp_registry st);
  lo_handlers : handlers_total collector_invoke (collector_ready MGMT_CTX) (lp_registry st);
  lo_ctx : is_Some (cw_ctxs (lp_world st) !! MGMT_CTX) }.

Lemma udp_read_attachments received stack pad q s q' s' :
  handle_udp_read (ops := sysv_ops robust) received stack pad q h s = Ret (q', s') ->
  attachments s' = attachments s.
Proof.
  unfold handle_udp_read. destruct received as [d|]; [|by intros [= _ <-]].
  destruct (_ =? _)%nat; [by intros [= _ <-]|].
  intros ([ok s1] & (buffer & _ & Hw)%exec_bind_inv & H)%exec_bind_inv.
  apply write_attachments in Hw. destruct ok; cbn [negb] in H; [|by injection H as _ <-].
  apply exec_bind_inv in H as (q1 & _ & H). by injection H as _ <-.
Qed.

(** A reception of any kind returns and keeps the connection. *)
Lemma udp_read_safe received stack pad q s c t :
  connected robust h s c t -> length stack = UDP_BUFFER_SIZE ->
  exists q' s' c' t', handle_udp_read (ops := sysv_ops robust) received stack pad q h s = Ret (q', s') /\
    connected robust h s' c' t'.
Proof.
  intros Hc Hl. destruct received as [[|b d]|].
  - exists q, s, c, t. by split.
  - destruct (udp_read_stores (api := sysv_api robust) (b :: d) stack pad q h s c t Hc)
      as (s' & -> & Hc'); [done|done|].
    destruct q as [qu|].
    + rewrite notify_send. destruct (room qu _); run; do 4 eexists; (split; [done|exact Hc']).
    + cbn [msgsnd]. run. do 4 eexists. split; [done|exact Hc'].
  - exists q, s, c, t. by split.
Qed.

(** The UDP half of an iteration. *)
Lemma serve_udp_safe it st :
  loop_ok st -> iteration_fit it ->
  exists q s, loop_ok (mkLoop (lp_world st) (lp_registry st) (lp_socket st) q s (lp_sent st)) /\
    serve_events (ops := sysv_ops robust) it h st =
    serve_events (ops := sysv_ops robust)
      (mkIteration (it_now it) (it_time it) (it_signal it) (it_error it) None (it_mgmt it)
         (it_stack it) (it_pad it)) h
      (mkLoop (lp_world st) (lp_registry st) (lp_socket st) q s (lp_sent st)).
Proof.
  intros Hst (_ & Hl & _). unfold serve_events. cbn [it_udp it_mgmt]. run.
  destruct (it_udp it) as [received|]; [|by exists (lp_queue st), (lp_shm st); destruct st].
  destruct (lo_shm _ Hst) as (c & t & Hc).
  destruct (udp_read_safe received (it_stack it) (it_pad it) (lp_queue st) _ c t Hc Hl)
    as (q' & s' & c' & t' & E & Hc'). rewrite E. apply udp_read_attachments in E. run.
  exists q', s'. split; [|done].
  destruct Hst. split; cbn; [by eauto|congruence|done|done|done|done].
Qed.

Lemma serve_events_safe it st :
  loop_ok st -> iteration_fit it -> wf_timespec (cw_now (lp_world st)) ->
  exists st', serve_events (ops := sysv_ops robust) it h st = Ret st' /\ loop_ok st'.
Proof.
  intros Hst Hit Hnow. destruct (serve_udp_safe it st Hst Hit) as (q & s & Hst1 & ->).
  unfold serve_events. cbn [it_udp it_mgmt]. run. cbn [lp_socket lp_registry lp_world].
  destruct (lo_socket _ Hst1) as (ms & Ems & Hms & Hfd & Hp). cbn [lp_socket] in Ems. rewrite Ems.
  destruct (it_mgmt it) as [e|] eqn:Ee; [|by eexists; rewrite <- Ems].
  destruct (process_one_safe collector_invoke (collector_ready MGMT_CTX) e ms 0 (lp_registry st)
    (lp_world st)) as (sv & ms' & -> & Hsv & Hms' & Hfd' & Hp' & Hr' & Hh' & Hw' & _); try apply Hst; auto.
  { by split; [apply lo_ctx|]. }
  { by apply Hit. }
  run. eexists. split; [done|]. destruct Hst1 as [? ? _ _ Hh _]. split; cbn; try done.
  - exists ms'. by rewrite Hfd', Hp'.
  - unfold handlers_return. by rewrite Hh'.
  - apply Hw'.
Qed.

Lemma set_world_ok st w :
  loop_ok st -> cw_ctxs w = cw_ctxs (lp_world st) -> loop_ok (set_world st w).
Proof. intros [] E. split; cbn; try done. by rewrite E. Qed.

Lemma signal_at_ok p p' st : loop_ok st -> loop_ok (signal_at p p' st).
Proof. intros H. unfold signal_at. case_match; [|done]. by apply set_world_ok. Qed.

Lemma signal_at_now p p' (st : LoopState ShmSystem) : cw_now (lp_world (signal_at p p' st)) = cw_now (lp_world st).
Proof. unfold signal_at. by case_match. Qed.

(** Whatever happens, the loop either waits or comes back to a good state. *)
Lemma run_event_loop_safe its st :
  Forall iteration_fit its -> loop_ok st ->
  match run_event_loop (ops := sysv_ops robust) its h st with
  | Ret (_, st') => loop_ok st' | UB => False | Blocked => True
  end.
Proof.
  intros Hits. revert st. induction Hits as [|it its Hit Hits IH]; intros st Hst; [done|].
  cbn [run_event_loop].
  set (st1 := signal_at BeforeTest _ _).
  assert (loop_ok st1) as H1 by (by apply signal_at_ok, set_world_ok).
  assert (cw_now (lp_world st1) = it_now it) as Hn by apply signal_at_now.
  destruct (g_keep_running _ =? 0); [done|].
  set (st2 := signal_at DuringPoll _ _).
  assert (loop_ok st2) as H2 by (by do 2 apply signal_at_ok).
  assert (wf_timespec (cw_now (lp_world st2))) as Hn2.
  { unfold st2. rewrite !signal_at_now, Hn. apply Hit. }
  clearbody st1 st2. destruct (it_signal it); try done;
    (destruct (it_error it); [done|]; destruct (readable it st2); cbn [negb]; [|done]);
    destruct (serve_events_safe it st2 H2 Hit Hn2) as (st3 & -> & H3); run; by apply IH.
Qed.
End loop.

(** ** Single iterations *)

(** The clocks of an iteration. *)
Definition at_clock {S} (it : Iteration) (st : LoopState S) : LoopState S :=
  set_world st (mkCollectorWorld (it_now it) (it_time it) (cw_ctxs (lp_world st))
                  (g_keep_running (lp_world st))).

Section iteration.
Context {S H : Type} {ops : ShmOps S H} (it : Iteration) (its : list Iteration) (h : H)
  (st : LoopState S).

(** With the flag cleared the loop ends, whatever is readable. *)
Lemma loop_ends :
  g_keep_running (lp_world st) = 0 ->
  run_event_loop (it :: its) h st = Ret (true, at_clock it st).
Proof.
  intros Hf. cbn [run_event_loop]. unfold signal_at at 2, at_clock, sig_handler, set_flag, set_world.
  cbn. rewrite Hf. by destruct (it_signal it).
Qed.

Lemma loop_serves :
  g_keep_running (lp_world st) <> 0 -> it_signal it = NoSignal -> it_error it = false ->
  readable it st = true ->
  run_event_loop (it :: its) h st =
    (st ← serve_events it h (at_clock it st); run_event_loop its h st).
Proof.
  intros Hf Hs He Hr. cbn [run_event_loop]. rewrite Hs, He. cbn.
  rewrite (proj2 (Z.eqb_neq _ _) Hf). unfold readable, set_world. cbn.
  unfold readable in Hr. by rewrite Hr.
Qed.
End iteration.

(** ** The program *)

(** The state the process is started in, and the objects of its calls: a
    sound segment, the initial globals, new descriptors. *)
Record start_fit (e : CollectorEnv) (st : CollectorSys) : Prop := {
  sf_now : wf_timespec (ev_now e);
  sf_iterations : Forall iteration_fit (ev_iterations e);
  sf_shm : shm_sound (ev_robust e) (ev_shm e) (cs_shm st);
  sf_globals : cs_globals st = initial_globals;
  sf_socket : forall fd, ce_socket (ev_socket e) = Some fd -> 0 <= fd /\ fd ∉ sys_fds (cs_sys st);
  sf_udp : forall fd, ev_udp_fd e = Some fd -> 0 <= fd /\ (fd ∉ sys_fds (cs_sys st)) /\
    ce_socket (ev_socket e) <> Some fd }.

(** Nothing of the process is left: its descriptors are closed, it has added
    no file, the registry is destroyed, its attachment is undone. *)
Record released (st st' : CollectorSys) : Prop := {
  rl_fds : sys_fds (cs_sys st') = sys_fds (cs_sys st);
  rl_files : sys_files (cs_sys st') ⊆ sys_files (cs_sys st);
  rl_registry : g_registry_initialized (cs_globals st') = false;
  rl_attached : forall id a, attachments (cs_shm st) !! id = Some a ->
    attachments (cs_shm st') !! id = Some a }.

(** What remains of the descriptors and files when the management socket has
    been created on them and is destroyed. *)
Lemma destroy_created sys fd s ms :
  0 <= fd -> (fd ∉ sys_fds sys) -> socket_fd ms = fd -> cstring (socket_path ms) = Some (take 107 s) ->
  exists sys', mgmt_socket_destroy (Some ms) (sys_bind (take 107 s) (sys_unlink s (sys_open fd sys)))
      = Some sys' /\ sys_fds sys' = sys_fds sys /\ sys_files sys' ⊆ sys_files sys.
Proof.
  intros Hpos Hnew Hfd Hp. unfold mgmt_socket_destroy.
  rewrite Hfd, (proj2 (Z.leb_le _ _) Hpos), Hp. cbn [mbind option_bind]. eexists. split; [done|].
  cbn. split; set_solver.
Qed.

(** Closing undoes the setup of the UDP socket, failed or not. *)
Lemma setup_close ufd bind_ok port sys u sys' :
  (forall fd, ufd = Some fd -> 0 <= fd /\ fd ∉ sys_fds sys) ->
  setup_udp_socket ufd bind_ok port sys = (u, sys') ->
  close_udp_socket u sys' = sys /\ (u < 0 -> sys' = sys).
Proof.
  intros Hf. destruct sys as [fds files]. unfold setup_udp_socket, sys_open, sys_close.
  destruct ufd as [fd|]; [|by intros [= <- <-]]. destruct (Hf fd eq_refl) as [Hpos Hnew].
  cbn [sys_fds sys_files] in *. assert (({[fd]} ∪ fds) ∖ {[fd]} = fds) as Hc by set_solver.
  unfold close_udp_socket, sys_close. destruct bind_ok; intros [= <- <-]; cbn [sys_fds sys_files].
  - rewrite (proj2 (Z.leb_le _ _) Hpos), Hc. split; [done|lia].
  - by rewrite Hc.
Qed.

(** The registry [main] starts with. *)
Lemma registry_started e st r g :
  cs_globals st = initial_globals -> handler_registry_init (ev_mutex_ok e) (cs_globals st) = (r, g) ->
  (r = -1 /\ g = initial_globals) \/
  (r = 0 /\ g_registry_initialized g = true /\ exists reg,
    collector_mgmt_register MGMT_CTX (g_registry g) = Some (0, reg) /\ reg_wf reg /\
    reg_unique reg /\ abs reg = three_handlers "collector" MGMT_CTX).
Proof.
  intros ->. unfold handler_registry_init. cbn [g_registry_initialized initial_globals].
  destruct (ev_mutex_ok e); cbn [negb]; intros [= <- <-]; [right|by left].
  split; [done|]. split; [done|]. apply register_three_empty; cbn; try done.
  - by apply no_nul_lit.
  - lia.
  - apply reg_wf_empty.
  - apply NoDup_nil_2.
Qed.

(** The state [main] enters the loop with. *)
Lemma loop_start_ok e shm c fd d reg q st t :
  connected (ev_robust e) (ev_pid e, Some c) shm st t -> 0 <= fd ->
  cstring d = Some (take 107 socket_name) -> reg_wf reg -> reg_unique reg ->
  abs reg = three_handlers "collector" MGMT_CTX ->
  loop_ok (ev_robust e) (ev_pid e, Some c) shm fd (take 107 socket_name)
    (mkLoop (mkCollectorWorld (ev_now e) (ev_time e) {[MGMT_CTX := mkCollectorCtx (ev_time e)]} 1)
       reg (Some (mkSocket fd d d 0 0 0 MtxFree)) q shm []).
Proof.
  intros Hc Hfd Hd Hr Hu Ha. split; cbn; [by eauto|done| |done|by apply collector_handlers_total|].
  - eexists. split; [done|]. split; [|done]. split; cbn; try done. by eexists.
  - by eexists.
Qed.

(** * Properties *)

(** C26: a UDP datagram becomes the contents of the shared segment: its first
    1023 bytes up to the first NUL, with status 100, are written, whatever was
    there, and exactly one notification is appended to the queue.  When the
    queue is full the segment is overwritten without a notification; an empty
    datagram or a failed reception changes nothing. *)
Theorem handle_udp_read_publishes {S H : Type} {ops : ShmOps S H} {api : ShmApi S H}
    d stack pad q h s st t :
  shm_at h s st t -> length stack = UDP_BUFFER_SIZE ->
  (d <> [] -> exists s', shm_at h s' COLLECTOR_STATUS
       (take (shm_capacity (S := S) (H := H) - 1) (payload_text d)) /\
     handle_udp_read (Some d) stack pad (Some q) h s =
       Ret (Some (if room q (notify_body (mkNotify MSG_TYPE_SHM_NOTIFY COLLECTOR_STATUS) pad)
                  then notified q pad else q), s')) /\
  handle_udp_read (Some []) stack pad (Some q) h s = Ret (Some q, s) /\
  handle_udp_read None stack pad (Some q) h s = Ret (Some q, s).
Proof.
  intros Hat Hst. split; [|done]. intros Hd.
  destruct (udp_read_stores d stack pad (Some q) h s st t Hat Hd Hst) as (s' & -> & Hat').
  exists s'. split; [done|]. rewrite notify_send. by destruct (room q _).
Qed.

(** C24: the Collector releases everything it acquires.  Whatever its calls
    answer and whatever arrives on its sockets, [main] has no undefined
    behaviour; and when it exits, at any of its exits, its descriptors are
    closed, no socket file of its own is left, the handler registry is
    destroyed, and every segment has as many attachments as before. *)
Theorem collector_main_clean e st :
  start_fit e st ->
  match main e st with
  | Ret (Some code, st') => (code = 0 \/ code = 1) /\ released st st'
  | Ret (None, st') => g_registry_initialized (cs_globals st') = true
  | UB => False
  | Blocked => True
  end.
Proof.
  intros [Hnow Hits Hshm Hg Hsock Hudp]. unfold main.
  destruct (drain_returns (cs_queue st) NOTIFY_SIZE) as [q ->]. run.
  destruct (shm_api_init _ _ _) as [[c|] shm] eqn:Ei; first last.
  { split; [by right|]. split; cbn; [done|done|by rewrite Hg|].
    intros id a. by eapply init_failed. }
  destruct (init_then_close _ (ev_pid e) _ _ _ _ Hshm Ei) as [(c0 & t0 & Hc) Hcl].
  destruct (handler_registry_init _ _) as [r g] eqn:Er.
  destruct (registry_started e st r g Hg Er) as [[-> ->]|(-> & Hgi & reg & -> & Hr & Hu & Ha)];
    cbn [Z.ltb Z.compare].
  { split; [by right|]. split; cbn [cs_sys cs_shm cs_globals]; [done|done|done|by apply Hcl]. }
  run. cbn [Z.ltb Z.compare]. rewrite Hgi.
  destruct (create_result (ev_socket e) COLLECTOR_PATH socket_name
    (cs_sys st) eq_refl Hsock) as (h & sys1 & -> & Hh). run.
  destruct (registry_destroy_wf reg Hr) as (g2 & Hg2 & _ & Hi2 & _).
  destruct h as [ms|].
  2: { rewrite Hg2. run. split; [by right|]. destruct Hh.
       split; cbn [cs_sys cs_shm cs_globals]; [done|done|done|by apply Hcl]. }
  destruct Hh as (fd & d & Hpos & Hnew & Hce & Hd & Hms & ->).
  destruct (setup_udp_socket _ _ _ _) as [u sys2] eqn:Eu.
  apply setup_close in Eu as [Hcu Hfail].
  2: { intros f Hf. destruct (Hudp f Hf) as (? & ? & Hne). rewrite Hce in Hne. cbn. set_solver. }
  destruct (u <? 0) eqn:Eneg.
  { destruct (destroy_created (cs_sys st) fd socket_name ms Hpos Hnew) as (sys3 & H3 & ? & ?);
      [by rewrite Hms|by rewrite Hms|]. rewrite Hfail, H3, Hg2 by by apply Z.ltb_lt. run.
    split; [by right|]. split; cbn [cs_sys cs_shm cs_globals]; [done|done|done|by apply Hcl]. }
  subst ms. pose proof (run_event_loop_safe _ _ _ _ _ (ev_iterations e) _ Hits
    (loop_start_ok e shm c fd d reg q c0 t0 Hc Hpos Hd Hr Hu Ha)) as Hloop.
  cbn [g_registry g_registry_initialized].
  destruct (run_event_loop _ _ _) as [[[|] lp]| |]; run; cbn [negb]; try done.
  destruct Hloop as [_ Hatt (ms & -> & _ & Hfd & Hp) Hr' _ _].
  destruct (destroy_created (cs_sys st) fd socket_name ms Hpos Hnew Hfd Hp) as (sys3 & H3 & ? & ?).
  destruct (registry_destroy_wf _ Hr') as (g3 & -> & _ & Hi3 & _). rewrite Hcu, H3. run.
  split; [by left|]. split; cbn [cs_sys cs_shm cs_globals]; [done|done|done|by apply Hcl].
Qed.

(** C28: a SHUTDOWN request stops the Collector: in the iteration that receives
    it, with or without a datagram to forward, the client gets exactly one
    answer, with the text of the handler, and the loop ends at its next test,
    without waiting for anything more, in a state whose resources [main] can
    release.  The request is answered whatever its flags are, also with the flag
    0x02 that the header documents as "no-response" and the code ignores. *)
Theorem collector_shutdown_stops robust h s0 fd path st q client stack it it' its :
  loop_ok robust h s0 fd path st -> serving "collector" MGMT_CTX (lp_registry st) ->
  request_for "collector" q -> rq_cmd_type q = MGMT_CMD_SHUTDOWN ->
  g_keep_running (lp_world st) <> 0 -> iteration_fit it ->
  it_signal it = NoSignal -> it_error it = false ->
  it_mgmt it = Some (mkProcessEnv true (RecvFrom (encode_request q) client) stack true) ->
  exists st' p,
    run_event_loop (ops := sysv_ops robust) (it :: it' :: its) h st = Ret (true, st') /\
    loop_ok robust h s0 fd path st' /\ g_keep_running (lp_world st') = 0 /\
    lp_sent st' = lp_sent st ++ [(client, encode_response p)] /\
    answers "collector" (bs "shutdown initiated") (it_now it) q p.
Proof.
  intros Hst Hserv Hq Hcmd Hrun Hit Hsig Herr Hm.
  destruct (lo_socket _ _ _ _ _ _ Hst) as (ms & Ems & Hms & _).
  rewrite loop_serves; [|done|done|done|].
  2: { unfold readable. rewrite Ems, Hm. by rewrite !orb_true_r. }
  assert (loop_ok robust h s0 fd path (at_clock it st)) as H1 by by apply set_world_ok.
  destruct (serve_events_safe robust h s0 fd path it _ H1 Hit) as (st' & Es & H'); [apply Hit|].
  rewrite Es. run.
  destruct (serve_udp_safe robust h s0 fd path it _ H1 Hit) as (qu & s & _ & E). rewrite E in Es.
  unfold serve_events in Es. cbn [it_udp it_mgmt] in Es. cbn [mbind option_bind exec_bind obj] in Es.
  cbn [lp_socket lp_registry lp_world lp_queue lp_shm lp_sent at_clock set_world] in Es.
  rewrite Ems, Hm in Es.
  destruct (proj1 (@module_dispatch _ collector_module MGMT_CTX (lp_registry st) q
    (lp_world (at_clock it st)) Hserv Hq (conj (lo_ctx _ _ _ _ _ _ Hst) (proj1 Hit))))
    as (info & p & r' & w' & _ & Hd & Hans & _ & _ & Hstop); [rewrite Hcmd; by right; right|].
  rewrite Hcmd in Hstop, Hans. cbn in Hstop.
  rewrite (process_one_dispatched collector_invoke _ (encode_request q) client ms 0 (lp_registry st)
    (lp_world (at_clock it st)) 0 p r' w') in Es; try done.
  2: { cbn [pe_stack]. rewrite recv_into_full, decode_encode_request_wf; [done|apply Hq|].
       destruct Hit as (_ & _ & Hl). rewrite length_encode_request by apply Hq.
       symmetry. exact (Hl _ Hm). }
  cbn [mbind option_bind exec_bind obj] in Es. injection Es as <-.
  unfold collector_stop in Hstop. subst w'. rewrite loop_ends by done.
  eexists _, p. split; [done|]. split; [by apply set_world_ok|]. split; [done|]. split; [done|].
  exact Hans.
Qed.

(** How a signal stops the Collector.  Delivered before the test of the flag
    or while the process waits in poll, it ends the loop.  Delivered between
    the test and the call of poll it clears the flag, but with nothing to read
    the process goes to sleep with the flag cleared: it stops only when some
    datagram arrives, which it then still serves. *)
Theorem collector_signal_window {S H} {ops : ShmOps S H} it its h (st : LoopState S) :
  g_keep_running (lp_world st) <> 0 -> it_error it = false ->
  let stopped := set_world (at_clock it st) (sig_handler (lp_world (at_clock it st))) in
  match it_signal it with
  | BeforeTest | DuringPoll => run_event_loop (it :: its) h st = Ret (true, stopped)
  | BeforePoll =>
      (readable it st = false -> run_event_loop (it :: its) h st = Blocked) /\
      (readable it st = true -> forall it', run_event_loop (it :: it' :: its) h st =
         (st' ← serve_events it h stopped; run_event_loop (it' :: its) h st'))
  | NoSignal => readable it st = false -> run_event_loop (it :: its) h st = Blocked
  end.
Proof.
  intros Hf He stopped. destruct (it_signal it) eqn:Es; cbn [run_event_loop]; rewrite ?Es, ?He; cbn.
  - rewrite (proj2 (Z.eqb_neq _ _) Hf). intros Hr. unfold readable in *. cbn. by rewrite Hr.
  - done.
  - rewrite (proj2 (Z.eqb_neq _ _) Hf). unfold readable in *. cbn.
    split; intros ->; [done|]. intros it'. done.
  - by rewrite (proj2 (Z.eqb_neq _ _) Hf).
Qed.

(** ** Concrete runs *)

(** A SHUTDOWN request for the Collector, and an iteration with it and a datagram. *)
Definition shutdown_request : MgmtCommandRequest :=
  mkRequest 6 MGMT_CMD_SHUTDOWN 0 0 zero_timespec (lit "collector" ++ zeros 54) (zeros 512).

Definition demo_iteration : Iteration :=
  mkIteration zero_timespec 0 NoSignal false (Some (Some (bs "hello")))
    (Some (mkProcessEnv true (RecvFrom (encode_request shutdown_request) (bs "/tmp/c")) (zeros 600) true))
    (zeros 1024) (zeros 4).

Lemma demo_iteration_fit : iteration_fit demo_iteration.
Proof.
  split; [vm_compute; repeat split; congruence|]. split; [done|]. by intros e [= <-].
Qed.

Definition demo_queue : MsgQueue := mkQueue [(2, zeros 8)] 16384.

Definition demo_env : CollectorEnv :=
  mkCollectorEnv false 100 0 zero_timespec (granting 7) true (mkCreateEnv true (Some 3) true)
    (Some 4) true None [demo_iteration; demo_iteration].

Definition demo_start : CollectorSys :=
  mkCollectorSys (mkSys {[0; 1; 2]} ∅) no_segments initial_globals (Some demo_queue).

Lemma demo_start_fit : start_fit demo_env demo_start.
Proof.
  split.
  - apply demo_iteration_fit.
  - exact (Forall_cons_2 _ _ _ demo_iteration_fit
      (Forall_cons_2 _ _ _ demo_iteration_fit (Forall_nil_2 _))).
  - split; [done|]. intros id _. apply lookup_empty.
  - done.
  - intros fd [= <-]. split; [lia|]. by vm_compute.
  - intros fd [= <-]. split_and!; [lia|by vm_compute|done].
Qed.

Lemma demo_connection : exists s, connected false (100, Some (mkCtx 7 true)) s 0 [].
Proof.
  destruct (init_creates false 7 no_segments eq_refl) as (s & _ & _ & Hs). exists s.
  apply fresh_connected. rewrite Hs. apply lookup_insert_eq.
Qed.

(** The loop of [main], as it is entered in that run. *)
Lemma demo_loop : exists s0 fd path st, loop_ok false (100, Some (mkCtx 7 true)) s0 fd path st /\
  serving "collector" MGMT_CTX (lp_registry st) /\ g_keep_running (lp_world st) <> 0.
Proof.
  destruct demo_connection as [s Hc].
  destruct (registry_started demo_env demo_start 0 _ eq_refl eq_refl)
    as [[? _]|(_ & _ & reg & _ & Hr & Hu & Ha)]; [done|].
  destruct (path_stored COLLECTOR_PATH socket_name eq_refl) as (d & _ & Hd & _).
  do 4 eexists. split.
  - eapply (loop_start_ok demo_env s (mkCtx 7 true) 3 d reg None 0 []); try done; lia.
  - split; [|done]. by apply serving_three.
Qed.

Lemma handle_udp_read_publishes_witness :
  exists s s', connected false (100, Some (mkCtx 7 true)) s' COLLECTOR_STATUS (bs "hello") /\
    handle_udp_read (ops := sysv_ops false) (Some (bs "hello")) (zeros 1024) (zeros 4)
      (Some demo_queue) (100, Some (mkCtx 7 true)) s = Ret (Some (notified demo_queue (zeros 4)), s').
Proof.
  destruct demo_connection as [s Hc]. exists s.
  destruct (handle_udp_read_publishes (ops := sysv_ops false) (api := sysv_api false) (bs "hello")
    (zeros 1024) (zeros 4) demo_queue (100, Some (mkCtx 7 true)) s 0 [] Hc eq_refl) as [H _].
  destruct (H ltac:(discriminate)) as (s' & H1 & H2). exists s'. split; [exact H1|exact H2].
Defined.

Lemma collector_main_clean_witness :
  exists st', main demo_env demo_start = Ret (Some 0, st') /\ released demo_start st'.
Proof.
  pose proof (collector_main_clean demo_env demo_start demo_start_fit) as H.
  assert (fst <$> (match main demo_env demo_start with Ret x => Some x | _ => None end)
    = Some (Some 0)) as E by (vm_compute; reflexivity).
  destruct (main demo_env demo_start) as [[[code|] st']| |]; try discriminate E.
  injection E as ->. exists st'. split; [reflexivity|]. destruct H as [_ H]. exact H.
Defined.

Lemma collector_shutdown_stops_witness :
  exists st st' p, run_event_loop (ops := sysv_ops false) [demo_iteration; demo_iteration]
      (100, Some (mkCtx 7 true)) st = Ret (true, st') /\ g_keep_running (lp_world st') = 0 /\
    lp_sent st' = lp_sent st ++ [(bs "/tmp/c", encode_response p)].
Proof.
  destruct demo_loop as (s0 & fd & path & st & Hok & Hserv & Hrun). exists st.
  destruct (collector_shutdown_stops false (100, Some (mkCtx 7 true)) s0 fd path st shutdown_request
    (bs "/tmp/c") (zeros 600) demo_iteration demo_iteration [] Hok Hserv) as (st' & p & H1 & _ & H2 & H3 & _).
  - split; [|split; reflexivity]. split; try reflexivity; vm_compute; repeat split; congruence.
  - reflexivity.
  - exact Hrun.
  - exact demo_iteration_fit.
  - reflexivity.
  - reflexivity.
  - reflexivity.
  - exists st', p. split; [exact H1|]. split; [exact H2|exact H3].
Defined.

Lemma collector_signal_window_witness :
  exists st, run_event_loop (ops := sysv_ops false)
    [mkIteration zero_timespec 0 BeforePoll false None None (zeros 1024) (zeros 4)]
    (100, Some (mkCtx 7 true)) st = Blocked.
Proof.
  destruct demo_loop as (s0 & fd & path & st & Hok & Hserv & Hrun). exists st.
  apply (collector_signal_window (ops := sysv_ops false)
    (mkIteration zero_timespec 0 BeforePoll false None None (zeros 1024) (zeros 4)) []
    (100, Some (mkCtx 7 true)) st Hrun eq_refl).
  unfold readable. by destruct (lp_socket st).
Defined.
