(* ===== verification/Router.v ===== *)
(** * The Router's threads (Router/src/router_worker.c, signal_worker.c, udp_worker.c, main.c)

    The router thread waits for notifications, copies the segment's text into a
    line for the Viewer and writes it to a TCP connection; the signal thread
    turns signals into events; the main thread waits for events and shuts the
    process down.  The threads share the main queue, the notification queue,
    the segment, the flag and the pipe; the effect of the other threads and
    processes is an argument of each iteration.  Log output is left out; the
    code under ENABLE_FAULT_INJECTION is in RouterFault.v. *)

From S2P Require Import Prelude CLib MgmtProtocol EventHandler MgmtSocket Handlers.
From S2P Require Import Ipc ShmData Shm RouterMsg RouterMgmt NetworkConfig.

(** ** The router thread: connecting *)

Definition CONNECT_MAX_RETRIES : nat := 5.

Inductive ConnectResult := Connected | StopRequested | Refused.

(** [attempt i]: whether the i-th connect succeeds, and whether the shutdown
    pipe becomes readable in the wait after it. *)
Fixpoint connect_loop (attempt : nat -> bool * bool) (i retries : nat) : ConnectResult :=
  match retries with
  | O => Refused
  | S retries' =>
      if fst (attempt i) then Connected
      else if snd (attempt i) then StopRequested
      else connect_loop attempt (S i) retries'
  end.

(** ** The router thread: relaying *)

Definition PAYLOAD_SIZE : nat := 1024.

(** [char tcp_buf[MAX_PAYLOAD_SIZE + 64]] *)
Definition TCP_BUF_SIZE : nat := 1088.

(** What send(2) answers: it takes a positive number of bytes, the peer has
    gone (EPIPE, ECONNRESET), or another error. *)
Inductive send_result := TcpSent (n : nat) | TcpReset | TcpError.

Section relay.
Context {S H : Type} {ops : ShmOps S H}.

(** What the thread shares and what it has written to its connection. *)
Record RelayState := mkRelay {
  rl_ipc : option MsgQueue; rl_main : option MsgQueue; rl_shm : S; rl_tcp : list byte }.

(** After a notification: the segment's text goes out as a line; whether the
    Viewer is still there.  [stack] is the memory under [tcp_buf], [status] that
    of [status_read]. *)
Definition relay_send (answer : send_result) (stack : list byte) (status : Z) (h : H)
    (st : RelayState) : exec (bool * RelayState) :=
  '(ok, _, payload, s) ← shm_read h (Some status) (Some (zeros PAYLOAD_SIZE)) (rl_shm st);
  if negb ok then Ret (true, mkRelay (rl_ipc st) (rl_main st) s (rl_tcp st))
  else
    payload ← obj payload;
    text ← obj (cstring payload);
    '(tcp_buf, _) ← obj (snprintf stack 0 (Z.of_nat TCP_BUF_SIZE)
                           (bs "[TCP-RELAY] " ++ text ++ [x0a]));
    line ← obj (cstring tcp_buf);
    Ret (match answer with
         | TcpSent n => (true, mkRelay (rl_ipc st) (rl_main st) s (rl_tcp st ++ take n line))
         | TcpReset => (false, mkRelay (rl_ipc st) (rl_main st) s (rl_tcp st))
         | TcpError => (true, mkRelay (rl_ipc st) (rl_main st) s (rl_tcp st))
         end).

(** ... with the event when it has gone; whether to go on. *)
Definition relay_text (answer : send_result) (stack : list byte) (status : Z) (h : H)
    (st : RelayState) : exec (bool * RelayState) :=
  '(go, st) ← relay_send answer stack status h st;
  if go : bool then Ret (true, st)
  else
    '(_, mq) ← send_signal_event (rl_main st) SIGTERM;
    Ret (false, mkRelay (rl_ipc st) mq (rl_shm st) (rl_tcp st)).

(** The body of the loop: whether to go on. *)
Definition relay_step (answer : send_result) (stack : list byte) (status : Z) (h : H)
    (st : RelayState) : exec (bool * RelayState) :=
  '(a, ipc) ← msgrcv false false (rl_ipc st) NOTIFY_SIZE MSG_TYPE_SHM_NOTIFY;
  let st := mkRelay ipc (rl_main st) (rl_shm st) (rl_tcp st) in
  match a with
  | IpcErr _ => Ret (true, st)
  | IpcOk (mtype, body) =>
      if shm_status_id (notify_of mtype body) =? MSG_TYPE_SHM_QUIT then Ret (false, st)
      else relay_text answer stack status h st
  end.

(** An iteration: what the others do to the queues and the segment before it,
    the answer of send and the stack. *)
Record RelayIteration := mkRelayIteration {
  ri_others : RelayState -> RelayState; ri_send : send_result;
  ri_stack : list byte; ri_status : Z }.

(** The loop over the iterations given; the flag tells that it has ended. *)
Fixpoint relay_loop (its : list RelayIteration) (h : H) (st : RelayState)
    : exec (bool * RelayState) :=
  match its with
  | [] => Ret (false, st)
  | it :: its' =>
      '(go, st) ← relay_step (ri_send it) (ri_stack it) (ri_status it) h (ri_others it st);
      if negb go then Ret (true, st) else relay_loop its' h st
  end.

(** The thread: whether it has ended, the shared state and the descriptors. *)
Definition router_worker (tcp_sock : option Z) (attempt : nat -> bool * bool)
    (its : list RelayIteration) (h : H) (st : RelayState) (sys : Sys)
    : exec (bool * RelayState * Sys) :=
  match tcp_sock with
  | None =>
      '(_, mq) ← send_fatal_event (rl_main st) (Some (lit "router_worker: socket open failure"));
      Ret (true, mkRelay (rl_ipc st) mq (rl_shm st) (rl_tcp st), sys)
  | Some fd =>
      let sys := sys_open fd sys in
      match connect_loop attempt 0 CONNECT_MAX_RETRIES with
      | StopRequested => Ret (true, st, sys_close fd sys)
      | Refused =>
          '(_, mq) ← send_fatal_event (rl_main st)
                       (Some (lit "router_worker: TCP connect failure after retries"));
          Ret (true, mkRelay (rl_ipc st) mq (rl_shm st) (rl_tcp st), sys_close fd sys)
      | Connected =>
          '(ended, st) ← relay_loop its h st;
          Ret ((ended, st), if ended : bool then sys_close fd sys else sys)
      end
  end.
End relay.

Arguments RelayState : clear implicits.
Arguments RelayIteration : clear implicits.
Arguments mkRelay {S}.
Arguments mkRelayIteration {S}.

(** ** The signal thread *)

(** An iteration: what the others do to the main queue, the flag it finds, and
    the signal sigwait(3) returns ([None]: an error). *)
Record SignalIteration := mkSignalIteration {
  si_others : option MsgQueue -> option MsgQueue; si_running : bool; si_wait : option Z }.

Fixpoint signal_loop (its : list SignalIteration) (q : option MsgQueue)
    : exec (bool * option MsgQueue) :=
  match its with
  | [] => Ret (false, q)
  | it :: its' =>
      let q := si_others it q in
      if negb (si_running it) then Ret (true, q)
      else
        match si_wait it with
        | None => Ret (true, q)
        | Some sig =>
            '(_, q) ← send_signal_event q sig;
            if (sig =? SIGINT) || (sig =? SIGTERM) then Ret (true, q) else signal_loop its' q
        end
  end.

(** Whether it has posted the semaphore, whether it has ended, and the queue. *)
Definition signal_worker (sigmask_ok : bool) (its : list SignalIteration) (q : option MsgQueue)
    : exec (bool * bool * option MsgQueue) :=
  if negb sigmask_ok then Ret (false, true, q)
  else '(ended, q) ← signal_loop its q; Ret (true, ended, q).

(** ** The UDP thread *)

Definition UDP_QUIT_CMD : list byte := lit "QUIT".

(** What select(2) and recvfrom(2) answer. *)
Inductive udp_event :=
| SelectInterrupted | SelectFailed | StopReadable
| UdpInterrupted | UdpFailed | UdpReceived (d : list byte).

Record UdpIteration := mkUdpIteration {
  ui_others : option MsgQueue -> option MsgQueue; ui_running : bool; ui_event : udp_event }.

(** [buf] is the 256-byte buffer, kept from one iteration to the next. *)
Fixpoint udp_loop (its : list UdpIteration) (buf : list byte) (q : option MsgQueue)
    : exec (bool * option MsgQueue) :=
  match its with
  | [] => Ret (false, q)
  | it :: its' =>
      let q := ui_others it q in
      if negb (ui_running it) then Ret (true, q)
      else
        match ui_event it with
        | SelectInterrupted | UdpInterrupted => udp_loop its' buf q
        | SelectFailed | StopReadable | UdpFailed => Ret (true, q)
        | UdpReceived d =>
            let n := Nat.min (length d) (length buf - 1) in
            if (n =? 0)%nat then udp_loop its' buf q
            else
              buf ← obj (store (take n d ++ drop n buf) n x00);
              text ← obj (cstring buf);
              quit ← obj (cstring UDP_QUIT_CMD);
              if decide (text = quit) then udp_loop its' buf q
              else '(_, q) ← send_udp_event q (Some buf); udp_loop its' buf q
        end
  end.

Definition udp_worker (fd : option Z) (bind_ok : bool) (stop_fd : Z) (its : list UdpIteration)
    (stack : list byte) (q : option MsgQueue) (s : Sys) : exec (bool * option MsgQueue * Sys) :=
  match fd with
  | None => Ret (true, q, s)
  | Some fd =>
      let s := sys_open fd s in
      if negb bind_ok then Ret (true, q, sys_close fd s)
      else if stop_fd =? -1 then Ret (true, q, sys_close fd s)
      else
        '(ended, q) ← udp_loop its stack q;
        Ret ((ended, q), if ended : bool then sys_close fd s else s)
  end.

(** ** The main thread *)

(** The process and what it shares with the system: the descriptors, the
    segments, the registry, the two queues, the flag, the pipe, the semaphore
    and the threads that have not been joined. *)
Record RouterSys := mkRouterSys {
  ry_sys : Sys; ry_shm : ShmSystem; ry_globals : Globals; ry_main : option MsgQueue;
  ry_ipc : option MsgQueue; ry_running : bool; ry_pipe0 : option Z; ry_pipe1 : option Z;
  ry_sem : bool; ry_threads : gset Z }.

Definition set_queues (st : RouterSys) (mq ipc : option MsgQueue) : RouterSys :=
  mkRouterSys (ry_sys st) (ry_shm st) (ry_globals st) mq ipc (ry_running st) (ry_pipe0 st)
    (ry_pipe1 st) (ry_sem st) (ry_threads st).
Definition set_running (st : RouterSys) (b : bool) : RouterSys :=
  mkRouterSys (ry_sys st) (ry_shm st) (ry_globals st) (ry_main st) (ry_ipc st) b (ry_pipe0 st)
    (ry_pipe1 st) (ry_sem st) (ry_threads st).
Definition set_pipe (st : RouterSys) (s : Sys) (p0 p1 : option Z) : RouterSys :=
  mkRouterSys s (ry_shm st) (ry_globals st) (ry_main st) (ry_ipc st) (ry_running st) p0 p1
    (ry_sem st) (ry_threads st).
Definition set_shm (st : RouterSys) (s : ShmSystem) : RouterSys :=
  mkRouterSys (ry_sys st) s (ry_globals st) (ry_main st) (ry_ipc st) (ry_running st) (ry_pipe0 st)
    (ry_pipe1 st) (ry_sem st) (ry_threads st).
Definition set_globals (st : RouterSys) (g : Globals) : RouterSys :=
  mkRouterSys (ry_sys st) (ry_shm st) g (ry_main st) (ry_ipc st) (ry_running st) (ry_pipe0 st)
    (ry_pipe1 st) (ry_sem st) (ry_threads st).
Definition set_sem (st : RouterSys) (b : bool) : RouterSys :=
  mkRouterSys (ry_sys st) (ry_shm st) (ry_globals st) (ry_main st) (ry_ipc st) (ry_running st)
    (ry_pipe0 st) (ry_pipe1 st) b (ry_threads st).
Definition set_threads (st : RouterSys) (t : gset Z) : RouterSys :=
  mkRouterSys (ry_sys st) (ry_shm st) (ry_globals st) (ry_main st) (ry_ipc st) (ry_running st)
    (ry_pipe0 st) (ry_pipe1 st) (ry_sem st) t.

(** [pad]: the padding of the message, which is not written. *)
Definition send_shm_quit (q : option MsgQueue) (pad : list byte) : exec (option MsgQueue) :=
  let notify := mkNotify MSG_TYPE_SHM_NOTIFY MSG_TYPE_SHM_QUIT in
  '(_, q) ← msgsnd false q (nt_mtype notify) (notify_body notify pad);
  Ret q.

(** Clear the flag. *)
Definition stop_running (st : RouterSys) : RouterSys := set_running st false.

(** Close the write end of the pipe, once. *)
Definition close_shutdown_pipe (st : RouterSys) : RouterSys :=
  match ry_pipe1 st with
  | Some fd => set_pipe st (sys_close fd (ry_sys st)) (ry_pipe0 st) None
  | None => st
  end.

Definition quit_router (pad : list byte) (st : RouterSys) : exec RouterSys :=
  q ← send_shm_quit (ry_ipc st) pad; Ret (set_queues st (ry_main st) q).

(** The switch of the main loop.  The texts are read by the log calls. *)
Definition handle_event (m : InternalMsg) (pad : list byte) (st : RouterSys) : exec RouterSys :=
  if im_event m =? event_code EV_QUIT then Ret st
  else if (im_event m =? event_code EV_UDP) || (im_event m =? event_code EV_IPC) then
    _ ← obj (cstring (im_data m)); Ret st
  else if im_event m =? event_code EV_SIGNAL then
    if (sig_num m =? SIGINT) || (sig_num m =? SIGTERM) then
      let st := stop_running st in
      st ← quit_router pad st;
      Ret (close_shutdown_pipe st)
    else Ret st
  else if im_event m =? event_code EV_FATAL then
    _ ← obj (cstring (im_data m));
    Ret (close_shutdown_pipe (stop_running st))
  else Ret st.

(** An iteration of the main loop: what the other threads and processes have
    done before it, and whether msgrcv(2) is interrupted. *)
Record MainIteration := mkMainIteration {
  mi_others : RouterSys -> RouterSys; mi_interrupted : bool; mi_pad : list byte }.

Fixpoint main_loop (its : list MainIteration) (st : RouterSys) : exec (bool * RouterSys) :=
  match its with
  | [] => Ret (false, st)
  | it :: its' =>
      let st := mi_others it st in
      if negb (ry_running st) then Ret (true, st)
      else if mi_interrupted it then main_loop its' st
      else
        '(a, q) ← msgrcv false false (ry_main st) MSG_SIZE 0;
        let st := set_queues st q (ry_ipc st) in
        match a with
        | IpcErr _ => Ret (true, st)
        | IpcOk (mtype, body) =>
            st ← handle_event (msg_of mtype body) (mi_pad it) st;
            main_loop its' st
        end
  end.

(** ** Startup and cleanup *)

Definition T_SIGNAL : Z := 2.
Definition T_ROUTER : Z := 3.
Definition T_MGMT : Z := 4.

(** The address of the context in the frame of [main]. *)
Definition ROUTER_CTX : Z := 8192.

(** pthread_join(3): the effect of the thread up to its end ([None]: it does not
    end). *)
Definition join (t : Z) (run : option (RouterSys -> RouterSys)) (st : RouterSys) : exec RouterSys :=
  match run with
  | Some f => let st := f st in Ret (set_threads st (ry_threads st ∖ {[t]}))
  | None => Blocked
  end.

(** What the calls of [main] answer, and what the other threads do. *)
Record RouterEnv := mkRouterEnv {
  ne_main_queue : option MsgQueue; ne_ipc_ok : bool; ne_robust : bool; ne_shm : InitEnv;
  ne_pipe : option (Z * Z); ne_sem_init : bool; ne_sigmask : bool; ne_t2 : bool;
  ne_t2_posts : bool; ne_sem_wait : bool; ne_t3 : bool; ne_mutex_ok : bool; ne_t_mgmt : bool;
  ne_iterations : list MainIteration; ne_pad : list byte;
  ne_t2_run : option (RouterSys -> RouterSys); ne_t3_run : option (RouterSys -> RouterSys);
  ne_mgmt_run : option (RouterSys -> RouterSys) }.

Section cleanup.
Variables (e : RouterEnv) (shm_handle : option ShmContext).

(** The labels of [main], each falling through to the next one. *)
Definition cleanup_log (registry_initialized : bool) (st : RouterSys) : exec RouterSys :=
  if registry_initialized then
    g ← obj (handler_registry_destroy (ry_globals st)); Ret (set_globals st g)
  else Ret st.

Definition cleanup_main_msq (reg : bool) (st : RouterSys) : exec RouterSys :=
  cleanup_log reg (set_queues st None (ry_ipc st)).

Definition cleanup_shm (reg : bool) (st : RouterSys) : exec RouterSys :=
  cleanup_main_msq reg (set_shm st (shm_api_close shm_handle (ry_shm st))).

Definition close_fd (fd : option Z) (s : Sys) : Sys :=
  match fd with Some fd => sys_close fd s | None => s end.

Definition cleanup_pipe (reg : bool) (st : RouterSys) : exec RouterSys :=
  cleanup_shm reg
    (set_pipe st (close_fd (ry_pipe1 st) (close_fd (ry_pipe0 st) (ry_sys st)))
       (ry_pipe0 st) (ry_pipe1 st)).

Definition cleanup_sem (reg : bool) (st : RouterSys) : exec RouterSys :=
  cleanup_pipe reg (if ry_sem st then set_sem st false else st).

Definition cleanup_t2 (t2_created reg : bool) (st : RouterSys) : exec RouterSys :=
  st ← (if t2_created then join T_SIGNAL (ne_t2_run e) st else Ret st);
  cleanup_sem reg st.

Definition skip_to_cleanup (t2_created t3_created reg : bool) (st : RouterSys) : exec RouterSys :=
  st ← (if t3_created then join T_ROUTER (ne_t3_run e) st else Ret st);
  cleanup_t2 t2_created reg st.

(** The registry and the management thread: whether all of it succeeded and
    whether the registry is initialized. *)
Definition start_mgmt (st : RouterSys) : exec (bool * bool * RouterSys) :=
  let '(r, g) := handler_registry_init (ne_mutex_ok e) (ry_globals st) in
  if negb (r =? 0) then Ret (false, false, set_globals st g)
  else
    '(r, reg) ← obj (router_mgmt_register ROUTER_CTX (g_registry g));
    let st := set_globals st (mkGlobals reg (g_registry_initialized g)) in
    if negb (r =? 0) then Ret (false, true, st)
    else if ne_t_mgmt e then Ret (true, true, set_threads st ({[T_MGMT]} ∪ ry_threads st))
    else Ret (false, true, st).

(** From the creation of the router thread on: the answer and the state; no
    answer when the loop is still going after the iterations given. *)
Definition run_router (st : RouterSys) : exec (option Z * RouterSys) :=
  '(mgmt_ok, reg, st) ← start_mgmt st;
  if negb mgmt_ok then
    st ← quit_router (ne_pad e) (stop_running st);
    st ← skip_to_cleanup true true reg (close_shutdown_pipe st);
    Ret (Some 1, st)
  else
    '(ended, st) ← main_loop (ne_iterations e) st;
    if negb ended then Ret (None, st)
    else
      st ← quit_router (ne_pad e) (close_shutdown_pipe (stop_running st));
      st ← join T_MGMT (ne_mgmt_run e) st;
      st ← skip_to_cleanup true true reg st;
      Ret (Some 0, st).
End cleanup.

(** From the wait for the signal thread to the creation of the router thread, and
    on with [run]. *)
Definition start_threads (run : RouterEnv -> option ShmContext -> RouterSys -> exec (option Z * RouterSys))
    (e : RouterEnv) (h : option ShmContext) (st : RouterSys) : exec (option Z * RouterSys) :=
  if negb (ne_sem_wait e)
  then st ← cleanup_t2 e h true false st; Ret (Some 1, st)
  else if negb (ne_t2_posts e) then Blocked
  else if negb (ne_t3 e)
  then st ← cleanup_t2 e h true false st; Ret (Some 1, st)
  else run e h (set_threads st ({[T_ROUTER]} ∪ ry_threads st)).

Section start.
Context {A : Type}.
(** What an exit with code 1 gives, and what follows the creation of the signal
    thread. *)
Variables (failed : RouterSys -> A) (next : option ShmContext -> RouterSys -> exec A).

(** From the semaphore to the creation of the signal thread. *)
Definition start_signal (e : RouterEnv) (h : option ShmContext) (st : RouterSys) : exec A :=
  if negb (ne_sem_init e) then st ← cleanup_pipe h false st; Ret (failed st)
  else
    let st := set_sem st true in
    if negb (ne_sigmask e) || negb (ne_t2 e)
    then st ← cleanup_sem h false st; Ret (failed st)
    else next h (set_threads st ({[T_SIGNAL]} ∪ ry_threads st)).

(** [main] up to there. *)
Definition main_start (e : RouterEnv) (st : RouterSys) : exec A :=
  match ne_main_queue e with
  | None => st ← cleanup_log false st; Ret (failed st)
  | Some mq =>
      let st := set_queues st (Some mq) (if ne_ipc_ok e then ry_ipc st else None) in
      ipc ← drain (drain_fuel (ry_ipc st)) (ry_ipc st) NOTIFY_SIZE;
      let st := set_queues st (ry_main st) ipc in
      let '(h, shm) := shm_api_init (ne_robust e) (ne_shm e) (ry_shm st) in
      let st := set_shm st shm in
      match h with
      | None => st ← cleanup_main_msq false st; Ret (failed st)
      | Some _ =>
          match ne_pipe e with
          | None => st ← cleanup_shm h false st; Ret (failed st)
          | Some (p0, p1) =>
              let st := set_pipe st (sys_open p1 (sys_open p0 (ry_sys st))) (Some p0) (Some p1) in
              start_signal e h st
          end
      end
  end.
End start.

(** [main], with what follows the creation of the router thread as [run]: the
    build with fault injection differs there. *)
Definition main_with (run : RouterEnv -> option ShmContext -> RouterSys -> exec (option Z * RouterSys))
    (e : RouterEnv) : RouterSys -> exec (option Z * RouterSys) :=
  main_start (fun st => (Some 1, st)) (start_threads run e) e.

Definition main : RouterEnv -> RouterSys -> exec (option Z * RouterSys) := main_with run_router.

(** * Lemmas *)

(** ** Relaying *)

(** The line the Viewer gets for a text. *)
Definition relay_line (text : list byte) : list byte := bs "[TCP-RELAY] " ++ text ++ [x0a].

Definition is_quit (body : list byte) : bool :=
  shm_status_id (notify_of MSG_TYPE_SHM_NOTIFY body) =? MSG_TYPE_SHM_QUIT.

(** What an answer of send lets through. *)
Definition sent_part (answer : send_result) (text : list byte) : list byte :=
  match answer with TcpSent n => take n (relay_line text) | _ => [] end.

Section relay_lemmas.
Context {S H : Type} {ops : ShmOps S H} {api : ShmApi S H}
  (Hcap : (shm_capacity (S := S) (H := H) <= PAYLOAD_SIZE)%nat).

(** Up to the answer of send: the buffer of the line is large enough for every
    payload. *)
Lemma relay_send_sends answer stack status h st c t :
  length stack = TCP_BUF_SIZE -> shm_at h (rl_shm st) c t ->
  no_nul t /\ (length t < PAYLOAD_SIZE)%nat /\
  exists s', relay_send answer stack status h st =
      Ret (match answer with TcpReset => false | _ => true end,
           mkRelay (rl_ipc st) (rl_main st) s' (rl_tcp st ++ sent_part answer t)) /\ shm_at h s' c t.
Proof.
  intros Hst Hat. unfold relay_send.
  destruct (shm_read_spec h (rl_shm st) c t status (zeros PAYLOAD_SIZE) Hat)
    as (out & s' & -> & Hout & Hl & Hat'); [by unfold zeros; rewrite length_replicate|].
  run. cbn [negb]. rewrite Hout. run.
  assert (no_nul t) as Hnn by by eapply cstring_no_nul.
  assert (length t < PAYLOAD_SIZE)%nat as Hlt.
  { pose proof (cstring_length _ _ Hout) as Hlen. rewrite Hl in Hlen.
    unfold zeros in Hlen. by rewrite length_replicate in Hlen. }
  split; [done|]. split; [done|].
  assert (no_nul (relay_line t)) as Hln by (unfold relay_line; auto with cbuf).
  destruct (snprintf_fresh stack (relay_line t)) as (buf & E & Hh & _).
  { intros ->. done. }
  rewrite Hst in E, Hh. unfold relay_line in E. rewrite E. run.
  rewrite take_ge in Hh
    by (unfold relay_line; rewrite !length_app; cbn; unfold TCP_BUF_SIZE, PAYLOAD_SIZE in *; lia).
  rewrite (holds_cstring buf (relay_line t)) by done. run.
  exists s'. split; [|done]. destruct answer; cbn [sent_part]; by rewrite ?app_nil_r.
Qed.

Lemma relay_text_sends answer stack status h st c t :
  length stack = TCP_BUF_SIZE -> shm_at h (rl_shm st) c t ->
  no_nul t /\ (length t < PAYLOAD_SIZE)%nat /\
  exists s', relay_text answer stack status h st =
      match answer with
      | TcpSent n => Ret (true, mkRelay (rl_ipc st) (rl_main st) s' (rl_tcp st ++ take n (relay_line t)))
      | TcpReset => '(_, mq) ← send_signal_event (rl_main st) SIGTERM;
                    Ret (false, mkRelay (rl_ipc st) mq s' (rl_tcp st))
      | TcpError => Ret (true, mkRelay (rl_ipc st) (rl_main st) s' (rl_tcp st))
      end /\ shm_at h s' c t.
Proof.
  intros Hst Hat. destruct (relay_send_sends answer stack status h st c t Hst Hat) as (? & ? & s' & E & ?).
  split; [done|]. split; [done|]. exists s'. split; [|done]. unfold relay_text. rewrite E. run.
  destruct answer; cbn [sent_part rl_ipc rl_main rl_shm rl_tcp]; by rewrite ?app_nil_r.
Qed.

Lemma relay_sends answer stack status h st q body rest c t :
  rl_ipc st = Some q ->
  of_type MSG_TYPE_SHM_NOTIFY (q_messages q) = body :: rest -> (length body <= NOTIFY_SIZE)%nat ->
  is_quit body = false -> length stack = TCP_BUF_SIZE -> shm_at h (rl_shm st) c t ->
  exists q' s', relay_step answer stack status h st =
      match answer with
      | TcpSent n => Ret (true, mkRelay (Some q') (rl_main st) s' (rl_tcp st ++ take n (relay_line t)))
      | TcpReset => '(_, mq) ← send_signal_event (rl_main st) SIGTERM;
                    Ret (false, mkRelay (Some q') mq s' (rl_tcp st))
      | TcpError => Ret (true, mkRelay (Some q') (rl_main st) s' (rl_tcp st))
      end /\
    msgrcv false false (Some q) NOTIFY_SIZE MSG_TYPE_SHM_NOTIFY =
      Ret (IpcOk (MSG_TYPE_SHM_NOTIFY, body), Some q') /\
    of_type MSG_TYPE_SHM_NOTIFY (q_messages q') = rest /\ shm_at h s' c t.
Proof.
  intros Hq Hty Hb Hnq Hst Hat. unfold relay_step. rewrite Hq.
  destruct (msgrcv_oldest q NOTIFY_SIZE MSG_TYPE_SHM_NOTIFY body rest ltac:(done) Hty Hb)
    as (q' & Hrcv & Hq' & _). rewrite Hrcv. run. fold (is_quit body). rewrite Hnq.
  destruct (relay_text_sends answer stack status h
    (mkRelay (Some q') (rl_main st) (rl_shm st) (rl_tcp st)) c t Hst Hat) as (_ & _ & s' & -> & Hat').
  by exists q', s'.
Qed.

Lemma relay_forwards answer stack status h st q body rest c t :
  answer <> TcpReset -> rl_ipc st = Some q ->
  of_type MSG_TYPE_SHM_NOTIFY (q_messages q) = body :: rest -> (length body <= NOTIFY_SIZE)%nat ->
  is_quit body = false -> length stack = TCP_BUF_SIZE -> shm_at h (rl_shm st) c t ->
  exists q' s', relay_step answer stack status h st =
      Ret (true, mkRelay (Some q') (rl_main st) s' (rl_tcp st ++ sent_part answer t)) /\
    of_type MSG_TYPE_SHM_NOTIFY (q_messages q') = rest /\ shm_at h s' c t.
Proof using Hcap.
  intros Hans Hq Hty Hb Hnq Hst Hat.
  destruct (relay_sends answer stack status h st q body rest c t Hq Hty Hb Hnq Hst Hat)
    as (q' & s' & -> & _ & Hq' & Hat'). exists q', s'. split; [|done].
  destruct answer; [done|done|by rewrite app_nil_r].
Qed.

Lemma relay_stops answer stack status h st q body rest :
  rl_ipc st = Some q ->
  of_type MSG_TYPE_SHM_NOTIFY (q_messages q) = body :: rest -> (length body <= NOTIFY_SIZE)%nat ->
  is_quit body = true ->
  exists q', relay_step answer stack status h st =
      Ret (false, mkRelay (Some q') (rl_main st) (rl_shm st) (rl_tcp st)) /\
    of_type MSG_TYPE_SHM_NOTIFY (q_messages q') = rest.
Proof.
  intros Hq Hty Hb Hquit. unfold relay_step. rewrite Hq.
  destruct (msgrcv_oldest q NOTIFY_SIZE MSG_TYPE_SHM_NOTIFY body rest ltac:(done) Hty Hb)
    as (q' & -> & Hq' & _). run. fold (is_quit body). rewrite Hquit. by exists q'.
Qed.

(** What the others do between two iterations: append messages to the
    notification queue, make [g t] of the text [t] of the segment (leave it, or
    write another one), use the main queue. *)
Record friendly (h : H) (f : RelayState S -> RelayState S) (g : list byte -> list byte) : Prop := {
  fr_ipc : forall st q, rl_ipc st = Some q -> exists ms,
    rl_ipc (f st) = Some (mkQueue (q_messages q ++ ms) (q_bytes q));
  fr_shm : forall st c t, shm_at h (rl_shm st) c t -> exists c', shm_at h (rl_shm (f st)) c' (g t);
  fr_tcp : forall st, rl_tcp (f st) = rl_tcp st }.

Definition relay_ok (h : H) (it : RelayIteration S) (g : list byte -> list byte) : Prop :=
  friendly h (ri_others it) g /\ length (ri_stack it) = TCP_BUF_SIZE /\ ri_send it <> TcpReset.

(** The texts of the segment at the iterations, from [t] on. *)
Fixpoint seen_texts (gs : list (list byte -> list byte)) (t : list byte) : list (list byte) :=
  match gs with
  | [] => []
  | g :: gs' => g t :: seen_texts gs' (g t)
  end.

(** A text of the segment fits the buffer. *)
Lemma shm_at_bounded h s c t : shm_at h s c t -> (length t < PAYLOAD_SIZE)%nat.
Proof using Hcap.
  intros Hat. by destruct (relay_send_sends TcpError (zeros TCP_BUF_SIZE) 0 h (mkRelay None None s []) c t) as (_ & ? & _).
Qed.

(** The notifications in front of a quit are served, each with the text then in
    the segment, and the quit ends the loop, whatever is sent meanwhile. *)
Lemma relay_loop_quit h quit rest its gs bodies st q c t :
  rl_ipc st = Some q -> of_type MSG_TYPE_SHM_NOTIFY (q_messages q) = bodies ++ quit :: rest ->
  Forall (fun b => (length b <= NOTIFY_SIZE)%nat /\ is_quit b = false) bodies ->
  (length quit <= NOTIFY_SIZE)%nat -> is_quit quit = true ->
  shm_at h (rl_shm st) c t -> Forall2 (relay_ok h) its gs ->
  (length bodies < length its)%nat ->
  let texts := take (length bodies) (seen_texts gs t) in
  exists st', relay_loop its h st = Ret (true, st') /\ Forall (fun t => (length t < PAYLOAD_SIZE)%nat) texts /\
    rl_tcp st' = rl_tcp st ++ concat (zip_with (fun it t => sent_part (ri_send it) t) its texts) /\
    exists q' later, rl_ipc st' = Some q' /\
      of_type MSG_TYPE_SHM_NOTIFY (q_messages q') = rest ++ later.
Proof using Hcap.
  intros Hq Hty Hbs Hlq Hquit Hat Hits Hlen. revert rest bodies st q c t Hq Hty Hbs Hat Hlen.
  induction Hits as [|it g its gs (Hf & Hst & Hans) Hits IH]; intros rest bodies st q c t Hq Hty Hbs Hat Hlen;
    [cbn in Hlen; lia|].
  destruct (fr_ipc _ _ _ Hf st q Hq) as (ms & Hq1).
  destruct (fr_shm _ _ _ Hf st c t Hat) as (c1 & Hat1).
  assert (of_type MSG_TYPE_SHM_NOTIFY (q_messages (mkQueue (q_messages q ++ ms) (q_bytes q))) =
    bodies ++ quit :: (rest ++ of_type MSG_TYPE_SHM_NOTIFY ms)) as Hty1.
  { cbn [q_messages]. by rewrite of_type_app, Hty, <- app_assoc. }
  cbn [relay_loop]. destruct bodies as [|b bodies].
  - destruct (relay_stops (ri_send it) (ri_stack it) (ri_status it) h (ri_others it st) _ quit _ Hq1 Hty1 Hlq Hquit)
      as (q' & -> & Hq'). run. cbn [negb].
    eexists. split; [done|]. split; [by apply Forall_nil_2|]. cbn [rl_tcp rl_ipc length take zip_with concat].
    rewrite app_nil_r, (fr_tcp _ _ _ Hf). split; [done|]. by exists q', (of_type MSG_TYPE_SHM_NOTIFY ms).
  - apply Forall_cons in Hbs as [[Hlb Hnb] Hbs].
    destruct (relay_forwards (ri_send it) (ri_stack it) (ri_status it) h (ri_others it st) _ b _ c1 (g t)
      Hans Hq1 Hty1 Hlb Hnb Hst Hat1) as (q' & s' & -> & Hq' & Hat'). run. cbn [negb].
    destruct (IH (rest ++ of_type MSG_TYPE_SHM_NOTIFY ms) bodies
      (mkRelay (Some q') (rl_main (ri_others it st)) s'
        (rl_tcp (ri_others it st) ++ sent_part (ri_send it) (g t))) q' c1 (g t))
      as (st' & E & Hlt & Htcp & q2 & later & Hq2 & Hty2);
      [reflexivity|exact Hq'|done|done|cbn in Hlen; lia|].
    exists st'. split; [exact E|]. cbn [length seen_texts take]. split; [|split].
    + apply Forall_cons. split; [by eapply shm_at_bounded|done].
    + rewrite Htcp. cbn [rl_tcp zip_with concat]. by rewrite (fr_tcp _ _ _ Hf), <- app_assoc.
    + exists q2, (of_type MSG_TYPE_SHM_NOTIFY ms ++ later). split; [done|]. by rewrite Hty2, <- app_assoc.
Qed.

(** Sends that take the whole line. *)
Lemma whole_lines (its : list (RelayIteration S)) texts :
  Forall (fun it => exists n, ri_send it = TcpSent n /\ (TCP_BUF_SIZE <= n)%nat) its ->
  Forall (fun t => (length t < PAYLOAD_SIZE)%nat) texts -> (length texts <= length its)%nat ->
  concat (zip_with (fun it t => sent_part (ri_send it) t) its texts) = concat (relay_line <$> texts).
Proof using Type.
  clear. intros Hits. revert texts. induction Hits as [|it its (n & Hn & Hle) Hits IH]; intros [|t texts] Ht Hl;
    try done; [cbn in Hl; lia|]. apply Forall_cons in Ht as [Ht Hts]. cbn [zip_with concat fmap list_fmap].
  rewrite IH by (done || cbn in Hl; lia). f_equal. rewrite Hn. cbn [sent_part]. apply take_ge. unfold relay_line. rewrite !length_app. cbn.
  unfold TCP_BUF_SIZE, PAYLOAD_SIZE in *. lia.
Qed.

Lemma length_seen_texts gs t : length (seen_texts gs t) = length gs.
Proof using Type. clear. revert t. induction gs as [|g gs IH]; intros t; [done|]. cbn. by rewrite IH. Qed.
End relay_lemmas.

(** ** Connecting *)

Lemma connect_loop_connects attempt retries i j :
  (j < retries)%nat -> fst (attempt (i + j)%nat) = true ->
  (forall k, (k < j)%nat -> snd (attempt (i + k)%nat) = false) ->
  connect_loop attempt i retries = Connected.
Proof.
  revert i j. induction retries as [|retries IH]; intros i j Hj Hc Hs; [lia|]. cbn [connect_loop].
  destruct (fst (attempt i)) eqn:E; [done|]. destruct j as [|j].
  - rewrite Nat.add_0_r in Hc. congruence.
  - pose proof (Hs O ltac:(lia)) as H0. rewrite Nat.add_0_r in H0. rewrite H0.
    apply (IH (S i) j); [lia|by rewrite Nat.add_succ_comm|].
    intros k Hk. rewrite Nat.add_succ_comm. apply Hs. lia.
Qed.

Lemma connect_loop_refused attempt retries i :
  (forall k, (k < retries)%nat -> attempt (i + k)%nat = (false, false)) ->
  connect_loop attempt i retries = Refused.
Proof.
  revert i. induction retries as [|retries IH]; intros i Ha; [done|]. cbn [connect_loop].
  pose proof (Ha O ltac:(lia)) as H0. rewrite Nat.add_0_r in H0. rewrite H0. cbn [fst snd].
  apply IH. intros k Hk. rewrite Nat.add_succ_comm. apply Ha. lia.
Qed.

(** ** The main thread *)

(** A message of the main queue: a well-formed event, with a text unless it is
    a signal. *)
Definition event_ok (msg : Z * list byte) : Prop :=
  exists m, msg = (MSG_TYPE, msg_body m) /\ wf_msg m /\
    (im_event m <> event_code EV_SIGNAL -> exists t, cstring (im_data m) = Some t).

Definition queue_ok (q : option MsgQueue) : Prop :=
  forall qu, q = Some qu -> Forall event_ok (q_messages qu).

(** The descriptors and files with the pipe closed. *)
Definition without_pipe (st : RouterSys) : Sys :=
  close_fd (ry_pipe1 st) (close_fd (ry_pipe0 st) (ry_sys st)).

(** What [st'] keeps of [st]: nothing is leaked or undone. *)
Record kept (st st' : RouterSys) : Prop := {
  kp_fds : sys_fds (without_pipe st') = sys_fds (without_pipe st);
  kp_files : sys_files (without_pipe st') ⊆ sys_files (without_pipe st);
  kp_attached : attachments (ry_shm st') = attachments (ry_shm st);
  kp_init : g_registry_initialized (ry_globals st') = g_registry_initialized (ry_globals st);
  kp_reg : reg_wf (g_registry (ry_globals st)) -> reg_wf (g_registry (ry_globals st'));
  kp_queue : queue_ok (ry_main st) -> queue_ok (ry_main st');
  kp_sem : ry_sem st' = ry_sem st;
  kp_threads : ry_threads st' = ry_threads st }.

(** What another thread does, between two of its own calls with descriptors: the
    sockets of the other threads are those of RouterProcess. *)
Definition thread_ok (f : RouterSys -> RouterSys) : Prop := forall st, kept st (f st).

Lemma kept_refl st : kept st st.
Proof. by split. Qed.

Lemma kept_trans st1 st2 st3 : kept st1 st2 -> kept st2 st3 -> kept st1 st3.
Proof.
  intros [] []. split; try congruence; auto. set_solver.
Qed.

Lemma main_event q mt body q' :
  queue_ok (Some q) -> msgrcv false false (Some q) MSG_SIZE 0 = Ret (IpcOk (mt, body), q') ->
  queue_ok q' /\ exists m, mt = MSG_TYPE /\ msg_of mt body = m /\ wf_msg m /\
    (im_event m <> event_code EV_SIGNAL -> exists t, cstring (im_data m) = Some t).
Proof.
  intros Hq H. destruct q as [[|[mt0 b0] ms] cap]; [done|].
  pose proof (Hq _ eq_refl) as Hf. apply Forall_cons in Hf as [(m & [= -> ->] & Hm & Ht) Hms].
  rewrite (receive_internal _ m ms) in H by done. injection H as <- <- <-.
  split; [by intros qu [= <-]|]. exists m. split; [done|]. split; [|done].
  rewrite <- (wm_type _ Hm). by apply msg_roundtrip.
Qed.

Lemma kept_queues st mq ipc : queue_ok mq -> kept st (set_queues st mq ipc).
Proof. by split. Qed.

Lemma kept_running st b : kept st (set_running st b).
Proof. by split. Qed.

Lemma kept_close_pipe st : kept st (close_shutdown_pipe st).
Proof.
  unfold close_shutdown_pipe. destruct (ry_pipe1 st) as [fd|] eqn:E; [|apply kept_refl].
  split; try done; unfold without_pipe; rewrite E; cbn [set_pipe ry_sys ry_pipe0 ry_pipe1 close_fd];
    destruct (ry_pipe0 st); cbn; set_solver.
Qed.

Lemma quit_router_kept pad st :
  match quit_router pad st with
  | Ret st' => (queue_ok (ry_main st) -> kept st st') | UB => False | Blocked => True
  end.
Proof.
  unfold quit_router, send_shm_quit, msgsnd. cbn [nt_mtype MSG_TYPE_SHM_NOTIFY Z.leb Z.compare].
  destruct (ry_ipc st) as [q|]; [destruct (room q _)|]; run; try done; intros; by apply kept_queues.
Qed.

Lemma handle_event_kept m pad st :
  (im_event m <> event_code EV_SIGNAL -> exists t, cstring (im_data m) = Some t) ->
  queue_ok (ry_main st) ->
  match handle_event m pad st with Ret st' => kept st st' | UB => False | Blocked => True end.
Proof.
  intros Ht Hq. unfold handle_event.
  destruct (im_event m =? event_code EV_QUIT); [apply kept_refl|].
  destruct ((im_event m =? event_code EV_UDP) || (im_event m =? event_code EV_IPC)) eqn:E1.
  { destruct Ht as [t ->]; [|apply kept_refl]. intros Ev. rewrite Ev in E1. done. }
  destruct (im_event m =? event_code EV_SIGNAL) eqn:E2.
  - destruct ((sig_num m =? SIGINT) || (sig_num m =? SIGTERM)); [|apply kept_refl].
    pose proof (quit_router_kept pad (stop_running st)) as Hk.
    destruct (quit_router _ _) as [st'| |]; run; [|done|done].
    eapply kept_trans; [apply kept_running|]. eapply kept_trans; [by apply Hk|apply kept_close_pipe].
  - destruct (im_event m =? event_code EV_FATAL); [|apply kept_refl].
    destruct Ht as [t ->]; [by apply Z.eqb_neq|]. run.
    eapply kept_trans; [apply kept_running|apply kept_close_pipe].
Qed.

Lemma main_loop_kept its st :
  Forall (fun it => thread_ok (mi_others it)) its -> queue_ok (ry_main st) ->
  match main_loop its st with Ret (_, st') => kept st st' | UB => False | Blocked => True end.
Proof.
  intros Hits. revert st. induction Hits as [|it its Hf Hits IH]; intros st Hq; [apply kept_refl|].
  cbn [main_loop]. pose proof (Hf st) as Hk. set (st1 := mi_others it st) in *.
  assert (queue_ok (ry_main st1)) as Hq1 by by apply Hk. clearbody st1.
  destruct (ry_running st1); [|done]. cbn [negb]. destruct (mi_interrupted it).
  { specialize (IH st1 Hq1). destruct (main_loop its st1) as [[? st']| |]; try done.
    by eapply kept_trans. }
  destruct (ry_main st1) as [q|] eqn:Em.
  2: { cbn [msgrcv]. run. eapply kept_trans; [done|]. by apply kept_queues. }
  pose proof (msgrcv_answers false false (Some q) MSG_SIZE 0) as Ha.
  destruct (msgrcv false false (Some q) MSG_SIZE 0) as [[[[mt body]|err] q']| |] eqn:Er; run; try done.
  - destruct (main_event q mt body q' Hq1 Er) as (Hq' & m & -> & -> & Hm & Ht).
    pose proof (handle_event_kept m (mi_pad it) (set_queues st1 q' (ry_ipc st1)) Ht Hq') as Hh.
    destruct (handle_event _ _ _) as [st2| |]; run; try done.
    assert (kept st st2) as H2.
    { eapply kept_trans; [done|]. eapply kept_trans; [|done]. by apply kept_queues. }
    assert (queue_ok (ry_main st2)) as Hq2 by by apply H2.
    specialize (IH st2 Hq2). destruct (main_loop its st2) as [[? st3]| |]; try done.
    by eapply kept_trans.
  - subst q'. eapply kept_trans; [done|]. by apply kept_queues.
Qed.

(** ** Cleanup *)

(** The registry in step with the flag of [main]. *)
Definition reg_fit (reg : bool) (g : Globals) : Prop :=
  g_registry_initialized g = reg /\ (reg = true -> reg_wf (g_registry g)).

(** The process between its start in [st0] and its exit, with the segment
    attached as in [shm]. *)
Record running_ok (st0 : RouterSys) (shm : ShmSystem) (reg : bool) (threads : gset Z)
    (st : RouterSys) : Prop := {
  ro_fds : sys_fds (without_pipe st) = sys_fds (ry_sys st0);
  ro_files : sys_files (without_pipe st) ⊆ sys_files (ry_sys st0);
  ro_attached : attachments (ry_shm st) = attachments shm;
  ro_reg : reg_fit reg (ry_globals st);
  ro_queue : queue_ok (ry_main st);
  ro_threads : ry_threads st = threads }.

(** Nothing of the process is left: descriptors, socket files, the private
    queue, the registry, the semaphore, threads, the attachment. *)
Record router_released (st0 st : RouterSys) : Prop := {
  rr_fds : sys_fds (ry_sys st) = sys_fds (ry_sys st0);
  rr_files : sys_files (ry_sys st) ⊆ sys_files (ry_sys st0);
  rr_main : ry_main st = None;
  rr_registry : g_registry_initialized (ry_globals st) = false;
  rr_sem : ry_sem st = false;
  rr_threads : ry_threads st = ∅;
  rr_attached : forall id a, attachments (ry_shm st0) !! id = Some a ->
    attachments (ry_shm st) !! id = Some a }.

(** No undefined behaviour, and nothing left at the exit. *)
Definition exits_clean (st0 : RouterSys) (r : exec (option Z * RouterSys)) : Prop :=
  match r with
  | Ret (Some code, st') => (code = 0 \/ code = 1) /\ router_released st0 st'
  | Ret (None, _) | Blocked => True
  | UB => False
  end.

Section cleanup_lemmas.
Context (e : RouterEnv) (h : option ShmContext) (st0 : RouterSys) (shm : ShmSystem).
Abbreviation running := (running_ok st0 shm).

Lemma running_kept reg ts st st' : running reg ts st -> kept st st' -> running reg ts st'.
Proof.
  intros [] []. split; try congruence; auto; [set_solver|].
  destruct ro_reg0 as [Hi Hw]. split; [congruence|auto].
Qed.

Lemma join_running t run reg ts st :
  (forall f, run = Some f -> thread_ok f) -> running reg ts st ->
  match join t run st with
  | Ret st' => running reg (ts ∖ {[t]}) st' | UB => False | Blocked => True
  end.
Proof.
  intros Hf Hr. unfold join. destruct run as [f|]; [|done].
  destruct (running_kept _ _ _ _ Hr (Hf f eq_refl st)). split; try done. cbn. by f_equal.
Qed.

Lemma quit_running pad reg ts st :
  running reg ts st ->
  match quit_router pad st with
  | Ret st' => running reg ts st' | UB => False | Blocked => True
  end.
Proof.
  intros Hr. pose proof (quit_router_kept pad st) as Hk. destruct (quit_router pad st); try done.
  eapply running_kept; [done|]. apply Hk, Hr.
Qed.

Lemma start_mgmt_ok ts st :
  ry_globals st = initial_globals -> running false ts st ->
  exists reg st', start_mgmt e st = Ret (ne_mutex_ok e && ne_t_mgmt e, reg, st') /\
    running reg (if ne_mutex_ok e && ne_t_mgmt e then {[T_MGMT]} ∪ ts else ts) st'.
Proof.
  intros Hg Hr. destruct Hr as [? ? ? _ ? Ht]. unfold start_mgmt. rewrite Hg.
  unfold handler_registry_init. cbn [g_registry_initialized initial_globals].
  destruct (ne_mutex_ok e); cbn [negb Z.eqb].
  - destruct (register_three_empty "router" ltac:(by apply no_nul_lit) ltac:(cbn; lia)
      (mkRegistry (entries (g_registry initial_globals)) 0 MtxFree 0 0) ROUTER_CTX)
      as (r & E & Hr & _); [apply reg_wf_empty|apply NoDup_nil_2|done|].
    unfold router_mgmt_register. cbn [g_registry] in E |- *. rewrite E. run. cbn [negb Z.eqb].
    destruct (ne_t_mgmt e); do 2 eexists; (split; [done|]); split; cbn; try done; by f_equal.
  - do 2 eexists. split; [done|]. by split.
Qed.

Context (Hclose : forall s, attachments s = attachments shm -> forall id a,
  attachments (ry_shm st0) !! id = Some a -> attachments (shm_api_close h s) !! id = Some a).
Context (Ht2 : forall f, ne_t2_run e = Some f -> thread_ok f)
  (Ht3 : forall f, ne_t3_run e = Some f -> thread_ok f)
  (Htm : forall f, ne_mgmt_run e = Some f -> thread_ok f)
  (Hits : Forall (fun it => thread_ok (mi_others it)) (ne_iterations e)).

Lemma cleanup_pipe_ok reg st :
  running reg ∅ st -> ry_sem st = false ->
  exists st', cleanup_pipe h reg st = Ret st' /\ router_released st0 st'.
Proof using Hclose.
  intros [Hf Hfi Ha [Hi Hw] _ Ht] Hs. unfold cleanup_pipe, cleanup_shm, cleanup_main_msq, cleanup_log.
  cbn [set_pipe set_shm set_queues ry_globals]. destruct reg.
  - destruct (ry_globals st) as [r i] eqn:Eg. cbn in Hi, Hw. subst i.
    destruct (registry_destroy_wf r) as (g & -> & _ & Hg & _); [by apply Hw|]. run.
    eexists. split; [done|]. split; cbn; try done. by apply Hclose.
  - eexists. split; [done|]. split; cbn; try done. by apply Hclose.
Qed.

Lemma cleanup_sem_ok reg st :
  running reg ∅ st -> exists st', cleanup_sem h reg st = Ret st' /\ router_released st0 st'.
Proof using Hclose.
  intros Hr. apply cleanup_pipe_ok; destruct (ry_sem st) eqn:E; try done.
  destruct Hr. by split.
Qed.

Lemma cleanup_t2_ok reg st :
  running reg {[T_SIGNAL]} st ->
  match cleanup_t2 e h true reg st with
  | Ret st' => router_released st0 st' | UB => False | Blocked => True
  end.
Proof using Hclose Ht2.
  intros Hr. unfold cleanup_t2. pose proof (join_running T_SIGNAL _ _ _ _ Ht2 Hr) as Hj.
  destruct (join _ _ _) as [st1| |]; run; try done.
  destruct (cleanup_sem_ok reg st1) as (st' & -> & ?); [|done].
  by replace (∅ : gset Z) with ({[T_SIGNAL]} ∖ {[T_SIGNAL]} : gset Z) by set_solver.
Qed.

Lemma skip_to_cleanup_ok reg st :
  running reg {[T_ROUTER; T_SIGNAL]} st ->
  match skip_to_cleanup e h true true reg st with
  | Ret st' => router_released st0 st' | UB => False | Blocked => True
  end.
Proof using Hclose Ht2 Ht3.
  intros Hr. unfold skip_to_cleanup. pose proof (join_running T_ROUTER _ _ _ _ Ht3 Hr) as Hj.
  destruct (join _ _ _) as [st1| |]; run; try done. apply cleanup_t2_ok.
  by replace ({[T_SIGNAL]} : gset Z) with ({[T_ROUTER; T_SIGNAL]} ∖ {[T_ROUTER]} : gset Z)
    by (vm_compute; reflexivity).
Qed.

Lemma run_router_ok st :
  ry_globals st = initial_globals -> running false {[T_ROUTER; T_SIGNAL]} st ->
  exits_clean st0 (run_router e h st).
Proof using Hclose Ht2 Ht3 Htm Hits.
  intros Hg Hr. unfold exits_clean, run_router.
  destruct (start_mgmt_ok _ st Hg Hr) as (reg & st1 & -> & Hr1). run.
  destruct (ne_mutex_ok e && ne_t_mgmt e); cbn [negb].
  - pose proof (main_loop_kept (ne_iterations e) st1 Hits (ro_queue _ _ _ _ _ Hr1)) as Hk.
    destruct (main_loop _ _) as [[[|] st2]| |]; run; cbn [negb]; try done.
    assert (running reg ({[T_MGMT]} ∪ {[T_ROUTER; T_SIGNAL]})
      (close_shutdown_pipe (stop_running st2))) as Hr2.
    { eapply running_kept; [done|]. eapply kept_trans; [done|].
      eapply kept_trans; [apply kept_running|apply kept_close_pipe]. }
    pose proof (quit_running (ne_pad e) _ _ _ Hr2) as Hr3.
    destruct (quit_router _ _) as [st3| |]; run; try done.
    pose proof (join_running T_MGMT _ _ _ _ Htm Hr3) as Hr4.
    destruct (join _ _ _) as [st4| |]; run; try done.
    pose proof (skip_to_cleanup_ok reg st4) as Hs.
    destruct (skip_to_cleanup _ _ _ _ _ _) as [st5| |]; run; [|apply Hs|done]; try (split; [by left|apply Hs]);
      (replace ({[T_ROUTER; T_SIGNAL]} : gset Z)
        with (({[T_MGMT]} ∪ {[T_ROUTER; T_SIGNAL]}) ∖ {[T_MGMT]} : gset Z)
        by (vm_compute; reflexivity)); exact Hr4.
  - assert (running reg {[T_ROUTER; T_SIGNAL]} (stop_running st1)) as Hr2
      by (eapply running_kept; [done|apply kept_running]).
    pose proof (quit_running (ne_pad e) _ _ _ Hr2) as Hr3.
    destruct (quit_router _ _) as [st2| |]; run; try done.
    pose proof (skip_to_cleanup_ok reg (close_shutdown_pipe st2)
      (running_kept _ _ _ _ Hr3 (kept_close_pipe _))) as Hs.
    destruct (skip_to_cleanup _ _ _ _ _ _) as [st3| |]; run; try done. split; [by right|done].
Qed.
End cleanup_lemmas.

(** The state the process starts in, and the calls and threads. *)
Record router_start (e : RouterEnv) (st : RouterSys) : Prop := {
  rt_globals : ry_globals st = initial_globals;
  rt_empty : ry_main st = None /\ ry_pipe0 st = None /\ ry_pipe1 st = None /\ ry_sem st = false /\
    ry_threads st = ∅;
  rt_queue : forall q, ne_main_queue e = Some q -> q_messages q = [];
  rt_shm : shm_sound (ne_robust e) (ne_shm e) (ry_shm st);
  rt_pipe : forall p0 p1, ne_pipe e = Some (p0, p1) -> p0 <> p1 /\ (p0 ∉ sys_fds (ry_sys st)) /\
    (p1 ∉ sys_fds (ry_sys st));
  rt_t2 : forall f, ne_t2_run e = Some f -> thread_ok f;
  rt_t3 : forall f, ne_t3_run e = Some f -> thread_ok f;
  rt_mgmt : forall f, ne_mgmt_run e = Some f -> thread_ok f;
  rt_iterations : Forall (fun it => thread_ok (mi_others it)) (ne_iterations e) }.

(** The part of it that does not speak of the other threads. *)
Record boots (e : RouterEnv) (st : RouterSys) : Prop := {
  bt_globals : ry_globals st = initial_globals;
  bt_empty : ry_main st = None /\ ry_pipe0 st = None /\ ry_pipe1 st = None /\ ry_sem st = false /\
    ry_threads st = ∅;
  bt_queue : forall q, ne_main_queue e = Some q -> q_messages q = [];
  bt_shm : shm_sound (ne_robust e) (ne_shm e) (ry_shm st);
  bt_pipe : forall p0 p1, ne_pipe e = Some (p0, p1) -> p0 <> p1 /\ (p0 ∉ sys_fds (ry_sys st)) /\
    (p1 ∉ sys_fds (ry_sys st)) }.

Lemma start_boots e st : router_start e st -> boots e st.
Proof. by intros []. Qed.

(** The process when the signal thread has been created, with the connection [c]
    to the segment. *)
Record launched (e : RouterEnv) (st0 : RouterSys) (c : ShmContext) (st : RouterSys) : Prop := {
  ld_running : running_ok st0 (ry_shm st) false {[T_SIGNAL]} st;
  ld_globals : ry_globals st = initial_globals;
  ld_close : forall s, attachments s = attachments (ry_shm st) -> forall id a,
    attachments (ry_shm st0) !! id = Some a -> attachments (shm_api_close (Some c) s) !! id = Some a;
  ld_connected : forall pid, exists v t, connected (ne_robust e) (pid, Some c) (ry_shm st) v t;
  ld_main : exists q, ry_main st = Some q /\ ne_main_queue e = Some q;
  ld_ipc : ry_ipc st = if ne_ipc_ok e then (fun q => mkQueue [] (q_bytes q)) <$> ry_ipc st0 else None;
  ld_pipe : exists p0 p1, ne_pipe e = Some (p0, p1) /\ ry_pipe0 st = Some p0 /\ ry_pipe1 st = Some p1 /\
    ry_sys st = sys_open p1 (sys_open p0 (ry_sys st0));
  ld_flag : ry_running st = ry_running st0;
  ld_sem : ry_sem st = true }.

(** From the creation of the pipe to that of the signal thread. *)
Lemma start_signal_ok {A} (failed : RouterSys -> A) next (P : A -> Prop) e c st st1 :
  (forall st', router_released st st' -> P (failed st')) ->
  (forall s, attachments s = attachments (ry_shm st1) -> forall id a,
     attachments (ry_shm st) !! id = Some a -> attachments (shm_api_close (Some c) s) !! id = Some a) ->
  safe (next (Some c) (set_threads (set_sem st1 true) ({[T_SIGNAL]} ∪ ry_threads st1))) P ->
  running_ok st (ry_shm st1) false ∅ st1 -> ry_sem st1 = false ->
  safe (start_signal failed next e (Some c) st1) P.
Proof.
  intros Hfail Hcl Hnext Hr Hs. unfold start_signal. destruct (ne_sem_init e); cbn [negb].
  2: { destruct (cleanup_pipe_ok (Some c) st _ Hcl false st1 Hr Hs) as (st' & -> & ?). run. by apply Hfail. }
  destruct (negb (ne_sigmask e) || negb (ne_t2 e)); [|done].
  destruct (cleanup_sem_ok (Some c) st _ Hcl false (set_sem st1 true)) as (st' & -> & ?);
    [destruct Hr; by split|]. run. by apply Hfail.
Qed.

(** [main] up to the creation of the signal thread. *)
Lemma main_start_ok {A} (failed : RouterSys -> A) next (P : A -> Prop) e st :
  boots e st ->
  (forall st', router_released st st' -> P (failed st')) ->
  (forall c st2, launched e st c st2 -> safe (next (Some c) st2) P) ->
  safe (main_start failed next e st) P.
Proof.
  intros [Hg (Hm & Hp0 & Hp1 & Hs & Ht) Hq Hshm Hpipe] Hfail Hnext. unfold main_start.
  destruct (ne_main_queue e) as [mq|] eqn:Em.
  2: { apply Hfail. split; try done. by rewrite Hg. }
  cbn [ry_ipc set_queues]. rewrite drain_terminates_all. run.
  cbn [ry_shm set_queues ry_main]. destruct (shm_api_init _ _ _) as [[c|] shm] eqn:Ei.
  2: { apply Hfail. split; cbn; try done; [by rewrite Hg|]. intros. by eapply init_failed. }
  pose proof (fun pid => proj1 (init_then_close _ pid _ _ _ _ Hshm Ei)) as Hco.
  destruct (init_then_close _ 0 _ _ _ _ Hshm Ei) as [_ Hcl].
  destruct (ne_pipe e) as [[p0 p1]|] eqn:Ep.
  2: { apply Hfail. split; cbn; try done; [by rewrite Hg|by apply Hcl]. }
  destruct (Hpipe p0 p1 eq_refl) as (Hne & Hn0 & Hn1). set (st1 := set_pipe _ _ _ _).
  assert (running_ok st (ry_shm st1) false ∅ st1) as Hr.
  { split; unfold without_pipe, st1;
      cbn [ry_sys ry_main ry_globals ry_threads ry_shm ry_pipe0 ry_pipe1 set_pipe set_shm
        set_queues close_fd sys_close sys_open sys_fds sys_files]; try done.
    - set_solver.
    - rewrite Hg. split; [done|discriminate].
    - intros qu [= <-]. by rewrite (Hq mq eq_refl). }
  apply (start_signal_ok failed next P e c st st1); try done. apply Hnext.
  split; try done.
  - destruct Hr as [? ? ? ? ? Et]. split; try done. cbn [ry_threads set_threads set_sem]. rewrite Et. set_solver.
  - by exists mq.
  - cbn. destruct (ne_ipc_ok e); [|done]. by destruct (ry_ipc st).
  - by exists p0, p1.
Qed.

Lemma start_threads_ok run e c st st1 :
  router_start e st -> launched e st c st1 ->
  (forall st2, ry_globals st2 = initial_globals ->
     running_ok st (ry_shm st1) false {[T_ROUTER; T_SIGNAL]} st2 -> exits_clean st (run e (Some c) st2)) ->
  exits_clean st (start_threads run e (Some c) st1).
Proof.
  intros Hst [Hr Hg Hcl _ _ _ _ _ _] Hrun. unfold exits_clean, start_threads.
  pose proof (cleanup_t2_ok e (Some c) st _ Hcl (rt_t2 _ _ Hst) false st1 Hr) as Hc2.
  destruct (ne_sem_wait e); cbn [negb].
  2: { destruct (cleanup_t2 _ _ _ _ _) as [st3| |]; run; try done. split; [by right|done]. }
  destruct (ne_t2_posts e); cbn [negb]; [|done]. destruct (ne_t3 e); cbn [negb].
  2: { destruct (cleanup_t2 _ _ _ _ _) as [st3| |]; run; try done. split; [by right|done]. }
  apply Hrun; [done|]. destruct Hr as [? ? ? ? ? Et]. split; try done.
  cbn [ry_threads set_threads]. by rewrite Et.
Qed.

Lemma exits_clean_safe st r :
  exits_clean st r <-> safe r (fun '(code, st') =>
    match code with Some code => (code = 0 \/ code = 1) /\ router_released st st' | None => True end).
Proof. by destruct r as [[[]]| |]. Qed.

(** The whole of [main], for what follows the creation of the router thread. *)
Lemma main_with_ok run e st :
  router_start e st ->
  (forall c shm, (forall s, attachments s = attachments shm -> forall id a,
     attachments (ry_shm st) !! id = Some a -> attachments (shm_api_close (Some c) s) !! id = Some a) ->
   forall st2, ry_globals st2 = initial_globals -> running_ok st shm false {[T_ROUTER; T_SIGNAL]} st2 ->
     exits_clean st (run e (Some c) st2)) ->
  exits_clean st (main_with run e st).
Proof.
  intros Hstart Hrun. apply exits_clean_safe. apply main_start_ok; [by apply start_boots|intros st' ?; split; [by right|done]|].
  intros c st1 Hl. apply exits_clean_safe, start_threads_ok; [done..|]. apply Hrun, Hl.
Qed.

Lemma close_pipe_fields st :
  ry_running (close_shutdown_pipe st) = ry_running st /\
  ry_ipc (close_shutdown_pipe st) = ry_ipc st /\ ry_pipe1 (close_shutdown_pipe st) = None.
Proof. unfold close_shutdown_pipe. by destruct (ry_pipe1 st) eqn:E; rewrite ?E. Qed.

(** The quit message is recognized. *)
Definition quit_body (pad : list byte) : list byte :=
  notify_body (mkNotify MSG_TYPE_SHM_NOTIFY MSG_TYPE_SHM_QUIT) pad.

Lemma quit_body_is_quit pad : is_quit (quit_body pad) = true.
Proof.
  unfold is_quit, quit_body. rewrite notify_roundtrip; [done|]. split; vm_compute; congruence.
Qed.

Lemma quit_body_length pad : length pad = 4%nat -> (length (quit_body pad) <= NOTIFY_SIZE)%nat.
Proof.
  intros Hp. unfold quit_body, notify_body. rewrite length_app, length_le_bytes, Hp. done.
Qed.

Lemma quit_router_sends pad st qi :
  ry_ipc st = Some qi ->
  quit_router pad st = if room qi (quit_body pad)
    then Ret (set_queues st (ry_main st)
           (Some (mkQueue (q_messages qi ++ [(MSG_TYPE_SHM_NOTIFY, quit_body pad)]) (q_bytes qi))))
    else Blocked.
Proof.
  intros Hq. unfold quit_router, send_shm_quit, msgsnd. rewrite Hq.
  change (nt_mtype _ <=? 0) with false. cbv iota. fold (quit_body pad). by destruct (room qi _).
Qed.

(** * Properties *)

(** C25: the Router releases everything it acquires.  Whatever its calls answer,
    and whatever events the other threads send, the main thread has no
    undefined behaviour; and when the process exits, through any of the cleanup
    labels, its descriptors are closed (both ends of the pipe once), the
    private queue is removed, all threads have been joined, the semaphore and
    the registry are destroyed and the segment has as many attachments as
    before. *)
Theorem router_main_clean e st :
  router_start e st ->
  match main e st with
  | Ret (Some code, st') => (code = 0 \/ code = 1) /\ router_released st st'
  | Ret (None, _) | Blocked => True
  | UB => False
  end.
Proof.
  intros Hstart. apply main_with_ok; [done|].
  intros c shm Hcl st2 Hg2 Hr2. destruct Hstart. by eapply run_router_ok.
Qed.

(** C17: the router thread relays the text of the segment: connected within its
    five attempts, it serves the notifications of its queue in order, each with
    the line "[TCP-RELAY] text" of the text that the segment holds at that
    iteration (the text of before, [t], changed as the others have changed it
    since), whatever other senders append meanwhile, as long as the connection is
    not reset.  Of each line the bytes that
    send(2) took are in the stream: all of it when send takes it whole, a part or
    nothing when it takes less or fails with a temporary error.  The thread ends
    at the quit notification, with its descriptor closed, after as many
    iterations as there were notifications in front of it. *)
Theorem router_worker_relays {S H} {ops : ShmOps S H} {api : ShmApi S H}
    fd attempt j its gs h st sys q bodies quit rest c t :
  (shm_capacity (S := S) (H := H) <= PAYLOAD_SIZE)%nat ->
  (j < CONNECT_MAX_RETRIES)%nat -> fst (attempt j) = true ->
  (forall k, (k < j)%nat -> snd (attempt k) = false) -> (fd ∉ sys_fds sys) ->
  rl_ipc st = Some q -> of_type MSG_TYPE_SHM_NOTIFY (q_messages q) = bodies ++ quit :: rest ->
  Forall (fun b => (length b <= NOTIFY_SIZE)%nat /\ is_quit b = false) bodies ->
  (length quit <= NOTIFY_SIZE)%nat -> is_quit quit = true ->
  shm_at h (rl_shm st) c t -> Forall2 (relay_ok h) its gs ->
  (length bodies < length its)%nat ->
  let texts := take (length bodies) (seen_texts gs t) in
  exists st' sys', router_worker (Some fd) attempt its h st sys = Ret (true, st', sys') /\
    sys_fds sys' = sys_fds sys /\ length texts = length bodies /\
    rl_tcp st' = rl_tcp st ++ concat (zip_with (fun it t => sent_part (ri_send it) t) its texts) /\
    (Forall (fun it => exists n, ri_send it = TcpSent n /\ (TCP_BUF_SIZE <= n)%nat) its ->
       rl_tcp st' = rl_tcp st ++ concat (relay_line <$> texts)).
Proof.
  intros Hcap Hj Hc Hs Hfd Hq Hty Hbs Hlq Hquit Hat Hits Hlen texts. unfold router_worker.
  rewrite (connect_loop_connects attempt CONNECT_MAX_RETRIES 0 j) by done.
  destruct (relay_loop_quit Hcap h quit rest its gs bodies st q c t) as (st' & -> & Hl & Htcp & _); try done. run.
  assert (length texts = length bodies) as Hn.
  { unfold texts. rewrite length_take, length_seen_texts, <- (Forall2_length _ _ _ Hits). lia. }
  do 2 eexists. split; [done|]. split; [cbn; set_solver|]. split; [done|]. split; [done|].
  intros Hw. rewrite Htcp. f_equal. apply whole_lines; [done|done|]. fold texts. lia.
Qed.

(** A SIGINT or SIGTERM event stops the Router: when the notification queue
    has room, the main thread clears the flag, appends the quit notification
    and closes the pipe; its loop ends at the next test, and the router thread
    ends after the notifications that were already queued, each still relayed,
    whatever is sent afterwards. *)
Theorem router_sigterm_stops {S H} {ops : ShmOps S H} {api : ShmApi S H} m pad st qi bodies :
  (shm_capacity (S := S) (H := H) <= PAYLOAD_SIZE)%nat ->
  im_event m = event_code EV_SIGNAL -> sig_num m = SIGINT \/ sig_num m = SIGTERM ->
  ry_ipc st = Some qi -> room qi (quit_body pad) = true -> length pad = 4%nat ->
  of_type MSG_TYPE_SHM_NOTIFY (q_messages qi) = bodies ->
  Forall (fun b => (length b <= NOTIFY_SIZE)%nat /\ is_quit b = false) bodies ->
  exists st1, handle_event m pad st = Ret st1 /\ ry_running st1 = false /\ ry_pipe1 st1 = None /\
    (forall it its, ry_running (mi_others it st1) = false ->
       main_loop (it :: its) st1 = Ret (true, mi_others it st1)) /\
    (forall its gs h (wst : RelayState S) c t, rl_ipc wst = ry_ipc st1 ->
       shm_at h (rl_shm wst) c t -> Forall2 (relay_ok h) its gs -> (length bodies < length its)%nat ->
       exists wst', relay_loop its h wst = Ret (true, wst') /\
         rl_tcp wst' = rl_tcp wst ++ concat (zip_with (fun it t => sent_part (ri_send it) t) its
           (take (length bodies) (seen_texts gs t)))).
Proof.
  intros Hcap Hev Hsig Hqi Hroom Hpad Hty Hbs. unfold handle_event. rewrite Hev.
  change (event_code EV_SIGNAL =? event_code EV_QUIT) with false.
  change ((event_code EV_SIGNAL =? event_code EV_UDP) || (event_code EV_SIGNAL =? event_code EV_IPC)) with false.
  rewrite Z.eqb_refl. cbv iota.
  replace ((sig_num m =? SIGINT) || (sig_num m =? SIGTERM)) with true
    by (symmetry; apply orb_true_iff; by destruct Hsig as [-> | ->]; [left|right]).
  rewrite (quit_router_sends pad (stop_running st) qi), Hroom by done. run.
  set (st1 := close_shutdown_pipe _).
  assert (ry_running st1 = false /\ ry_pipe1 st1 = None /\ ry_ipc st1 =
    Some (mkQueue (q_messages qi ++ [(MSG_TYPE_SHM_NOTIFY, quit_body pad)]) (q_bytes qi)))
    as (H1 & H2 & H3).
  { split_and!; [etransitivity; [apply close_pipe_fields|done]|apply close_pipe_fields|].
    etransitivity; [apply close_pipe_fields|done]. }
  clearbody st1. exists st1. split_and!; try done.
  - intros it its Hr. cbn [main_loop]. by rewrite Hr.
  - intros its gs h wst c t Hw Hat Hits Hlen. rewrite H3 in Hw.
    assert (of_type MSG_TYPE_SHM_NOTIFY (q_messages
      (mkQueue (q_messages qi ++ [(MSG_TYPE_SHM_NOTIFY, quit_body pad)]) (q_bytes qi))) =
      bodies ++ [quit_body pad]) as Hty' by (cbn [q_messages]; by rewrite of_type_app, Hty).
    destruct (relay_loop_quit Hcap h (quit_body pad) [] its gs bodies wst _ c t Hw Hty' Hbs
      (quit_body_length pad Hpad) (quit_body_is_quit pad) Hat Hits Hlen)
      as (wst' & E & _ & Htcp & _). by exists wst'.
Qed.

(** When the Viewer cannot be reached and the Collector has meanwhile filled
    the notification queue, the Router does not terminate: after its five
    refused attempts the router thread sends the fatal event and ends, and
    nobody receives from the queue any more; the main thread leaves its loop
    and blocks for ever in the message it sends to that thread. *)
Theorem router_refused_deadlock {S H} {ops : ShmOps S H} attempt its_w h fd
    (wst : RelayState S) mq qi sys :
  (forall k, (k < CONNECT_MAX_RETRIES)%nat -> attempt k = (false, false)) ->
  rl_main wst = Some mq -> q_messages mq = [] -> Z.of_nat MSG_SIZE <= q_bytes mq ->
  rl_ipc wst = Some qi ->
  exists wst' sys', router_worker (Some fd) attempt its_w h wst sys = Ret (true, wst', sys') /\
    rl_ipc wst' = Some qi /\
    forall e hs st st1 it it',
      start_mgmt e st = Ret (true, true, st1) -> ne_iterations e = [it; it'] ->
      ry_running (mi_others it st1) = true -> mi_interrupted it = false ->
      ry_main (mi_others it st1) = rl_main wst' -> ry_ipc (mi_others it st1) = rl_ipc wst' ->
      (forall s, ry_ipc (mi_others it' s) = ry_ipc s /\ ry_running (mi_others it' s) = ry_running s) ->
      room qi (quit_body (ne_pad e)) = false -> run_router e hs st = Blocked.
Proof.
  intros Hatt Hmq Hempty Hcap Hqi. unfold router_worker.
  rewrite connect_loop_refused by (intros k Hk; apply Hatt, Hk). unfold send_fatal_event.
  destruct (build_text EV_FATAL (lit "router_worker: TCP connect failure after retries")
    (bs "router_worker: TCP connect failure after retries") eq_refl)
    as (m & -> & Hm & Hev & Ht).
  run. rewrite Hmq, send_to_main_room; [|done|].
  2: { unfold room, q_used. rewrite Hempty, length_msg_body by done. cbn.
       unfold MSG_SIZE in *. apply andb_true_iff. split; apply Z.leb_le; lia. }
  run. do 2 eexists. split; [done|]. cbn [rl_ipc rl_main]. split; [done|].
  intros e hs st st1 it it' Hmg Hits Hrun Hint Hmain Hipc Hoth Hfull. unfold run_router.
  rewrite Hmg. run. cbn [negb]. rewrite Hits. cbn [main_loop]. rewrite Hrun, Hint. cbn [negb].
  rewrite Hmain, (receive_internal _ m []) by (done || by rewrite Hempty). run.
  rewrite <- (wm_type _ Hm), msg_roundtrip by done.
  unfold handle_event. rewrite Hev, Ht. cbn [event_code Z.eqb Pos.eqb orb]. run.
  set (st2 := close_shutdown_pipe _). destruct (Hoth st2) as [Ho1 Ho2].
  assert (ry_running st2 = false) as E1 by apply close_pipe_fields.
  assert (ry_ipc st2 = Some qi) as E2 by (etransitivity; [apply close_pipe_fields|];
    cbn [stop_running set_running set_queues ry_ipc]; congruence).
  rewrite Ho2, E1. cbn [negb]. run. cbn [negb].
  rewrite (quit_router_sends _ _ qi), Hfull; [done|].
  etransitivity; [apply close_pipe_fields|]. cbn [stop_running set_running ry_ipc]. congruence.
Qed.

(** Without the notification queue (msgget failed: the identifier is -1) the
    router thread never ends: every msgrcv fails, the loop goes on without
    waiting, nothing is relayed, and the quit message of the main thread, sent
    to the same identifier, fails too, so that the join of a shutdown waits for
    ever. *)
Theorem router_no_queue_spins {S H} {ops : ShmOps S H} its h (st : RelayState S) :
  rl_ipc st = None ->
  Forall (fun it => forall st, rl_ipc st = None ->
    rl_ipc (ri_others it st) = None /\ rl_tcp (ri_others it st) = rl_tcp st) its ->
  (exists st', relay_loop its h st = Ret (false, st') /\ rl_tcp st' = rl_tcp st) /\
  (forall pad, send_shm_quit None pad = Ret None).
Proof.
  intros Hq Hits. split; [|done]. revert st Hq.
  induction Hits as [|it its Hf Hits IH]; intros st Hq; [by exists st|].
  destruct (Hf st Hq) as [Hq1 Ht1]. cbn [relay_loop]. unfold relay_step. rewrite Hq1.
  cbn [msgrcv]. run. cbn [negb].
  destruct (IH (mkRelay None (rl_main (ri_others it st)) (rl_shm (ri_others it st))
    (rl_tcp (ri_others it st))) eq_refl) as (st' & E & Ht). exists st'. split; [exact E|].
  by rewrite Ht.
Qed.

(** ** Concrete runs *)

(** The SIGTERM event, and a run in which another thread sends it. *)
Definition sigterm_msg : InternalMsg :=
  mkMsg MSG_TYPE (event_code EV_SIGNAL) (le_bytes 4 SIGTERM ++ zeros 252).

Lemma sigterm_msg_wf : wf_msg sigterm_msg.
Proof. split; [done|by exists EV_SIGNAL|done]. Qed.

Definition deliver (m : InternalMsg) (st : RouterSys) : RouterSys :=
  set_queues st (Some (mkQueue [(MSG_TYPE, msg_body m)] 16384)) (ry_ipc st).

Lemma deliver_sigterm_ok : thread_ok (deliver sigterm_msg).
Proof.
  intros st. apply kept_queues. intros qu [= <-]. apply Forall_singleton.
  exists sigterm_msg. split; [done|]. split; [apply sigterm_msg_wf|done].
Qed.

Lemma thread_id_ok : thread_ok id.
Proof. exact kept_refl. Qed.

Definition demo_router_env : RouterEnv :=
  mkRouterEnv (Some (mkQueue [] 16384)) true false (granting 7) (Some (3, 4)) true true true true
    true true true true
    [mkMainIteration (deliver sigterm_msg) false (zeros 4); mkMainIteration id false (zeros 4)]
    (zeros 4) (Some id) (Some id) (Some id).

Definition demo_router_start : RouterSys :=
  mkRouterSys (mkSys {[0; 1; 2]} ∅) no_segments initial_globals None (Some (mkQueue [] 16384)) true
    None None false ∅.

Lemma demo_router_start_ok : router_start demo_router_env demo_router_start.
Proof.
  split.
  - done.
  - done.
  - by intros q [= <-].
  - split; [done|]. intros id _. apply lookup_empty.
  - intros p0 p1 [= <- <-]. split_and!; [lia|by vm_compute|by vm_compute].
  - intros f [= <-]. apply thread_id_ok.
  - intros f [= <-]. apply thread_id_ok.
  - intros f [= <-]. apply thread_id_ok.
  - cbn [demo_router_env ne_iterations].
    apply Forall_cons_2; [exact deliver_sigterm_ok|]. apply Forall_singleton. exact thread_id_ok.
Qed.

Lemma router_main_clean_witness :
  exists st', main demo_router_env demo_router_start = Ret (Some 0, st') /\
    router_released demo_router_start st'.
Proof.
  pose proof (router_main_clean demo_router_env demo_router_start demo_router_start_ok) as H.
  assert (fst <$> (match main demo_router_env demo_router_start with Ret x => Some x | _ => None end)
    = Some (Some 0)) as E by (vm_compute; reflexivity).
  destruct (main demo_router_env demo_router_start) as [[[code|] st']| |]; try discriminate E.
  injection E as ->. exists st'. split; [reflexivity|]. destruct H as [_ H]. exact H.
Defined.

(** A router thread with one notification and a quit. *)
Definition demo_notify : list byte := notify_body (mkNotify 1 100) (zeros 4).

Definition demo_relay (s : ShmSystem) : RelayState ShmSystem :=
  mkRelay (Some (mkQueue [(1, demo_notify); (1, quit_body (zeros 4))] 16384))
    (Some (mkQueue [] 16384)) s [].

Definition demo_relay_iteration : RelayIteration ShmSystem :=
  mkRelayIteration id (TcpSent 1088) (zeros 1088) 0.

Lemma demo_relay_ok h :
  Forall2 (relay_ok (api := sysv_api false) h) [demo_relay_iteration; demo_relay_iteration] [id; id].
Proof.
  assert (relay_ok (api := sysv_api false) h demo_relay_iteration id) as Hok.
  { split; [|split; [reflexivity|discriminate]]. split; [|by eauto|done].
    intros st q Hq. exists []. rewrite app_nil_r. by destruct q. }
  by repeat apply Forall2_cons_2.
Qed.

Lemma demo_segment : exists s, connected false (100, Some (mkCtx 7 true)) s 0 [].
Proof.
  destruct (init_creates false 7 no_segments eq_refl) as (s & _ & _ & Hs). exists s.
  apply fresh_connected. rewrite Hs. apply lookup_insert_eq.
Qed.

(** ... into which the Collector has written. *)
Lemma demo_hello : exists s, connected false (100, Some (mkCtx 7 true)) s 100 (bs "hello").
Proof.
  destruct demo_segment as [s Hs].
  destruct (shm_write_spec (ShmApi := sysv_api false) _ s 0 [] 100 (lit "hello") (bs "hello") Hs eq_refl) as (s' & _ & Hs').
  by exists s'.
Qed.

Lemma demo_bodies :
  Forall (fun b => (length b <= NOTIFY_SIZE)%nat /\ is_quit b = false) [demo_notify].
Proof. apply Forall_singleton. split; [vm_compute; lia|reflexivity]. Qed.

Lemma router_worker_relays_witness :
  exists s st' sys', router_worker (ops := sysv_ops false) (Some 5) (fun i => (i =? 1, false)%nat)
      [demo_relay_iteration; demo_relay_iteration] (100, Some (mkCtx 7 true)) (demo_relay s)
      (mkSys {[0]} ∅) = Ret (true, st', sys') /\ rl_tcp st' = bs "[TCP-RELAY] hello" ++ [x0a].
Proof.
  destruct demo_hello as [s Hs]. exists s.
  destruct (router_worker_relays (ops := sysv_ops false) (api := sysv_api false) 5
    (fun i => (i =? 1, false)%nat) 1 [demo_relay_iteration; demo_relay_iteration] [id; id]
    (100, Some (mkCtx 7 true)) (demo_relay s) (mkSys {[0]} ∅)
    (mkQueue [(1, demo_notify); (1, quit_body (zeros 4))] 16384) [demo_notify] (quit_body (zeros 4)) [] 100 (bs "hello"))
    as (st' & sys' & H1 & _ & _ & _ & H2).
  - vm_compute. lia.
  - unfold CONNECT_MAX_RETRIES. lia.
  - reflexivity.
  - reflexivity.
  - by vm_compute.
  - reflexivity.
  - reflexivity.
  - exact demo_bodies.
  - vm_compute. lia.
  - reflexivity.
  - exact Hs.
  - apply demo_relay_ok.
  - cbn. lia.
  - exists st', sys'. split; [exact H1|]. apply H2.
    repeat apply Forall_cons_2; [..|apply Forall_nil_2]; (eexists; split; [reflexivity|unfold TCP_BUF_SIZE; lia]).
Defined.

Lemma router_sigterm_stops_witness :
  exists st1, handle_event sigterm_msg (zeros 4) demo_router_start = Ret st1 /\
    ry_running st1 = false /\ ry_pipe1 st1 = None.
Proof.
  destruct (router_sigterm_stops (ops := sysv_ops false) (api := sysv_api false) sigterm_msg (zeros 4)
    demo_router_start (mkQueue [] 16384) []) as (st1 & H1 & H2 & H3 & _).
  - vm_compute. lia.
  - reflexivity.
  - right. vm_compute. reflexivity.
  - reflexivity.
  - reflexivity.
  - reflexivity.
  - reflexivity.
  - apply Forall_nil_2.
  - exists st1. split; [exact H1|]. split; [exact H2|exact H3].
Defined.

(** A queue that holds no further notification. *)
Definition full_queue : MsgQueue := mkQueue [(1, demo_notify)] 8.

Definition blocked_env (mq : option MsgQueue) : RouterEnv :=
  mkRouterEnv None true false (granting 7) None true true true true true true true true
    [mkMainIteration (fun st => set_queues st mq (Some full_queue)) false (zeros 4);
     mkMainIteration id false (zeros 4)]
    (zeros 4) (Some id) (Some id) (Some id).

Lemma router_refused_deadlock_witness :
  exists s wst' sys', router_worker (ops := sysv_ops false) (Some 5) (fun _ => (false, false)) []
      (100, Some (mkCtx 7 true)) (mkRelay (Some full_queue) (Some (mkQueue [] 16384)) s [])
      (mkSys {[0]} ∅) = Ret (true, wst', sys') /\
    run_router (blocked_env (rl_main wst')) (Some (mkCtx 7 true)) demo_router_start = Blocked.
Proof.
  exists no_segments.
  destruct (router_refused_deadlock (ops := sysv_ops false) (fun _ => (false, false)) []
    (100, Some (mkCtx 7 true)) 5 (mkRelay (Some full_queue) (Some (mkQueue [] 16384)) no_segments [])
    (mkQueue [] 16384) full_queue (mkSys {[0]} ∅)) as (wst' & sys' & H1 & H2 & H3).
  - reflexivity.
  - reflexivity.
  - reflexivity.
  - vm_compute. congruence.
  - reflexivity.
  - exists wst', sys'. split; [exact H1|].
    destruct (start_mgmt_ok (blocked_env (rl_main wst')) demo_router_start no_segments ∅ demo_router_start)
      as (reg & st1 & E & _).
    + reflexivity.
    + by split.
    + assert (reg = true /\ ry_running st1 = true) as (-> & Hrun)
        by (vm_compute in E; injection E as <- <-; split; reflexivity).
      eapply H3; [exact E|reflexivity|exact Hrun|reflexivity|reflexivity|by rewrite H2|done|reflexivity].
Defined.

Lemma router_no_queue_spins_witness :
  exists st', relay_loop (ops := sysv_ops false) [demo_relay_iteration; demo_relay_iteration]
      (100, Some (mkCtx 7 true)) (mkRelay None (Some (mkQueue [] 16384)) no_segments []) = Ret (false, st').
Proof.
  destruct (router_no_queue_spins (ops := sysv_ops false) [demo_relay_iteration; demo_relay_iteration]
    (100, Some (mkCtx 7 true)) (mkRelay None (Some (mkQueue [] 16384)) no_segments []))
    as [(st' & H & _) _].
  - reflexivity.
  - apply Forall_cons_2; [|apply Forall_singleton]; intros st Hst; split; (exact Hst || reflexivity).
  - exists st'. exact H.
Defined.
