(* ===== verification/RouterFault.v ===== *)
(** * The Router built with fault injection (Router/src/main.c, signal_worker.c)

    With ENABLE_FAULT_INJECTION the Router takes options that inject a memory
    leak, a use after free or a data race, for the tools that are to find them.
    The definitions add that code to the ones of Router.v: the options, the
    injections, the thread that races and its cleanup label. *)

From S2P Require Import Prelude CLib MgmtProtocol EventHandler MgmtSocket Handlers.
From S2P Require Import Ipc ShmData Shm RouterMsg RouterMgmt Router.

(** ** Options *)

Record Faults := mkFaults { fail_leak : bool; fail_use_after_free : bool; fail_race : bool }.

Definition no_faults : Faults := mkFaults false false false.

(** What goes to the standard error. *)
Definition print_usage (prog : list byte) : list byte :=
  bs "Usage: " ++ prog ++ bs " [--fail-leak] [--fail-use-after-free] [--fail-race]" ++ [x0a].

Inductive Parsed := Run (o : Faults) | Exit (code : Z) (err : list byte).

(** The loop over [argv] from its second element, as contents of the strings. *)
Fixpoint parse_faults (prog : list byte) (args : list (list byte)) (o : Faults) : Parsed :=
  match args with
  | [] => Run o
  | arg :: args' =>
      if decide (arg = bs "--fail-leak")
      then parse_faults prog args' (mkFaults true (fail_use_after_free o) (fail_race o))
      else if decide (arg = bs "--fail-use-after-free")
      then parse_faults prog args' (mkFaults (fail_leak o) true (fail_race o))
      else if decide (arg = bs "--fail-race")
      then parse_faults prog args' (mkFaults (fail_leak o) (fail_use_after_free o) true)
      else if decide (arg = bs "--help") then Exit 0 (print_usage prog)
      else Exit 1 (bs "Unknown option: " ++ arg ++ [x0a] ++ print_usage prog)
  end.

(** ** The race *)

(** [g_race_flag++] on an int. *)
Definition incr_race_flag (g_race_flag : Z) : option Z :=
  if g_race_flag <? INT_MAX then Some (g_race_flag + 1) else None.

(** The racing thread when it is cancelled in its [n]-th iteration. *)
Fixpoint race_worker (n : nat) (g_race_flag : Z) : option Z :=
  match n with
  | O => Some g_race_flag
  | S n' => flag ← incr_race_flag g_race_flag; race_worker n' flag
  end.

(** The signal thread's loop, with its increments. *)
Fixpoint signal_loop_fault (g_fail_race : bool) (its : list SignalIteration) (g_race_flag : Z)
    (q : option MsgQueue) : exec (bool * Z * option MsgQueue) :=
  match its with
  | [] => Ret (false, g_race_flag, q)
  | it :: its' =>
      let q := si_others it q in
      if negb (si_running it) then Ret (true, g_race_flag, q)
      else
        match si_wait it with
        | None => Ret (true, g_race_flag, q)
        | Some sig =>
            flag ← (if g_fail_race then obj (incr_race_flag g_race_flag) else Ret g_race_flag);
            '(_, q) ← send_signal_event q sig;
            if (sig =? SIGINT) || (sig =? SIGTERM) then Ret (true, flag, q)
            else signal_loop_fault g_fail_race its' flag q
        end
  end.

(** What the additional calls answer; the iterations of the racing thread and
    the increments of the signal thread up to the cancellation. *)
Record FaultEnv := mkFaultEnv {
  fe_malloc_freed : bool; fe_malloc_leak : bool; fe_t_race : bool; fe_spins : nat; fe_signals : nat }.

(** The increments of both threads are not ordered and the flag is not atomic:
    with increments on both sides the accesses race, which is undefined. *)
Definition race_flag_after (fe : FaultEnv) : option Z :=
  if ((0 <? fe_spins fe) && (0 <? fe_signals fe))%nat then None
  else race_worker (fe_spins fe + fe_signals fe) 0.

(** ** The main thread *)

Definition T_RACE : Z := 5.

Section fault.
Variables (fe : FaultEnv) (fail_race : bool).

(** [t_race_created] is an automatic variable; [None] stands for its value
    before its declaration has been reached. *)
Definition cleanup_t_race (t_race_created : option bool) (st : RouterSys) : exec RouterSys :=
  if fail_race then
    created ← obj t_race_created;
    if created : bool then
      _ ← obj (race_flag_after fe); Ret (set_threads st (ry_threads st ∖ {[T_RACE]}))
    else Ret st
  else Ret st.

(** The label [cleanup_t3] in front of the join of the router thread. *)
Definition cleanup_t3 := skip_to_cleanup.

(** From the creation of the router thread on. *)
Definition run_router_fault (e : RouterEnv) (h : option ShmContext) (st : RouterSys)
    : exec (option Z * RouterSys) :=
  '(mgmt_ok, reg, st) ← start_mgmt e st;
  if negb mgmt_ok then
    st ← quit_router (ne_pad e) (stop_running st);
    st ← cleanup_t_race None (close_shutdown_pipe st);
    st ← cleanup_t3 e h true true reg st;
    Ret (Some 1, st)
  else if fail_race && negb (fe_t_race fe) then
    st ← cleanup_t3 e h true true reg st;
    Ret (Some 1, st)
  else
    let st := if fail_race then set_threads st ({[T_RACE]} ∪ ry_threads st) else st in
    '(ended, st) ← main_loop (ne_iterations e) st;
    if negb ended then Ret (None, st)
    else
      st ← quit_router (ne_pad e) (close_shutdown_pipe (stop_running st));
      st ← join T_MGMT (ne_mgmt_run e) st;
      st ← cleanup_t_race (Some fail_race) st;
      st ← cleanup_t3 e h true true reg st;
      Ret (Some 0, st).
End fault.

(** The program: the exit code, the state, the standard error and whether the
    buffer of the leak is still allocated.  The log calls in front of [log_init]
    have no logger and do nothing. *)
Definition main_fault (fe : FaultEnv) (e : RouterEnv) (prog : list byte) (args : list (list byte))
    (st : RouterSys) : exec (option Z * RouterSys * list byte * bool) :=
  match parse_faults prog args no_faults with
  | Exit code err => Ret (Some code, st, err, false)
  | Run o =>
      if fail_use_after_free o && fe_malloc_freed fe then UB
      else
        let leak_buf := fail_leak o && fe_malloc_leak fe in
        '(code, st) ← main_with (run_router_fault fe (fail_race o)) e st;
        Ret (code, st, [], match code with
                           | Some _ => if negb (fail_leak o) && leak_buf then false else leak_buf
                           | None => leak_buf
                           end)
  end.

(** * Lemmas *)

(** [main] depends on its second half pointwise. *)
Lemma main_with_ext run1 run2 e st :
  (forall h st, run1 e h st = run2 e h st) -> main_with run1 e st = main_with run2 e st.
Proof.
  intros E. unfold main_with, main_start. destruct (ne_main_queue e); [|done].
  destruct (drain _ _ _); run; try done. cbn [ry_shm set_queues].
  destruct (shm_api_init _ _ _) as [[h|] shm]; [|done]. destruct (ne_pipe e) as [[p0 p1]|]; [|done].
  unfold start_signal, start_threads. by repeat case_match.
Qed.

Lemma run_router_fault_off fe e h st : run_router_fault fe false e h st = run_router e h st.
Proof. reflexivity. Qed.

Lemma parse_leaks prog args o :
  Forall (fun a => a = bs "--fail-leak") args ->
  parse_faults prog args o = Run (mkFaults (fail_leak o || negb (bool_decide (args = [])))
    (fail_use_after_free o) (fail_race o)).
Proof.
  intros H. revert o. induction H as [|a args -> H IH]; intros [l u r].
  - cbn. by rewrite orb_false_r.
  - cbn [parse_faults]. rewrite decide_True by done. rewrite IH. cbn. by rewrite orb_true_r.
Qed.

Lemma signal_loop_fault_sim g_fail_race its flag q :
  flag + Z.of_nat (length its) <= INT_MAX ->
  exists n, (n <= length its)%nat /\ (g_fail_race = false -> n = 0%nat) /\
    signal_loop_fault g_fail_race its flag q =
      '(ended, q') ← signal_loop its q; Ret (ended, flag + Z.of_nat n, q').
Proof.
  revert flag q. induction its as [|it its IH]; intros flag q Hb; cbn [signal_loop_fault signal_loop].
  { exists 0%nat. run. rewrite Z.add_0_r. by repeat split. }
  cbn [length] in *. destruct (negb (si_running it)); [|destruct (si_wait it) as [sig|]].
  1, 3: exists 0%nat; run; rewrite Z.add_0_r; by split_and!; [lia| |].
  assert ((if g_fail_race then obj (incr_race_flag flag) else Ret flag) =
    Ret (flag + Z.of_nat (if g_fail_race then 1 else 0))) as ->.
  { destruct g_fail_race; cbn; [|by rewrite Z.add_0_r]. unfold incr_race_flag.
    destruct (flag <? INT_MAX) eqn:E; tests; [done|lia]. }
  run. destruct (send_signal_event _ sig) as [[r q1]| |]; run.
  2, 3: exists 0%nat; by split_and!; [lia| |].
  destruct ((sig =? SIGINT) || (sig =? SIGTERM)).
  - exists (if g_fail_race then 1 else 0)%nat. by split_and!; [destruct g_fail_race; lia|intros ->|].
  - destruct (IH (flag + Z.of_nat (if g_fail_race then 1 else 0)) q1) as (n & Hn & Hz & ->);
      [destruct g_fail_race; lia|].
    exists ((if g_fail_race then 1 else 0) + n)%nat.
    split_and!; [destruct g_fail_race; lia|intros E; rewrite E, Hz by done; done|].
    destruct (signal_loop its q1) as [[? ?]| |]; run; try done.
    by rewrite Nat2Z.inj_add, Z.add_assoc.
Qed.

(** The racing thread counts until the int overflows. *)
Lemma race_worker_counts n flag :
  0 <= flag -> flag + Z.of_nat n <= INT_MAX -> race_worker n flag = Some (flag + Z.of_nat n).
Proof.
  revert flag. induction n as [|n IH]; intros flag H0 Hb; cbn [race_worker].
  - f_equal. lia.
  - unfold incr_race_flag. destruct (flag <? INT_MAX) eqn:E; tests; [|lia]. run.
    rewrite IH by lia. f_equal. lia.
Qed.

Lemma race_worker_overflows n flag :
  0 <= flag <= INT_MAX -> INT_MAX < flag + Z.of_nat n -> race_worker n flag = None.
Proof.
  revert flag. induction n as [|n IH]; intros flag H0 Hb; cbn [race_worker]; [lia|].
  unfold incr_race_flag. destruct (flag <? INT_MAX) eqn:E; tests; [|done]. run. apply IH; lia.
Qed.

(** ** Cleanup *)

Lemma registry_destroy_flag g g' :
  obj (handler_registry_destroy g) = Ret g' -> g_registry_initialized g' = false.
Proof.
  unfold handler_registry_destroy. destruct (g_registry_initialized g) eqn:E; cbn [negb].
  - intros H. destruct (reg_lock _); [|done]. cbn [mbind option_bind] in H.
    destruct (reg_unlock _); [|done]. cbn in H. by injection H as <-.
  - intros H. by injection H as <-.
Qed.

Lemma cleanup_sem_exit h reg st st' :
  cleanup_sem h reg st = Ret st' ->
  ry_threads st' = ry_threads st /\ (reg = true -> g_registry_initialized (ry_globals st') = false).
Proof.
  unfold cleanup_sem, cleanup_pipe, cleanup_shm, cleanup_main_msq, cleanup_log.
  destruct reg; intros H.
  - apply exec_bind_inv in H as (g & Hg & H). injection H as <-. split; [by destruct (ry_sem st)|].
    intros _. cbn [set_globals ry_globals]. by apply registry_destroy_flag in Hg.
  - injection H as <-. split; [by destruct (ry_sem st)|done].
Qed.

(** The labels from [cleanup_t3] on join two threads, not more. *)
Lemma cleanup_t3_threads e h reg st st' :
  (forall f, ne_t2_run e = Some f -> thread_ok f) ->
  (forall f, ne_t3_run e = Some f -> thread_ok f) ->
  cleanup_t3 e h true true reg st = Ret st' ->
  ry_threads st' = ry_threads st ∖ {[T_ROUTER]} ∖ {[T_SIGNAL]} /\
  (reg = true -> g_registry_initialized (ry_globals st') = false).
Proof.
  intros H2 H3 H. unfold cleanup_t3, skip_to_cleanup, cleanup_t2, join in H.
  destruct (ne_t3_run e) as [f3|]; [|done]. destruct (ne_t2_run e) as [f2|]; [|done].
  cbn [mbind exec_bind] in H. apply cleanup_sem_exit in H as [-> Hr]. split; [|done].
  cbn [ry_threads set_threads]. rewrite (kp_threads _ _ (H2 f2 eq_refl _)). cbn [ry_threads set_threads].
  by rewrite (kp_threads _ _ (H3 f3 eq_refl _)).
Qed.

(** With the racing thread running and no race, the exit is as clean as without. *)
Lemma run_router_race_ok fe e c st0 shm :
  router_start e st0 ->
  (forall s, attachments s = attachments shm -> forall id a,
     attachments (ry_shm st0) !! id = Some a -> attachments (shm_api_close (Some c) s) !! id = Some a) ->
  ne_mutex_ok e && ne_t_mgmt e = true -> fe_t_race fe = true -> race_flag_after fe <> None ->
  forall st, ry_globals st = initial_globals -> running_ok st0 shm false {[T_ROUTER; T_SIGNAL]} st ->
    exits_clean st0 (run_router_fault fe true e (Some c) st).
Proof.
  intros [_ _ _ _ _ Ht2 Ht3 Htm Hits] Hcl Hmg Hrace Hflag st Hg Hr. unfold exits_clean, run_router_fault.
  destruct (start_mgmt_ok e st0 shm _ st Hg Hr) as (reg & st1 & -> & Hr1). run.
  rewrite Hmg in Hr1 |- *. rewrite Hrace. cbn [negb andb].
  set (st2 := set_threads st1 _).
  assert (running_ok st0 shm reg ({[T_RACE]} ∪ ({[T_MGMT]} ∪ {[T_ROUTER; T_SIGNAL]})) st2) as Hr2.
  { destruct Hr1 as [? ? ? ? ? Et]. split; try done. unfold st2. cbn [ry_threads set_threads].
    by rewrite Et. }
  clearbody st2.
  pose proof (main_loop_kept (ne_iterations e) st2 Hits (ro_queue _ _ _ _ _ Hr2)) as Hk.
  destruct (main_loop _ _) as [[[|] st3]| |]; run; cbn [negb]; try done.
  assert (running_ok st0 shm reg ({[T_RACE]} ∪ ({[T_MGMT]} ∪ {[T_ROUTER; T_SIGNAL]}))
    (close_shutdown_pipe (stop_running st3))) as Hr3.
  { eapply running_kept; [done|]. eapply kept_trans; [done|].
    eapply kept_trans; [apply kept_running|apply kept_close_pipe]. }
  pose proof (quit_running st0 shm (ne_pad e) _ _ _ Hr3) as Hr4.
  destruct (quit_router _ _) as [st4| |]; run; try done.
  pose proof (join_running st0 shm T_MGMT _ _ _ _ Htm Hr4) as Hr5.
  destruct (join _ _ _) as [st5| |]; run; try done.
  unfold cleanup_t_race. run. destruct (race_flag_after fe) as [z|]; [|done]. run.
  set (st6 := set_threads st5 _).
  assert (running_ok st0 shm reg {[T_ROUTER; T_SIGNAL]} st6) as Hr6.
  { destruct Hr5 as [? ? ? ? ? Et]. split; try done. unfold st6. cbn [ry_threads set_threads].
    rewrite Et. by vm_compute. }
  pose proof (skip_to_cleanup_ok e (Some c) st0 shm Hcl Ht2 Ht3 reg st6 Hr6) as Hs.
  unfold cleanup_t3. destruct (skip_to_cleanup _ _ _ _ _ _) as [st7| |]; run; try done.
  split; [by left|done].
Qed.

(** * Properties *)

(** C33: the build with fault injection is the same program until a fault is
    asked for.  Without options it does exactly what the ordinary build does,
    in [main] and in the signal thread; with [--fail-leak], given any number of
    times, too, except that the buffer of the leak is still allocated. *)
Theorem fault_build_equivalent fe e prog args st its flag q :
  Forall (fun a => a = bs "--fail-leak") args ->
  flag + Z.of_nat (length its) <= INT_MAX ->
  main_fault fe e prog args st =
    ('(code, st') ← main e st;
     Ret (code, st', [], negb (bool_decide (args = [])) && fe_malloc_leak fe)) /\
  signal_loop_fault false its flag q =
    ('(ended, q') ← signal_loop its q; Ret (ended, flag, q')).
Proof.
  intros Ha Hb. split.
  - unfold main_fault. rewrite parse_leaks by done. cbn [fail_use_after_free fail_race fail_leak
      no_faults orb andb]. unfold main.
    rewrite (main_with_ext _ run_router) by apply run_router_fault_off.
    destruct (main_with run_router e st) as [[[code|] st']| |]; run; try done.
    by destruct (bool_decide (args = [])), (fe_malloc_leak fe).
  - destruct (signal_loop_fault_sim false its flag q Hb) as (n & _ & Hn & ->).
    rewrite Hn by done. by rewrite Z.add_0_r.
Qed.

(** With [--fail-race] the additional thread is cancelled and joined: when
    the management part and the thread could be started, and the two threads
    have not in fact raced, every exit releases what the ordinary build
    releases. *)
Theorem fault_race_clean fe e prog st :
  router_start e st -> ne_mutex_ok e = true -> ne_t_mgmt e = true -> fe_t_race fe = true ->
  race_flag_after fe <> None ->
  match main_fault fe e prog [bs "--fail-race"] st with
  | Ret (Some code, st', err, leak) =>
      (code = 0 \/ code = 1) /\ err = [] /\ leak = false /\ router_released st st'
  | Ret (None, _, _, _) | Blocked => True
  | UB => False
  end.
Proof.
  intros Hstart Hm Ht Hr Hf.
  pose proof (main_with_ok (run_router_fault fe true) e st Hstart) as H.
  unfold main_fault. change (parse_faults prog [bs "--fail-race"] no_faults)
    with (Run (mkFaults false false true)). cbn [fail_use_after_free fail_leak fail_race andb].
  unfold exits_clean in H. destruct (main_with _ _ _) as [[[code|] st']| |]; run; try done.
  2: apply H.
  1: destruct H as [Hc Hrel]; [|by split_and!].
  all: intros c shm Hcl; apply run_router_race_ok; try done; by rewrite Hm, Ht.
Qed.

(** Two exits of the build with [--fail-race] are wrong, beyond the fault
    that is asked for.  When the management part cannot be started, the jump to
    the cleanup passes over the declaration of [t_race_created], which is then
    read although it has no value; when the racing thread cannot be created, the
    jump to [cleanup_t3] passes over the shutdown and the join of the management
    thread, so that the process ends with that thread running and the registry
    destroyed.  And the racing thread, left alone, overflows its int. *)
Theorem fault_race_defects fe e h st st1 reg ok :
  start_mgmt e st = Ret (ok, reg, st1) ->
  (ok = false -> quit_router (ne_pad e) (stop_running st1) <> Blocked ->
     run_router_fault fe true e h st = UB) /\
  (ok = true -> fe_t_race fe = false -> forall code st',
     (forall f, ne_t2_run e = Some f -> thread_ok f) ->
     (forall f, ne_t3_run e = Some f -> thread_ok f) ->
     run_router_fault fe true e h st = Ret (code, st') ->
     code = Some 1 /\ (T_MGMT ∈ ry_threads st1 -> T_MGMT ∈ ry_threads st') /\
     (reg = true -> g_registry_initialized (ry_globals st') = false)) /\
  (forall n, race_worker n 0 = None <-> INT_MAX < Z.of_nat n).
Proof.
  intros Hmg. split_and!.
  - intros -> Hq. unfold run_router_fault. rewrite Hmg. run. cbn [negb].
    by destruct (quit_router _ _).
  - intros -> Hrace code st' H2 H3 H. unfold run_router_fault in H. rewrite Hmg, Hrace in H.
    cbn [mbind exec_bind negb andb] in H. apply exec_bind_inv in H as (st2 & H & [= <- <-]).
    destruct (cleanup_t3_threads _ _ _ _ _ H2 H3 H) as [-> Hreg]. split_and!; try done.
    unfold T_MGMT, T_ROUTER, T_SIGNAL. set_solver by lia.
  - intros n. split.
    + intros H. apply Z.nle_gt. intros Hle. by rewrite race_worker_counts in H.
    + intros H. apply race_worker_overflows; [unfold INT_MAX|]; lia.
Qed.

(** ** Concrete runs *)

Definition demo_faults : FaultEnv := mkFaultEnv true true true 1000 0.

Lemma fault_build_equivalent_witness :
  main_fault demo_faults demo_router_env (bs "Router") [bs "--fail-leak"] demo_router_start =
    ('(code, st') ← main demo_router_env demo_router_start; Ret (code, st', [], true)) /\
  signal_loop_fault false [mkSignalIteration id true (Some SIGTERM)] 0 (Some (mkQueue [] 16384)) =
    ('(ended, q') ← signal_loop [mkSignalIteration id true (Some SIGTERM)] (Some (mkQueue [] 16384));
     Ret (ended, 0, q')).
Proof.
  apply (fault_build_equivalent demo_faults demo_router_env (bs "Router") [bs "--fail-leak"]).
  - apply Forall_singleton. reflexivity.
  - vm_compute. congruence.
Defined.

Lemma fault_race_clean_witness :
  exists st', main_fault demo_faults demo_router_env (bs "Router") [bs "--fail-race"] demo_router_start
      = Ret (Some 0, st', [], false) /\ router_released demo_router_start st'.
Proof.
  pose proof (fault_race_clean demo_faults demo_router_env (bs "Router") demo_router_start
    demo_router_start_ok eq_refl eq_refl eq_refl) as H.
  assert ((fun x => fst (fst (fst x))) <$> (match main_fault demo_faults demo_router_env (bs "Router")
    [bs "--fail-race"] demo_router_start with Ret x => Some x | _ => None end) = Some (Some 0)) as E
    by (vm_compute; reflexivity).
  destruct (main_fault _ _ _ _ _) as [[[[[code|] st'] err] leak]| |]; try discriminate E.
  injection E as ->. destruct H as (_ & -> & -> & Hr); [vm_compute; discriminate|].
  exists st'. split; [reflexivity|exact Hr].
Defined.

Definition no_mutex_env : RouterEnv :=
  mkRouterEnv (Some (mkQueue [] 16384)) true false (granting 7) (Some (3, 4)) true true true true
    true true false true [] (zeros 4) (Some id) (Some id) (Some id).

Lemma fault_race_defects_witness :
  run_router_fault demo_faults true no_mutex_env None demo_router_start = UB /\
  main_fault demo_faults no_mutex_env (bs "Router") [bs "--fail-race"] demo_router_start = UB.
Proof.
  split; [|vm_compute; reflexivity].
  destruct (fault_race_defects demo_faults no_mutex_env None demo_router_start
    demo_router_start false false) as (H & _).
  - vm_compute. reflexivity.
  - apply H; [reflexivity|]. vm_compute. discriminate.
Defined.
