(* ===== verification/RouterThreads.v ===== *)
(** * The Router's threads together (Router/src/main.c, signal_worker.c, router_worker.c)

    Router describes what each thread does with its data.  Here the four threads
    of the Router (main, signal, router, management) run as one interleaving
    transition system over what they use to stop each other: the flag
    [g_keep_running], the main queue, the notification queue, the shutdown pipe,
    the semaphore and the cancellation of the signal thread.  Both queues are
    bounded, and a send to a full queue waits.  It starts where [main] has
    created the signal thread. *)

From S2P Require Import Prelude RouterMsg Router.

(** ** State *)

(** The events that reach the main queue: SIGINT or SIGTERM (from the signal
    thread, the SHUTDOWN handler or a lost Viewer), and a fatal error. *)
Inductive main_event := EvTerm | EvFatal.

(** The messages of the notification queue. *)
Inductive notification := Data | Quit.

#[export] Instance notification_eq_dec : EqDecision notification.
Proof. solve_decision. Defined.

(** Where the main thread is. *)
Inductive rmain_pc :=
| RM_SemWait | RM_Create | RM_Mgmt
| RM_FailStore | RM_FailQuit | RM_FailClose
| RM_Test | RM_Recv
| RM_TermStore | RM_TermQuit | RM_TermClose | RM_FatalStore | RM_FatalClose
| RM_EndStore | RM_EndClose | RM_EndQuit
| RM_JoinMgmt | RM_JoinRouter | RM_Cancel | RM_JoinSignal | RM_Release | RM_Done.

#[export] Instance rmain_pc_eq_dec : EqDecision rmain_pc.
Proof. solve_decision. Defined.

Inductive rsignal_pc := RS_Start | RS_Loop | RS_Wait | RS_Send | RS_Done.

(** [n] counts the connection attempts left. *)
Inductive router_pc :=
| RR_None | RR_Connect (n : nat) | RR_Select (n : nat) | RR_Fatal
| RR_Recv | RR_Relay | RR_Term | RR_Done.

Inductive rmgmt_pc := RG_None | RG_Start | RG_Loop | RG_Recv | RG_Send | RG_Done.

Record RState := mkR {
  r_running : bool; r_mainq : list main_event; r_ipcq : list notification;
  r_closed : bool; r_posted : bool; r_pending : bool; r_cancel : bool; r_released : bool;
  r_main : rmain_pc; r_signal : rsignal_pc; r_router : router_pc; r_mgmt : rmgmt_pc }.

Definition put_running (s : RState) b := mkR b (r_mainq s) (r_ipcq s) (r_closed s) (r_posted s)
  (r_pending s) (r_cancel s) (r_released s) (r_main s) (r_signal s) (r_router s) (r_mgmt s).
Definition put_mainq (s : RState) q := mkR (r_running s) q (r_ipcq s) (r_closed s) (r_posted s)
  (r_pending s) (r_cancel s) (r_released s) (r_main s) (r_signal s) (r_router s) (r_mgmt s).
Definition put_ipcq (s : RState) q := mkR (r_running s) (r_mainq s) q (r_closed s) (r_posted s)
  (r_pending s) (r_cancel s) (r_released s) (r_main s) (r_signal s) (r_router s) (r_mgmt s).
Definition close_pipe (s : RState) := mkR (r_running s) (r_mainq s) (r_ipcq s) true (r_posted s)
  (r_pending s) (r_cancel s) (r_released s) (r_main s) (r_signal s) (r_router s) (r_mgmt s).
Definition post (s : RState) := mkR (r_running s) (r_mainq s) (r_ipcq s) (r_closed s) true
  (r_pending s) (r_cancel s) (r_released s) (r_main s) (r_signal s) (r_router s) (r_mgmt s).
Definition put_pending (s : RState) b := mkR (r_running s) (r_mainq s) (r_ipcq s) (r_closed s)
  (r_posted s) b (r_cancel s) (r_released s) (r_main s) (r_signal s) (r_router s) (r_mgmt s).
Definition cancel_signal (s : RState) := mkR (r_running s) (r_mainq s) (r_ipcq s) (r_closed s)
  (r_posted s) (r_pending s) true (r_released s) (r_main s) (r_signal s) (r_router s) (r_mgmt s).
Definition release_all (s : RState) := mkR (r_running s) (r_mainq s) (r_ipcq s) (r_closed s)
  (r_posted s) (r_pending s) (r_cancel s) true (r_main s) (r_signal s) (r_router s) (r_mgmt s).
Definition main_at (s : RState) p := mkR (r_running s) (r_mainq s) (r_ipcq s) (r_closed s)
  (r_posted s) (r_pending s) (r_cancel s) (r_released s) p (r_signal s) (r_router s) (r_mgmt s).
Definition signal_at (s : RState) p := mkR (r_running s) (r_mainq s) (r_ipcq s) (r_closed s)
  (r_posted s) (r_pending s) (r_cancel s) (r_released s) (r_main s) p (r_router s) (r_mgmt s).
Definition router_at (s : RState) p := mkR (r_running s) (r_mainq s) (r_ipcq s) (r_closed s)
  (r_posted s) (r_pending s) (r_cancel s) (r_released s) (r_main s) (r_signal s) p (r_mgmt s).
Definition mgmt_at (s : RState) p := mkR (r_running s) (r_mainq s) (r_ipcq s) (r_closed s)
  (r_posted s) (r_pending s) (r_cancel s) (r_released s) (r_main s) (r_signal s) (r_router s) p.

(** ** Steps *)

Section threads.
(** What the calls answer: the signal mask of the signal thread, the wait for
    the semaphore, the creation of the router thread, its socket, the registry
    with the management thread, the management socket. *)
Variables sigmask_ok sem_ok t3_ok tcp_ok mgmt_ok sock_ok : bool.
(** How many messages the queues take. *)
Variables main_cap ipc_cap : nat.

(** A blocking send to the main queue. *)
Definition send_main (e : main_event) (s : RState) : list RState :=
  if (length (r_mainq s) <? main_cap)%nat then [put_mainq s (r_mainq s ++ [e])] else [].

(** [send_shm_quit] *)
Definition send_quit (s : RState) : list RState :=
  if (length (r_ipcq s) <? ipc_cap)%nat then [put_ipcq s (r_ipcq s ++ [Quit])] else [].

Definition rmain_step (s : RState) : list RState :=
  match r_main s with
  | RM_SemWait =>
      if negb sem_ok then [main_at s RM_Cancel]
      else if r_posted s then [main_at s RM_Create] else []
  | RM_Create =>
      if t3_ok then
        [main_at (router_at s (if tcp_ok then RR_Connect CONNECT_MAX_RETRIES else RR_Fatal)) RM_Mgmt]
      else [main_at s RM_Cancel]
  | RM_Mgmt =>
      if mgmt_ok then [main_at (mgmt_at s RG_Start) RM_Test] else [main_at s RM_FailStore]
  | RM_FailStore => [main_at (put_running s false) RM_FailQuit]
  | RM_FailQuit => (fun s => main_at s RM_FailClose) <$> send_quit s
  | RM_FailClose => [main_at (close_pipe s) RM_JoinRouter]
  | RM_Test => [if r_running s then main_at s RM_Recv else main_at s RM_EndStore]
  | RM_Recv =>
      match r_mainq s with
      | [] => []
      | EvTerm :: q => [main_at (put_mainq s q) RM_TermStore]
      | EvFatal :: q => [main_at (put_mainq s q) RM_FatalStore]
      end
  | RM_TermStore => [main_at (put_running s false) RM_TermQuit]
  | RM_TermQuit => (fun s => main_at s RM_TermClose) <$> send_quit s
  | RM_TermClose => [main_at (close_pipe s) RM_Test]
  | RM_FatalStore => [main_at (put_running s false) RM_FatalClose]
  | RM_FatalClose => [main_at (close_pipe s) RM_Test]
  | RM_EndStore => [main_at (put_running s false) RM_EndClose]
  | RM_EndClose => [main_at (close_pipe s) RM_EndQuit]
  | RM_EndQuit => (fun s => main_at s RM_JoinMgmt) <$> send_quit s
  | RM_JoinMgmt => match r_mgmt s with RG_Done => [main_at s RM_JoinRouter] | _ => [] end
  | RM_JoinRouter => match r_router s with RR_Done => [main_at s RM_Cancel] | _ => [] end
  | RM_Cancel => [main_at (cancel_signal s) RM_JoinSignal]
  | RM_JoinSignal => match r_signal s with RS_Done => [main_at s RM_Release] | _ => [] end
  | RM_Release => [main_at (release_all s) RM_Done]
  | RM_Done => []
  end.

(** The signal thread: sigwait(3) and msgsnd(2) are cancellation points. *)
Definition rsignal_step (s : RState) : list RState :=
  match r_signal s with
  | RS_Start => [if sigmask_ok then signal_at (post s) RS_Loop else signal_at s RS_Done]
  | RS_Loop => [signal_at s (if r_running s then RS_Wait else RS_Done)]
  | RS_Wait => (if r_pending s then [signal_at (put_pending s false) RS_Send] else []) ++
               (if r_cancel s then [signal_at s RS_Done] else [])
  | RS_Send => ((fun s => signal_at s RS_Done) <$> send_main EvTerm s) ++
               (if r_cancel s then [signal_at s RS_Done] else [])
  | RS_Done => []
  end.

(** The router thread: connecting, with the wait on the pipe for three seconds
    between the attempts, then relaying. *)
Definition router_step (s : RState) : list RState :=
  match r_router s with
  | RR_Connect 0 => [router_at s RR_Fatal]
  | RR_Connect (S n) => [router_at s RR_Recv; router_at s (RR_Select n)]
  | RR_Select n => [router_at s (if r_closed s then RR_Done else RR_Connect n)]
  | RR_Fatal => (fun s => router_at s RR_Done) <$> send_main EvFatal s
  | RR_Recv =>
      match r_ipcq s with
      | [] => []
      | Quit :: q => [router_at (put_ipcq s q) RR_Done]
      | Data :: q => [router_at (put_ipcq s q) RR_Relay]
      end
  | RR_Relay => [router_at s RR_Recv; router_at s RR_Term]
  | RR_Term => (fun s => router_at s RR_Done) <$> send_main EvTerm s
  | RR_None | RR_Done => []
  end.

(** The management thread: its receive times out, which matters once the flag is
    cleared; a SHUTDOWN request sends an event. *)
Definition rmgmt_step (s : RState) : list RState :=
  match r_mgmt s with
  | RG_Start => [mgmt_at s (if sock_ok then RG_Loop else RG_Done)]
  | RG_Loop => [mgmt_at s (if r_running s then RG_Recv else RG_Done)]
  | RG_Recv => if r_running s then [] else [mgmt_at s RG_Loop]
  | RG_Send => (fun s => mgmt_at s RG_Loop) <$> send_main EvTerm s
  | RG_None | RG_Done => []
  end.

Definition rsuccessors (s : RState) : list RState :=
  rmain_step s ++ rsignal_step s ++ router_step s ++ rmgmt_step s.

Definition rinternal (s s' : RState) : Prop := s' ∈ rsuccessors s.

(** What comes from outside: a notification of the Collector, signals, a
    SHUTDOWN request, a timeout or another request of the management socket, an
    interrupted or failed receive of the main thread, a failed sigwait. *)
Inductive rexternal : RState -> RState -> Prop :=
| rx_data s : (length (r_ipcq s) < ipc_cap)%nat -> rexternal s (put_ipcq s (r_ipcq s ++ [Data]))
| rx_signal s : rexternal s (put_pending s true)
| rx_shutdown s : r_mgmt s = RG_Recv -> rexternal s (mgmt_at s RG_Send)
| rx_timeout s : r_mgmt s = RG_Recv -> rexternal s (mgmt_at s RG_Loop)
| rx_interrupted s : r_main s = RM_Recv -> rexternal s (main_at s RM_Test)
| rx_failed s : r_main s = RM_Recv -> rexternal s (main_at s RM_EndStore)
| rx_sigwait s : r_signal s = RS_Wait -> rexternal s (signal_at s RS_Done).

Definition rstep (s s' : RState) : Prop := rinternal s s' \/ rexternal s s'.
End threads.

(** After the creation of the signal thread. *)
Definition r_initial : RState :=
  mkR true [] [] false false false false false RM_SemWait RS_Start RR_None RG_None.

(** * Lemmas *)

(** ** The invariant *)

(** Places of the main thread: the flag is cleared; the pipe is closed; the quit
    message has been sent for good; the router thread exists; the management
    thread exists; the threads are joined. *)
Definition stopped_at (p : rmain_pc) : bool :=
  match p with
  | RM_TermQuit | RM_TermClose | RM_FatalClose | RM_FailQuit | RM_FailClose | RM_EndClose
  | RM_EndQuit | RM_JoinMgmt | RM_JoinRouter => true
  | _ => false
  end.
Definition closed_at (p : rmain_pc) : bool :=
  match p with RM_EndQuit | RM_JoinMgmt | RM_JoinRouter => true | _ => false end.
Definition quit_at (p : rmain_pc) : bool :=
  match p with RM_FailClose | RM_JoinMgmt | RM_JoinRouter => true | _ => false end.
Definition before_router (p : rmain_pc) : bool :=
  match p with RM_SemWait | RM_Create => true | _ => false end.
Definition router_joined (p : rmain_pc) : bool :=
  match p with RM_Cancel | RM_JoinSignal | RM_Release | RM_Done => true | _ => false end.
Definition without_mgmt (p : rmain_pc) : bool :=
  match p with
  | RM_SemWait | RM_Create | RM_Mgmt | RM_FailStore | RM_FailQuit | RM_FailClose => true
  | _ => false
  end.
Definition mgmt_joined (p : rmain_pc) : bool :=
  match p with RM_JoinRouter => true | _ => router_joined p end.

Definition cancel_at (p : rmain_pc) : bool :=
  match p with RM_JoinSignal | RM_Release | RM_Done => true | _ => false end.

Record rinv (sigmask_ok : bool) (s : RState) : Prop := {
  ri_running : stopped_at (r_main s) = true -> r_running s = false;
  ri_closed : closed_at (r_main s) = true -> r_closed s = true;
  ri_quit : quit_at (r_main s) = true -> Quit ∈ r_ipcq s \/ r_router s = RR_Done;
  ri_none : r_router s = RR_None -> before_router (r_main s) || router_joined (r_main s) = true;
  ri_joined : router_joined (r_main s) = true -> r_router s = RR_Done \/ r_router s = RR_None;
  ri_early : before_router (r_main s) = true -> r_router s = RR_None;
  ri_no_mgmt : without_mgmt (r_main s) = true -> r_mgmt s = RG_None;
  ri_mgmt : r_mgmt s = RG_None -> without_mgmt (r_main s) || mgmt_joined (r_main s) = true;
  ri_mgmt_joined : mgmt_joined (r_main s) = true -> r_mgmt s = RG_Done \/ r_mgmt s = RG_None;
  ri_cancel : r_main s = RM_JoinSignal -> r_cancel s = true;
  ri_cancelled : r_cancel s = true -> cancel_at (r_main s) = true;
  ri_recv : r_main s = RM_Recv -> r_running s = true;
  ri_signal : r_main s = RM_Release \/ r_main s = RM_Done -> r_signal s = RS_Done;
  ri_sem : r_posted s = false ->
    r_signal s = RS_Start \/ (r_signal s = RS_Done /\ sigmask_ok = false);
  ri_released : r_main s = RM_Done -> r_released s = true }.

Lemma rinv_initial ok : rinv ok r_initial.
Proof. split; cbn; try done; auto; by intros [|]. Qed.

(** Take a membership in the successors apart. *)
Ltac rcases H :=
  repeat match type of H with
  | _ ∈ _ ++ _ => apply elem_of_app in H as [H|H]
  | _ ∈ [_] => apply list_elem_of_singleton in H
  | _ ∈ _ :: _ => apply elem_of_cons in H as [H|H]
  | _ ∈ [] => by apply not_elem_of_nil in H
  | _ ∈ _ <$> _ => apply list_elem_of_fmap in H as (? & ? & H)
  | _ ∈ send_main _ _ _ => unfold send_main in H
  | _ ∈ send_quit _ _ => unfold send_quit in H
  | _ ∈ match ?x with _ => _ end => let E := fresh "E" in destruct x eqn:E
  | _ ∈ (if ?x then _ else _) => let E := fresh "E" in destruct x eqn:E
  end.

Ltac quit_solve :=
  first
  [ left; apply elem_of_app; right; by apply list_elem_of_singleton
  | left; apply elem_of_app; left; assumption
  | left; assumption
  | right; assumption
  | right; reflexivity ].

(** Discharge the fields of the invariant after a step. *)
Ltac rsolve :=
  try assumption; try discriminate;
  repeat match goal with
  | H : true = true -> _ |- _ => specialize (H eq_refl)
  | H : false = true -> _ |- _ => clear H
  | H : _ = _ \/ _ = _ -> _ |- _ =>
      first [specialize (H (or_introl eq_refl)) | specialize (H (or_intror eq_refl))]
  end;
  first
  [ done
  | by intros; auto
  | by intros [|]
  | by intros; congruence
  | intros; intuition (first [congruence | quit_solve | auto]) ].

Section invariant.
Context (sigmask_ok sem_ok t3_ok tcp_ok mgmt_ok sock_ok : bool) (main_cap ipc_cap : nat).

Lemma rmain_step_inv s s' :
  rinv sigmask_ok s -> s' ∈ rmain_step sem_ok t3_ok tcp_ok mgmt_ok ipc_cap s -> rinv sigmask_ok s'.
Proof using Type.
  intros [] H. destruct s as [rn mq iq cl po pe ca re mp sp rp gp]; cbn in *.
  unfold rmain_step in H. cbn [r_main] in H.
  destruct mp; rcases H; subst; cbn in *; repeat case_match; simplify_eq; cbn in *;
    split; cbn; rsolve.
Qed.

Lemma rsignal_step_inv s s' :
  rinv sigmask_ok s -> s' ∈ rsignal_step sigmask_ok main_cap s -> rinv sigmask_ok s'.
Proof using Type.
  intros [] H. destruct s as [rn mq iq cl po pe ca re mp sp rp gp]; cbn in *.
  unfold rsignal_step in H. cbn [r_signal] in H.
  destruct sp; rcases H; subst; cbn in *; repeat case_match; simplify_eq; cbn in *;
    split; cbn; rsolve.
Qed.

Lemma router_step_inv s s' :
  rinv sigmask_ok s -> s' ∈ router_step main_cap s -> rinv sigmask_ok s'.
Proof using Type.
  intros [] H. destruct s as [rn mq iq cl po pe ca re mp sp rp gp]; cbn in *.
  unfold router_step in H. cbn [r_router] in H.
  destruct rp; rcases H; subst; cbn in *; repeat case_match; simplify_eq; cbn in *;
    split; cbn; rsolve.
  left. match goal with Hin : Quit ∈ Data :: _ |- _ => apply elem_of_cons in Hin as [|Hin] end; done.
Qed.

Lemma rmgmt_step_inv s s' :
  rinv sigmask_ok s -> s' ∈ rmgmt_step sock_ok main_cap s -> rinv sigmask_ok s'.
Proof using Type.
  intros [] H. destruct s as [rn mq iq cl po pe ca re mp sp rp gp]; cbn in *.
  unfold rmgmt_step in H. cbn [r_mgmt] in H.
  destruct gp; rcases H; subst; cbn in *; repeat case_match; simplify_eq; cbn in *;
    split; cbn; rsolve.
Qed.

Lemma rexternal_inv s s' : rinv sigmask_ok s -> rexternal ipc_cap s s' -> rinv sigmask_ok s'.
Proof using Type.
  intros Hi H. pose proof Hi as []. destruct H as [s|s|s Hp|s Hp|s Hp|s Hp|s Hp];
    destruct s as [rn mq iq cl po pe ca re mp sp rp gp]; cbn in *; subst; cbn in *;
    split; cbn; rsolve.
Qed.

Abbreviation step := (rstep sigmask_ok sem_ok t3_ok tcp_ok mgmt_ok sock_ok main_cap ipc_cap).

Lemma rstep_inv s s' : rinv sigmask_ok s -> step s s' -> rinv sigmask_ok s'.
Proof using Type.
  intros Hi [H|H]; [|by eapply rexternal_inv].
  unfold rinternal, rsuccessors in H. rewrite !elem_of_app in H.
  destruct H as [H|[H|[H|H]]];
    eauto using rmain_step_inv, rsignal_step_inv, router_step_inv, rmgmt_step_inv.
Qed.

Lemma r_reachable_inv s : rtc step r_initial s -> rinv sigmask_ok s.
Proof using Type.
  intros H. eapply rtc_invariant; [intros a b; apply rstep_inv|apply rinv_initial|done].
Qed.
End invariant.

(** ** Progress *)

Definition rmain_rank (running : bool) (p : rmain_pc) : nat :=
  match p with
  | RM_SemWait => 110 | RM_Create => 109 | RM_Mgmt => 90
  | RM_FailStore => 70 | RM_FailQuit => 69 | RM_FailClose => 64
  | RM_Test => if running then 80 else 55 | RM_Recv => 79
  | RM_TermStore => 70 | RM_TermQuit => 69 | RM_TermClose => 64
  | RM_FatalStore => 70 | RM_FatalClose => 69
  | RM_EndStore => 54 | RM_EndClose => 53 | RM_EndQuit => 52
  | RM_JoinMgmt => 47 | RM_JoinRouter => 40 | RM_Cancel => 30 | RM_JoinSignal => 29
  | RM_Release => 28 | RM_Done => 27
  end%nat.
Definition rsignal_rank (p : rsignal_pc) : nat :=
  match p with RS_Start => 4 | RS_Loop => 3 | RS_Wait => 2 | RS_Send => 1 | RS_Done => 0 end.
Definition router_rank (p : router_pc) : nat :=
  match p with
  | RR_None | RR_Done => 0 | RR_Fatal | RR_Term => 1 | RR_Recv => 2 | RR_Relay => 3
  | RR_Connect n => 4 + 2 * n | RR_Select n => 5 + 2 * n
  end.
Definition rmgmt_rank (running : bool) (p : rmgmt_pc) : nat :=
  match p with
  | RG_None | RG_Done => 0 | RG_Start => 6 | RG_Send => 5
  | RG_Loop => if running then 4 else 2 | RG_Recv => 3
  end%nat.

(** An upper bound on the steps the threads can still do by themselves. *)
Definition rmeasure (s : RState) : nat :=
  (rmain_rank (r_running s) (r_main s) + rsignal_rank (r_signal s) + router_rank (r_router s) +
   rmgmt_rank (r_running s) (r_mgmt s) + 3 * length (r_ipcq s))%nat.

Ltac rmeasure_cases :=
  cbn in *; rewrite ?length_app; cbn in *;
  repeat (match goal with
  | |- context [if ?b then _ else _] =>
      lazymatch b with context [if _ then _ else _] => fail | _ => destruct b end
  end; cbn in *);
  first [lia|congruence].

(** Reduce the fields of a state. *)
Ltac fields H :=
  cbn [r_running r_mainq r_ipcq r_closed r_posted r_pending r_cancel r_released r_main r_signal
    r_router r_mgmt] in H |- *.

Section progress.
Context (sigmask_ok sem_ok t3_ok tcp_ok mgmt_ok sock_ok : bool) (main_cap ipc_cap : nat).

Lemma rinternal_measure s s' :
  rinv sigmask_ok s -> rinternal sigmask_ok sem_ok t3_ok tcp_ok mgmt_ok sock_ok main_cap ipc_cap s s' ->
  (rmeasure s' < rmeasure s)%nat.
Proof using Type.
  unfold rinternal, rsuccessors. rewrite !elem_of_app. unfold rmeasure.
  destruct s as [rn mq iq cl po pe ca re mp sp rp gp].
  intros [Hrun _ _ _ _ Hearly Hno _ _ _ _ _ _ _ _] [H|[H|[H|H]]]; cbn in Hrun, Hearly, Hno.
  - unfold rmain_step in H. fields H.
    destruct mp; cbn in Hrun, Hearly, Hno; try (specialize (Hrun eq_refl); subst rn);
      try (specialize (Hearly eq_refl); subst rp); try (specialize (Hno eq_refl); subst gp);
      rcases H; subst; try destruct gp; rmeasure_cases.
  - unfold rsignal_step in H. fields H. destruct sp; rcases H; subst; rmeasure_cases.
  - unfold router_step in H. fields H. destruct rp; rcases H; subst; rmeasure_cases.
  - unfold rmgmt_step in H. fields H. destruct gp; rcases H; subst; rmeasure_cases.
Qed.

(** ** What the threads can come to *)

Definition sending_quit (p : rmain_pc) : bool :=
  match p with RM_FailQuit | RM_TermQuit | RM_EndQuit => true | _ => false end.

Definition router_sending (p : router_pc) : bool :=
  match p with RR_Fatal | RR_Term => true | _ => false end.

(** The main thread waits for ever: in its quit message, on a full notification
    queue that the router thread does not empty any more; or for a thread that
    sends to the full main queue, which nobody reads any more. *)
Inductive deadlock (s : RState) : Prop :=
| dl_quit : sending_quit (r_main s) = true -> (ipc_cap <= length (r_ipcq s))%nat ->
    r_router s = RR_Done \/
      (router_sending (r_router s) = true /\ (main_cap <= length (r_mainq s))%nat) ->
    deadlock s
| dl_mgmt : r_main s = RM_JoinMgmt -> r_mgmt s = RG_Send ->
    (main_cap <= length (r_mainq s))%nat -> deadlock s
| dl_router : r_main s = RM_JoinRouter -> router_sending (r_router s) = true ->
    (main_cap <= length (r_mainq s))%nat -> deadlock s.

(** The main thread is on its way out. *)
Definition stopping (p : rmain_pc) : bool :=
  match p with RM_SemWait | RM_Create | RM_Mgmt | RM_Test | RM_Recv => false | _ => true end.

(** The end has been asked for: by a signal, by a SHUTDOWN request, by a thread
    that gave up, or by a failed start. *)
Definition stop_requested (s : RState) : bool :=
  negb (r_running s) || stopping (r_main s) ||
  match r_mainq s with [] => false | _ => true end ||
  match r_mgmt s with RG_Send => true | _ => false end ||
  router_sending (r_router s) ||
  match r_signal s with
  | RS_Send => true
  | RS_Start => sigmask_ok && r_pending s
  | RS_Loop | RS_Wait => r_pending s
  | RS_Done => false
  end.

Abbreviation internal_step :=
  (rinternal sigmask_ok sem_ok t3_ok tcp_ok mgmt_ok sock_ok main_cap ipc_cap).
Abbreviation successors_of :=
  (rsuccessors sigmask_ok sem_ok t3_ok tcp_ok mgmt_ok sock_ok main_cap ipc_cap).

Lemma stop_requested_kept s s' :
  rinv sigmask_ok s -> internal_step s s' -> stop_requested s = true -> stop_requested s' = true.
Proof using Type.
  unfold rinternal, rsuccessors. rewrite !elem_of_app. unfold stop_requested.
  destruct s as [rn mq iq cl po pe ca re mp sp rp gp].
  intros [Hrun _ _ _ _ Hearly Hno _ _ _ Hca _ _ _ _] [H|[H|[H|H]]]; cbn in Hrun, Hearly, Hno, Hca.
  - unfold rmain_step in H. fields H.
    destruct mp; cbn in Hrun, Hearly, Hno; try (specialize (Hrun eq_refl); subst rn);
      try (specialize (Hearly eq_refl); subst rp); try (specialize (Hno eq_refl); subst gp);
      rcases H; subst; try destruct rn; cbn; rewrite ?orb_true_r; try done; auto.
    destruct tcp_ok; cbn; rewrite ?orb_true_r; auto.
  - unfold rsignal_step in H. fields H.
    destruct sp, rn, sigmask_ok; rcases H; subst; cbn; rewrite ?orb_true_r, ?orb_false_r; try done;
      try (by destruct mq; cbn; rewrite ?orb_true_r);
      specialize (Hca eq_refl); destruct mp; try done; cbn; by rewrite ?orb_true_r.
  - unfold router_step in H. fields H.
    destruct rp; rcases H; subst; cbn; rewrite ?orb_true_r, ?orb_false_r; try done;
      try (by destruct mq; cbn; rewrite ?orb_true_r).
    by destruct cl; cbn; rewrite orb_false_r.
  - unfold rmgmt_step in H. fields H.
    destruct gp; rcases H; subst; cbn; rewrite ?orb_true_r, ?orb_false_r; try done;
      try (by destruct mq; cbn; rewrite ?orb_true_r).
    + by destruct sock_ok; cbn; rewrite ?orb_false_r.
    + by destruct rn; cbn; rewrite ?orb_false_r.
Qed.

Lemma send_main_full e s : send_main main_cap e s = [] -> (main_cap <= length (r_mainq s))%nat.
Proof using Type. unfold send_main. case_match; [done|]. intros _. by apply Nat.ltb_ge. Qed.

Lemma send_quit_full s : send_quit ipc_cap s = [] -> (ipc_cap <= length (r_ipcq s))%nat.
Proof using Type. unfold send_quit. case_match; [done|]. intros _. by apply Nat.ltb_ge. Qed.

(** A router thread that cannot go on has ended, waits for a notification, or
    sends to the full main queue. *)
Lemma router_stuck s :
  router_step main_cap s = [] ->
  r_router s = RR_None \/ r_router s = RR_Done \/ (r_router s = RR_Recv /\ r_ipcq s = []) \/
  (router_sending (r_router s) = true /\ (main_cap <= length (r_mainq s))%nat).
Proof using Type.
  unfold router_step. destruct (r_router s) as [|[|n]|n| | | | |] eqn:E; try done; auto.
  - intros H%fmap_nil_inv. right; right; right. split; [done|]. by eapply send_main_full.
  - destruct (r_ipcq s) as [|[]]; try done. auto.
  - intros H%fmap_nil_inv. right; right; right. split; [done|]. by eapply send_main_full.
Qed.

Lemma quit_stuck s :
  (0 < ipc_cap)%nat -> rinv sigmask_ok s -> sending_quit (r_main s) = true ->
  send_quit ipc_cap s = [] -> router_step main_cap s = [] -> deadlock s.
Proof using Type.
  intros Hcap Hi Hm Hq%send_quit_full Hr. apply dl_quit; [done|done|].
  apply router_stuck in Hr as [H|[H|[[_ H]|H]]]; [|by left|rewrite H in Hq; cbn in Hq; lia|by right].
  apply (ri_none _ _ Hi) in H. by destruct (r_main s).
Qed.

(** A router thread that cannot go on and has the main queue empty sends nothing. *)
Lemma stuck_not_sending s :
  (0 < main_cap)%nat -> r_mainq s = [] -> router_step main_cap s = [] -> router_sending (r_router s) = false.
Proof using Type.
  intros Hcap Hq Hr. apply router_stuck in Hr as [->|[->|[[-> _]|[_ H]]]]; try done. rewrite Hq in H. cbn in H. lia.
Qed.

Lemma waiting_not_requested s :
  (0 < main_cap)%nat -> rinv sigmask_ok s -> r_main s = RM_Recv -> r_mainq s = [] ->
  rsignal_step sigmask_ok main_cap s = [] -> router_sending (r_router s) = false ->
  rmgmt_step sock_ok main_cap s = [] -> stop_requested s = false.
Proof using Type.
  intros Hcap Hi Hm Hq Hs Hr Hg. pose proof (ri_recv _ _ Hi Hm) as Hrun.
  unfold stop_requested. rewrite Hrun, Hm, Hq, Hr. cbn.
  assert (forall e, send_main main_cap e s <> []) as Hroom.
  { intros e H%send_main_full. rewrite Hq in H. cbn in H. lia. }
  assert (r_mgmt s <> RG_Send) as Hg'.
  { intros E. unfold rmgmt_step in Hg. rewrite E in Hg. apply fmap_nil_inv in Hg. by eapply Hroom. }
  assert (r_signal s = RS_Done \/ (r_signal s = RS_Wait /\ r_pending s = false)) as Hs'.
  { unfold rsignal_step in Hs. destruct (r_signal s); try done; auto.
    - apply app_eq_nil in Hs as [Hs _]. right. split; [done|]. by destruct (r_pending s).
    - apply app_eq_nil in Hs as [Hs _]. apply fmap_nil_inv in Hs. by apply Hroom in Hs. }
  destruct (r_mgmt s); try done; by destruct Hs' as [->|[-> ->]].
Qed.

(** The join of the management thread waits at most for room in the main queue. *)
Lemma join_mgmt_stuck s :
  rinv sigmask_ok s -> r_main s = RM_JoinMgmt -> rmgmt_step sock_ok main_cap s = [] ->
  r_mgmt s = RG_Done \/ (r_mgmt s = RG_Send /\ (main_cap <= length (r_mainq s))%nat).
Proof using Type.
  intros Hi Hm Eg. unfold rmgmt_step in Eg. destruct (r_mgmt s) eqn:Hg; try done; auto.
  - by apply (ri_mgmt _ _ Hi) in Hg; rewrite Hm in Hg.
  - by rewrite (ri_running _ _ Hi) in Eg by by rewrite Hm.
  - right. split; [done|]. apply fmap_nil_inv in Eg. by eapply send_main_full.
Qed.

Lemma join_signal_moves s :
  rinv sigmask_ok s -> r_main s = RM_JoinSignal -> rmain_step sem_ok t3_ok tcp_ok mgmt_ok ipc_cap s = [] ->
  rsignal_step sigmask_ok main_cap s <> [].
Proof using Type.
  intros Hi Hm Em Es. unfold rmain_step in Em. rewrite Hm in Em. unfold rsignal_step in Es.
  pose proof (ri_cancel _ _ Hi Hm) as Hc. rewrite Hc in Es.
  destruct (r_signal s); try done; by apply app_eq_nil in Es as [_ ?].
Qed.

(** The router thread waits for the Viewer's host: for connect(2) or send(2). *)
Definition at_host (p : router_pc) : bool :=
  match p with RR_Connect (S _) | RR_Relay => true | _ => false end.

(** Once the end has been asked for, what the other threads come to when the
    Viewer's host does not answer. *)
Lemma unanswered_cases s :
  (0 < main_cap)%nat -> rinv sigmask_ok s -> stop_requested s = true -> at_host (r_router s) = true ->
  rmain_step sem_ok t3_ok tcp_ok mgmt_ok ipc_cap s = [] -> rsignal_step sigmask_ok main_cap s = [] ->
  rmgmt_step sock_ok main_cap s = [] ->
  sending_quit (r_main s) = true \/ deadlock s \/ r_main s = RM_JoinRouter.
Proof using Type.
  intros Hmc Hi Hreq Hr Em Es Eg. pose proof Em as Em'. unfold rmain_step in Em.
  destruct (r_main s) eqn:Hm; try done; auto.
  - rewrite (ri_early _ _ Hi) in Hr by by rewrite Hm. done.
  - by destruct t3_ok.
  - by destruct mgmt_ok.
  - destruct (r_mainq s) as [|[]] eqn:Hq; try done. rewrite waiting_not_requested in Hreq; try done.
    by destruct (r_router s) as [|[]| | | | | |].
  - destruct (join_mgmt_stuck s Hi Hm Eg) as [H|[H H']]; [by rewrite H in Em|]. right; left. by apply dl_mgmt.
  - by destruct (join_signal_moves s Hi Hm Em').
  - destruct (ri_joined _ _ Hi) as [H|H]; [by rewrite Hm|by rewrite H in Hr..].
Qed.

Lemma stuck_cases s :
  (0 < main_cap)%nat -> (0 < ipc_cap)%nat -> rinv sigmask_ok s -> stop_requested s = true ->
  successors_of s = [] ->
  r_main s = RM_Done \/ deadlock s \/ (r_main s = RM_SemWait /\ sigmask_ok = false).
Proof using Type.
  intros Hmc Hic Hi Hreq E. unfold rsuccessors in E.
  apply app_eq_nil in E as [Em E]. apply app_eq_nil in E as [Es E]. apply app_eq_nil in E as [Er Eg]. pose proof Em as Em'.
  unfold rmain_step in Em. destruct (r_main s) eqn:Hm; try done; auto.
  - right; right. split; [done|]. destruct sem_ok; [|done]. cbn in Em.
    destruct (r_posted s) eqn:Hp; [done|]. destruct (ri_sem _ _ Hi Hp) as [H|[_ H]]; [|done].
    unfold rsignal_step in Es. by rewrite H in Es.
  - by destruct t3_ok.
  - by destruct mgmt_ok.
  - right; left. apply fmap_nil_inv in Em. apply quit_stuck; auto. by rewrite Hm.
  - destruct (r_mainq s) as [|[]] eqn:Hq; try done.
    rewrite waiting_not_requested in Hreq; try done. by apply stuck_not_sending.
  - right; left. apply fmap_nil_inv in Em. apply quit_stuck; auto. by rewrite Hm.
  - right; left. apply fmap_nil_inv in Em. apply quit_stuck; auto. by rewrite Hm.
  - destruct (join_mgmt_stuck s Hi Hm Eg) as [H|[H H']]; [by rewrite H in Em|]. right; left. by apply dl_mgmt.
  - right; left. apply router_stuck in Er as [H|[H|[[H1 H2]|[H1 H2]]]].
    + by apply (ri_none _ _ Hi) in H; rewrite Hm in H.
    + by rewrite H in Em.
    + destruct (ri_quit _ _ Hi) as [H|H]; [by rewrite Hm| |congruence].
      rewrite H2 in H. by apply not_elem_of_nil in H.
    + by apply dl_router.
  - by destruct (join_signal_moves s Hi Hm Em').
Qed.

(** Everything has ended and been released. *)
Definition finished (s : RState) : Prop :=
  r_main s = RM_Done /\ r_signal s = RS_Done /\ (r_router s = RR_Done \/ r_router s = RR_None) /\
  (r_mgmt s = RG_Done \/ r_mgmt s = RG_None) /\ r_released s = true.

Lemma done_finished s : rinv sigmask_ok s -> r_main s = RM_Done -> finished s.
Proof using Type.
  intros Hi Hm. split; [done|]. split; [by apply (ri_signal _ _ Hi); right|].
  split; [by apply (ri_joined _ _ Hi); rewrite Hm|].
  split; [by apply (ri_mgmt_joined _ _ Hi); rewrite Hm|]. by apply (ri_released _ _ Hi).
Qed.

Lemma internal_inv s s' : rinv sigmask_ok s -> rtc internal_step s s' -> rinv sigmask_ok s'.
Proof using Type.
  intros Hi H. eapply rtc_invariant; [|exact Hi|exact H].
  intros a b Ha Hb. eapply (rstep_inv sigmask_ok sem_ok t3_ok tcp_ok mgmt_ok sock_ok main_cap ipc_cap);
    [done|by left].
Qed.

Lemma rinternal_requested s s' :
  rinv sigmask_ok s -> stop_requested s = true -> rtc internal_step s s' -> stop_requested s' = true.
Proof using Type.
  intros Hi Hr H. induction H as [|a b c Hab Hbc IH]; [done|]. apply IH.
  - eapply internal_inv; [exact Hi|by apply rtc_once].
  - by eapply stop_requested_kept.
Qed.

Lemma internal_bounded n s s' :
  rinv sigmask_ok s -> nsteps internal_step n s s' -> (n + rmeasure s' <= rmeasure s)%nat.
Proof using Type.
  intros Hi H. induction H as [|n a b c Hab Hbc IH]; [lia|].
  pose proof (rinternal_measure _ _ Hi Hab).
  assert (rinv sigmask_ok b) as Hb by (eapply internal_inv; [exact Hi|by apply rtc_once]).
  specialize (IH Hb). lia.
Qed.
End progress.

(** ** Following the threads *)

Section follow.
Context (sigmask_ok sem_ok t3_ok tcp_ok mgmt_ok sock_ok : bool) (main_cap ipc_cap : nat).

(** Take the successors with the numbers given. *)
Fixpoint follow (l : list nat) (s : RState) : option RState :=
  match l with
  | [] => Some s
  | n :: l' =>
      s ← rsuccessors sigmask_ok sem_ok t3_ok tcp_ok mgmt_ok sock_ok main_cap ipc_cap s !! n;
      follow l' s
  end.

Lemma follow_internal l s s' :
  follow l s = Some s' ->
  rtc (rinternal sigmask_ok sem_ok t3_ok tcp_ok mgmt_ok sock_ok main_cap ipc_cap) s s'.
Proof using Type.
  revert s; induction l as [|n l IH]; intros s H; cbn [follow] in H; [simplify_eq; apply rtc_refl|].
  apply bind_Some in H as (s1 & E & H). eapply rtc_l; [|by apply IH].
  by eapply list_elem_of_lookup_2.
Qed.

Lemma follow_step l s s' :
  follow l s = Some s' ->
  rtc (rstep sigmask_ok sem_ok t3_ok tcp_ok mgmt_ok sock_ok main_cap ipc_cap) s s'.
Proof using Type.
  intros H%follow_internal. eapply rtc_subrel; [|exact H]. by left.
Qed.

(** The Collector fills the notification queue. *)
Lemma fill_queue s n :
  (length (r_ipcq s) + n <= ipc_cap)%nat ->
  rtc (rstep sigmask_ok sem_ok t3_ok tcp_ok mgmt_ok sock_ok main_cap ipc_cap) s
    (put_ipcq s (r_ipcq s ++ replicate n Data)).
Proof using Type.
  revert s; induction n as [|n IH]; intros s Hn.
  - cbn. rewrite app_nil_r. destruct s. apply rtc_refl.
  - eapply rtc_l; [right; apply rx_data; lia|].
    specialize (IH (put_ipcq s (r_ipcq s ++ [Data]))).
    cbn in IH. rewrite <- app_assoc in IH. apply IH. rewrite length_app. cbn. lia.
Qed.
End follow.

(** The Router in service: connected, all threads waiting, queues empty. *)
Definition in_service : RState :=
  mkR true [] [] false true false false false RM_Recv RS_Wait RR_Recv RG_Recv.

Lemma in_service_reachable main_cap ipc_cap :
  rtc (rstep true true true true true true main_cap ipc_cap) r_initial in_service.
Proof. by apply (follow_step _ _ _ _ _ _ _ _ [0; 0; 0; 0; 0; 1; 0; 0; 0]%nat). Qed.

(** The same after a SIGTERM, when the router thread has ended at the first quit
    message and the main thread is about to send the second one. *)
Definition quitting : RState :=
  mkR false [] [] true true false false false RM_EndQuit RS_Done RR_Done RG_Recv.

Lemma quitting_reachable main_cap ipc_cap :
  (0 < main_cap)%nat -> (0 < ipc_cap)%nat ->
  rtc (rstep true true true true true true main_cap ipc_cap) (put_pending in_service true) quitting.
Proof.
  intros Hm Hi. destruct main_cap as [|mc], ipc_cap as [|ic]; try lia.
  by apply (follow_step _ _ _ _ _ _ _ _ [0; 0; 0; 0; 0; 1; 0; 0; 0; 0]%nat).
Qed.

(** Once the main thread is in its last quit message with the queue full and the
    router thread gone, nothing changes that. *)
Lemma quit_hang_forever a1 a2 a3 a4 a5 a6 main_cap ipc_cap s s' :
  r_main s = RM_EndQuit -> r_router s = RR_Done -> (ipc_cap <= length (r_ipcq s))%nat ->
  rtc (rstep a1 a2 a3 a4 a5 a6 main_cap ipc_cap) s s' -> r_main s' = RM_EndQuit.
Proof.
  intros Hm Hr Hq H.
  enough (r_main s' = RM_EndQuit /\ r_router s' = RR_Done /\ (ipc_cap <= length (r_ipcq s'))%nat) by tauto.
  eapply (rtc_invariant _ (fun s => r_main s = RM_EndQuit /\ r_router s = RR_Done /\
    (ipc_cap <= length (r_ipcq s))%nat)); [|done|exact H].
  clear. intros s s' (Hm & Hr & Hq) [H|H].
  - unfold rinternal, rsuccessors in H. rewrite !elem_of_app in H. destruct H as [H|[H|[H|H]]].
    + unfold rmain_step in H. rewrite Hm in H. unfold send_quit in H.
      rewrite (proj2 (Nat.ltb_ge _ _)) in H by done. by apply not_elem_of_nil in H.
    + unfold rsignal_step in H. rcases H; subst; cbn; try done. by case_match.
    + unfold router_step in H. rewrite Hr in H. by apply not_elem_of_nil in H.
    + unfold rmgmt_step in H. rcases H; subst; by cbn.
  - destruct H; cbn; try done; try congruence. rewrite length_app. lia.
Qed.

(** Where the threads come to rest once the end has been asked for. *)
Lemma stop_outcome sigmask_ok sem_ok t3_ok tcp_ok mgmt_ok sock_ok main_cap ipc_cap s :
  (0 < main_cap)%nat -> (0 < ipc_cap)%nat ->
  rtc (rstep sigmask_ok sem_ok t3_ok tcp_ok mgmt_ok sock_ok main_cap ipc_cap) r_initial s ->
  stop_requested sigmask_ok s = true ->
  (forall n s', nsteps (rinternal sigmask_ok sem_ok t3_ok tcp_ok mgmt_ok sock_ok main_cap ipc_cap) n s s' ->
     (n <= rmeasure s)%nat) /\
  (forall s', rtc (rinternal sigmask_ok sem_ok t3_ok tcp_ok mgmt_ok sock_ok main_cap ipc_cap) s s' ->
     rsuccessors sigmask_ok sem_ok t3_ok tcp_ok mgmt_ok sock_ok main_cap ipc_cap s' = [] ->
     finished s' \/ deadlock main_cap ipc_cap s' \/
     (r_main s' = RM_SemWait /\ sigmask_ok = false)).
Proof.
  intros Hmc Hic Hreach Hreq. pose proof (r_reachable_inv _ _ _ _ _ _ _ _ s Hreach) as Hi. split.
  - intros n s' H. pose proof (internal_bounded _ _ _ _ _ _ _ _ n s s' Hi H). lia.
  - intros s' H Hstuck. pose proof (internal_inv _ _ _ _ _ _ _ _ s s' Hi H) as Hi'.
    pose proof (rinternal_requested _ _ _ _ _ _ _ _ s s' Hi Hreq H) as Hreq'.
    destruct (stuck_cases _ _ _ _ _ _ _ _ s' Hmc Hic Hi' Hreq' Hstuck) as [Hm|Hd]; [|by right].
    left. by eapply done_finished.
Qed.

(** * Properties *)

(** Once the end of the Router has been asked for (by a signal, a SHUTDOWN
    request, a thread that gave up or a failed start), every interleaving of its
    four threads comes to rest within a bounded number of steps, and there it
    has either joined all threads and released everything, or the main thread
    waits for ever in one of the ways of [deadlock], all of which need a full
    queue, or it waits for the semaphore because the signal thread failed to set
    its mask. *)
Theorem router_shutdown_outcome sigmask_ok sem_ok t3_ok tcp_ok mgmt_ok sock_ok main_cap ipc_cap s :
  (0 < main_cap)%nat -> (0 < ipc_cap)%nat ->
  rtc (rstep sigmask_ok sem_ok t3_ok tcp_ok mgmt_ok sock_ok main_cap ipc_cap) r_initial s ->
  stop_requested sigmask_ok s = true ->
  (forall n s', nsteps (rinternal sigmask_ok sem_ok t3_ok tcp_ok mgmt_ok sock_ok main_cap ipc_cap) n s s' ->
     (n <= rmeasure s)%nat) /\
  (forall s', rtc (rinternal sigmask_ok sem_ok t3_ok tcp_ok mgmt_ok sock_ok main_cap ipc_cap) s s' ->
     rsuccessors sigmask_ok sem_ok t3_ok tcp_ok mgmt_ok sock_ok main_cap ipc_cap s' = [] ->
     finished s' \/ deadlock main_cap ipc_cap s' \/
     (r_main s' = RM_SemWait /\ sigmask_ok = false)).
Proof. apply stop_outcome. Qed.

Lemma router_shutdown_outcome_witness :
  exists s', rtc (rinternal true true true true true true 2 2) (put_pending in_service true) s' /\
    finished s'.
Proof.
  destruct (follow true true true true true true 2 2 (replicate 18 0%nat) (put_pending in_service true))
    as [s'|] eqn:E; [|exfalso; vm_compute in E; congruence].
  exists s'. assert (rtc (rinternal true true true true true true 2 2) (put_pending in_service true) s')
    as Hrtc by exact (follow_internal _ _ _ _ _ _ _ _ _ _ _ E).
  split; [exact Hrtc|].
  destruct (router_shutdown_outcome true true true true true true 2 2 (put_pending in_service true))
    as [_ H].
  - lia.
  - lia.
  - eapply rtc_r; [apply in_service_reachable|right; apply rx_signal].
  - reflexivity.
  - vm_compute in E. injection E as <-.
    destruct (H _ Hrtc eq_refl) as [Hf|[Hd|[_ Hd]]]; [exact Hf| |discriminate].
    exfalso. destruct Hd as [Hd|Hd|Hd]; discriminate.
Defined.

(** A Router in service with empty queues that gets one SIGTERM can hang:
    the main thread sends the quit message twice, the router thread ends at the
    first one, and when the Collector fills the queue in between, the second
    one blocks for ever, whatever happens afterwards. *)
Theorem router_second_quit_hangs main_cap ipc_cap :
  (0 < main_cap)%nat -> (0 < ipc_cap)%nat ->
  exists s, rtc (rstep true true true true true true main_cap ipc_cap)
      (put_pending in_service true) s /\
    deadlock main_cap ipc_cap s /\
    forall s', rtc (rstep true true true true true true main_cap ipc_cap) s s' ->
      r_main s' = RM_EndQuit.
Proof.
  intros Hmc Hic. pose proof (quitting_reachable main_cap ipc_cap Hmc Hic) as Hs.
  pose proof (fill_queue true true true true true true main_cap ipc_cap quitting ipc_cap) as Hf.
  specialize (Hf ltac:(cbn; lia)). eexists; split; [etrans; [exact Hs|exact Hf]|].
  assert (ipc_cap <= length (r_ipcq quitting ++ replicate ipc_cap Data))%nat as Hlen
    by (rewrite length_app, length_replicate; lia).
  split; [by apply dl_quit; [done|done|left]|]. intros s'. by apply quit_hang_forever.
Qed.

Lemma router_second_quit_hangs_witness :
  exists s, rtc (rstep true true true true true true 62 1365) (put_pending in_service true) s /\
    deadlock 62 1365 s.
Proof.
  destruct (router_second_quit_hangs 62 1365) as (s & Hs & Hd & _).
  - lia.
  - lia.
  - exists s. split; [exact Hs|exact Hd].
Defined.
