(* ===== verification/RouterLink.v ===== *)
(** * The Router's transition system and its code (Router/src/main.c, router_worker.c)

    RouterThreads runs the threads of the Router as a transition system whose
    steps are the calls that matter for stopping.  Here that system is related
    to the definitions of Router.v, which carry the data: the bytes of the
    messages, the capacities in bytes, the flag, the pipe.  Every run of the
    detailed code is a run of the transition system, and where the code blocks
    the system has no step. *)

From S2P Require Import Prelude CLib Ipc ShmData Shm RouterMsg MgmtSocket RouterMgmt Router RouterThreads.

(** ** The relation *)

(** The messages of the main queue: events with a signal that stops or with a
    terminated text. *)
Definition event_rel (m : Z * list byte) (ev : main_event) : Prop :=
  exists im, m = (MSG_TYPE, msg_body im) /\ wf_msg im /\
    match ev with
    | EvTerm => im_event im = event_code EV_SIGNAL /\ (sig_num im = SIGINT \/ sig_num im = SIGTERM)
    | EvFatal => im_event im = event_code EV_FATAL /\ exists t, cstring (im_data im) = Some t
    end.

(** The messages of the notification queue. *)
Definition note_rel (m : Z * list byte) (n : notification) : Prop :=
  fst m = MSG_TYPE_SHM_NOTIFY /\ length (snd m) = NOTIFY_SIZE /\
  is_quit (snd m) = bool_decide (n = Quit).

(** How many messages of a size a queue takes. *)
Definition capacity (q : MsgQueue) (size : nat) : nat := Z.to_nat (q_bytes q / Z.of_nat size).

Section link.
Variables (main_cap ipc_cap : nat).

Record queues_rel (mq ipc : option MsgQueue) (s : RState) : Prop := {
  qr_main : exists q, mq = Some q /\ Forall2 event_rel (q_messages q) (r_mainq s) /\
    capacity q MSG_SIZE = main_cap;
  qr_ipc : exists q, ipc = Some q /\ Forall2 note_rel (q_messages q) (r_ipcq s) /\
    capacity q NOTIFY_SIZE = ipc_cap }.

(** The state of the process and the state of the system. *)
Record related (st : RouterSys) (s : RState) : Prop := {
  rel_queues : queues_rel (ry_main st) (ry_ipc st) s;
  rel_running : ry_running st = r_running s;
  rel_closed : bool_decide (ry_pipe1 st = None) = r_closed s }.

(** * Lemmas *)

(** ** Sending *)

Lemma q_used_uniform k ms cap :
  Forall (fun m : Z * list byte => length (snd m) = k) ms ->
  q_used (mkQueue ms cap) = Z.of_nat k * Z.of_nat (length ms).
Proof.
  unfold q_used. cbn [q_messages]. induction 1 as [|m ms Hm Hms IH]; cbn [foldr length]; lia.
Qed.

(** With messages of one size the bound in bytes is a bound on their number. *)
Lemma room_uniform k q body :
  (0 < k)%nat -> Forall (fun m => length (snd m) = k) (q_messages q) -> length body = k ->
  room q body = (length (q_messages q) <? capacity q k)%nat.
Proof.
  intros Hk Hms Hb. destruct q as [ms cap]. unfold room, capacity. cbn [q_messages q_bytes] in *.
  rewrite (q_used_uniform k), Hb by done. set (n := length ms).
  assert (Z.of_nat k * (cap / Z.of_nat k) <= cap) by (apply Z.mul_div_le; lia).
  assert (cap < Z.of_nat k * Z.succ (cap / Z.of_nat k)) by (apply Z.mul_succ_div_gt; lia).
  destruct (n <? _)%nat eqn:E.
  - apply Nat.ltb_lt in E. apply andb_true_iff. split; apply Z.leb_le; nia.
  - apply Nat.ltb_ge in E. apply andb_false_iff. left. apply Z.leb_gt. nia.
Qed.

Lemma events_uniform ms evs :
  Forall2 event_rel ms evs -> Forall (fun m => length (snd m) = MSG_SIZE) ms.
Proof.
  induction 1 as [|m ev ms evs (im & -> & Hw & _) _ IH]; constructor; [|done].
  by apply length_msg_body.
Qed.

Lemma notes_uniform ms ns :
  Forall2 note_rel ms ns -> Forall (fun m => length (snd m) = NOTIFY_SIZE) ms.
Proof. induction 1 as [|m n ms ns (_ & Hl & _) _ IH]; constructor; done. Qed.

(** A send to the main queue waits exactly where the system's does. *)
Lemma send_event_sim ev im mq ipc s :
  queues_rel mq ipc s -> event_rel (MSG_TYPE, msg_body im) ev -> wf_msg im ->
  match send_to_main mq (Some im) with
  | Ret (r, mq') => r = 0 /\ exists s', send_main main_cap ev s = [s'] /\ queues_rel mq' ipc s'
  | Blocked => send_main main_cap ev s = []
  | UB => False
  end.
Proof.
  intros [(q & -> & Hev & Hcap) Hipc] Hm Hw. unfold send_to_main, msgsnd, send_main.
  rewrite (wm_type _ Hw). change (MSG_TYPE <=? 0) with false. cbv iota.
  rewrite (room_uniform MSG_SIZE), Hcap, (Forall2_length _ _ _ Hev);
    [|unfold MSG_SIZE; lia|by eapply events_uniform|by apply length_msg_body].
  destruct (_ <? _)%nat; run; [|done]. split; [done|]. eexists. split; [done|]. split; [|done].
  eexists. split; [done|]. split; [|done]. by apply Forall2_app, Forall2_cons.
Qed.

Lemma send_stop_sim sig mq ipc s :
  queues_rel mq ipc s -> sig = SIGINT \/ sig = SIGTERM ->
  match send_signal_event mq sig with
  | Ret (r, mq') => r = 0 /\ exists s', send_main main_cap EvTerm s = [s'] /\ queues_rel mq' ipc s'
  | Blocked => send_main main_cap EvTerm s = []
  | UB => False
  end.
Proof.
  intros Hq Hsig. unfold send_signal_event.
  destruct (build_signal sig) as (im & -> & Hw & He & Hs);
    [destruct Hsig as [-> | ->]; split; vm_compute; congruence|by destruct Hsig as [-> | ->]|]. run.
  apply send_event_sim; [done| |done]. exists im. rewrite Hs. by split_and!.
Qed.

Lemma send_signal_sim mq ipc s :
  queues_rel mq ipc s ->
  match send_signal_event mq SIGTERM with
  | Ret (r, mq') => r = 0 /\ exists s', send_main main_cap EvTerm s = [s'] /\ queues_rel mq' ipc s'
  | Blocked => send_main main_cap EvTerm s = []
  | UB => False
  end.
Proof. intros Hq. apply send_stop_sim; auto. Qed.

Lemma send_fatal_sim mq ipc s t text :
  queues_rel mq ipc s -> cstring t = Some text ->
  match send_fatal_event mq (Some t) with
  | Ret (r, mq') => r = 0 /\ exists s', send_main main_cap EvFatal s = [s'] /\ queues_rel mq' ipc s'
  | Blocked => send_main main_cap EvFatal s = []
  | UB => False
  end.
Proof.
  intros Hq Ht. unfold send_fatal_event.
  destruct (build_text EV_FATAL t text Ht) as (im & -> & Hw & He & Hs). run.
  apply send_event_sim; [done| |done]. exists im. by split_and!; [| | |eexists].
Qed.

Lemma related_at st s p : related st s -> related st (main_at s p).
Proof. intros [[] ? ?]. by repeat split. Qed.

Lemma quit_sim pad st s :
  related st s -> length pad = 4%nat ->
  match quit_router pad st with
  | Ret st' => exists s', send_quit ipc_cap s = [s'] /\ r_main s' = r_main s /\ related st' s'
  | Blocked => send_quit ipc_cap s = []
  | UB => False
  end.
Proof.
  intros [[Hm (q & Hq & Hn & Hcap)] Hr Hc] Hp. rewrite (quit_router_sends pad st q Hq).
  assert (length (quit_body pad) = NOTIFY_SIZE) as Hl
    by (unfold quit_body, notify_body; rewrite length_app, length_le_bytes, Hp; done).
  unfold send_quit.
  rewrite (room_uniform NOTIFY_SIZE), Hcap, (Forall2_length _ _ _ Hn);
    [|unfold NOTIFY_SIZE; lia|by eapply notes_uniform|done].
  destruct (_ <? _)%nat; [|done]. eexists. split; [done|]. split; [done|].
  split; [split; [done|]|done|done]. eexists. split; [done|]. split; [|done].
  apply Forall2_app; [done|]. apply Forall2_cons. split; [|done]. split; [done|].
  split; [done|]. cbn [snd]. by rewrite quit_body_is_quit.
Qed.

(** ** The main thread *)

Lemma stop_sim st s : related st s -> related (stop_running st) (put_running s false).
Proof. intros [[] ? ?]. by repeat split. Qed.

Lemma close_sim st s : related st s -> related (close_shutdown_pipe st) (close_pipe s).
Proof.
  intros [[Hm Hi] Hr Hc]. destruct (close_pipe_fields st) as (E1 & E2 & E3).
  assert (ry_main (close_shutdown_pipe st) = ry_main st) as E4
    by (unfold close_shutdown_pipe; by destruct (ry_pipe1 st)).
  split; [split; by rewrite ?E2, ?E4|by rewrite E1|]. by rewrite E3.
Qed.

Context (sem_ok t3_ok tcp_ok mgmt_ok : bool).
Abbreviation main_moves s := (rmain_step sem_ok t3_ok tcp_ok mgmt_ok ipc_cap s).
Definition mstep (s s' : RState) : Prop := s' ∈ main_moves s.

(** The place of the main thread determines its step. *)
Lemma mstep_det s s' s'' : main_moves s = [s'] -> rtc mstep s' s'' -> rtc mstep s s''.
Proof. intros E H. eapply rtc_l; [|done]. unfold mstep. rewrite E. by apply list_elem_of_singleton. Qed.

Lemma msg_body_inj m m' : wf_msg m -> wf_msg m' -> msg_body m' = msg_body m -> m = m'.
Proof.
  intros Hm Hm' E. rewrite <- (msg_roundtrip m), <- (msg_roundtrip m'), E by done.
  by rewrite (wm_type _ Hm), (wm_type _ Hm').
Qed.

(** The switch of the main loop. *)
Lemma handle_event_sim ev im st s pad :
  related st s -> wf_msg im -> event_rel (MSG_TYPE, msg_body im) ev -> length pad = 4%nat ->
  r_main s = (match ev with EvTerm => RM_TermStore | EvFatal => RM_FatalStore end) ->
  match handle_event im pad st with
  | Ret st' => exists s', rtc mstep s s' /\ r_main s' = RM_Test /\ related st' s'
  | Blocked => exists s', rtc mstep s s' /\ r_main s' = RM_TermQuit /\ main_moves s' = []
  | UB => False
  end.
Proof.
  intros Hrel Hw (im' & E & Hw' & Hev) Hp Hpc. apply (f_equal snd) in E. cbn [snd] in E.
  assert (im' = im) as -> by by apply msg_body_inj.
  unfold handle_event. destruct ev.
  - destruct Hev as [-> Hsig]. cbn [event_code Z.eqb Pos.eqb orb].
    assert ((sig_num im =? SIGINT) || (sig_num im =? SIGTERM) = true) as ->
      by (destruct Hsig as [-> | ->]; done).
    set (s1 := main_at (put_running s false) RM_TermQuit).
    assert (main_moves s = [s1]) as E1 by (unfold rmain_step; by rewrite Hpc).
    pose proof (quit_sim pad (stop_running st) s1 (related_at _ _ _ (stop_sim _ _ Hrel)) Hp) as Hq.
    destruct (quit_router pad (stop_running st)) as [st2| |]; run; [|done|].
    + destruct Hq as (s2 & E2 & Hpc2 & Hrel2).
      exists (main_at (close_pipe s2) RM_Test). split; [|split; [done|]].
      * eapply mstep_det; [done|]. eapply (mstep_det _ (main_at s2 RM_TermClose)).
        { change (main_moves s1) with ((fun s => main_at s RM_TermClose) <$> send_quit ipc_cap s1).
          by rewrite E2. }
        by eapply mstep_det; [|apply rtc_refl].
      * by apply related_at, close_sim.
    + exists s1. split; [by eapply mstep_det; [|apply rtc_refl]|]. split; [done|].
      change (main_moves s1) with ((fun s => main_at s RM_TermClose) <$> send_quit ipc_cap s1).
      by rewrite Hq.
  - destruct Hev as (-> & t & ->). cbn [event_code Z.eqb Pos.eqb orb]. run.
    exists (main_at (close_pipe (main_at (put_running s false) RM_FatalClose)) RM_Test).
    split; [|split; [done|by apply related_at, close_sim, related_at, stop_sim]].
    eapply (mstep_det _ (main_at (put_running s false) RM_FatalClose));
      [unfold rmain_step; by rewrite Hpc|]. by eapply mstep_det; [|apply rtc_refl].
Qed.

(** One iteration of the main loop, from its receive. *)
Lemma main_iteration_sim st s pad :
  related st s -> r_main s = RM_Recv -> r_running s = true -> length pad = 4%nat ->
  match main_loop [mkMainIteration id false pad] st with
  | Ret (ended, st') => ended = false /\
      exists s', rtc mstep s s' /\ r_main s' = RM_Test /\ related st' s'
  | Blocked => exists s', rtc mstep s s' /\ main_moves s' = []
  | UB => False
  end.
Proof.
  intros Hrel Hpc Hrun Hp. cbn [main_loop mi_others mi_interrupted mi_pad id].
  pose proof Hrel as [[(q & Hq & Hev & Hcap) Hipc] Hr Hc]. rewrite Hr, Hrun, Hq. cbn [negb].
  destruct q as [ms bytes]. cbn [q_messages] in Hev. remember (r_mainq s) as evs eqn:Eq.
  destruct Hev as [|m ev ms evs (im & -> & Hw & Hm) Hev].
  { cbn [msgrcv q_messages take_message]. run. exists s. split; [apply rtc_refl|].
    unfold rmain_step. by rewrite Hpc, <- Eq. }
  rewrite (receive_internal _ im ms) by done. run. cbn [q_bytes].
  rewrite <- (wm_type _ Hw), msg_roundtrip by done.
  set (s1 := main_at (put_mainq s evs)
    (match ev with EvTerm => RM_TermStore | EvFatal => RM_FatalStore end)).
  assert (main_moves s = [s1]) as E1 by (unfold rmain_step; rewrite Hpc, <- Eq; by destruct ev).
  set (st1 := set_queues st _ _).
  assert (related st1 s1) as Hrel1.
  { split; [split; [|exact Hipc]|exact Hr|exact Hc]. eexists. split; [done|]. by split. }
  pose proof (handle_event_sim ev im st1 s1 pad Hrel1 Hw (ex_intro _ im (conj eq_refl (conj Hw Hm)))
    Hp eq_refl) as H.
  destruct (handle_event im pad st1) as [st2| |]; run; [|done|].
  - destruct H as (s2 & H2 & Hpc2 & Hrel2). split; [done|]. exists s2. split; [|done].
    by eapply mstep_det.
  - destruct H as (s2 & H2 & _ & Hno). exists s2. split; [|done]. by eapply mstep_det.
Qed.

(** From the end of the loop to the join of the management thread. *)
Lemma shutdown_sim st s pad :
  related st s -> r_main s = RM_EndStore -> length pad = 4%nat ->
  match quit_router pad (close_shutdown_pipe (stop_running st)) with
  | Ret st' => exists s', rtc mstep s s' /\ r_main s' = RM_JoinMgmt /\ related st' s'
  | Blocked => exists s', rtc mstep s s' /\ r_main s' = RM_EndQuit /\ main_moves s' = []
  | UB => False
  end.
Proof.
  intros Hrel Hpc Hp.
  set (s1 := main_at (put_running s false) RM_EndClose).
  set (s2 := main_at (close_pipe s1) RM_EndQuit).
  assert (rtc mstep s s2) as H2.
  { eapply (mstep_det _ s1); [unfold rmain_step; by rewrite Hpc|].
    by eapply mstep_det; [|apply rtc_refl]. }
  assert (main_moves s2 = (fun s => main_at s RM_JoinMgmt) <$> send_quit ipc_cap s2) as E2 by done.
  assert (related (close_shutdown_pipe (stop_running st)) s2) as Hrel2
    by by apply related_at, close_sim, related_at, stop_sim.
  pose proof (quit_sim pad _ s2 Hrel2 Hp) as Hq.
  destruct (quit_router _ _) as [st3| |]; [|done|].
  - destruct Hq as (s3 & E3 & _ & Hrel3). exists (main_at s3 RM_JoinMgmt).
    split; [|split; [done|by apply related_at]].
    eapply rtc_r; [done|]. unfold mstep. rewrite E2, E3. by apply list_elem_of_singleton.
  - exists s2. split; [done|]. split; [done|]. by rewrite E2, Hq.
Qed.
End link.

(** ** The router thread *)

Lemma receive_note b ms cap :
  length b = NOTIFY_SIZE ->
  msgrcv false false (Some (mkQueue ((MSG_TYPE_SHM_NOTIFY, b) :: ms) cap)) NOTIFY_SIZE
    MSG_TYPE_SHM_NOTIFY = Ret (IpcOk (MSG_TYPE_SHM_NOTIFY, b), Some (mkQueue ms cap)).
Proof.
  intros Hb. cbn [msgrcv q_messages take_message fst q_bytes]. rewrite Z.eqb_refl, orb_true_r.
  by rewrite Hb, Nat.ltb_irrefl, take_ge by by rewrite Hb.
Qed.

Section router.
Context {S H : Type} {ops : ShmOps S H} {api : ShmApi S H}
  (Hcap : (shm_capacity (S := S) (H := H) <= PAYLOAD_SIZE)%nat).
Variables (main_cap ipc_cap : nat).
Abbreviation rel st s := (queues_rel main_cap ipc_cap (rl_main st) (rl_ipc st) s).
Abbreviation router_moves s := (router_step main_cap s).

Definition wstep (s s' : RState) : Prop := s' ∈ router_moves s.

Lemma wstep_in s s' s'' : s' ∈ router_moves s -> rtc wstep s' s'' -> rtc wstep s s''.
Proof using Type. intros E ?. by eapply rtc_l. Qed.

Lemma queues_rel_at mq ipc s p :
  queues_rel main_cap ipc_cap mq ipc s -> queues_rel main_cap ipc_cap mq ipc (router_at s p).
Proof using Type. by intros []. Qed.

(** The event of a lost Viewer. *)
Lemma reset_sim mq ipc s :
  queues_rel main_cap ipc_cap mq ipc s -> r_router s = RR_Term ->
  match send_signal_event mq SIGTERM with
  | Ret (_, mq') => exists s', s' ∈ router_moves s /\ r_router s' = RR_Done /\
      queues_rel main_cap ipc_cap mq' ipc s'
  | Blocked => router_moves s = []
  | UB => False
  end.
Proof using Type.
  intros Hrel Hpc. pose proof (send_signal_sim main_cap ipc_cap _ _ _ Hrel) as Hs.
  unfold router_step. rewrite Hpc. destruct (send_signal_event _ _) as [[r mq']| |]; [|done|].
  - destruct Hs as (_ & s2 & -> & Hrel2). exists (router_at s2 RR_Done).
    split; [by apply list_elem_of_singleton|]. split; [done|by apply queues_rel_at].
  - by rewrite Hs.
Qed.

(** One iteration of the loop, from its receive. *)
Lemma relay_step_sim answer stack status h (st : RelayState S) s c t :
  rel st s -> r_router s = RR_Recv -> length stack = TCP_BUF_SIZE -> shm_at h (rl_shm st) c t ->
  match relay_step answer stack status h st with
  | Ret (go, st') => exists s', rtc wstep s s' /\
      r_router s' = (if go : bool then RR_Recv else RR_Done) /\ rel st' s'
  | Blocked => exists s', rtc wstep s s' /\ router_moves s' = []
  | UB => False
  end.
Proof using Hcap.
  intros [Hm (q & Hq & Hn & Hc)] Hpc Hst Hat. destruct q as [ms cap]. cbn [q_messages] in Hn.
  remember (r_ipcq s) as ns eqn:En. destruct Hn as [|[mt b] n ms ns (Hmt & Hl & Hquit) Hn].
  { unfold relay_step. rewrite Hq. cbn [msgrcv q_messages take_message]. run.
    exists s. split; [apply rtc_refl|]. unfold router_step. by rewrite Hpc, <- En. }
  cbn [fst snd] in Hmt, Hl, Hquit. subst mt.
  assert (queues_rel main_cap ipc_cap (rl_main st) (Some (mkQueue ms cap)) (put_ipcq s ns)) as Hrel
    by (split; [done|by eexists]).
  destruct n.
  - destruct (relay_sends Hcap answer stack status h st _ b (of_type MSG_TYPE_SHM_NOTIFY ms) c t Hq)
      as (q' & s' & -> & Hrcv & _); try done; [by rewrite Hl|].
    rewrite receive_note in Hrcv by done. injection Hrcv as <-.
    set (s1 := router_at (put_ipcq s ns) RR_Relay).
    assert (s1 ∈ router_moves s) as H1
      by (unfold router_step; rewrite Hpc, <- En; by apply list_elem_of_singleton).
    assert (rtc wstep s (router_at s1 RR_Recv)) as Hrecv.
    { eapply wstep_in; [done|]. eapply wstep_in; [|apply rtc_refl]. by left. }
    assert (rtc wstep s (router_at s1 RR_Term)) as Hterm.
    { eapply wstep_in; [done|]. eapply wstep_in; [|apply rtc_refl]. right. by left. }
    assert (forall p, queues_rel main_cap ipc_cap (rl_main st) (Some (mkQueue ms cap))
      (router_at s1 p)) as Hrel1 by (intros p; by do 2 apply queues_rel_at).
    destruct answer; [by exists (router_at s1 RR_Recv)| |by exists (router_at s1 RR_Recv)].
    pose proof (reset_sim _ _ _ (Hrel1 RR_Term) eq_refl) as Hs.
    destruct (send_signal_event _ _) as [[r mq]| |]; run; [|done|by eexists].
    destruct Hs as (s2 & H2 & ? & ?). exists s2. split; [by eapply rtc_r|done].
  - unfold relay_step. rewrite Hq, receive_note by done. run. fold (is_quit b).
    rewrite Hquit, bool_decide_true by done.
    exists (router_at (put_ipcq s ns) RR_Done). split; [|split; [done|by apply queues_rel_at]].
    eapply wstep_in; [|apply rtc_refl]. unfold router_step. rewrite Hpc, <- En.
    by apply list_elem_of_singleton.
Qed.

(** The attempts to connect, while the pipe stays as it is. *)
Lemma connect_sim attempt n i s :
  r_router s = RR_Connect n -> (forall k, snd (attempt k) = r_closed s) ->
  exists s', rtc wstep s s' /\ r_mainq s' = r_mainq s /\ r_ipcq s' = r_ipcq s /\
    r_router s' = match connect_loop attempt i n with
                  | Connected => RR_Recv | StopRequested => RR_Done | Refused => RR_Fatal
                  end.
Proof using Type.
  revert i s. induction n as [|n IH]; intros i s Hpc Ha; cbn [connect_loop].
  { exists (router_at s RR_Fatal). split; [|done]. eapply wstep_in; [|apply rtc_refl].
    unfold router_step. rewrite Hpc. by apply list_elem_of_singleton. }
  destruct (fst (attempt i)).
  { exists (router_at s RR_Recv). split; [|done]. eapply wstep_in; [|apply rtc_refl].
    unfold router_step. rewrite Hpc. by left. }
  rewrite Ha. set (s1 := router_at s (RR_Select n)).
  assert (s1 ∈ router_moves s) as H1 by (unfold router_step; rewrite Hpc; right; by left).
  set (s2 := router_at s1 (if r_closed s then RR_Done else RR_Connect n)).
  assert (s2 ∈ router_moves s1) as H2 by by apply list_elem_of_singleton.
  destruct (r_closed s) eqn:Ec.
  { exists s2. split; [|done]. eapply wstep_in; [done|]. by eapply wstep_in; [|apply rtc_refl]. }
  destruct (IH (1 + i)%nat s2) as (s' & Hs' & Hq); [done|cbn; by rewrite Ec|].
  exists s'. split; [|done]. eapply wstep_in; [done|]. by eapply wstep_in.
Qed.
End router.

(** * Properties *)

(** The transition system of the Router's threads simulates the main
    thread's code.  In related states (the same flag, the pipe closed or not,
    the queues holding the same messages in the same order with the same room,
    counted in bytes here and in messages there): an iteration of the main loop
    that returns is matched by steps of the system's main thread to its next
    test, in related states again; the sequence from the end of the loop to the
    join of the management thread likewise; and where the code blocks for ever
    unless another thread acts, the system's main thread has no step. *)
Theorem router_main_simulated main_cap ipc_cap sem_ok t3_ok tcp_ok mgmt_ok st s pad :
  related main_cap ipc_cap st s -> length pad = 4%nat ->
  let moves := mstep ipc_cap sem_ok t3_ok tcp_ok mgmt_ok in
  let stuck s := rmain_step sem_ok t3_ok tcp_ok mgmt_ok ipc_cap s = [] in
  (r_main s = RM_Recv -> r_running s = true ->
     match main_loop [mkMainIteration id false pad] st with
     | Ret (ended, st') => ended = false /\
         exists s', rtc moves s s' /\ r_main s' = RM_Test /\ related main_cap ipc_cap st' s'
     | Blocked => exists s', rtc moves s s' /\ stuck s'
     | UB => False
     end) /\
  (r_main s = RM_EndStore ->
     match quit_router pad (close_shutdown_pipe (stop_running st)) with
     | Ret st' => exists s', rtc moves s s' /\ r_main s' = RM_JoinMgmt /\
         related main_cap ipc_cap st' s'
     | Blocked => exists s', rtc moves s s' /\ r_main s' = RM_EndQuit /\ stuck s'
     | UB => False
     end).
Proof.
  intros Hrel Hp moves stuck. split.
  - intros Hpc Hrun. by apply main_iteration_sim.
  - intros Hpc. by apply shutdown_sim.
Qed.

(** ... and the router thread's code: its attempts to connect end where the
    system's do; an iteration that returns is matched by steps of the system's
    router thread to its next receive or to its end, with related queues; where
    it blocks (no notification, or no room for the event of a lost Viewer) the
    system's router thread has no step. *)
Theorem router_worker_simulated {S H} {ops : ShmOps S H} {api : ShmApi S H} main_cap ipc_cap
    answer stack status h (st : RelayState S) s c t :
  (shm_capacity (S := S) (H := H) <= PAYLOAD_SIZE)%nat ->
  queues_rel main_cap ipc_cap (rl_main st) (rl_ipc st) s ->
  length stack = TCP_BUF_SIZE -> shm_at h (rl_shm st) c t ->
  (r_router s = RR_Recv ->
     match relay_step answer stack status h st with
     | Ret (go, st') => exists s', rtc (wstep main_cap) s s' /\
         r_router s' = (if go : bool then RR_Recv else RR_Done) /\
         queues_rel main_cap ipc_cap (rl_main st') (rl_ipc st') s'
     | Blocked => exists s', rtc (wstep main_cap) s s' /\ router_step main_cap s' = []
     | UB => False
     end) /\
  (forall attempt, r_router s = RR_Connect CONNECT_MAX_RETRIES ->
     (forall k, snd (attempt k) = r_closed s) ->
     exists s', rtc (wstep main_cap) s s' /\ r_mainq s' = r_mainq s /\ r_ipcq s' = r_ipcq s /\
       r_router s' = match connect_loop attempt 0 CONNECT_MAX_RETRIES with
                     | Connected => RR_Recv | StopRequested => RR_Done | Refused => RR_Fatal
                     end).
Proof.
  intros Hcap Hrel Hst Hat. split.
  - intros Hpc. by eapply relay_step_sim.
  - intros attempt Hpc Ha. by apply connect_sim.
Qed.

(** ** Concrete runs *)

(** The main thread receives SIGTERM. *)
Definition demo_main_state : RState :=
  mkR true [EvTerm] [] true true false false false RM_Recv RS_Done RR_Recv RG_Loop.

Lemma demo_main_related : related 62 2048 (deliver sigterm_msg demo_router_start) demo_main_state.
Proof.
  split; [split|reflexivity|reflexivity].
  - eexists. split; [reflexivity|]. split; [|reflexivity].
    apply Forall2_cons. split; [|apply Forall2_nil; exact I]. exists sigterm_msg.
    split; [reflexivity|]. split; [exact sigterm_msg_wf|]. split; [reflexivity|]. right. reflexivity.
  - eexists. split; [reflexivity|]. split; [apply Forall2_nil; exact I|reflexivity].
Qed.

Lemma router_main_simulated_witness :
  exists st' s', main_loop [mkMainIteration id false (zeros 4)] (deliver sigterm_msg demo_router_start)
      = Ret (false, st') /\ rtc (mstep 2048 true true true true) demo_main_state s' /\
    r_main s' = RM_Test /\ related 62 2048 st' s'.
Proof.
  destruct (router_main_simulated 62 2048 true true true true
    (deliver sigterm_msg demo_router_start) demo_main_state (zeros 4)) as [H _].
  - exact demo_main_related.
  - reflexivity.
  - specialize (H eq_refl eq_refl).
    assert (match main_loop [mkMainIteration id false (zeros 4)] (deliver sigterm_msg demo_router_start)
            with Ret _ => true | _ => false end = true) as E by (vm_compute; reflexivity).
    destruct (main_loop _ _) as [[ended st']| |]; [|discriminate E..].
    destruct H as (-> & s' & H1 & H2 & H3). exists st', s'. by split_and!.
Defined.

(** The router thread finds a notification in front of a quit. *)
Definition demo_router_state : RState :=
  mkR true [] [Data; Quit] false true false false false RM_Recv RS_Wait RR_Recv RG_Loop.

Lemma router_worker_simulated_witness :
  exists s st' s', relay_step (ops := sysv_ops false) (TcpSent 12) (zeros TCP_BUF_SIZE) 0
      (100, Some (mkCtx 7 true)) (demo_relay s) = Ret (true, st') /\
    rtc (wstep 62) demo_router_state s' /\ r_router s' = RR_Recv.
Proof.
  destruct demo_segment as [s Hs]. exists s.
  destruct (router_worker_simulated (ops := sysv_ops false) (api := sysv_api false) 62 2048
    (TcpSent 12) (zeros TCP_BUF_SIZE) 0 (100, Some (mkCtx 7 true)) (demo_relay s) demo_router_state 0 [])
    as [H _].
  - vm_compute. lia.
  - split.
    + eexists. split; [reflexivity|]. split; [apply Forall2_nil; exact I|reflexivity].
    + eexists. split; [reflexivity|]. split; [|reflexivity].
      repeat (apply Forall2_cons; split); try (apply Forall2_nil; exact I); repeat split; reflexivity.
  - reflexivity.
  - exact Hs.
  - specialize (H eq_refl).
    destruct (relay_forwards (ops := sysv_ops false) (api := sysv_api false) ltac:(vm_compute; lia)
      (TcpSent 12) (zeros TCP_BUF_SIZE) 0 (100, Some (mkCtx 7 true)) (demo_relay s)
      (mkQueue [(1, demo_notify); (1, quit_body (zeros 4))] 16384) demo_notify [quit_body (zeros 4)] 0 [])
      as (q' & s1 & E & _); try done; try (vm_compute; lia).
    rewrite E in H |- *. destruct H as (s' & H1 & H2 & _). eexists _, s'. by split_and!.
Defined.
