(* ===== verification/RouterShutdown.v ===== *)
(** * Asking the Router to end (Router/src/signal_worker.c, mgmt_handlers.c, mgmtctl)

    The two threads of the Router that ask the main thread to end: the signal
    thread and the SHUTDOWN handler of the management thread.  Their code, on the
    bytes of the main queue, follows the transition system of RouterThreads; with
    the management client this gives what `mgmtctl router shutdown` leads to. *)

From S2P Require Import Prelude CLib MgmtProtocol EventHandler MgmtSocket Handlers Ipc RouterMsg.
From S2P Require Import RouterMgmt MgmtCtl Router RouterThreads RouterLink.

Section asking.
Variables (main_cap ipc_cap : nat) (sigmask_ok sock_ok : bool).
Abbreviation rel mq ipc s := (queues_rel main_cap ipc_cap mq ipc s).

Definition sstep (s s' : RState) : Prop := s' ∈ rsignal_step sigmask_ok main_cap s.
Definition gstep (s s' : RState) : Prop := s' ∈ rmgmt_step sock_ok main_cap s.

(** The last iteration of the signal thread, from the test of the flag: a signal
    is pending, the flag is cleared, or sigwait(3) fails. *)
Lemma signal_iteration_sim sig mq ipc s :
  rel mq ipc s -> r_signal s = RS_Loop -> r_pending s = true -> sig = SIGINT \/ sig = SIGTERM ->
  match signal_loop [mkSignalIteration id (r_running s) (Some sig)] mq with
  | Ret (ended, mq') => ended = true /\ exists s', rtc sstep s s' /\ r_signal s' = RS_Done /\ rel mq' ipc s'
  | Blocked => exists s', rtc sstep s s' /\ r_signal s' = RS_Send /\ send_main main_cap EvTerm s' = []
  | UB => False
  end.
Proof.
  intros Hq Hpc Hp Hsig. cbn [signal_loop si_others si_running si_wait id].
  destruct (r_running s) eqn:Hr; cbn [negb].
  - set (s1 := signal_at s RS_Wait). set (s2 := signal_at (put_pending s1 false) RS_Send).
    assert (rtc sstep s s2) as H2.
    { apply (rtc_l _ _ s1); [unfold sstep, rsignal_step; rewrite Hpc, Hr; by left|].
      apply rtc_once. unfold sstep, rsignal_step. cbn. rewrite Hp. by left. }
    assert (rel mq ipc s2) as Hq2 by (destruct Hq; by split).
    pose proof (send_stop_sim main_cap ipc_cap sig mq ipc s2 Hq2 Hsig) as Hs.
    destruct (send_signal_event mq sig) as [[r mq']| |]; run; [|done|by exists s2].
    replace ((sig =? SIGINT) || (sig =? SIGTERM)) with true by (by destruct Hsig as [-> | ->]).
    destruct Hs as (_ & s3 & E3 & Hq3). split; [done|]. exists (signal_at s3 RS_Done).
    split; [|split; [done|by destruct Hq3]]. eapply rtc_r; [exact H2|]. unfold sstep, rsignal_step.
    cbn [s2 signal_at r_signal]. rewrite E3. by left.
  - split; [done|]. exists (signal_at s RS_Done). split; [|split; [done|by destruct Hq]].
    apply rtc_once. unfold sstep, rsignal_step. rewrite Hpc, Hr. by left.
Qed.

(** A SHUTDOWN that is answered is the step of the management thread that sends
    the event. *)
Lemma shutdown_sent ctx w w' ipc s :
  router_ready ctx w -> router_stop ctx w w' -> rel (rw_queue w) ipc s -> r_mgmt s = RG_Send ->
  let s' := mgmt_at (put_mainq s (r_mainq s ++ [EvTerm])) RG_Loop in
  gstep s s' /\ rel (rw_queue w') ipc s'.
Proof.
  intros (_ & _ & q & Hq & Hroom1 & Hroom2) (q' & m & Hq' & Hw & Hev & Hsig & ->) [(q2 & Hq2 & Hms & Hcap) Hipc] Hpc s'.
  assert (q' = q /\ q2 = q) as [-> ->] by (split; congruence).
  assert (room q (msg_body m) = true) as Hroom.
  { unfold room. rewrite length_msg_body by done. by apply andb_true_iff; split; apply Z.leb_le. }
  rewrite (room_uniform MSG_SIZE), Hcap, (Forall2_length _ _ _ Hms) in Hroom;
    [|unfold MSG_SIZE; lia|by eapply events_uniform|by apply length_msg_body].
  split; [unfold gstep, rmgmt_step, send_main; rewrite Hpc, Hroom; by left|].
  split; [|exact Hipc]. eexists. split; [done|]. split; [|done]. apply Forall2_app; [done|].
  apply Forall2_cons. split; [|done]. exists m. by split_and!; [| | |right].
Qed.
End asking.

(** * Properties *)

(** `mgmtctl router shutdown` reaches the Router's threads.  In any state
    that the Router's threads can reach and in which the management thread waits
    for a request and the main queue has room for one event, the command prints
    the handler's answer under OK and exits with 0; the bytes it leaves in the
    main queue are those of the system's stop event, behind what was queued; from
    then on every interleaving of the threads comes to rest within a bounded
    number of steps, with all threads joined and everything released, or in one of
    the deadlocks of a full queue. *)
Theorem router_mgmtctl_shutdown sem_ok t3_ok tcp_ok mgmt_ok sock_ok main_cap ipc_cap st s srv ctx fd pid
    now stack resp argv payload len sys :
  let step := rstep true sem_ok t3_ok tcp_ok mgmt_ok sock_ok main_cap ipc_cap in
  let alone := rinternal true sem_ok t3_ok tcp_ok mgmt_ok sock_ok main_cap ipc_cap in
  (0 < main_cap)%nat -> (0 < ipc_cap)%nat -> rtc step r_initial s ->
  related main_cap ipc_cap st s -> r_mgmt s = RG_Recv -> rw_queue (sr_world srv) = ry_main st ->
  wf_timespec now -> sock_wf (sr_socket srv) -> serving "router" ctx (sr_registry srv) ->
  router_ready ctx (sr_world srv) -> length stack = MGMT_REQUEST_SIZE -> length resp = MGMT_RESPONSE_SIZE ->
  parse_args argv = Command MGMT_SOCKET_PATH_ROUTER (bs "router") MGMT_CMD_SHUTDOWN payload len ->
  exists sys' srv' s',
    MgmtCtl.main (module_net MGMT_SOCKET_PATH_ROUTER stack) (Some fd) true pid now resp argv sys srv =
      Some (0, result_line (bs "router") MGMT_CMD_SHUTDOWN MGMT_RESULT_OK ++
               bs "shutdown initiated" ++ [x0a], [], sys', srv') /\
    related main_cap ipc_cap (set_queues st (rw_queue (sr_world srv')) (ry_ipc st)) s' /\
    rtc step s s' /\ r_mainq s' = r_mainq s ++ [EvTerm] /\
    (forall n s2, nsteps alone n s' s2 -> (n <= rmeasure s')%nat) /\
    (forall s2, rtc alone s' s2 -> rsuccessors true sem_ok t3_ok tcp_ok mgmt_ok sock_ok main_cap ipc_cap s2 = [] ->
       finished s2 \/ deadlock main_cap ipc_cap s2).
Proof.
  intros step alone Hmc Hic Hreach [Hq Hrun Hcl] Hpc Hsame Hnow Hms Hserv Hready Hst Hresp Hparse.
  destruct (@client_exchange RouterWorld router_module ctx srv fd pid now stack resp argv _ _ payload len sys
    Hnow Hms Hserv Hready Hst Hresp Hparse) as (code & out & sys' & srv' & E & _ & _ & Hknown & _).
  destruct Hknown as (-> & -> & Hstop); [by right; right|]. exists sys', srv'.
  rewrite <- Hsame in Hq.
  destruct (shutdown_sent main_cap ipc_cap sock_ok ctx _ _ (ry_ipc st) (mgmt_at s RG_Send) Hready Hstop)
    as [Hg Hq']; [by destruct Hq|done|]. set (s' := mgmt_at _ RG_Loop) in Hg, Hq'. exists s'.
  assert (rtc step s s') as Hss.
  { eapply rtc_l; [right; by apply rx_shutdown|]. apply rtc_once. left. unfold rinternal, rsuccessors.
    apply elem_of_app. right. apply elem_of_app. right. apply elem_of_app. by right. }
  assert (stop_requested true s' = true) as Hreq.
  { unfold stop_requested, s'. cbn. by destruct (r_mainq s), (r_running s), (stopping (r_main s)). }
  destruct (stop_outcome true sem_ok t3_ok tcp_ok mgmt_ok sock_ok main_cap ipc_cap s') as [Hb Hend]; try done.
  { by etransitivity. }
  split; [exact E|]. split; [by split|]. split; [done|]. split; [done|]. split; [done|].
  intros s2 H2 Hno. destruct (Hend s2 H2 Hno) as [Hf|[Hd|[_ Hd]]]; [by left|by right|done].
Qed.

(** ** Concrete run *)

(** A Router in service with empty queues, and its management thread. *)
Definition serving_router : RouterSys :=
  mkRouterSys (mkSys {[0; 1; 2; 3; 4]} ∅) Shm.no_segments initial_globals (Some (mkQueue [] 16384))
    (Some (mkQueue [] 16384)) true (Some 3) (Some 4) true ∅.

Definition serving_world : RouterWorld :=
  mkRouterWorld (mkTimespec 100 0) 130 {[8192 := mkRouterCtx 100]} (Some (mkQueue [] 16384)).

Lemma serving_related : related 62 2048 serving_router in_service.
Proof.
  split; [split|reflexivity|reflexivity]; (eexists; split; [reflexivity|]; split; [constructor|reflexivity]).
Qed.

Lemma router_mgmtctl_shutdown_witness :
  exists r sys' srv' s',
    MgmtCtl.main (module_net MGMT_SOCKET_PATH_ROUTER (zeros 600)) (Some 3) true 77 zero_timespec (zeros 2152)
        [bs "mgmtctl"; bs "router"; bs "shutdown"] (mkSys ∅ ∅) (mkServer demo_socket r serving_world) =
      Some (0, bs "[router] SHUTDOWN -> OK" ++ [x0a] ++ bs "shutdown initiated" ++ [x0a], [], sys', srv') /\
    r_mainq s' = [EvTerm] /\
    related 62 2048 (set_queues serving_router (rw_queue (sr_world srv')) (Some (mkQueue [] 16384))) s'.
Proof.
  destruct (register_three_empty "router" ltac:(by apply no_nul_lit) ltac:(cbn; lia)
    empty_registry 8192 reg_wf_empty) as (r & _ & Hr & _ & Ha); [apply NoDup_nil_2|reflexivity|].
  exists r.
  destruct (router_mgmtctl_shutdown true true true true true 62 2048 serving_router in_service
    (mkServer demo_socket r serving_world) 8192 3 77 zero_timespec (zeros 600) (zeros 2152)
    [bs "mgmtctl"; bs "router"; bs "shutdown"] (zeros 512) 0 (mkSys ∅ ∅))
    as (sys' & srv' & s' & E & Hrel & _ & Hq & _).
  - lia.
  - lia.
  - apply in_service_reachable.
  - exact serving_related.
  - reflexivity.
  - reflexivity.
  - split; vm_compute; split; congruence.
  - exact demo_socket_wf.
  - apply serving_three; [exact Hr|exact Ha].
  - split; [eexists; reflexivity|]. split; [split; vm_compute; split; congruence|].
    eexists. split; [reflexivity|]. split; vm_compute; congruence.
  - reflexivity.
  - reflexivity.
  - reflexivity.
  - exists sys', srv', s'. split; [exact E|]. split; [exact Hq|exact Hrel].
Defined.
