(* ===== verification/RouterProcess.v ===== *)
(** * The Router as a whole process (Router/src/main.c with its threads)

    The four threads of the Router on the data of the process (descriptors,
    registry, segment, the bytes of the two queues, flag, pipe, semaphore,
    signals), one call that another thread can notice at a time.  The main
    thread goes from place to place of RouterThreads, each place doing what the
    definitions of Router do there; the other threads keep their local data in
    their states.  The Collector writes and notifies in between. *)

From S2P Require Import Prelude CLib MgmtProtocol EventHandler MgmtSocket Handlers Ipc ShmData Shm.
From S2P Require Import RouterMsg RouterMgmt RouterServe MgmtCtl Collector Router RouterThreads.

(** ** The process *)

(** The threads with their local variables: the signal that was received; the
    socket of the connection, the attempts left, the text of a fatal event; the
    management socket and the calls of the iteration. *)
Inductive signal_state := SgStarted | SgTest | SgWait | SgSend (sig : Z) | SgEnded.
Inductive router_state :=
| RtNone | RtStarted | RtConnect (fd : Z) (n : nat) | RtSelect (fd : Z) (n : nat)
| RtFatal (text : list byte) | RtRecv (fd : Z) | RtGot (fd : Z) | RtReset (fd : Z) | RtEnded.
Inductive mgmt_thread :=
| MgNone | MgStarted | MgTest (ms : MgmtSocket) | MgRecv (ms : MgmtSocket)
| MgServe (ms : MgmtSocket) (e : ProcessEnv) | MgEnded.

(** What the calls of the other threads answer, once: the signal mask, the TCP
    socket, the management socket; the clock when the context is filled in; the
    identities of the Router and of the Collector. *)
Record ThreadCalls := mkThreadCalls {
  tc_sigmask : bool; tc_tcp : option Z; tc_socket : CreateEnv; tc_start_time : Z;
  tc_pid : Z; tc_collector : Z }.

(** [rp_reg] and [rp_code] are [registry_initialized] and [ret] of [main];
    [rp_tcp] is what has been written to the connection, [rp_sent] what the
    management socket has sent. *)
Record RProc := mkRP {
  rp_st : RouterSys; rp_now : timespec; rp_time : Z; rp_ctxs : gmap Z RouterMgmtCtx;
  rp_shm : option ShmContext; rp_pending : gset Z; rp_posted : bool; rp_cancel : bool;
  rp_reg : bool; rp_code : Z; rp_main : rmain_pc; rp_signal : signal_state;
  rp_router : router_state; rp_mgmt : mgmt_thread; rp_tcp : list byte; rp_sent : list sent }.

Definition upd_st (p : RProc) x := mkRP x (rp_now p) (rp_time p) (rp_ctxs p) (rp_shm p) (rp_pending p)
  (rp_posted p) (rp_cancel p) (rp_reg p) (rp_code p) (rp_main p) (rp_signal p) (rp_router p) (rp_mgmt p)
  (rp_tcp p) (rp_sent p).
Definition upd_clock (p : RProc) n t := mkRP (rp_st p) n t (rp_ctxs p) (rp_shm p) (rp_pending p)
  (rp_posted p) (rp_cancel p) (rp_reg p) (rp_code p) (rp_main p) (rp_signal p) (rp_router p) (rp_mgmt p)
  (rp_tcp p) (rp_sent p).
Definition upd_ctxs (p : RProc) x := mkRP (rp_st p) (rp_now p) (rp_time p) x (rp_shm p) (rp_pending p)
  (rp_posted p) (rp_cancel p) (rp_reg p) (rp_code p) (rp_main p) (rp_signal p) (rp_router p) (rp_mgmt p)
  (rp_tcp p) (rp_sent p).
Definition upd_pending (p : RProc) x := mkRP (rp_st p) (rp_now p) (rp_time p) (rp_ctxs p) (rp_shm p) x
  (rp_posted p) (rp_cancel p) (rp_reg p) (rp_code p) (rp_main p) (rp_signal p) (rp_router p) (rp_mgmt p)
  (rp_tcp p) (rp_sent p).
Definition sem_post (p : RProc) := mkRP (rp_st p) (rp_now p) (rp_time p) (rp_ctxs p) (rp_shm p)
  (rp_pending p) true (rp_cancel p) (rp_reg p) (rp_code p) (rp_main p) (rp_signal p) (rp_router p)
  (rp_mgmt p) (rp_tcp p) (rp_sent p).
Definition pthread_cancel (p : RProc) := mkRP (rp_st p) (rp_now p) (rp_time p) (rp_ctxs p) (rp_shm p)
  (rp_pending p) (rp_posted p) true (rp_reg p) (rp_code p) (rp_main p) (rp_signal p) (rp_router p)
  (rp_mgmt p) (rp_tcp p) (rp_sent p).
Definition upd_reg (p : RProc) b := mkRP (rp_st p) (rp_now p) (rp_time p) (rp_ctxs p) (rp_shm p)
  (rp_pending p) (rp_posted p) (rp_cancel p) b (rp_code p) (rp_main p) (rp_signal p) (rp_router p)
  (rp_mgmt p) (rp_tcp p) (rp_sent p).
Definition upd_code (p : RProc) c := mkRP (rp_st p) (rp_now p) (rp_time p) (rp_ctxs p) (rp_shm p)
  (rp_pending p) (rp_posted p) (rp_cancel p) (rp_reg p) c (rp_main p) (rp_signal p) (rp_router p)
  (rp_mgmt p) (rp_tcp p) (rp_sent p).
Definition at_main (p : RProc) x := mkRP (rp_st p) (rp_now p) (rp_time p) (rp_ctxs p) (rp_shm p)
  (rp_pending p) (rp_posted p) (rp_cancel p) (rp_reg p) (rp_code p) x (rp_signal p) (rp_router p)
  (rp_mgmt p) (rp_tcp p) (rp_sent p).
Definition at_signal (p : RProc) x := mkRP (rp_st p) (rp_now p) (rp_time p) (rp_ctxs p) (rp_shm p)
  (rp_pending p) (rp_posted p) (rp_cancel p) (rp_reg p) (rp_code p) (rp_main p) x (rp_router p)
  (rp_mgmt p) (rp_tcp p) (rp_sent p).
Definition at_router (p : RProc) x := mkRP (rp_st p) (rp_now p) (rp_time p) (rp_ctxs p) (rp_shm p)
  (rp_pending p) (rp_posted p) (rp_cancel p) (rp_reg p) (rp_code p) (rp_main p) (rp_signal p) x
  (rp_mgmt p) (rp_tcp p) (rp_sent p).
Definition at_mgmt (p : RProc) x := mkRP (rp_st p) (rp_now p) (rp_time p) (rp_ctxs p) (rp_shm p)
  (rp_pending p) (rp_posted p) (rp_cancel p) (rp_reg p) (rp_code p) (rp_main p) (rp_signal p)
  (rp_router p) x (rp_tcp p) (rp_sent p).
Definition upd_tcp (p : RProc) x := mkRP (rp_st p) (rp_now p) (rp_time p) (rp_ctxs p) (rp_shm p)
  (rp_pending p) (rp_posted p) (rp_cancel p) (rp_reg p) (rp_code p) (rp_main p) (rp_signal p)
  (rp_router p) (rp_mgmt p) x (rp_sent p).
Definition upd_sent (p : RProc) x := mkRP (rp_st p) (rp_now p) (rp_time p) (rp_ctxs p) (rp_shm p)
  (rp_pending p) (rp_posted p) (rp_cancel p) (rp_reg p) (rp_code p) (rp_main p) (rp_signal p)
  (rp_router p) (rp_mgmt p) (rp_tcp p) x.

(** Parts of the system state. *)
Definition upd_sys (p : RProc) (s : Sys) : RProc :=
  upd_st p (set_pipe (rp_st p) s (ry_pipe0 (rp_st p)) (ry_pipe1 (rp_st p))).
Definition upd_main_queue (p : RProc) (q : option MsgQueue) : RProc :=
  upd_st p (set_queues (rp_st p) q (ry_ipc (rp_st p))).
Definition upd_ipc (p : RProc) (q : option MsgQueue) : RProc :=
  upd_st p (set_queues (rp_st p) (ry_main (rp_st p)) q).
Definition joined (p : RProc) (t : Z) : RProc :=
  upd_st p (set_threads (rp_st p) (ry_threads (rp_st p) ∖ {[t]})).

Section process.
(** The answers of the calls of [main] (the fields of [RouterEnv] that stand for
    the other threads are not used) and of the other threads. *)
Variables (e : RouterEnv) (c : ThreadCalls).

(** ** The main thread *)

(** Where the switch of the main loop leads. *)
Definition event_place (m : InternalMsg) : exec rmain_pc :=
  if im_event m =? event_code EV_QUIT then Ret RM_Test
  else if (im_event m =? event_code EV_UDP) || (im_event m =? event_code EV_IPC) then
    _ ← obj (cstring (im_data m)); Ret RM_Test
  else if im_event m =? event_code EV_SIGNAL then
    Ret (if (sig_num m =? SIGINT) || (sig_num m =? SIGTERM) then RM_TermStore else RM_Test)
  else if im_event m =? event_code EV_FATAL then
    _ ← obj (cstring (im_data m)); Ret RM_FatalStore
  else Ret RM_Test.

Definition receive_event (p : RProc) : exec RProc :=
  '(a, q) ← msgrcv false false (ry_main (rp_st p)) MSG_SIZE 0;
  let p := upd_main_queue p q in
  match a with
  | IpcErr _ => Ret (at_main p RM_EndStore)
  | IpcOk (mtype, body) => next ← event_place (msg_of mtype body); Ret (at_main p next)
  end.

(** The registry, the context and the management thread. *)
Definition create_mgmt (p : RProc) : exec RProc :=
  let p := if ne_mutex_ok e
           then upd_ctxs p (<[ROUTER_CTX := mkRouterCtx (tc_start_time c)]> (rp_ctxs p)) else p in
  '(mgmt_ok, reg, st) ← start_mgmt e (rp_st p);
  let p := upd_reg (upd_st p st) reg in
  Ret (if mgmt_ok : bool then at_main (at_mgmt p MgStarted) RM_Test else at_main p RM_FailStore).

Definition store_flag (p : RProc) (next : rmain_pc) : exec RProc :=
  Ret (at_main (upd_st p (stop_running (rp_st p))) next).
Definition close_write_end (p : RProc) (next : rmain_pc) : exec RProc :=
  Ret (at_main (upd_st p (close_shutdown_pipe (rp_st p))) next).
Definition quit_message (p : RProc) (next : rmain_pc) : exec RProc :=
  st ← quit_router (ne_pad e) (rp_st p); Ret (at_main (upd_st p st) next).

(** The next call of the main thread; [Blocked]: it waits. *)
Definition rmain_act (p : RProc) : exec RProc :=
  let st := rp_st p in
  match rp_main p with
  | RM_SemWait =>
      if negb (ne_sem_wait e) then Ret (at_main p RM_Cancel)
      else if rp_posted p then Ret (at_main p RM_Create) else Blocked
  | RM_Create =>
      if negb (ne_t3 e) then Ret (at_main p RM_Cancel)
      else Ret (at_main (at_router (upd_st p (set_threads st ({[T_ROUTER]} ∪ ry_threads st))) RtStarted)
                  RM_Mgmt)
  | RM_Mgmt => create_mgmt p
  | RM_FailStore => store_flag p RM_FailQuit
  | RM_FailQuit => quit_message p RM_FailClose
  | RM_FailClose => close_write_end p RM_JoinRouter
  | RM_Test => Ret (at_main p (if ry_running st then RM_Recv else RM_EndStore))
  | RM_Recv => receive_event p
  | RM_TermStore => store_flag p RM_TermQuit
  | RM_TermQuit => quit_message p RM_TermClose
  | RM_TermClose => close_write_end p RM_Test
  | RM_FatalStore => store_flag p RM_FatalClose
  | RM_FatalClose => close_write_end p RM_Test
  | RM_EndStore => store_flag p RM_EndClose
  | RM_EndClose => close_write_end p RM_EndQuit
  | RM_EndQuit => quit_message p RM_JoinMgmt
  | RM_JoinMgmt =>
      match rp_mgmt p with
      | MgEnded => Ret (at_main (upd_code (joined p T_MGMT) 0) RM_JoinRouter) | _ => Blocked
      end
  | RM_JoinRouter =>
      match rp_router p with RtEnded => Ret (at_main (joined p T_ROUTER) RM_Cancel) | _ => Blocked end
  | RM_Cancel => Ret (at_main (pthread_cancel p) RM_JoinSignal)
  | RM_JoinSignal =>
      match rp_signal p with SgEnded => Ret (at_main (joined p T_SIGNAL) RM_Release) | _ => Blocked end
  | RM_Release => st ← cleanup_sem (rp_shm p) (rp_reg p) st; Ret (at_main (upd_st p st) RM_Done)
  | RM_Done => Blocked
  end.

(** ** The signal thread *)

Definition rsignal_act (p : RProc) : exec RProc :=
  match rp_signal p with
  | SgStarted => Ret (if tc_sigmask c then at_signal (sem_post p) SgTest else at_signal p SgEnded)
  | SgTest => Ret (at_signal p (if ry_running (rp_st p) then SgWait else SgEnded))
  | SgSend sig =>
      '(_, q) ← send_signal_event (ry_main (rp_st p)) sig;
      Ret (at_signal (upd_main_queue p q) (if (sig =? SIGINT) || (sig =? SIGTERM) then SgEnded else SgTest))
  | SgWait | SgEnded => Blocked
  end.

(** sigwait(3) returns a pending signal. *)
Definition take_signal (sig : Z) (p : RProc) : exec RProc :=
  match rp_signal p with
  | SgWait =>
      if bool_decide (sig ∈ rp_pending p)
      then Ret (at_signal (upd_pending p (rp_pending p ∖ {[sig]})) (SgSend sig)) else Blocked
  | _ => Blocked
  end.

(** The cancellation takes effect in sigwait(3) or in msgsnd(2). *)
Definition cancelled (p : RProc) : exec RProc :=
  if negb (rp_cancel p) then Blocked
  else match rp_signal p with SgWait | SgSend _ => Ret (at_signal p SgEnded) | _ => Blocked end.

(** ** The router thread *)

Definition NO_SOCKET : list byte := lit "router_worker: socket open failure".
Definition NO_VIEWER : list byte := lit "router_worker: TCP connect failure after retries".

(** The end of the thread. *)
Definition close_tcp (fd : Z) (next : router_state) (p : RProc) : RProc :=
  at_router (upd_sys p (sys_close fd (ry_sys (rp_st p)))) next.

Definition router_act (p : RProc) : exec RProc :=
  let st := rp_st p in
  match rp_router p with
  | RtStarted =>
      match tc_tcp c with
      | None => Ret (at_router p (RtFatal NO_SOCKET))
      | Some fd =>
          Ret (at_router (upd_sys p (sys_open fd (ry_sys st))) (RtConnect fd CONNECT_MAX_RETRIES))
      end
  | RtConnect fd 0 => Ret (close_tcp fd (RtFatal NO_VIEWER) p)
  | RtSelect fd n =>
      Ret (if bool_decide (ry_pipe1 st = None) then close_tcp fd RtEnded p
           else at_router p (RtConnect fd n))
  | RtFatal text =>
      '(_, q) ← send_fatal_event (ry_main st) (Some text);
      Ret (at_router (upd_main_queue p q) RtEnded)
  | RtRecv fd =>
      '(a, q) ← msgrcv false false (ry_ipc st) NOTIFY_SIZE MSG_TYPE_SHM_NOTIFY;
      let p := upd_ipc p q in
      match a with
      | IpcErr _ => Ret p
      | IpcOk (mtype, body) =>
          Ret (if shm_status_id (notify_of mtype body) =? MSG_TYPE_SHM_QUIT then close_tcp fd RtEnded p
               else at_router p (RtGot fd))
      end
  | RtReset fd =>
      '(_, q) ← send_signal_event (ry_main st) SIGTERM;
      Ret (close_tcp fd RtEnded (upd_main_queue p q))
  | RtNone | RtConnect _ (S _) | RtGot _ | RtEnded => Blocked
  end.

(** connect(2) answers; after a failure the thread waits on the pipe. *)
Definition try_connect (ok : bool) (p : RProc) : exec RProc :=
  match rp_router p with
  | RtConnect fd (S n) => Ret (at_router p (if ok then RtRecv fd else RtSelect fd n))
  | _ => Blocked
  end.

(** The text of the segment goes out; send(2) answers. *)
Definition relay_notified (answer : send_result) (stack : list byte) (status : Z) (p : RProc) : exec RProc :=
  match rp_router p with
  | RtGot fd =>
      let st := rp_st p in
      '(go, r) ← relay_send (ops := sysv_ops (ne_robust e)) answer stack status (tc_pid c, rp_shm p)
                   (mkRelay (ry_ipc st) (ry_main st) (ry_shm st) (rp_tcp p));
      let p := upd_tcp (upd_st p (set_shm (set_queues st (rl_main r) (rl_ipc r)) (rl_shm r))) (rl_tcp r) in
      Ret (at_router p (if go : bool then RtRecv fd else RtReset fd))
  | _ => Blocked
  end.

(** ** The management thread *)

Definition router_world (p : RProc) : RouterWorld :=
  mkRouterWorld (rp_now p) (rp_time p) (rp_ctxs p) (ry_main (rp_st p)).

(** The iteration that was begun; it waits where the SHUTDOWN handler finds the
    main queue full. *)
Definition serve (ms : MgmtSocket) (pe : ProcessEnv) (p : RProc) : exec RProc :=
  let st := rp_st p in
  match mgmt_socket_process_one router_invoke pe (Some ms) 1000 (g_registry (ry_globals st)) (router_world p) with
  | Some sv =>
      ms ← obj (sv_socket sv);
      let st := set_globals st (mkGlobals (sv_registry sv) (g_registry_initialized (ry_globals st))) in
      let p := upd_main_queue (upd_st p st) (rw_queue (sv_world sv)) in
      Ret (at_mgmt (upd_sent p (rp_sent p ++ sv_sent sv)) (MgTest ms))
  | None => match send_signal_event (ry_main st) SIGTERM with Blocked => Blocked | _ => UB end
  end.

Definition rmgmt_act (p : RProc) : exec RProc :=
  match rp_mgmt p with
  | MgStarted =>
      '(h, s) ← obj (mgmt_socket_create (tc_socket c) (Some (MGMT_SOCKET_PATH_ROUTER ++ [x00]))
                       (ry_sys (rp_st p)));
      Ret (at_mgmt (upd_sys p s) match h with Some ms => MgTest ms | None => MgEnded end)
  | MgTest ms =>
      if ry_running (rp_st p) then Ret (at_mgmt p (MgRecv ms))
      else
        s ← obj (mgmt_socket_destroy (Some ms) (ry_sys (rp_st p)));
        Ret (at_mgmt (upd_sys p s) MgEnded)
  | MgServe ms pe => serve ms pe p
  | MgNone | MgRecv _ | MgEnded => Blocked
  end.

(** The receive ends, with a request, an error or after its timeout. *)
Definition begin_serving (pe : ProcessEnv) (p : RProc) : exec RProc :=
  match rp_mgmt p with MgRecv ms => Ret (at_mgmt p (MgServe ms pe)) | _ => Blocked end.

(** ** Interleaving *)

(** [AInterrupted], [AFailed]: msgrcv(2) of the main thread fails with EINTR or
    otherwise.  [ASigFailed]: sigwait(3) fails.  The last ones come from outside:
    a request or a timeout, a signal, the Collector writing the segment and
    notifying, time. *)
Inductive raction :=
| AMain | AInterrupted | AFailed
| ASignal | ATake (sig : Z) | ACancel | ASigFailed
| ARouter | AConnect (ok : bool) | ARelay (answer : send_result) (stack : list byte) (status : Z)
| AMgmt | ARequest (pe : ProcessEnv)
| ADeliver (sig : Z) | ANotify (pad : list byte) | AStore (d stack : list byte)
| AClock (now : timespec) (time : Z).

Definition ract (a : raction) (p : RProc) : exec RProc :=
  if bool_decide (rp_main p = RM_Done) then Blocked
  else match a with
  | AMain => rmain_act p
  | AInterrupted => match rp_main p with RM_Recv => Ret (at_main p RM_Test) | _ => Blocked end
  | AFailed => match rp_main p with RM_Recv => Ret (at_main p RM_EndStore) | _ => Blocked end
  | ASignal => rsignal_act p
  | ATake sig => take_signal sig p
  | ACancel => cancelled p
  | ASigFailed => match rp_signal p with SgWait => Ret (at_signal p SgEnded) | _ => Blocked end
  | ARouter => router_act p
  | AConnect ok => try_connect ok p
  | ARelay answer stack status =>
      if (length stack =? TCP_BUF_SIZE)%nat then relay_notified answer stack status p else Blocked
  | AMgmt => rmgmt_act p
  | ARequest pe => if (length (pe_stack pe) =? MGMT_REQUEST_SIZE)%nat then begin_serving pe p else Blocked
  | ADeliver sig =>
      if (sig =? SIGINT) || (sig =? SIGTERM) then Ret (upd_pending p ({[sig]} ∪ rp_pending p)) else Blocked
  | ANotify pad =>
      if (length pad =? 4)%nat then q ← notify_router pad (ry_ipc (rp_st p)); Ret (upd_ipc p q) else Blocked
  | AStore d stack =>
      if bool_decide (d = []) || negb (length stack =? UDP_BUFFER_SIZE)%nat then Blocked
      else
        '(_, s) ← store_datagram (ops := sysv_ops (ne_robust e)) d stack (tc_collector c, rp_shm p)
                    (ry_shm (rp_st p));
        Ret (upd_st p (set_shm (rp_st p) s))
  | AClock now time => if bool_decide (wf_timespec now) then Ret (upd_clock p now time) else Blocked
  end.

Fixpoint racts (l : list raction) (p : RProc) : exec RProc :=
  match l with
  | [] => Ret p
  | a :: l' => p ← ract a p; racts l' p
  end.

(** ** Start *)

(** The process when the signal thread has been created. *)
Definition process (now : timespec) (h : option ShmContext) (st : RouterSys) : RProc :=
  mkRP st now 0 ∅ h ∅ false false false 1 RM_SemWait SgStarted RtNone MgNone [] [].

(** [main] up to there: the process, or the state at an exit with code 1. *)
Definition launch (now : timespec) (st : RouterSys) : exec (RouterSys + RProc) :=
  main_start inl (fun h st => Ret (inr (process now h st))) e st.
End process.

(** * Lemmas *)

(** ** The calls in a row *)

Lemma ract_running e c a p p' :
  ract e c a p = Ret p' -> rp_main p <> RM_Done.
Proof. unfold ract. by case_bool_decide. Qed.

Lemma ract_main e c p : rp_main p <> RM_Done -> ract e c AMain p = rmain_act e c p.
Proof. intros H. unfold ract. by rewrite bool_decide_false. Qed.

Lemma racts_main e c l p :
  rp_main p <> RM_Done -> racts e c (AMain :: l) p = (q ← rmain_act e c p; racts e c l q).
Proof. intros H. cbn [racts]. by rewrite ract_main. Qed.

Lemma racts_app e c l1 l2 p : racts e c (l1 ++ l2) p = (q ← racts e c l1 p; racts e c l2 q).
Proof.
  revert p. induction l1 as [|a l1 IH]; intros p; [done|]. cbn [app racts].
  destruct (ract e c a p) as [q| |]; [apply IH|done..].
Qed.

Lemma term_in_a_row e c p :
  racts e c [AMain; AMain; AMain] (at_main p RM_TermStore) =
    (st ← quit_router (ne_pad e) (stop_running (rp_st p));
     Ret (at_main (upd_st p (close_shutdown_pipe st)) RM_Test)).
Proof.
  rewrite racts_main by done. unfold rmain_act at 1. cbn [at_main rp_main]. unfold store_flag. run.
  rewrite racts_main by done. unfold rmain_act at 1. cbn [at_main rp_main]. unfold quit_message.
  cbn [rp_st at_main upd_st]. destruct (quit_router _ _) as [st'| |]; [|done..]. run.
  rewrite racts_main by done. unfold rmain_act at 1. cbn [at_main rp_main]. done.
Qed.

Lemma fatal_in_a_row e c p :
  racts e c [AMain; AMain] (at_main p RM_FatalStore) =
    Ret (at_main (upd_st p (close_shutdown_pipe (stop_running (rp_st p)))) RM_Test).
Proof.
  rewrite racts_main by done. unfold rmain_act at 1. cbn [at_main rp_main]. unfold store_flag. run.
  rewrite racts_main by done. unfold rmain_act at 1. cbn [at_main rp_main]. done.
Qed.

(** Without another thread in between, the places that follow an event are its
    case of the switch. *)
Lemma event_in_a_row e c m p :
  match event_place m with
  | Ret next =>
      racts e c (match next with RM_TermStore => [AMain; AMain; AMain]
                 | RM_FatalStore => [AMain; AMain] | _ => [] end) (at_main p next) =
      (st ← handle_event m (ne_pad e) (rp_st p); Ret (at_main (upd_st p st) RM_Test))
  | UB => handle_event m (ne_pad e) (rp_st p) = UB
  | Blocked => False
  end.
Proof.
  unfold event_place, handle_event. assert (upd_st p (rp_st p) = p) as Ep by by destruct p.
  destruct (im_event m =? event_code EV_QUIT); [cbn [racts]; run; by rewrite Ep|].
  destruct ((im_event m =? event_code EV_UDP) || (im_event m =? event_code EV_IPC));
    [destruct (cstring (im_data m)); run; [|done]; cbn [racts]; by rewrite Ep|].
  destruct (im_event m =? event_code EV_SIGNAL).
  - destruct ((sig_num m =? SIGINT) || (sig_num m =? SIGTERM)); [|cbn [racts]; run; by rewrite Ep].
    rewrite term_in_a_row. by destruct (quit_router _ _).
  - destruct (im_event m =? event_code EV_FATAL); [|cbn [racts]; run; by rewrite Ep].
    destruct (cstring (im_data m)); run; [|done]. by rewrite fatal_in_a_row.
Qed.

(** ** The other threads leave the main thread where it is *)

Ltac keeps_main :=
  intros q; repeat case_match; try done;
  try (intros (? & _ & ?)%exec_bind_inv; repeat case_match; simplify_eq; done);
  intros; simplify_eq; done.

Lemma rsignal_act_main c p q : rsignal_act c p = Ret q -> rp_main q = rp_main p.
Proof. unfold rsignal_act. revert q. keeps_main. Qed.

Lemma take_signal_main sig p q : take_signal sig p = Ret q -> rp_main q = rp_main p.
Proof. unfold take_signal. revert q. keeps_main. Qed.

Lemma cancelled_main p q : cancelled p = Ret q -> rp_main q = rp_main p.
Proof. unfold cancelled. revert q. keeps_main. Qed.

Lemma router_act_main c p q : router_act c p = Ret q -> rp_main q = rp_main p.
Proof. unfold router_act. revert q. keeps_main. Qed.

Lemma try_connect_main ok p q : try_connect ok p = Ret q -> rp_main q = rp_main p.
Proof. unfold try_connect. revert q. keeps_main. Qed.

Lemma relay_notified_main e c answer stack status p q :
  relay_notified e c answer stack status p = Ret q -> rp_main q = rp_main p.
Proof. unfold relay_notified. revert q. keeps_main. Qed.

Lemma serve_main ms pe p q : serve ms pe p = Ret q -> rp_main q = rp_main p.
Proof. unfold serve. revert q. keeps_main. Qed.

Lemma rmgmt_act_main c p q : rmgmt_act c p = Ret q -> rp_main q = rp_main p.
Proof. unfold rmgmt_act. destruct (rp_mgmt p); try apply serve_main; revert q; keeps_main. Qed.

Lemma begin_serving_main pe p q : begin_serving pe p = Ret q -> rp_main q = rp_main p.
Proof. unfold begin_serving. revert q. keeps_main. Qed.

(** ** The invariant *)

Definition pipe_fds (st : RouterSys) : list Z := option_list (ry_pipe0 st) ++ option_list (ry_pipe1 st).
Definition router_fds (r : router_state) : list Z :=
  match r with RtConnect fd _ | RtSelect fd _ | RtRecv fd | RtGot fd | RtReset fd => [fd] | _ => [] end.
Definition socket_of (m : mgmt_thread) : option MgmtSocket :=
  match m with MgTest ms | MgRecv ms | MgServe ms _ => Some ms | _ => None end.
Definition mgmt_fds (m : mgmt_thread) : list Z := option_list (socket_fd <$> socket_of m).
Definition mgmt_files (m : mgmt_thread) : gset (list byte) :=
  match socket_of m with Some _ => {[MGMT_SOCKET_PATH_ROUTER]} | None => ∅ end.

Lemma owns_without_pipe base st :
  owns base (pipe_fds st) (ry_sys st) -> sys_fds (without_pipe st) = base.
Proof.
  intros [Hf Hd Hn]. unfold without_pipe, pipe_fds, close_fd in *.
  destruct (ry_pipe0 st) as [p0|], (ry_pipe1 st) as [p1|]; cbn in *; rewrite Hf; cbn;
    try (specialize (Hn p0 ltac:(set_solver)) as Hn0); try (specialize (Hn p1 ltac:(set_solver)) as Hn1);
    set_solver.
Qed.

(** The threads that exist and have not been joined. *)
Definition threads_of (p : RProc) : gset Z :=
  (match rp_main p with RM_Release | RM_Done => ∅ | _ => {[T_SIGNAL]} end) ∪
  (if before_router (rp_main p) || router_joined (rp_main p) then ∅ else {[T_ROUTER]}) ∪
  (if without_mgmt (rp_main p) || mgmt_joined (rp_main p) then ∅ else {[T_MGMT]}).

Section invariant.
Context (e : RouterEnv) (c : ThreadCalls) (st0 : RouterSys) (shm0 : ShmSystem) (h0 : option ShmContext).

(** All that [main] needs succeeded. *)
Definition all_ok : bool := ne_sem_wait e && ne_t3 e && ne_mutex_ok e && ne_t_mgmt e.

(** What the place of the main thread says of the calls and of the exit code. *)
Definition outcome_at (p : RProc) : Prop :=
  match rp_main p with
  | RM_SemWait => rp_code p = 1
  | RM_Create => rp_code p = 1 /\ ne_sem_wait e = true
  | RM_Mgmt => rp_code p = 1 /\ ne_sem_wait e = true /\ ne_t3 e = true
  | RM_FailStore | RM_FailQuit | RM_FailClose => rp_code p = 1 /\ all_ok = false
  | RM_JoinRouter | RM_Cancel | RM_JoinSignal | RM_Release | RM_Done => rp_code p = if all_ok then 0 else 1
  | _ => all_ok = true
  end.

Definition registry_ok (p : RProc) : Prop :=
  let g := ry_globals (rp_st p) in
  g_registry_initialized g = rp_reg p /\
  (before_router (rp_main p) || bool_decide (rp_main p = RM_Mgmt) = true -> g = initial_globals) /\
  (rp_reg p = true -> reg_wf (g_registry g)) /\
  (rp_mgmt p <> MgNone -> rp_reg p = true /\ serves_only "router" ROUTER_CTX (g_registry g) /\
     is_Some (rp_ctxs p !! ROUTER_CTX)).

(** Which threads there are. *)
Record threads_ok (p : RProc) : Prop := {
  th_set : ry_threads (rp_st p) = threads_of p;
  th_early : before_router (rp_main p) = true -> rp_router p = RtNone;
  th_router : router_joined (rp_main p) = true -> rp_router p = RtEnded \/ rp_router p = RtNone;
  th_no_mgmt : without_mgmt (rp_main p) = true -> rp_mgmt p = MgNone;
  th_mgmt : mgmt_joined (rp_main p) = true -> rp_mgmt p = MgEnded \/ rp_mgmt p = MgNone;
  th_signal : rp_main p = RM_Release -> rp_signal p = SgEnded }.

Record descriptors_ok (p : RProc) : Prop := {
  de_owns : owns (sys_fds (ry_sys st0))
    (pipe_fds (rp_st p) ++ router_fds (rp_router p) ++ mgmt_fds (rp_mgmt p)) (ry_sys (rp_st p));
  de_files : sys_files (ry_sys (rp_st p)) ⊆ sys_files (ry_sys st0) ∪ mgmt_files (rp_mgmt p);
  de_pipe : forall fd, fd ∈ pipe_fds (rp_st p) -> exists p0 p1, ne_pipe e = Some (p0, p1) /\ (fd = p0 \/ fd = p1);
  de_tcp : forall fd, fd ∈ router_fds (rp_router p) -> tc_tcp c = Some fd;
  de_socket : forall ms, socket_of (rp_mgmt p) = Some ms -> ce_socket (tc_socket c) = Some (socket_fd ms) /\
    sock_wf ms /\ cstring (socket_path ms) = Some MGMT_SOCKET_PATH_ROUTER }.

(** The data, apart from where the main thread is. *)
Record data_ok (p : RProc) : Prop := {
  pd_fds : descriptors_ok p;
  pd_now : wf_timespec (rp_now p);
  pd_stack : forall ms pe, rp_mgmt p = MgServe ms pe -> length (pe_stack pe) = MGMT_REQUEST_SIZE;
  pd_text : forall t, rp_router p = RtFatal t -> t = NO_SOCKET \/ t = NO_VIEWER;
  pd_sig : forall sig, rp_signal p = SgSend sig \/ sig ∈ rp_pending p -> sig = SIGINT \/ sig = SIGTERM;
  pd_handle : rp_shm p = h0;
  pd_shm : forall pid, exists v t, connected (ne_robust e) (pid, rp_shm p) (ry_shm (rp_st p)) v t;
  pd_attached : attachments (ry_shm (rp_st p)) = attachments shm0;
  pd_queue : queue_ok (ry_main (rp_st p)) /\ is_Some (ry_main (rp_st p)) }.

Record rp_inv (p : RProc) : Prop := {
  pi_data : data_ok p;
  pi_threads : threads_ok p;
  pi_registry : registry_ok p;
  pi_outcome : outcome_at p }.

(** The process has ended. *)
Record ended (p : RProc) : Prop := {
  en_released : router_released st0 (rp_st p);
  en_signal : rp_signal p = SgEnded;
  en_router : rp_router p = RtEnded \/ rp_router p = RtNone;
  en_mgmt : rp_mgmt p = MgEnded \/ rp_mgmt p = MgNone;
  en_code : rp_code p = if all_ok then 0 else 1 }.

Definition good (p : RProc) : Prop := if decide (rp_main p = RM_Done) then ended p else rp_inv p.

(** A step of another thread leaves the main thread where it is. *)
Lemma good_inv p : rp_main p <> RM_Done -> good p <-> rp_inv p.
Proof using Type. intros H. unfold good. by rewrite decide_False. Qed.

Lemma good_ended p : rp_main p = RM_Done -> ended p -> good p.
Proof using Type. intros H. unfold good. by rewrite decide_True. Qed.

(** ** The main thread *)

Lemma quit_router_safe pad st :
  safe (quit_router pad st) (fun st' => exists q, st' = set_queues st (ry_main st) q).
Proof using Type.
  unfold quit_router, send_shm_quit, msgsnd. cbn [nt_mtype MSG_TYPE_SHM_NOTIFY Z.leb Z.compare].
  destruct (ry_ipc st) as [q|]; [destruct (room q _)|]; run; try done; by eexists.
Qed.

Lemma msgrcv_some nowait noerror q size typ a q' :
  msgrcv nowait noerror (Some q) size typ = Ret (a, q') -> is_Some q'.
Proof using Type. unfold msgrcv. repeat case_match; intros; simplify_eq; by eexists. Qed.

Lemma event_place_safe q mt body q' :
  queue_ok (Some q) -> msgrcv false false (Some q) MSG_SIZE 0 = Ret (IpcOk (mt, body), q') ->
  queue_ok q' /\ safe (event_place (msg_of mt body)) (fun pc =>
    pc = RM_Test \/ pc = RM_TermStore \/ pc = RM_FatalStore).
Proof using Type.
  intros Hq H. destruct (Router.main_event q mt body q' Hq H) as (Hq' & m & -> & Em & _ & Ht). split; [done|].
  rewrite Em. unfold event_place. destruct (im_event m =? event_code EV_QUIT); [by left|].
  destruct ((im_event m =? event_code EV_UDP) || (im_event m =? event_code EV_IPC)) eqn:E1.
  { destruct Ht as [t Et]; [intros Ev; by rewrite Ev in E1|]. rewrite Et. by left. }
  destruct (im_event m =? event_code EV_SIGNAL) eqn:E2;
    [destruct ((sig_num m =? SIGINT) || (sig_num m =? SIGTERM)); cbn; auto|].
  destruct (im_event m =? event_code EV_FATAL); [|by left].
  destruct Ht as [t Et]; [by apply Z.eqb_neq|]. rewrite Et. cbn; auto.
Qed.

(** What the calls of the main thread do to the data. *)
Lemma data_at p x : data_ok p -> data_ok (at_main p x).
Proof using Type. intros [[] ? ? ? ? ? ? ? ?]. by split; [split|..]. Qed.

Lemma data_flag p : data_ok p -> data_ok (upd_st p (stop_running (rp_st p))).
Proof using Type. intros [[] ? ? ? ? ? ? ? ?]. by split; [split|..]. Qed.

Lemma data_ipc p q : data_ok p -> data_ok (upd_ipc p q).
Proof using Type. intros [[] ? ? ? ? ? ? ? ?]. by split; [split|..]. Qed.

Lemma data_main_queue p q :
  data_ok p -> queue_ok q -> is_Some q -> data_ok (upd_main_queue p q).
Proof using Type. intros [[] ? ? ? ? ? ? ? ?] ? ?. by split; [split|..]. Qed.

Lemma data_threads p t : data_ok p -> data_ok (upd_st p (set_threads (rp_st p) t)).
Proof using Type. intros [[] ? ? ? ? ? ? ? ?]. by split; [split|..]. Qed.

Lemma data_close p : data_ok p -> data_ok (upd_st p (close_shutdown_pipe (rp_st p))).
Proof using Type.
  intros Hd. unfold close_shutdown_pipe. destruct (ry_pipe1 (rp_st p)) as [fd|] eqn:E.
  2: { by destruct p, Hd as [[] ? ? ? ? ? ? ? ?]. }
  destruct Hd as [[Ho ? Hp ? ?] ? ? ? ? ? ? ? ?]. unfold pipe_fds in Ho, Hp. rewrite E in Ho, Hp.
  split; try done. split; try done; unfold pipe_fds; cbn [rp_st upd_st set_pipe ry_pipe0 ry_pipe1 ry_sys].
  - cbn [option_list]. rewrite app_nil_r. apply owns_close. eapply owns_perm; [|exact Ho]. cbn.
    solve_Permutation.
  - intros fd' Hfd'. apply Hp. set_solver.
Qed.

(** A step that leaves the threads and the registry alone: from place to place. *)
Definition same_threads (x y : rmain_pc) : Prop :=
  (forall p, rp_main p = x -> threads_of (at_main p y) = threads_of p) /\
  (before_router y = true -> before_router x = true) /\
  (router_joined y = true -> router_joined x = true \/ before_router x = true) /\
  (without_mgmt y = true -> without_mgmt x = true) /\
  (mgmt_joined y = true -> mgmt_joined x = true \/ without_mgmt x = true) /\ y <> RM_Release /\
  (before_router y || bool_decide (y = RM_Mgmt) = true ->
   before_router x || bool_decide (x = RM_Mgmt) = true).

Lemma moves p q y :
  rp_inv p -> data_ok q -> same_threads (rp_main p) y ->
  ry_threads (rp_st q) = ry_threads (rp_st p) -> ry_globals (rp_st q) = ry_globals (rp_st p) ->
  rp_main q = y -> rp_reg q = rp_reg p -> rp_router q = rp_router p -> rp_mgmt q = rp_mgmt p ->
  rp_ctxs q = rp_ctxs p -> outcome_at q -> rp_inv q.
Proof using Type.
  intros [_ [Hset He Hr Hn Hm Hs] (Hg1 & Hg2 & Hg3 & Hg4) _] Hd (S1 & S2 & S3 & S4 & S5 & S6 & S7) Et Eg <- Er Ert Em Ec Ho.
  split; [done| | |done].
  - split; rewrite ?Et, ?Ert, ?Em; auto.
    + rewrite Hset. unfold threads_of in *. specialize (S1 p eq_refl). cbn in S1. by rewrite S1.
    + intros H. destruct (S3 H) as [H'|H']; [auto|]. right; auto.
    + intros H. destruct (S5 H) as [H'|H']; [auto|]. right; auto.
    + intros H. congruence.
  - unfold registry_ok. rewrite Eg, Er, Em, Ec. split_and!; auto.
Qed.

Ltac same_place :=
  split_and!; [let E := fresh in by intros ? E; unfold threads_of; rewrite E|by cbn; auto..].

Context (Hclose : forall s, attachments s = attachments shm0 -> forall id a,
  attachments (ry_shm st0) !! id = Some a -> attachments (shm_api_close h0 s) !! id = Some a).

Lemma store_flag_good p next :
  rp_inv p -> same_threads (rp_main p) next -> next <> RM_Done ->
  outcome_at (at_main p next) -> safe (store_flag p next) good.
Proof using Type.
  intros Hi Hs Hn Ho. apply good_inv; [done|]. eapply moves; try done. apply data_at, data_flag, Hi.
Qed.

Lemma close_write_end_good p next :
  rp_inv p -> same_threads (rp_main p) next -> next <> RM_Done ->
  outcome_at (at_main p next) -> safe (close_write_end p next) good.
Proof using Type.
  intros Hi Hs Hn Ho. apply good_inv; [done|]. eapply moves; try done; [apply data_at, data_close, Hi|..];
    cbn; unfold close_shutdown_pipe; by destruct (ry_pipe1 _).
Qed.

Lemma quit_message_good p next :
  rp_inv p -> same_threads (rp_main p) next -> next <> RM_Done ->
  outcome_at (at_main p next) -> safe (quit_message e p next) good.
Proof using Type.
  intros Hi Hs Hn Ho. unfold quit_message. eapply safe_bind; [apply quit_router_safe|]. intros ? [q ->].
  apply good_inv; [done|]. eapply moves; try done. apply data_at. apply (data_ipc p q), Hi.
Qed.

Lemma receive_event_good p : rp_inv p -> rp_main p = RM_Recv -> safe (receive_event p) good.
Proof using Type.
  intros Hi Hp. unfold receive_event. destruct (pd_queue _ (pi_data _ Hi)) as [Hq [q Eq]]. rewrite Eq in *.
  pose proof (pi_outcome _ Hi) as Ho. unfold outcome_at in Ho. rewrite Hp in Ho.
  pose proof (msgrcv_answers false false (Some q) MSG_SIZE 0) as Ha.
  destruct (msgrcv false false (Some q) MSG_SIZE 0) as [[[[mt body]|err] q']| |] eqn:Er; run; try done.
  - destruct (event_place_safe _ _ _ _ Hq Er) as [Hq' Hs].
    assert (is_Some q') as Hq'' by by eapply msgrcv_some.
    eapply safe_bind; [exact Hs|]. intros pc Hpc. apply good_inv; [by destruct_or! Hpc; subst|].
    eapply (moves p _ pc); try done; [by apply data_at, data_main_queue; [apply Hi|..]| |].
    + rewrite Hp. destruct_or! Hpc; subst pc; same_place.
    + destruct_or! Hpc; by subst pc.
  - subst q'. apply good_inv; [done|].
    eapply (moves p _ RM_EndStore); try done; [by apply data_at, data_main_queue; [apply Hi|..]|].
    rewrite Hp. same_place.
Qed.

(** The registry and the management thread. *)
Lemma start_mgmt_result st :
  ry_globals st = initial_globals ->
  exists g, (if ne_mutex_ok e then serves_only "router" ROUTER_CTX (g_registry g) else True) /\
    g_registry_initialized g = ne_mutex_ok e /\
    start_mgmt e st = Ret (ne_mutex_ok e && ne_t_mgmt e, ne_mutex_ok e,
      set_threads (set_globals st g)
        (if ne_mutex_ok e && ne_t_mgmt e then {[T_MGMT]} ∪ ry_threads st else ry_threads st)).
Proof using Type.
  intros Hg. unfold start_mgmt. rewrite Hg. unfold handler_registry_init.
  cbn [g_registry_initialized initial_globals]. destruct (ne_mutex_ok e); cbn [negb Z.eqb].
  - destruct (register_three_empty "router" ltac:(by apply no_nul_lit) ltac:(cbn; lia)
      (mkRegistry (entries (g_registry initial_globals)) 0 MtxFree 0 0) ROUTER_CTX)
      as (r & E & Hr & _ & Ha); [apply reg_wf_empty|apply NoDup_nil_2|done|].
    unfold router_mgmt_register. cbn [g_registry] in E |- *. rewrite E. run. cbn [negb Z.eqb].
    exists (mkGlobals r true). split; [by apply serves_only_three|]. split; [done|].
    destruct (ne_t_mgmt e); [done|]. by destruct st.
  - exists initial_globals. split; [done|]. split; [done|]. by destruct st.
Qed.

Lemma data_mgmt p m :
  data_ok p -> socket_of m = socket_of (rp_mgmt p) ->
  (forall ms pe, m = MgServe ms pe -> length (pe_stack pe) = MGMT_REQUEST_SIZE) -> data_ok (at_mgmt p m).
Proof using Type.
  intros [[Ho Hf ? ? Hs] ? ? ? ? ? ? ? ?] E Hm. split; try done.
  unfold mgmt_fds, mgmt_files in Ho, Hf. rewrite <- E in Ho, Hf, Hs. by split.
Qed.

Lemma data_create p g t ctxs reg :
  data_ok p -> data_ok (upd_reg (upd_st (upd_ctxs p ctxs) (set_threads (set_globals (rp_st p) g) t)) reg).
Proof using Type. intros [[] ? ? ? ? ? ? ? ?]. by split; [split|..]. Qed.

Lemma create_mgmt_good p : rp_inv p -> rp_main p = RM_Mgmt -> safe (create_mgmt e c p) good.
Proof using Type.
  intros [Hd [Hset _ _ Hnm _ _] (Hg1 & Hg2 & _) Ho] Hp. unfold create_mgmt. unfold outcome_at in Ho.
  rewrite Hp in Hg2, Ho, Hnm. specialize (Hg2 eq_refl). specialize (Hnm eq_refl). destruct Ho as (Hc & Hsem & Ht3).
  destruct (start_mgmt_result (rp_st p) Hg2) as (g & Hg & Hgi & E).
  unfold threads_of in Hset. rewrite Hp in Hset. cbn in Hset.
  set (ctxs := if ne_mutex_ok e then <[ROUTER_CTX := mkRouterCtx (tc_start_time c)]> (rp_ctxs p) else rp_ctxs p).
  replace (if ne_mutex_ok e then upd_ctxs p _ else p) with (upd_ctxs p ctxs)
    by (unfold ctxs; destruct p; by destruct (ne_mutex_ok e)).
  cbn [rp_st upd_ctxs]. rewrite E. run.
  set (t := if _ && _ then {[T_MGMT]} ∪ _ else _). pose proof (data_create p g t ctxs (ne_mutex_ok e) Hd) as Hdq.
  assert (all_ok = ne_mutex_ok e && ne_t_mgmt e) as Hall by (unfold all_ok; by rewrite Hsem, Ht3).
  apply good_inv; [by destruct (_ && _)|].
  destruct (ne_mutex_ok e) eqn:Em; cbn [andb] in *; [destruct (ne_t_mgmt e)|].
  - split; [apply data_at, data_mgmt; [done|cbn; by rewrite Hnm|done]| | |done].
    + split; cbn; try done. unfold t. rewrite Hset. unfold threads_of. cbn. set_solver.
    + unfold registry_ok. cbn. rewrite Hgi. split_and!; try done; [intros _; apply Hg|].
      intros _. split_and!; [done|done|]. unfold ctxs. by rewrite lookup_insert_eq.
  - split; [by apply data_at| | |by split].
    + by split.
    + unfold registry_ok. cbn. rewrite Hgi, Hnm. split_and!; try done. intros _. apply Hg.
  - split; [by apply data_at| | |by split].
    + by split.
    + unfold registry_ok. cbn. rewrite Hgi, Hnm. by split_and!.
Qed.

(** The end of the process. *)
Lemma release_returns p :
  rp_inv p -> rp_main p = RM_Release ->
  exists st', cleanup_sem (rp_shm p) (rp_reg p) (rp_st p) = Ret st' /\ router_released st0 st'.
Proof using Hclose.
  intros [[[Ho Hf _ _ _] _ _ _ _ Hh _ Ha [Hq _]] [Hset _ Hr _ Hm Hs] (Hg1 & _ & Hg3 & _) _] Hp.
  rewrite Hp in Hr, Hm. specialize (Hr eq_refl). specialize (Hm eq_refl).
  rewrite Hh. apply (cleanup_sem_ok h0 st0 shm0 Hclose (rp_reg p) (rp_st p)).
  assert (router_fds (rp_router p) = [] /\ mgmt_fds (rp_mgmt p) = [] /\ mgmt_files (rp_mgmt p) = ∅)
    as (Er & Em & Ef) by (destruct Hr as [-> | ->], Hm as [-> | ->]; done).
  rewrite Er, Em, app_nil_r in Ho. split; try done.
  - by apply owns_without_pipe.
  - rewrite Ef, union_empty_r_L in Hf. unfold without_pipe, close_fd. by repeat case_match.
  - rewrite Hset. unfold threads_of. by rewrite Hp.
Qed.

Lemma release_good p :
  rp_inv p -> rp_main p = RM_Release ->
  safe (st ← cleanup_sem (rp_shm p) (rp_reg p) (rp_st p); Ret (at_main (upd_st p st) RM_Done)) good.
Proof using Hclose.
  intros Hi Hp. destruct (release_returns p Hi Hp) as (st' & -> & Hrel). run. apply good_ended; [done|].
  destruct Hi as [_ [_ _ Hr _ Hm Hs] _ Hout]. unfold outcome_at in Hout. rewrite Hp in Hr, Hm, Hout.
  split; try done; [by apply Hs|by apply Hr|by apply Hm].
Qed.

(** Creating the router thread, and the joins. *)
Lemma create_router_good p :
  rp_inv p -> rp_main p = RM_Create -> ne_t3 e = true ->
  rp_inv (at_main (at_router (upd_st p (set_threads (rp_st p) ({[T_ROUTER]} ∪ ry_threads (rp_st p)))) RtStarted)
    RM_Mgmt).
Proof using Type.
  intros [Hd [Hset He _ Hn _ _] (Hg1 & Hg2 & Hg3 & Hg4) Ho] Hp Ht3. unfold outcome_at in Ho.
  rewrite Hp in He, Hn, Ho, Hg2. specialize (He eq_refl). specialize (Hn eq_refl).
  unfold threads_of in Hset. rewrite Hp in Hset. cbn in Hset.
  split; [apply data_at| | |by destruct Ho].
  - destruct Hd as [[Ho' ? ? Ht ?] ? ? ? ? ? ? ? ?]. rewrite He in *. by split; [split|..].
  - split; cbn; try done. rewrite Hset. by vm_compute.
  - unfold registry_ok. cbn. by split_and!.
Qed.

Lemma join_mgmt_good p :
  rp_inv p -> rp_main p = RM_JoinMgmt -> rp_mgmt p = MgEnded ->
  rp_inv (at_main (upd_code (joined p T_MGMT) 0) RM_JoinRouter).
Proof using Type.
  intros [Hd [Hset _ _ _ _ _] (Hg1 & _ & Hg3 & Hg4) Ho] Hp Hm. unfold outcome_at in Ho. rewrite Hp in Ho.
  unfold threads_of in Hset. rewrite Hp in Hset. cbn in Hset. split.
  - apply data_at. destruct Hd as [[] ? ? ? ? ? ? ? ?]. by split; [split|..].
  - split; cbn; auto; [|done..]. rewrite Hset. by vm_compute.
  - by unfold registry_ok.
  - unfold outcome_at. cbn. by rewrite Ho.
Qed.

Lemma join_router_good p :
  rp_inv p -> rp_main p = RM_JoinRouter -> rp_router p = RtEnded -> rp_inv (at_main (joined p T_ROUTER) RM_Cancel).
Proof using Type.
  intros [Hd [Hset _ _ _ Hm _] (Hg1 & _ & Hg3 & Hg4) Ho] Hp Hr. unfold outcome_at in Ho. rewrite Hp in Ho, Hm.
  unfold threads_of in Hset. rewrite Hp in Hset. cbn in Hset. split.
  - apply data_at, data_threads, Hd.
  - split; cbn; auto; [|done..]. rewrite Hset. by vm_compute.
  - by unfold registry_ok.
  - done.
Qed.

Lemma join_signal_good p :
  rp_inv p -> rp_main p = RM_JoinSignal -> rp_signal p = SgEnded -> rp_inv (at_main (joined p T_SIGNAL) RM_Release).
Proof using Type.
  intros [Hd [Hset _ Hr _ Hm _] (Hg1 & _ & Hg3 & Hg4) Ho] Hp Hs. unfold outcome_at in Ho. rewrite Hp in Ho, Hm, Hr.
  unfold threads_of in Hset. rewrite Hp in Hset. cbn in Hset. split.
  - apply data_at, data_threads, Hd.
  - split; cbn; auto; [|done..]. rewrite Hset. by vm_compute.
  - by unfold registry_ok.
  - done.
Qed.

Lemma plain_move p next :
  rp_inv p -> same_threads (rp_main p) next -> next <> RM_Done -> outcome_at (at_main p next) ->
  good (at_main p next).
Proof using Type. intros Hi Hs Hn Ho. apply good_inv; [done|]. eapply moves; try done. apply data_at, Hi. Qed.

Lemma rmain_act_good p : rp_inv p -> rp_main p <> RM_Done -> safe (rmain_act e c p) good.
Proof using Hclose.
  intros Hi Hn. pose proof (pi_outcome _ Hi) as Ho. unfold outcome_at in Ho. unfold rmain_act.
  destruct (rp_main p) eqn:Hp.
  all: try (by apply receive_event_good); try (by apply create_mgmt_good); try (by apply release_good).
  all: try (apply store_flag_good; [done|rewrite Hp; same_place|done|done]).
  all: try (apply quit_message_good; [done|rewrite Hp; same_place|done|done]).
  all: try (apply close_write_end_good; [done|rewrite Hp; same_place|done|done]).
  - destruct (ne_sem_wait e) eqn:E; cbn [negb].
    + destruct (rp_posted p); [|done]. apply plain_move; [done|rewrite Hp; same_place|done|done].
    + apply plain_move; [done|rewrite Hp; same_place|done|]. unfold outcome_at, all_ok. cbn. by rewrite E.
  - destruct (ne_t3 e) eqn:E; cbn [negb]; [apply good_inv; [done|by apply create_router_good]|].
    apply plain_move; [done|rewrite Hp; same_place|done|]. unfold outcome_at, all_ok. cbn.
    destruct Ho as [-> ->]. by rewrite E.
  - apply close_write_end_good; [done|rewrite Hp; same_place|done|]. unfold outcome_at. cbn.
    by destruct Ho as [-> ->].
  - apply plain_move; [done|rewrite Hp; destruct (ry_running _); same_place|by destruct (ry_running _)|].
    by destruct (ry_running _).
  - destruct (rp_mgmt p) eqn:E; try done. apply good_inv; [done|]. by apply join_mgmt_good.
  - destruct (rp_router p) eqn:E; try done. apply good_inv; [done|]. by apply join_router_good.
  - apply good_inv; [done|]. eapply (moves p _ RM_JoinSignal); try done; [|rewrite Hp; same_place].
    apply data_at. destruct (pi_data _ Hi) as [[] ? ? ? ? ? ? ? ?]. by split; [split|..].
  - destruct (rp_signal p) eqn:E; try done. apply good_inv; [done|]. by apply join_signal_good.
  - done.
Qed.

(** ** The other threads *)

(** A step of another thread that leaves the registry alone. *)
Lemma other_thread p q :
  rp_inv p -> data_ok q -> rp_main q = rp_main p -> rp_code q = rp_code p -> rp_reg q = rp_reg p ->
  rp_ctxs q = rp_ctxs p -> ry_threads (rp_st q) = ry_threads (rp_st p) ->
  ry_globals (rp_st q) = ry_globals (rp_st p) ->
  (rp_signal q = rp_signal p \/ rp_signal p <> SgEnded) ->
  (rp_router q = rp_router p \/ (rp_router p <> RtNone /\ rp_router p <> RtEnded)) ->
  (rp_mgmt q = rp_mgmt p \/ (rp_mgmt p <> MgNone /\ rp_mgmt p <> MgEnded)) -> rp_inv q.
Proof using Type.
  intros [_ [Hset He Hr Hn Hm Hs] (Hg1 & Hg2 & Hg3 & Hg4) Ho] Hd Em Eco Erg Ect Eth Eg Sg Rt Mg.
  split; [done| | |by unfold outcome_at in *; rewrite Em, Eco].
  - split; rewrite ?Em, ?Eth; unfold threads_of; rewrite ?Em; auto.
    + intros H. specialize (He H). destruct Rt as [->|[]]; [done|congruence].
    + intros H. specialize (Hr H). destruct Rt as [->|[]]; [done|]. by destruct Hr.
    + intros H. specialize (Hn H). destruct Mg as [->|[]]; [done|congruence].
    + intros H. specialize (Hm H). destruct Mg as [->|[]]; [done|]. by destruct Hm.
    + intros H. specialize (Hs H). by destruct Sg as [->|].
  - unfold registry_ok. rewrite Em, Erg, Ect, Eg. split_and!; try done.
    intros H. apply Hg4. destruct Mg as [<-|[]]; done.
Qed.

(** Sending to the main queue. *)
Lemma send_event_ok q m :
  queue_ok q -> is_Some q -> wf_msg m ->
  (im_event m <> event_code EV_SIGNAL -> exists t, cstring (im_data m) = Some t) ->
  safe (send_to_main q (Some m)) (fun '(_, q') => queue_ok q' /\ is_Some q').
Proof using Type.
  intros Hq [qu ->] Hm Ht. unfold send_to_main, msgsnd. rewrite (wm_type _ Hm). cbn [MSG_TYPE Z.leb Z.compare].
  destruct (room qu _); [|done]. cbn. split; [|by eexists]. intros ? [= <-]. cbn.
  apply Forall_app. split; [by apply Hq|]. apply Forall_singleton. by exists m.
Qed.

Lemma send_signal_ok q sig :
  queue_ok q -> is_Some q -> sig = SIGINT \/ sig = SIGTERM ->
  safe (send_signal_event q sig) (fun '(_, q') => queue_ok q' /\ is_Some q').
Proof using Type.
  intros Hq Hs Hsig. unfold send_signal_event.
  destruct (build_signal sig) as (m & -> & Hw & He & _);
    [destruct Hsig as [-> | ->]; split; vm_compute; congruence|by destruct Hsig as [-> | ->]|]. run.
  by apply send_event_ok.
Qed.

Lemma send_fatal_ok q t :
  queue_ok q -> is_Some q -> t = NO_SOCKET \/ t = NO_VIEWER ->
  safe (send_fatal_event q (Some t)) (fun '(_, q') => queue_ok q' /\ is_Some q').
Proof using Type.
  intros Hq Hs Ht. unfold send_fatal_event.
  assert (exists s, cstring t = Some s) as [s Hs'] by (destruct Ht as [-> | ->]; by eexists; vm_compute).
  destruct (build_text EV_FATAL t s Hs') as (m & -> & Hw & He & Hc). run. apply send_event_ok; try done. by eexists.
Qed.

Lemma data_signal p s :
  data_ok p -> (forall sig, s = SgSend sig -> sig = SIGINT \/ sig = SIGTERM) -> data_ok (at_signal p s).
Proof using Type.
  intros [[] ? ? ? Hsig ? ? ? ?] Hs. split; try done. intros sig [H|H]; [by apply Hs|]. apply Hsig; auto.
Qed.

Lemma signal_moves_inv p s :
  rp_inv p -> rp_signal p <> SgEnded -> data_ok (at_signal p s) -> rp_inv (at_signal p s).
Proof using Type. intros Hi Hs Hd. eapply other_thread; try done; auto. Qed.

Lemma rsignal_act_safe p : rp_inv p -> safe (rsignal_act c p) rp_inv.
Proof using Type.
  intros Hi. pose proof (pi_data _ Hi) as Hd. unfold rsignal_act.
  destruct (rp_signal p) as [| | |sig|] eqn:Es; try done; cbn [safe].
  - destruct (tc_sigmask c).
    + eapply other_thread; try done; auto; [|right; by rewrite Es].
      apply (data_signal (sem_post p)); [|done]. destruct Hd as [[] ? ? ? ? ? ? ? ?]. by split; [split|..].
    + apply signal_moves_inv; [done|by rewrite Es|by apply data_signal].
  - apply signal_moves_inv; [done|by rewrite Es|]. apply data_signal; [done|]. by destruct (ry_running _).
  - destruct (pd_queue _ Hd) as [Hq Hq']. eapply safe_bind; [apply send_signal_ok; [done..|]|].
    { apply (pd_sig _ Hd). by left. }
    intros [r q] [? ?]. eapply other_thread; try done; auto; [|right; by rewrite Es].
    apply data_signal; [by apply data_main_queue|]. by destruct (_ || _).
Qed.

Lemma take_signal_safe sig p : rp_inv p -> safe (take_signal sig p) rp_inv.
Proof using Type.
  intros Hi. pose proof (pi_data _ Hi) as Hd. unfold take_signal. destruct (rp_signal p) eqn:Es; try done.
  case_bool_decide as Hp; [|done]. eapply other_thread; try done; auto; [|right; by rewrite Es].
  apply data_signal.
  - destruct Hd as [[] ? ? ? Hsig ? ? ? ?]. split; try done.
    intros s [H|H]; [apply Hsig; by left|]. apply Hsig. right. by apply elem_of_difference in H as [H _].
  - intros s [= <-]. apply (pd_sig _ Hd). by right.
Qed.

Lemma cancelled_safe p : rp_inv p -> safe (cancelled p) rp_inv.
Proof using Type.
  intros Hi. unfold cancelled. destruct (rp_cancel p); cbn [negb]; [|done].
  destruct (rp_signal p) eqn:Es; try done; (apply signal_moves_inv; [done|by rewrite Es|apply data_signal; [apply Hi|done]]).
Qed.

(** The descriptors of the two sockets are new. *)
Definition new_fd (fd : Z) : Prop :=
  (fd ∉ sys_fds (ry_sys st0)) /\ forall p0 p1, ne_pipe e = Some (p0, p1) -> fd <> p0 /\ fd <> p1.
Context (Htcp : forall fd, tc_tcp c = Some fd -> new_fd fd /\ ce_socket (tc_socket c) <> Some fd).
Context (Hsock : forall fd, ce_socket (tc_socket c) = Some fd -> 0 <= fd /\ new_fd fd).

Lemma fresh_here p fd :
  data_ok p -> new_fd fd -> (fd ∉ router_fds (rp_router p)) -> (fd ∉ mgmt_fds (rp_mgmt p)) ->
  fd ∉ sys_fds (ry_sys (rp_st p)).
Proof using Type.
  intros [[[-> _ _] _ Hp _ _] _ _ _ _ _ _ _ _] [Hn Hpipe] Hr Hm.
  rewrite elem_of_union, elem_of_list_to_set, !elem_of_app. intros [H|[H|[H|H]]]; try done.
  destruct (Hp fd H) as (p0 & p1 & E & Hfd). destruct (Hpipe p0 p1 E). by destruct Hfd.
Qed.

Lemma data_router p r :
  data_ok p -> router_fds r = router_fds (rp_router p) ->
  (forall t, r = RtFatal t -> t = NO_SOCKET \/ t = NO_VIEWER) -> data_ok (at_router p r).
Proof using Type.
  intros [[Ho ? ? Ht ?] ? ? ? ? ? ? ? ?] E Hr. rewrite <- E in Ho, Ht. by split; [split|..].
Qed.

Lemma data_tcp_open p fd n :
  data_ok p -> rp_router p = RtStarted -> tc_tcp c = Some fd ->
  data_ok (at_router (upd_sys p (sys_open fd (ry_sys (rp_st p)))) (RtConnect fd n)).
Proof using Htcp.
  intros Hd Hr Hfd. destruct (Htcp fd Hfd) as [Hnew Hne].
  assert (fd ∉ sys_fds (ry_sys (rp_st p))) as Hfresh.
  { apply fresh_here; [done|done|by rewrite Hr; apply not_elem_of_nil|]. unfold mgmt_fds.
    destruct (socket_of _) as [ms|] eqn:E; [|apply not_elem_of_nil]. cbn. rewrite list_elem_of_singleton.
    intros ->. destruct (de_socket _ (pd_fds _ Hd) ms E) as [? _]. congruence. }
  destruct Hd as [[Ho ? ? Ht ?] ? ? ? ? ? ? ? ?]. rewrite Hr in *. split; try done. split; try done.
  - eapply owns_perm; [|by apply owns_open]. cbn. by rewrite Permutation_middle.
  - intros fd'. cbn. by rewrite list_elem_of_singleton; intros ->.
Qed.

Lemma data_tcp_close p fd r :
  data_ok p -> router_fds (rp_router p) = [fd] -> router_fds r = [] ->
  (forall t, r = RtFatal t -> t = NO_SOCKET \/ t = NO_VIEWER) -> data_ok (close_tcp fd r p).
Proof using Type.
  intros [[Ho ? ? Ht ?] ? ? ? ? ? ? ? ?] Hfd Hr Htx. rewrite Hfd in Ho. split; try done. split; try done.
  - cbn. rewrite Hr. apply owns_close. eapply owns_perm; [|exact Ho]. cbn.
    change (pipe_fds (set_pipe _ _ _ _)) with (pipe_fds (rp_st p)). solve_Permutation.
  - cbn. rewrite Hr. intros ? H. by apply not_elem_of_nil in H.
Qed.

Lemma router_moves_inv p q :
  rp_inv p -> data_ok q -> rp_router p <> RtNone -> rp_router p <> RtEnded ->
  rp_main q = rp_main p -> rp_code q = rp_code p -> rp_reg q = rp_reg p -> rp_ctxs q = rp_ctxs p ->
  ry_threads (rp_st q) = ry_threads (rp_st p) -> ry_globals (rp_st q) = ry_globals (rp_st p) ->
  rp_signal q = rp_signal p -> rp_mgmt q = rp_mgmt p -> rp_inv q.
Proof using Type. intros. eapply other_thread; try done; auto. Qed.

Ltac router_moved Hi Er :=
  eapply router_moves_inv; [exact Hi| |by rewrite Er|by rewrite Er|try done..].

Lemma msgrcv_safe nowait noerror q size typ : safe (msgrcv nowait noerror q size typ) (fun _ => True).
Proof using Type. pose proof (msgrcv_answers nowait noerror q size typ). by destruct (msgrcv _ _ _ _ _). Qed.

Lemma router_act_safe p : rp_inv p -> safe (router_act c p) rp_inv.
Proof using Htcp.
  intros Hi. pose proof (pi_data _ Hi) as Hd. unfold router_act.
  destruct (rp_router p) as [| |fd [|n]|fd n|text|fd|fd|fd|] eqn:Er; try done; cbn [safe].
  - pose proof (fun fd => data_tcp_open p fd CONNECT_MAX_RETRIES Hd Er) as Hopen.
    destruct (tc_tcp c) as [fd|]; router_moved Hi Er.
    + by apply Hopen.
    + apply data_router; [done|by rewrite Er|]. intros t [= <-]. by left.
  - router_moved Hi Er.
    apply data_tcp_close; [done|by rewrite Er|done|]. intros t [= <-]. by right.
  - router_moved Hi Er; try (by case_bool_decide).
    case_bool_decide; [apply data_tcp_close; [done|by rewrite Er|done|done]|apply data_router; [done|by rewrite Er|done]].
  - destruct (pd_queue _ Hd). eapply safe_bind; [apply send_fatal_ok; [done..|by apply (pd_text _ Hd)]|].
    intros [r q] [? ?]. router_moved Hi Er.
    apply data_router; [by apply data_main_queue|cbn; by rewrite Er|done].
  - eapply safe_bind; [apply msgrcv_safe|]. intros [[[mt body]|err] q] _; cbn [safe];
      router_moved Hi Er; try (by case_match).
    + destruct (_ =? _); [apply data_tcp_close|apply data_router]; try (by apply data_ipc); cbn; by rewrite ?Er.
    + by apply data_ipc.
  - destruct (pd_queue _ Hd). eapply safe_bind; [apply send_signal_ok; [done..|by right]|].
    intros [r q] [? ?]. router_moved Hi Er.
    apply data_tcp_close; [by apply data_main_queue|cbn; by rewrite Er|done|done].
Qed.

Lemma try_connect_safe ok p : rp_inv p -> safe (try_connect ok p) rp_inv.
Proof using Type.
  intros Hi. unfold try_connect. destruct (rp_router p) as [| |fd [|n]| | | | | |] eqn:Er; try done. cbn [safe].
  router_moved Hi Er.
  apply data_router; [apply Hi|by destruct ok; rewrite Er|by destruct ok].
Qed.

(** Relaying. *)
Lemma relay_send_attached robust answer stack status h r go r' :
  relay_send (ops := sysv_ops robust) answer stack status h r = Ret (go, r') ->
  attachments (rl_shm r') = attachments (rl_shm r).
Proof using Type.
  intros H. unfold relay_send in H. apply exec_bind_inv in H as ([[[ok st'] payload] s'] & E & H).
  apply (read_attachments robust) in E. rewrite <- E. destruct ok; cbn [negb] in H; [|by simplify_eq].
  apply exec_bind_inv in H as (pl & _ & H). apply exec_bind_inv in H as (text & _ & H).
  apply exec_bind_inv in H as ([buf n] & _ & H). apply exec_bind_inv in H as (line & _ & H).
  by destruct answer; simplify_eq.
Qed.

Lemma data_relay p r :
  data_ok p -> attachments (rl_shm r) = attachments (ry_shm (rp_st p)) ->
  (exists pid v t, connected (ne_robust e) (pid, rp_shm p) (rl_shm r) v t) ->
  queue_ok (rl_main r) -> is_Some (rl_main r) ->
  data_ok (upd_tcp (upd_st p (set_shm (set_queues (rp_st p) (rl_main r) (rl_ipc r)) (rl_shm r))) (rl_tcp r)).
Proof using Type.
  intros [[] ? ? ? ? ? ? Ha ?] Ea (pid & v & t & Hc) Hq Hq'. split; try done.
  - intros pid'. exists v, t. exact Hc.
  - by rewrite <- Ha.
Qed.

Lemma relay_notified_safe answer stack status p :
  rp_inv p -> length stack = TCP_BUF_SIZE -> safe (relay_notified e c answer stack status p) rp_inv.
Proof using Type.
  intros Hi Hst. pose proof (pi_data _ Hi) as Hd. unfold relay_notified.
  destruct (rp_router p) as [| | | | | |fd| |] eqn:Er; try done.
  destruct (pd_shm _ Hd (tc_pid c)) as (v & t & Hco). destruct (pd_queue _ Hd) as [Hq Hq'].
  set (r0 := mkRelay _ _ _ _).
  destruct (relay_send_sends (ops := sysv_ops (ne_robust e)) (api := sysv_api (ne_robust e)) ltac:(vm_compute; lia)
    answer stack status (tc_pid c, rp_shm p) r0 v t Hst Hco) as (_ & _ & s' & Erel & Hat).
  pose proof (relay_send_attached _ _ _ _ _ _ _ _ Erel) as Hatt. rewrite Erel. run.
  router_moved Hi Er; try (by destruct answer). apply data_router; [|cbn; rewrite Er; by destruct answer|by destruct answer].
  apply data_relay; [done|exact Hatt| |done|done]. exists (tc_pid c), v, t. exact Hat.
Qed.

(** The management thread. *)
Lemma socket_result p :
  data_ok p -> rp_mgmt p = MgStarted ->
  exists h s, mgmt_socket_create (tc_socket c) (Some (MGMT_SOCKET_PATH_ROUTER ++ [x00])) (ry_sys (rp_st p)) = Some (h, s) /\
    data_ok (at_mgmt (upd_sys p s) match h with Some ms => MgTest ms | None => MgEnded end).
Proof using Htcp Hsock.
  clear Hclose. intros Hd Hm.
  assert (forall fd, ce_socket (tc_socket c) = Some fd -> 0 <= fd /\ fd ∉ sys_fds (ry_sys (rp_st p))) as Hfresh.
  { intros fd E. destruct (Hsock fd E) as [Hpos Hn]. split; [done|].
    apply fresh_here; [done|done| |by rewrite Hm; apply not_elem_of_nil].
    intros H. destruct (Htcp fd (de_tcp _ (pd_fds _ Hd) fd H)). congruence. }
  destruct (create_result (tc_socket c) (MGMT_SOCKET_PATH_ROUTER ++ [x00]) MGMT_SOCKET_PATH_ROUTER (ry_sys (rp_st p)) eq_refl Hfresh)
    as (h & s & E & Hh). exists h, s. split; [done|].
  destruct Hd as [[Ho Hf ? ? _] ? _ ? ? ? ? ? ?]. rewrite Hm in *. cbn in Ho, Hf.
  destruct h as [ms|].
  - destruct Hh as (fd & d & Hpos & Hnew & Hce & Hd & -> & ->). rewrite take_ge in * by (vm_compute; lia).
    split; try done. split; cbn; try done.
    + rewrite app_assoc. eapply (owns_fds _ _ (sys_open fd (ry_sys (rp_st p)))); [|done].
      eapply owns_perm; [|by apply owns_open]. rewrite app_nil_r. solve_Permutation.
    + set_solver.
    + intros ms [= <-]. split; [done|]. split; [|done]. split; cbn; try done. by eexists.
  - destruct Hh as [Hfd Hfi]. split; try done. split; cbn; try done; [by eapply owns_fds|set_solver].
Qed.

Lemma destroy_result p ms :
  data_ok p -> rp_mgmt p = MgTest ms ->
  exists s, mgmt_socket_destroy (Some ms) (ry_sys (rp_st p)) = Some s /\ data_ok (at_mgmt (upd_sys p s) MgEnded).
Proof using Type.
  clear Hclose Htcp Hsock. intros [[Ho Hf ? ? Hs] ? _ ? ? ? ? ? ?] Hm. rewrite Hm in *. destruct (Hs ms eq_refl) as (_ & Hms & Hp).
  unfold mgmt_socket_destroy. rewrite (proj2 (Z.leb_le _ _) (sw_fd _ Hms)), Hp. eexists. split; [done|].
  split; try done. split; cbn; try done.
  - eapply owns_fds; [eapply owns_close, owns_perm, Ho|done]. cbn. solve_Permutation.
  - cbn in Hf. set_solver.
Qed.

Lemma data_served p mq g sent ms ms' :
  data_ok p -> socket_of (rp_mgmt p) = Some ms -> queue_ok mq -> is_Some mq ->
  sock_wf ms' -> socket_fd ms' = socket_fd ms -> socket_path ms' = socket_path ms ->
  data_ok (at_mgmt (upd_sent (upd_main_queue (upd_st p (set_globals (rp_st p) g)) mq) sent) (MgTest ms')).
Proof using Type.
  intros [[Ho Hf ? ? Hs] ? _ ? ? ? ? ? ?] Hm Hq Hq' Hw Hfd Hp. unfold mgmt_fds, mgmt_files in *.
  rewrite Hm in *. destruct (Hs ms eq_refl) as (? & _ & ?). split; try done. split; try done.
  - unfold mgmt_fds. cbn in Ho |- *. by rewrite Hfd.
  - intros ms1 [= <-]. by rewrite Hfd, Hp.
Qed.

(** The process after an iteration with a SHUTDOWN or without one. *)
Definition served (p : RProc) (mq : option MsgQueue) (r : EventHandlerRegistry) (l : list sent) (ms : MgmtSocket) : RProc :=
  at_mgmt (upd_sent (upd_main_queue (upd_st p (set_globals (rp_st p)
    (mkGlobals r (g_registry_initialized (ry_globals (rp_st p)))))) mq) l) (MgTest ms).

Lemma serve_result ms pe p :
  rp_inv p -> rp_mgmt p = MgServe ms pe ->
  let ends mq := exists r l ms', serve ms pe p = Ret (served p mq r l ms') /\ sock_wf ms' /\
    socket_fd ms' = socket_fd ms /\ socket_path ms' = socket_path ms /\ serves_only "router" ROUTER_CTX r in
  if stops pe then
    match send_signal_event (ry_main (rp_st p)) SIGTERM with
    | Ret (_, mq) => ends mq | Blocked => serve ms pe p = Blocked | UB => False
    end
  else ends (ry_main (rp_st p)).
Proof using Type.
  intros [Hd _ (_ & _ & _ & Hg4) _] Em ends. rewrite Em in Hg4.
  destruct Hg4 as (_ & Hserv & Hctx); [done|].
  pose proof (de_socket _ (pd_fds _ Hd) ms ltac:(by rewrite Em)) as (_ & Hms & _).
  pose proof (router_process_one ROUTER_CTX (router_world p) Hctx (pd_now _ Hd) _ pe ms Hserv Hms
    (pd_stack _ Hd ms pe Em)) as Hone. cbn zeta in Hone. unfold ends, serve.
  change (rw_queue _) with (ry_main (rp_st p)) in Hone. destruct (stops pe).
  - destruct (send_signal_event _ _) as [[x mq]| |]; [|done|by rewrite Hone].
    destruct Hone as (sv & ms' & -> & Esv & ? & ? & ? & ? & Ew). rewrite Esv, Ew. run.
    by exists (sv_registry sv), (rp_sent p ++ sv_sent sv), ms'.
  - destruct Hone as (sv & ms' & -> & Esv & ? & ? & ? & ? & Ew). rewrite Esv, Ew. run.
    by exists (sv_registry sv), (rp_sent p ++ sv_sent sv), ms'.
Qed.

Lemma served_inv p ms pe mq r l ms' :
  rp_inv p -> rp_mgmt p = MgServe ms pe -> queue_ok mq -> is_Some mq -> sock_wf ms' ->
  socket_fd ms' = socket_fd ms -> socket_path ms' = socket_path ms -> serves_only "router" ROUTER_CTX r ->
  rp_inv (served p mq r l ms').
Proof using Type.
  intros [Hd [Hset He Hr Hn Hm Hs] (Hg1 & Hg2 & Hg3 & Hg4) Ho] Em Hq Hq' Hw Hfd Hp Hsv. rewrite Em in *.
  destruct Hg4 as (Hreg & _ & Hctx); [done|]. split; [| | |exact Ho].
  - eapply (data_served p _ _ _ ms); try done. by rewrite Em.
  - split; try done; cbn; intros H; [by specialize (Hn H)|by destruct (Hm H)].
  - unfold registry_ok. cbn. split_and!; [done| |intros _; apply Hsv|by intros _].
    intros H. assert (without_mgmt (rp_main p) = true) as Hw' by (destruct (rp_main p); done).
    by specialize (Hn Hw').
Qed.

Lemma serve_safe ms pe p :
  rp_inv p -> rp_mgmt p = MgServe ms pe -> safe (serve ms pe p) rp_inv.
Proof using Type.
  intros Hi Em. destruct (pd_queue _ (pi_data _ Hi)) as [Hq Hq'].
  pose proof (serve_result ms pe p Hi Em) as Hr. cbn zeta in Hr. destruct (stops pe).
  - pose proof (send_signal_ok (ry_main (rp_st p)) SIGTERM Hq Hq' ltac:(by right)) as Hss.
    destruct (send_signal_event _ _) as [[x mq]| |]; [|done|by rewrite Hr]. destruct Hss.
    destruct Hr as (r & l & ms' & -> & ? & ? & ? & ?). by eapply served_inv.
  - destruct Hr as (r & l & ms' & -> & ? & ? & ? & ?). by eapply served_inv.
Qed.

Lemma mgmt_moves_inv p q :
  rp_inv p -> data_ok q -> rp_mgmt p <> MgNone -> rp_mgmt p <> MgEnded ->
  rp_main q = rp_main p -> rp_code q = rp_code p -> rp_reg q = rp_reg p -> rp_ctxs q = rp_ctxs p ->
  ry_threads (rp_st q) = ry_threads (rp_st p) -> ry_globals (rp_st q) = ry_globals (rp_st p) ->
  rp_signal q = rp_signal p -> rp_router q = rp_router p -> rp_inv q.
Proof using Type. intros. eapply other_thread; try done; auto. Qed.

Lemma rmgmt_act_safe p : rp_inv p -> safe (rmgmt_act c p) rp_inv.
Proof using Htcp Hsock.
  intros Hi. pose proof (pi_data _ Hi) as Hd. unfold rmgmt_act.
  destruct (rp_mgmt p) as [| |ms|ms|ms pe|] eqn:Em; try done.
  - destruct (socket_result p Hd Em) as (h & s & -> & Hd'). run.
    eapply mgmt_moves_inv; [exact Hi|exact Hd'|by rewrite Em..|done|done|done|done|done|done|done|done].
  - destruct (ry_running (rp_st p)).
    + eapply mgmt_moves_inv; [exact Hi|by apply data_mgmt; [|rewrite Em|]|by rewrite Em..|done|done|done|done|done|done|done|done].
    + destruct (destroy_result p ms Hd Em) as (s & -> & Hd'). run.
      eapply mgmt_moves_inv; [exact Hi|exact Hd'|by rewrite Em..|done|done|done|done|done|done|done|done].
  - by apply serve_safe.
Qed.

Lemma begin_serving_safe pe p :
  rp_inv p -> length (pe_stack pe) = MGMT_REQUEST_SIZE -> safe (begin_serving pe p) rp_inv.
Proof using Type.
  intros Hi Hst. unfold begin_serving. destruct (rp_mgmt p) as [| |ms|ms|ms pe0|] eqn:Em; try done.
  eapply mgmt_moves_inv; [exact Hi| |by rewrite Em..|done|done|done|done|done|done|done|done].
  apply data_mgmt; [apply Hi|by rewrite Em|]. by intros ? ? [= <- <-].
Qed.

(** ** What comes from outside *)

(** The Collector. *)
Lemma store_datagram_attachments robust d stack h s ok s' :
  store_datagram (ops := sysv_ops robust) d stack h s = Ret (ok, s') -> attachments s' = attachments s.
Proof using Type.
  intros H. unfold store_datagram in H. apply exec_bind_inv in H as (buf & _ & H).
  by apply write_attachments in H.
Qed.

Lemma store_safe_here d stack p :
  rp_inv p -> d <> [] -> length stack = UDP_BUFFER_SIZE ->
  safe ('(_, s) ← store_datagram (ops := sysv_ops (ne_robust e)) d stack (tc_collector c, rp_shm p) (ry_shm (rp_st p));
        Ret (upd_st p (set_shm (rp_st p) s))) rp_inv.
Proof using Type.
  intros Hi Hdn Hst. pose proof (pi_data _ Hi) as Hd. destruct (pd_shm _ Hd (tc_collector c)) as (v & t & Hco).
  destruct (store_datagram_stores (ops := sysv_ops (ne_robust e)) (api := sysv_api (ne_robust e)) d stack _ _ v t
    Hco Hdn Hst) as (s' & E & Hat). rewrite E. run. apply store_datagram_attachments in E.
  eapply other_thread; try done; auto. destruct Hd as [[] ? ? ? ? ? ? Ha ?]. split; try done.
  - intros pid. eexists _, _. exact Hat.
  - by rewrite <- Ha.
Qed.

Lemma notify_safe pad p :
  rp_inv p -> safe (q ← notify_router pad (ry_ipc (rp_st p)); Ret (upd_ipc p q)) rp_inv.
Proof using Type.
  intros Hi. eapply (safe_bind _ _ (fun _ => True)).
  - unfold notify_router, msgsnd. cbn [nt_mtype MSG_TYPE_SHM_NOTIFY Z.leb Z.compare].
    destruct (ry_ipc (rp_st p)) as [q|]; [destruct (room q _)|]; done.
  - intros q _. eapply other_thread; try done; auto. apply data_ipc, Hi.
Qed.

Lemma deliver_inv sig p : rp_inv p -> sig = SIGINT \/ sig = SIGTERM -> rp_inv (upd_pending p ({[sig]} ∪ rp_pending p)).
Proof using Type.
  intros Hi Hs. eapply other_thread; try done; auto. destruct (pi_data _ Hi) as [[] ? ? ? Hsig ? ? ? ?].
  split; try done. intros s [H|H]; [apply Hsig; by left|].
  apply elem_of_union in H as [->%elem_of_singleton|H]; [done|]. apply Hsig. by right.
Qed.

Lemma inv_good r m : safe r rp_inv -> (forall q, r = Ret q -> rp_main q = m) -> m <> RM_Done -> safe r good.
Proof using Type.
  intros H Hm Hn. destruct r as [q| |]; [|done..]. apply good_inv; [|done]. by rewrite (Hm q eq_refl).
Qed.

Lemma ract_safe a p : good p -> safe (ract e c a p) good.
Proof using Hclose Htcp Hsock.
  intros Hg. unfold ract. case_bool_decide as Hn; [done|]. apply good_inv in Hg as Hi; [|done].
  pose proof (pi_outcome _ Hi) as Ho. unfold outcome_at in Ho. pose proof (pi_data _ Hi) as Hd.
  pose proof (fun r => inv_good r (rp_main p)) as Hkeep.
  destruct a as [| | | |sig| | | |ok|answer stack status| |pe|sig|pad|d stack|now time].
  - by apply rmain_act_good.
  - destruct (rp_main p) eqn:Hp; try done. apply plain_move; [done|rewrite Hp; same_place|done|done].
  - destruct (rp_main p) eqn:Hp; try done. apply plain_move; [done|rewrite Hp; same_place|done|done].
  - apply Hkeep; [by apply rsignal_act_safe|apply rsignal_act_main|done].
  - apply Hkeep; [by apply take_signal_safe|apply take_signal_main|done].
  - apply Hkeep; [by apply cancelled_safe|apply cancelled_main|done].
  - destruct (rp_signal p) eqn:Es; try done. apply good_inv; [done|].
    apply signal_moves_inv; [done|by rewrite Es|by apply data_signal].
  - apply Hkeep; [by apply router_act_safe|apply router_act_main|done].
  - apply Hkeep; [by apply try_connect_safe|apply try_connect_main|done].
  - destruct (_ =? _)%nat eqn:E; [|done]. apply Nat.eqb_eq in E.
    apply Hkeep; [by apply relay_notified_safe|apply relay_notified_main|done].
  - apply Hkeep; [by apply rmgmt_act_safe|apply rmgmt_act_main|done].
  - destruct (_ =? _)%nat eqn:E; [|done]. apply Nat.eqb_eq in E.
    apply Hkeep; [by apply begin_serving_safe|apply begin_serving_main|done].
  - destruct (_ || _) eqn:E; [|done]. apply good_inv; [done|]. apply deliver_inv; [done|].
    apply orb_true_iff in E as [E|E]; apply Z.eqb_eq in E; auto.
  - destruct (_ =? _)%nat eqn:E; [|done]. apply Hkeep; [by apply notify_safe| |done].
    intros q H. apply exec_bind_inv in H as (? & _ & H). by simplify_eq.
  - case_bool_decide as Hd0; [done|]. destruct (_ =? _)%nat eqn:E; [|done]. apply Nat.eqb_eq in E. cbn [orb negb].
    apply Hkeep; [by apply store_safe_here| |done].
    intros q H. apply exec_bind_inv in H as ([] & _ & H). by simplify_eq.
  - case_bool_decide; [|done]. apply good_inv; [done|]. eapply other_thread; try done; auto.
    destruct Hd as [[] ? ? ? ? ? ? ? ?]. by split; [split|..].
Qed.

Lemma racts_safe l : forall p, good p -> safe (racts e c l p) good.
Proof using Hclose Htcp Hsock.
  induction l as [|a l IH]; intros p Hg; cbn [racts]; [done|].
  eapply safe_bind; [by apply ract_safe|]. apply IH.
Qed.
End invariant.

(** ** The start *)

(** Where the process starts: nothing of the Router exists, the descriptors it
    gets are new ones. *)
Record process_start (e : RouterEnv) (c : ThreadCalls) (now : timespec) (st : RouterSys) : Prop := {
  ps_boots : boots e st;
  ps_now : wf_timespec now;
  ps_tcp : forall fd, tc_tcp c = Some fd -> new_fd e st fd /\ ce_socket (tc_socket c) <> Some fd;
  ps_socket : forall fd, ce_socket (tc_socket c) = Some fd -> 0 <= fd /\ new_fd e st fd }.

Lemma launched_inv e c now st h st1 :
  boots e st -> wf_timespec now -> launched e st h st1 ->
  rp_inv e c st (ry_shm st1) (Some h) (process now (Some h) st1).
Proof.
  intros Hb Hnow [[Hfd Hfi Hatt _ Hqu Ht] Hg _ Hco (q & Hq & _) _ (p0 & p1 & Ep & E0 & E1 & Es) _ _].
  destruct (bt_pipe _ _ Hb p0 p1 Ep) as (Hne & Hn0 & Hn1).
  split; [|by split|unfold registry_ok; cbn; rewrite Hg; by split_and!|done].
  split; cbn; try done; [|by intros sig [|H%elem_of_empty]].
  split; cbn; unfold pipe_fds; cbn; rewrite ?E0, ?E1, ?Es; cbn; try done.
  - eapply owns_perm; [apply Permutation_swap|]. apply owns_open; [|cbn; set_solver].
    apply owns_open; [|done]. split; [cbn; set_solver|apply NoDup_nil_2|]. intros fd H. by apply not_elem_of_nil in H.
  - set_solver.
  - intros fd Hin. exists p0, p1. split; [done|]. set_solver.
  - intros fd H. by apply not_elem_of_nil in H.
Qed.

Lemma launched_good e c now st h st1 l :
  process_start e c now st -> launched e st h st1 ->
  safe (racts e c l (process now (Some h) st1)) (good e c st (ry_shm st1) (Some h)).
Proof.
  intros [Hb Hnow Htcp Hsock] Hl. apply racts_safe; [apply Hl|done|done|].
  apply good_inv; [done|]. by apply launched_inv.
Qed.

(** * Properties *)

(** C2: the Router as a whole process.  Whatever calls fail at the start, in
    whatever order the threads run, whatever requests, signals, texts and
    notifications come and whatever the connection does, no step of the process
    reads or writes outside an object, uses the segment unconnected or a
    destroyed registry or socket; and when the process ends (early, or with its
    last thread joined), nothing of it is left (descriptors, socket file, private
    queue, registry, semaphore, attachment), all threads have ended, and the exit
    code is 0 exactly when all that [main] needs could be created. *)
Theorem router_process_clean e c now st :
  process_start e c now st ->
  safe (launch e now st) (fun o =>
    match o with
    | inl st' => router_released st st'
    | inr p => forall l, safe (racts e c l p) (fun q => rp_main q = RM_Done -> ended e st q)
    end).
Proof.
  intros Hs. apply main_start_ok; [apply Hs|done|]. intros h st1 Hl l.
  eapply safe_mono; [by apply launched_good|]. intros q Hg Hd. unfold good in Hg. by rewrite decide_True in Hg.
Qed.

(** ** Concrete run *)

Definition demo_calls : ThreadCalls :=
  mkThreadCalls true (Some 5) (mkCreateEnv true (Some 6) true) 100 200 300.

(** The threads start, a text is relayed, SIGTERM comes, everything ends. *)
Definition demo_begin : list raction :=
  [ASignal; ASignal; AMain; AMain; ARouter; AConnect true; AMain; AMgmt; AMgmt; AMain;
   AStore (bs "hello") (zeros UDP_BUFFER_SIZE); ANotify (zeros 4); ARouter;
   ARelay (TcpSent 12) (zeros TCP_BUF_SIZE) 0].
Definition demo_end : list raction :=
  [ADeliver SIGTERM; ATake SIGTERM; ASignal; AMain; AMain; AMain; AMain; AMain; ARouter; AMain; AMain; AMain;
   ARequest (mkProcessEnv true RecvError (zeros 600) true); AMgmt; AMgmt; AMain; AMain; AMain; AMain; AMain].

Lemma demo_router_process_start : process_start demo_router_env demo_calls (mkTimespec 100 0) demo_router_start.
Proof.
  split; [apply start_boots, demo_router_start_ok|split; vm_compute; split; congruence|..].
  - intros fd [= <-]. split; [|done]. split; [by vm_compute|]. by intros p0 p1 [= <- <-].
  - intros fd [= <-]. split; [done|]. split; [by vm_compute|]. by intros p0 p1 [= <- <-].
Qed.

Lemma router_process_clean_witness :
  exists p q, launch demo_router_env (mkTimespec 100 0) demo_router_start = Ret (inr p) /\
    racts demo_router_env demo_calls (demo_begin ++ demo_end) p = Ret q /\
    rp_tcp q <> [] /\ ended demo_router_env demo_router_start q.
Proof.
  pose proof (router_process_clean _ _ _ _ demo_router_process_start) as H.
  assert (match launch demo_router_env (mkTimespec 100 0) demo_router_start with
          | Ret (inr p) => match racts demo_router_env demo_calls (demo_begin ++ demo_end) p with
                           | Ret q => Some (bool_decide (rp_main q = RM_Done), bool_decide (rp_tcp q = []))
                           | _ => None end
          | _ => None end = Some (true, false)) as E by (vm_compute; reflexivity).
  destruct (launch _ _ _) as [[st'|p]| |]; [discriminate E| |discriminate E..].
  specialize (H (demo_begin ++ demo_end)). exists p.
  destruct (racts _ _ _ p) as [q| |]; [|discriminate E..]. exists q. injection E as Ed Et.
  split; [reflexivity|]. split; [reflexivity|]. split; [by apply bool_decide_eq_false in Et|].
  apply H. by apply bool_decide_eq_true in Ed.
Defined.
