(* ===== verification/RouterProgress.v ===== *)
(** * The Router's process follows its transition system, and comes to an end

    RouterProcess runs the four threads of the Router on their data, RouterThreads
    runs them as a transition system over what they use to stop each other.  Here
    every call of the process is a step of the system or none, the calls that need
    nothing from outside are steps the system does by itself, and where the
    process can do nothing by itself neither can the system.  What the system
    comes to once its end is asked for is then what the process comes to. *)

From S2P Require Import Prelude CLib MgmtProtocol EventHandler MgmtSocket Handlers Ipc ShmData Shm.
From S2P Require Import RouterMsg RouterMgmt RouterServe MgmtCtl Collector Router RouterThreads RouterLink.
From S2P Require Import RouterProcess.

(** ** What the process does by itself *)

(** The calls that need nothing from outside; the receive of the management
    thread times out, which matters once the flag is cleared. *)
Definition by_itself (p : RProc) (a : raction) : bool :=
  match a with
  | AMain | ASignal | ATake _ | ACancel | ARouter | AMgmt => true
  | ARequest pe => negb (ry_running (rp_st p)) && match pe_recv pe with RecvError => true | _ => false end
  | _ => false
  end.

(** The answers of the Viewer's host: connect(2) returns, send(2) returns.  Both
    block without a limit of the program's own. *)
Definition answered (a : raction) : bool :=
  match a with AConnect _ | ARelay _ _ _ => true | _ => false end.

(** What the system counts as its own steps. *)
Definition inside (p : RProc) (a : raction) : bool := by_itself p a || answered a.

(** A run of such calls. *)
Inductive alone (e : RouterEnv) (c : ThreadCalls) : nat -> RProc -> RProc -> Prop :=
| alone_refl p : alone e c 0 p p
| alone_step n a p q r :
    inside p a = true -> ract e c a p = Ret q -> alone e c n q r -> alone e c (S n) p r.

(** The process can do nothing by itself; and the Viewer's host owes no answer
    either. *)
Definition at_rest (e : RouterEnv) (c : ThreadCalls) (p : RProc) : Prop :=
  forall a q, by_itself p a = true -> ract e c a p <> Ret q.
Definition still (e : RouterEnv) (c : ThreadCalls) (p : RProc) : Prop :=
  forall a q, inside p a = true -> ract e c a p <> Ret q.

(** The end has been asked for. *)
Definition stop_asked (c : ThreadCalls) (p : RProc) : bool :=
  negb (ry_running (rp_st p)) || stopping (rp_main p) ||
  match ry_main (rp_st p) with Some (mkQueue (_ :: _) _) => true | _ => false end ||
  match rp_mgmt p with MgServe _ pe => stops pe | _ => false end ||
  match rp_router p with
  | RtFatal _ | RtReset _ => true | RtStarted => negb (bool_decide (is_Some (tc_tcp c))) | _ => false
  end ||
  match rp_signal p with
  | SgSend _ => true
  | SgStarted => tc_sigmask c && negb (bool_decide (rp_pending p = ∅))
  | SgTest | SgWait => negb (bool_decide (rp_pending p = ∅))
  | SgEnded => false
  end.

(** The router thread waits in its event to the main thread. *)
Definition router_waits (p : RProc) : Prop :=
  match rp_router p with
  | RtFatal t => send_fatal_event (ry_main (rp_st p)) (Some t) = Blocked
  | RtReset _ => send_signal_event (ry_main (rp_st p)) SIGTERM = Blocked
  | _ => False
  end.

(** The router thread waits in connect(2) or in send(2). *)
Definition at_viewer (p : RProc) : bool :=
  match rp_router p with RtConnect _ (S _) | RtGot _ => true | _ => false end.

(** The main thread waits: in its quit message, with nobody to empty the queue;
    for the management thread or the router thread, which wait for room in the
    main queue; for the semaphore, when the signal thread has given up; for the
    router thread, or in its quit message on a full queue, while the router
    thread waits for the Viewer's host, for as long as that does not answer. *)
Inductive hangs (e : RouterEnv) (c : ThreadCalls) (p : RProc) : Prop :=
| hangs_quit : sending_quit (rp_main p) = true -> quit_router (ne_pad e) (rp_st p) = Blocked ->
    rp_router p = RtEnded \/ router_waits p -> hangs e c p
| hangs_mgmt ms pe : rp_main p = RM_JoinMgmt -> rp_mgmt p = MgServe ms pe ->
    serve ms pe p = Blocked -> hangs e c p
| hangs_router : rp_main p = RM_JoinRouter -> router_waits p -> hangs e c p
| hangs_sem : rp_main p = RM_SemWait -> tc_sigmask c = false -> rp_signal p = SgEnded -> hangs e c p
| hangs_viewer : at_viewer p = true ->
    rp_main p = RM_JoinRouter \/
      (sending_quit (rp_main p) = true /\ quit_router (ne_pad e) (rp_st p) = Blocked) -> hangs e c p.

(** The start of a Router that can serve: msgget(2) has given it the notification
    queue, both queues hold at least one message, and the flag is set as it is
    initially.  (Without the notification queue see [router_process_spins].) *)
Record service_start (e : RouterEnv) (c : ThreadCalls) (now : timespec) (st : RouterSys) : Prop := {
  ss_process : process_start e c now st;
  ss_flag : ry_running st = true;
  ss_pad : length (ne_pad e) = 4%nat;
  ss_main : forall q, ne_main_queue e = Some q -> Z.of_nat MSG_SIZE <= q_bytes q;
  ss_ipc : ne_ipc_ok e = true /\ exists q, ry_ipc st = Some q /\ Z.of_nat NOTIFY_SIZE <= q_bytes q }.

(** How many messages the queues hold. *)
Definition events_held (e : RouterEnv) : nat :=
  match ne_main_queue e with Some q => capacity q MSG_SIZE | None => 0 end.
Definition notes_held (st : RouterSys) : nat :=
  match ry_ipc st with Some q => capacity q NOTIFY_SIZE | None => 0 end.

(** ** The states of the system *)

Definition signal_place (s : signal_state) : rsignal_pc :=
  match s with
  | SgStarted => RS_Start | SgTest => RS_Loop | SgWait => RS_Wait | SgSend _ => RS_Send | SgEnded => RS_Done
  end.
Definition router_place (tcp_ok : bool) (r : router_state) : router_pc :=
  match r with
  | RtNone => RR_None
  | RtStarted => if tcp_ok then RR_Connect CONNECT_MAX_RETRIES else RR_Fatal
  | RtConnect _ n => RR_Connect n | RtSelect _ n => RR_Select n | RtFatal _ => RR_Fatal
  | RtRecv _ => RR_Recv | RtGot _ => RR_Relay | RtReset _ => RR_Term | RtEnded => RR_Done
  end.
Definition mgmt_place (m : mgmt_thread) : rmgmt_pc :=
  match m with
  | MgNone => RG_None | MgStarted => RG_Start | MgTest _ => RG_Loop | MgRecv _ => RG_Recv
  | MgServe _ pe => if stops pe then RG_Send else RG_Loop | MgEnded => RG_Done
  end.
Definition awaits_signal (s : signal_state) : bool :=
  match s with SgStarted | SgTest | SgWait => true | _ => false end.

Definition mgmt_created (e : RouterEnv) : bool := ne_mutex_ok e && ne_t_mgmt e.
Definition tcp_created (c : ThreadCalls) : bool := bool_decide (is_Some (tc_tcp c)).
Definition socket_created (c : ThreadCalls) : bool :=
  ce_malloc (tc_socket c) && bool_decide (is_Some (ce_socket (tc_socket c))) && ce_bind (tc_socket c).

(** A bound on the calls the process can still do by itself: three for each step
    of the system, and the calls of its threads that are none. *)
Definition quiet_calls (p : RProc) : nat :=
  (match rp_router p with RtStarted => 1 | _ => 0 end +
   match rp_mgmt p with MgServe _ pe => if stops pe then 0 else 1 | _ => 0 end)%nat.
Definition calls_left (c : ThreadCalls) (p : RProc) : nat :=
  let running := ry_running (rp_st p) in
  (3 * (rmain_rank running (rp_main p) + rsignal_rank (signal_place (rp_signal p)) +
        router_rank (router_place (tcp_created c) (rp_router p)) + rmgmt_rank running (mgmt_place (rp_mgmt p)) +
        3 * match ry_ipc (rp_st p) with Some q => length (q_messages q) | None => 0 end) +
   quiet_calls p)%nat.

Section progress.
Context (e : RouterEnv) (c : ThreadCalls) (main_cap ipc_cap : nat).
Abbreviation rel st s := (related main_cap ipc_cap st s).
Abbreviation main_moves s := (rmain_step (ne_sem_wait e) (ne_t3 e) (tcp_created c) (mgmt_created e) ipc_cap s).
Abbreviation successors s := (rsuccessors (tc_sigmask c) (ne_sem_wait e) (ne_t3 e) (tcp_created c)
  (mgmt_created e) (socket_created c) main_cap ipc_cap s).

(** The same place of each thread, and related data while there are any. *)
Record plink (p : RProc) (s : RState) : Prop := {
  pl_related : rp_main p <> RM_Done -> rel (rp_st p) s;
  pl_main : r_main s = rp_main p;
  pl_signal : r_signal s = signal_place (rp_signal p);
  pl_router : r_router s = router_place (tcp_created c) (rp_router p);
  pl_mgmt : r_mgmt s = mgmt_place (rp_mgmt p);
  pl_posted : r_posted s = rp_posted p;
  pl_cancel : r_cancel s = rp_cancel p;
  pl_pending : awaits_signal (rp_signal p) = true -> r_pending s = negb (bool_decide (rp_pending p = ∅)) }.

(** * Lemmas *)

(** ** The main thread *)

(** A call of the main thread that leaves the other threads alone. *)
Lemma plink_main p q s s' :
  plink p s -> (rp_main q <> RM_Done -> rel (rp_st q) s') -> r_main s' = rp_main q ->
  rp_signal q = rp_signal p -> rp_router q = rp_router p -> rp_mgmt q = rp_mgmt p ->
  rp_posted q = rp_posted p -> rp_cancel q = rp_cancel p -> rp_pending q = rp_pending p ->
  r_signal s' = r_signal s -> r_router s' = r_router s -> r_mgmt s' = r_mgmt s ->
  r_posted s' = r_posted s -> r_cancel s' = r_cancel s -> r_pending s' = r_pending s -> plink q s'.
Proof using Type.
  intros [_ _ H1 H2 H3 H4 H5 H6] Hr Hm E1 E2 E3 E4 E5 E6 F1 F2 F3 F4 F5 F6.
  split; [done|done|by rewrite F1, E1|by rewrite F2, E2|by rewrite F3, E3|by rewrite F4, E4|by rewrite F5, E5|].
  by rewrite F6, E1, E6.
Qed.

Context (st0 : RouterSys) (shm0 : ShmSystem) (h0 : option ShmContext).
Abbreviation inv := (rp_inv e c st0 shm0 h0).
Context (Hpad : length (ne_pad e) = 4%nat).

(** A call is the one step there is, and waits where there is none. *)
Definition follows (moves : list RState) (r : exec RProc) : Prop :=
  match r with
  | Ret q => exists s', moves = [s'] /\ plink q s'
  | Blocked => moves = []
  | UB => False
  end.

Lemma store_flag_follows p s next :
  plink p s -> rp_main p <> RM_Done ->
  follows [main_at (put_running s false) next] (store_flag p next).
Proof using Type.
  intros Hp Hn. eexists. split; [done|]. eapply plink_main; try done.
  intros _. by apply related_at, stop_sim, Hp.
Qed.

Lemma close_write_end_follows p s next :
  plink p s -> rp_main p <> RM_Done -> follows [main_at (close_pipe s) next] (close_write_end p next).
Proof using Type.
  intros Hp Hn. eexists. split; [done|]. eapply plink_main; try done.
  intros _. by apply related_at, close_sim, Hp.
Qed.

Lemma quit_message_follows p s next :
  plink p s -> rp_main p <> RM_Done ->
  follows ((fun s => main_at s next) <$> send_quit ipc_cap s) (quit_message e p next).
Proof using Hpad.
  intros Hp Hn. pose proof (quit_sim main_cap ipc_cap _ _ _ (pl_related _ _ Hp Hn) Hpad) as Hq.
  unfold quit_message. destruct (quit_router _ _) as [st'| |]; [|done|by cbn; rewrite Hq].
  destruct Hq as (s' & Es & Em & Hr). rewrite Es. eexists. split; [done|].
  unfold send_quit in Es. case_match; [|done]. simplify_eq. eapply plink_main; try done.
  intros _. by apply related_at.
Qed.

Lemma receive_event_follows p s :
  plink p s -> rp_main p = RM_Recv ->
  follows (match r_mainq s with
           | [] => []
           | EvTerm :: q => [main_at (put_mainq s q) RM_TermStore]
           | EvFatal :: q => [main_at (put_mainq s q) RM_FatalStore]
           end) (receive_event p).
Proof using Type.
  intros Hp Hm. pose proof (pl_related _ _ Hp ltac:(by rewrite Hm)) as [[(q & Hq & Hev & Hcap) Hipc] Hr Hc].
  unfold receive_event. rewrite Hq. destruct q as [ms bytes]. cbn [q_messages] in Hev.
  remember (r_mainq s) as evs eqn:Eq. destruct Hev as [|m ev ms evs (im & -> & Hw & Hm') Hev].
  { cbn [msgrcv q_messages take_message]. by run. }
  rewrite (receive_internal _ im ms) by done. run. cbn [q_bytes].
  rewrite <- (wm_type _ Hw), msg_roundtrip by done.
  assert (event_place im = Ret (match ev with EvTerm => RM_TermStore | EvFatal => RM_FatalStore end)) as ->.
  { unfold event_place. destruct ev.
    - destruct Hm' as [-> [-> | ->]]; done.
    - by destruct Hm' as (-> & t & ->). }
  run. exists (main_at (put_mainq s evs) (match ev with EvTerm => RM_TermStore | EvFatal => RM_FatalStore end)).
  split; [by destruct ev|]. eapply plink_main; try done. intros _. apply related_at.
  split; [split; [|exact Hipc]|exact Hr|exact Hc]. eexists. split; [done|]. by split.
Qed.

Lemma create_mgmt_follows p s :
  inv p -> plink p s -> rp_main p = RM_Mgmt ->
  follows (if mgmt_created e then [main_at (mgmt_at s RG_Start) RM_Test] else [main_at s RM_FailStore])
    (create_mgmt e c p).
Proof using Type.
  intros Hi Hp Hm. pose proof (pi_registry _ _ _ _ _ _ Hi) as (_ & Hg & _ & _). rewrite Hm in Hg.
  destruct (start_mgmt_result e (rp_st p) (Hg eq_refl)) as (g & _ & _ & E). unfold create_mgmt.
  assert (rel (rp_st p) s) as Hr by (apply Hp; by rewrite Hm).
  replace (rp_st (if ne_mutex_ok e then _ else p)) with (rp_st p) by by destruct (ne_mutex_ok e).
  rewrite E. run. unfold mgmt_created. destruct Hr as [[] ? ?], Hp.
  destruct (ne_mutex_ok e), (ne_t_mgmt e); cbn [andb]; (eexists; split; [done|by repeat split]).
Qed.

Lemma create_router_follows p s :
  plink p s -> rp_main p = RM_Create ->
  follows (main_moves s) (rmain_act e c p).
Proof using Type.
  intros Hp Hm. unfold rmain_act, rmain_step. rewrite (pl_main _ _ Hp), Hm.
  assert (rel (rp_st p) s) as [[] ? ?] by (apply Hp; by rewrite Hm).
  destruct (ne_t3 e); cbn [negb]; (eexists; split; [done|]); destruct Hp; by repeat split.
Qed.

Lemma joined_follows p s t x :
  plink p s -> rp_main p <> RM_Done -> follows [main_at s x] (Ret (at_main (joined p t) x)).
Proof using Type.
  intros Hp Hm. eexists. split; [done|]. eapply plink_main; try done.
  intros _. apply related_at. destruct (pl_related _ _ Hp Hm) as [[] ? ?]. by repeat split.
Qed.

Lemma moved_follows p s x : plink p s -> rp_main p <> RM_Done -> follows [main_at s x] (Ret (at_main p x)).
Proof using Type.
  intros Hp Hm. eexists. split; [done|]. eapply plink_main; try done. intros _. apply related_at. by apply Hp.
Qed.

Context (Hclose : forall s, attachments s = attachments shm0 -> forall id a,
  attachments (ry_shm st0) !! id = Some a -> attachments (shm_api_close h0 s) !! id = Some a).

Lemma rmain_act_follows p s :
  inv p -> plink p s -> rp_main p <> RM_Done -> follows (main_moves s) (rmain_act e c p).
Proof using Hpad Hclose.
  intros Hi Hp Hn. destruct (decide (rp_main p = RM_Create)); [by apply create_router_follows|].
  pose proof (pl_related _ _ Hp Hn) as Hr.
  unfold rmain_act, rmain_step. rewrite (pl_main _ _ Hp). destruct (rp_main p) eqn:Hm; try done.
  all: try (apply store_flag_follows; [done|by rewrite Hm]).
  all: try (apply close_write_end_follows; [done|by rewrite Hm]).
  all: try (apply quit_message_follows; [done|by rewrite Hm]).
  - destruct (ne_sem_wait e); cbn [negb]; [|apply moved_follows; [done|by rewrite Hm]].
    rewrite (pl_posted _ _ Hp). destruct (rp_posted p); [|done]. apply moved_follows; [done|by rewrite Hm].
  - by apply create_mgmt_follows.
  - rewrite <- (rel_running _ _ _ _ Hr). destruct (ry_running _); apply moved_follows; by rewrite ?Hm.
  - by apply receive_event_follows.
  - rewrite (pl_mgmt _ _ Hp). destruct (rp_mgmt p) as [| |ms|ms|ms pe|] eqn:Em; cbn [mgmt_place]; try done.
    + by destruct (stops pe).
    + by apply (joined_follows (upd_code p 0)); [destruct Hp|cbn; rewrite Hm].
  - rewrite (pl_router _ _ Hp). destruct (rp_router p) eqn:Em; cbn [router_place]; try done.
    + by destruct (tcp_created c).
    + apply joined_follows; by rewrite ?Hm.
  - eexists. split; [done|]. destruct Hp, Hr as [[] ? ?]. by repeat split.
  - rewrite (pl_signal _ _ Hp). destruct (rp_signal p) eqn:Em; cbn [signal_place]; try done.
    apply joined_follows; by rewrite ?Hm.
  - destruct (release_returns e c st0 shm0 h0 Hclose p Hi Hm) as (st' & E & _).
    rewrite E. run. eexists. split; [done|]. destruct Hp. by split.
Qed.

(** ** The signal thread *)

Abbreviation signal_moves s := (rsignal_step (tc_sigmask c) main_cap s).

(** Every result of a call is that of a step. *)
Definition steps_in (moves : list RState) (r : exec RProc) : Prop :=
  forall q, r = Ret q -> exists s', s' ∈ moves /\ plink q s'.

Lemma rsignal_act_steps p s :
  inv p -> plink p s -> rp_main p <> RM_Done -> steps_in (signal_moves s) (rsignal_act c p).
Proof using Type.
  intros Hi Hp Hn q E. pose proof (pl_related _ _ Hp Hn) as Hr. unfold rsignal_act in E. unfold rsignal_step.
  rewrite (pl_signal _ _ Hp). destruct (rp_signal p) as [| | |sig|] eqn:Es; cbn [signal_place]; try done.
  - destruct (tc_sigmask c); simplify_eq; (eexists; split; [by apply list_elem_of_singleton|]);
      destruct Hp, Hr as [[] ? ?]; rewrite Es in *; by repeat split.
  - rewrite <- (rel_running _ _ _ _ Hr). simplify_eq. eexists; split; [by apply list_elem_of_singleton|].
    destruct Hp, Hr as [[] ? ?]; rewrite Es in *.
    destruct (ry_running _) eqn:Er; repeat split; try done; cbn; by rewrite Er.
  - pose proof (pd_sig _ _ _ _ _ _ (pi_data _ _ _ _ _ _ Hi) sig (or_introl Es)) as Hsig.
    pose proof (send_stop_sim main_cap ipc_cap sig _ _ _ (rel_queues _ _ _ _ Hr) Hsig) as Hs.
    destruct (send_signal_event _ _) as [[x mq]| |]; [|done..]. destruct Hs as (_ & s' & Em & Hq). injection E as <-.
    rewrite Em. exists (signal_at s' RS_Done). split; [by left|].
    replace ((sig =? SIGINT) || (sig =? SIGTERM)) with true by (by destruct Hsig as [-> | ->]).
    unfold send_main in Em. case_match; [|done]. injection Em as <-.
    destruct Hp, Hr as [_ ? ?], Hq. by repeat split.
Qed.

Lemma take_signal_steps sig p s :
  plink p s -> rp_main p <> RM_Done -> steps_in (signal_moves s) (take_signal sig p).
Proof using Type.
  intros Hp Hn q E. pose proof (pl_related _ _ Hp Hn) as Hr. unfold take_signal in E.
  destruct (rp_signal p) eqn:Es; try done. case_bool_decide as Hin; [|done]. injection E as <-.
  exists (signal_at (put_pending s false) RS_Send). unfold rsignal_step. rewrite (pl_signal _ _ Hp), Es.
  cbn [signal_place]. rewrite (pl_pending _ _ Hp) by by rewrite Es.
  rewrite bool_decide_false by (intros E; rewrite E in Hin; by apply elem_of_empty in Hin).
  split; [by left|]. destruct Hp, Hr as [[] ? ?]. by repeat split.
Qed.

Lemma cancelled_steps p s :
  plink p s -> rp_main p <> RM_Done -> steps_in (signal_moves s) (cancelled p).
Proof using Type.
  intros Hp Hn q E. pose proof (pl_related _ _ Hp Hn) as Hr. unfold cancelled in E.
  destruct (rp_cancel p) eqn:Ec; [|done]. cbn [negb] in E. exists (signal_at s RS_Done).
  unfold rsignal_step. rewrite (pl_signal _ _ Hp), (pl_cancel _ _ Hp), Ec.
  destruct (rp_signal p); try done; injection E as <-;
    (split; [apply elem_of_app; right; by apply list_elem_of_singleton|]); destruct Hp, Hr as [[] ? ?]; by repeat split.
Qed.

(** ** At rest *)

Lemma still_rest p : still e c p -> at_rest e c p.
Proof using Type. clear. intros H a q Ha. apply H. unfold inside. by rewrite Ha. Qed.

Lemma rest_still p : at_rest e c p -> at_viewer p = false -> still e c p.
Proof using Type.
  clear. intros H Hv a q Ha. unfold inside in Ha. destruct (by_itself p a) eqn:Hb; [by apply H|].
  unfold ract. case_bool_decide; [done|]. unfold at_viewer in Hv. destruct a; try done.
  - unfold try_connect. by destruct (rp_router p) as [| |? []| | | | | |].
  - destruct (_ =? _)%nat; [|done]. unfold relay_notified. by destruct (rp_router p).
Qed.

Lemma main_rest p s :
  inv p -> plink p s -> rp_main p <> RM_Done -> at_rest e c p -> main_moves s = [].
Proof using Hpad Hclose.
  intros Hi Hp Hn Hrest. pose proof (rmain_act_follows p s Hi Hp Hn) as Hm. specialize (Hrest AMain).
  rewrite ract_main in Hrest by done. destruct (rmain_act e c p) as [q| |]; [|done..]. by destruct (Hrest q).
Qed.

Lemma signal_rest p s :
  inv p -> plink p s -> rp_main p <> RM_Done -> at_rest e c p -> signal_moves s = [].
Proof using Type.
  intros Hi Hp Hn Hrest. pose proof (pl_related _ _ Hp Hn) as Hr.
  assert (forall a, by_itself p a = true -> forall q, ract e c a p = Ret q -> False) as Hno by (intros a Ha q; by apply Hrest).
  unfold ract in Hno. rewrite bool_decide_false in Hno by done.
  assert (rp_cancel p = true -> rp_signal p = SgWait \/ (exists sig, rp_signal p = SgSend sig) -> False) as Hc.
  { intros Ec Hs. eapply (Hno ACancel); [done|]. cbn. unfold cancelled. rewrite Ec. cbn [negb].
    by destruct Hs as [->|[sig ->]]. }
  specialize (Hno ASignal eq_refl) as Hsig. cbn in Hsig. unfold rsignal_act in Hsig. unfold rsignal_step.
  rewrite (pl_signal _ _ Hp), (pl_cancel _ _ Hp).
  destruct (rp_signal p) as [| | |sig|] eqn:Es; cbn [signal_place]; try (by exfalso; eapply Hsig); [| |done].
  - destruct (rp_cancel p); [by exfalso; apply Hc; auto|]. rewrite app_nil_r.
    rewrite (pl_pending _ _ Hp) by by rewrite Es. case_bool_decide as Hpe; [done|]. exfalso.
    apply set_choose_L in Hpe as [sig Hin]. eapply (Hno (ATake sig)); [done|]. cbn. unfold take_signal.
    by rewrite Es, bool_decide_true.
  - destruct (rp_cancel p); [by exfalso; apply Hc; eauto|]. rewrite app_nil_r.
    pose proof (pd_sig _ _ _ _ _ _ (pi_data _ _ _ _ _ _ Hi) sig (or_introl Es)) as Hs.
    pose proof (send_stop_sim main_cap ipc_cap sig _ _ _ (rel_queues _ _ _ _ Hr) Hs) as Hsim.
    destruct (send_signal_event _ _) as [[x mq]| |]; [by exfalso; eapply Hsig|done|by rewrite Hsim].
Qed.

(** ** The router thread *)

Abbreviation router_moves s := (router_step main_cap s).

Lemma router_start_stutters p q s :
  plink p s -> rp_main p <> RM_Done -> rp_router p = RtStarted -> router_act c p = Ret q -> plink q s.
Proof using Type.
  intros Hp Hn Er E. pose proof (pl_related _ _ Hp Hn) as Hr. unfold router_act in E. rewrite Er in E.
  destruct Hp as [? ? ? Hpl ? ? ? ?], Hr as [[] ? ?]. unfold tcp_created in Hpl. rewrite Er in Hpl. cbn in Hpl.
  destruct (tc_tcp c) as [fd|] eqn:Et; simplify_eq; rewrite ?bool_decide_true, ?bool_decide_false in Hpl by (by eauto || by intros []);
    by repeat split.
Qed.

(** An event to the main thread. *)
Lemma main_sent p s ev mq r s' :
  plink p s -> rp_main p <> RM_Done -> send_main main_cap ev s = [s'] ->
  queues_rel main_cap ipc_cap mq (ry_ipc (rp_st p)) s' ->
  router_place (tcp_created c) r = RR_Done ->
  plink (at_router (upd_main_queue p mq) r) (router_at s' RR_Done) /\
  forall fd, plink (close_tcp fd r (upd_main_queue p mq)) (router_at s' RR_Done).
Proof using Type.
  intros Hp Hn Em Hq Hpl. destruct (pl_related _ _ Hp Hn) as [_ ? ?]. unfold send_main in Em. case_match; [|done].
  injection Em as <-. destruct Hp, Hq. split; [|intros fd]; repeat split; done.
Qed.

Lemma fatal_text p t : inv p -> rp_router p = RtFatal t -> exists x, cstring t = Some x.
Proof using Type.
  intros Hi Er. destruct (pd_text _ _ _ _ _ _ (pi_data _ _ _ _ _ _ Hi) t Er) as [-> | ->];
    by eexists; vm_compute.
Qed.

(** A message from the notification queue. *)
Lemma notified p s fd :
  plink p s -> rp_main p <> RM_Done -> rp_router p = RtRecv fd ->
  match router_act c p with
  | Ret q => exists s', s' ∈ router_moves s /\ plink q s'
  | Blocked => router_moves s = []
  | UB => False
  end.
Proof using Type.
  intros Hp Hn Er. destruct (pl_related _ _ Hp Hn) as [[Hm (q & Hq & Hno & Hcap)] Hr Hc].
  unfold router_act, router_step. rewrite (pl_router _ _ Hp), Er, Hq. cbn [router_place].
  destruct q as [ms bytes]. cbn [q_messages] in Hno. remember (r_ipcq s) as ns eqn:Eq.
  destruct Hno as [|[mt b] n ms ns (Hmt & Hl & Hqt) Hno].
  { cbn [msgrcv q_messages take_message]. by run. }
  cbn [fst snd] in Hmt, Hl, Hqt. subst mt. rewrite receive_note by done. run. fold (is_quit b). rewrite Hqt.
  destruct n; [rewrite bool_decide_false by done|rewrite bool_decide_true by done];
    (eexists; split; [by apply list_elem_of_singleton|]); destruct Hp; repeat split; try done;
    (eexists; split; [done|]; by split).
Qed.

Lemma router_act_steps p s :
  inv p -> plink p s -> rp_main p <> RM_Done -> rp_router p <> RtStarted ->
  steps_in (router_moves s) (router_act c p).
Proof using Type.
  intros Hi Hp Hn Hns q E. pose proof (pl_related _ _ Hp Hn) as Hr.
  destruct (rp_router p) as [| |fd [|n]|fd n|text|fd|fd|fd|] eqn:Er;
    try (pose proof (notified p s fd Hp Hn Er) as H; by rewrite E in H); unfold router_act in E; rewrite Er in E;
    unfold router_step; rewrite (pl_router _ _ Hp), Er; cbn [router_place]; try done.
  - injection E as <-. eexists. split; [by apply list_elem_of_singleton|].
    destruct Hp, Hr as [[] ? ?]. by repeat split.
  - rewrite <- (rel_closed _ _ _ _ Hr). injection E as <-. eexists. split; [by apply list_elem_of_singleton|].
    destruct Hp, Hr as [[] ? ?].
    destruct (bool_decide (ry_pipe1 (rp_st p) = None)) eqn:Eb; repeat split; try done; cbn; by rewrite Eb.
  - destruct (fatal_text p text Hi Er) as [x Hx].
    pose proof (send_fatal_sim main_cap ipc_cap _ _ _ text x (rel_queues _ _ _ _ Hr) Hx) as Hs.
    destruct (send_fatal_event _ _) as [[y mq]| |]; [|done..]. destruct Hs as (_ & s' & Em & Hq). injection E as <-.
    rewrite Em. eexists. split; [by apply list_elem_of_singleton|]. by eapply main_sent.
  - pose proof (send_signal_sim main_cap ipc_cap _ _ _ (rel_queues _ _ _ _ Hr)) as Hs.
    destruct (send_signal_event _ _) as [[y mq]| |]; [|done..]. destruct Hs as (_ & s' & Em & Hq). injection E as <-.
    rewrite Em. eexists. split; [by apply list_elem_of_singleton|]. by eapply main_sent.
Qed.

Lemma try_connect_steps ok p s :
  plink p s -> rp_main p <> RM_Done -> steps_in (router_moves s) (try_connect ok p).
Proof using Type.
  intros Hp Hn q E. pose proof (pl_related _ _ Hp Hn) as Hr. unfold try_connect in E.
  destruct (rp_router p) as [| |fd [|n]| | | | | |] eqn:Er; try done. injection E as <-.
  exists (router_at s (if ok then RR_Recv else RR_Select n)). unfold router_step.
  rewrite (pl_router _ _ Hp), Er. split; [destruct ok; cbn [router_place]; rewrite !elem_of_cons; auto|].
  destruct Hp, Hr as [[] ? ?], ok; by repeat split.
Qed.

Lemma relay_returns answer stack status p fd :
  inv p -> rp_router p = RtGot fd -> length stack = TCP_BUF_SIZE ->
  exists shm tcp, relay_notified e c answer stack status p =
    Ret (at_router (upd_tcp (upd_st p (set_shm (rp_st p) shm)) tcp)
           (match answer with TcpReset => RtReset fd | _ => RtRecv fd end)).
Proof using Type.
  clear Hpad. intros Hi Er Hst. unfold relay_notified. rewrite Er.
  destruct (pd_shm _ _ _ _ _ _ (pi_data _ _ _ _ _ _ Hi) (tc_pid c)) as (v & t & Hco).
  destruct (relay_send_sends (ops := sysv_ops (ne_robust e)) (api := sysv_api (ne_robust e)) ltac:(vm_compute; lia)
    answer stack status (tc_pid c, rp_shm p) (mkRelay (ry_ipc (rp_st p)) (ry_main (rp_st p)) (ry_shm (rp_st p)) (rp_tcp p))
    v t Hst Hco) as (_ & _ & s' & -> & _). run. exists s', (rp_tcp p ++ sent_part answer t). by destruct answer.
Qed.

Lemma relay_notified_steps answer stack status p s :
  inv p -> plink p s -> rp_main p <> RM_Done -> length stack = TCP_BUF_SIZE ->
  steps_in (router_moves s) (relay_notified e c answer stack status p).
Proof using Type.
  intros Hi Hp Hn Hst q E. pose proof (pl_related _ _ Hp Hn) as Hr.
  destruct (rp_router p) as [| | | | | |fd| |] eqn:Er; try (by unfold relay_notified in E; rewrite Er in E).
  destruct (relay_returns answer stack status p fd Hi Er Hst) as (shm & tcp & Eq). rewrite E in Eq. injection Eq as ->.
  exists (router_at s (match answer with TcpReset => RR_Term | _ => RR_Recv end)). unfold router_step.
  rewrite (pl_router _ _ Hp), Er. split; [destruct answer; cbn [router_place]; rewrite !elem_of_cons; auto|].
  destruct Hp, Hr as [[] ? ?], answer; by repeat split.
Qed.

Lemma router_rest p s :
  inv p -> plink p s -> rp_main p <> RM_Done -> still e c p -> router_moves s = [].
Proof using Type.
  intros Hi Hp Hn Hrest. pose proof (pl_related _ _ Hp Hn) as Hr.
  assert (forall a, inside p a = true -> forall q, ract e c a p = Ret q -> False) as Hno by (intros a Ha q; by apply Hrest).
  unfold ract in Hno. rewrite bool_decide_false in Hno by done.
  specialize (Hno ARouter eq_refl) as Hact. cbn in Hact.
  destruct (rp_router p) as [| |fd [|n]|fd n|text|fd|fd|fd|] eqn:Er.
  7: { pose proof (notified p s fd Hp Hn Er) as H. destruct (router_act c p) as [q| |]; [|done..].
       by destruct (Hact q). }
  all: unfold router_act in Hact; rewrite Er in Hact.
  all: unfold router_step; rewrite (pl_router _ _ Hp), Er; cbn [router_place]; try done.
  all: try (by exfalso; eapply Hact).
  - exfalso. destruct (tc_tcp c); by eapply Hact.
  - exfalso. eapply (Hno (AConnect true)); [done|]. cbn. unfold try_connect. by rewrite Er.
  - destruct (fatal_text p text Hi Er) as [x Hx].
    pose proof (send_fatal_sim main_cap ipc_cap _ _ _ text x (rel_queues _ _ _ _ Hr) Hx) as Hs.
    destruct (send_fatal_event _ _) as [[y mq]| |]; [by exfalso; eapply Hact|done|by rewrite Hs].
  - exfalso. destruct (relay_returns TcpError (zeros TCP_BUF_SIZE) 0 p fd Hi Er eq_refl) as (shm & tcp & E).
    eapply (Hno (ARelay TcpError (zeros TCP_BUF_SIZE) 0)); [done|]. exact E.
  - pose proof (send_signal_sim main_cap ipc_cap _ _ _ (rel_queues _ _ _ _ Hr)) as Hs.
    destruct (send_signal_event _ _) as [[y mq]| |]; [by exfalso; eapply Hact|done|by rewrite Hs].
Qed.

(** ** The management thread *)

Abbreviation mgmt_moves s := (rmgmt_step (socket_created c) main_cap s).

Lemma created_socket path s h s' :
  mgmt_socket_create (tc_socket c) (Some path) s = Some (h, s') -> bool_decide (is_Some h) = socket_created c.
Proof using Type.
  unfold mgmt_socket_create, socket_created. destruct (ce_malloc _); cbn [negb andb]; [|by intros [= <- <-]].
  intros (? & _ & E)%bind_Some. destruct (ce_socket _); [|by injection E as <- <-].
  apply bind_Some in E as (? & _ & E). apply bind_Some in E as (? & _ & E).
  destruct (ce_bind _); cbn [negb] in E; [apply bind_Some in E as (? & _ & E)|]; by injection E as <- <-.
Qed.

Lemma served_stutters p q s ms pe :
  inv p -> plink p s -> rp_main p <> RM_Done -> rp_mgmt p = MgServe ms pe -> stops pe = false ->
  rmgmt_act c p = Ret q -> plink q s.
Proof using Type.
  intros Hi Hp Hn Em Hst E. pose proof (pl_related _ _ Hp Hn) as Hr. unfold rmgmt_act in E. rewrite Em in E.
  pose proof (serve_result _ _ _ _ _ ms pe p Hi Em) as H. rewrite Hst in H. destruct H as (r & l & ms' & H & _).
  rewrite H in E. injection E as <-. destruct Hp as [? ? ? ? Hpl ? ? ?], Hr as [[] ? ?].
  rewrite Em in Hpl. cbn in Hpl. rewrite Hst in Hpl. by repeat split.
Qed.

Lemma rmgmt_act_steps p s :
  inv p -> plink p s -> rp_main p <> RM_Done ->
  (forall ms pe, rp_mgmt p = MgServe ms pe -> stops pe = true) -> steps_in (mgmt_moves s) (rmgmt_act c p).
Proof using Type.
  intros Hi Hp Hn Hst q E. pose proof (pl_related _ _ Hp Hn) as Hr. unfold rmgmt_act in E.
  unfold rmgmt_step. rewrite (pl_mgmt _ _ Hp).
  destruct (rp_mgmt p) as [| |ms|ms|ms pe|] eqn:Em; cbn [mgmt_place]; try done.
  - destruct (mgmt_socket_create _ _ _) as [[h s1]|] eqn:Ec; [|done]. injection E as <-.
    apply created_socket in Ec. rewrite <- Ec. eexists. split; [by apply list_elem_of_singleton|].
    destruct Hp, Hr as [[] ? ?]. destruct h; by repeat split.
  - rewrite <- (rel_running _ _ _ _ Hr). destruct (ry_running (rp_st p)) eqn:Er;
      [|destruct (mgmt_socket_destroy _ _); [|done]]; injection E as <-;
      (eexists; split; [by apply list_elem_of_singleton|]); destruct Hp, Hr as [[] ? ?]; repeat split; try done;
      cbn; by rewrite Er.
  - specialize (Hst ms pe eq_refl). rewrite Hst.
    pose proof (serve_result _ _ _ _ _ ms pe p Hi Em) as H. rewrite Hst in H. cbn zeta in H.
    pose proof (send_signal_sim main_cap ipc_cap _ _ _ (rel_queues _ _ _ _ Hr)) as Hs.
    destruct (send_signal_event _ _) as [[y mq]| |]; [|done|by rewrite H in E].
    destruct H as (r & l & ms' & H & _). rewrite H in E. injection E as <-. destruct Hs as (_ & s' & Es & Hq).
    rewrite Es. eexists. split; [by apply list_elem_of_singleton|].
    unfold send_main in Es. case_match; [|done]. injection Es as <-. destruct Hp, Hr as [_ ? ?], Hq. by repeat split.
Qed.

Context (Htcp : forall fd, tc_tcp c = Some fd -> new_fd e st0 fd /\ ce_socket (tc_socket c) <> Some fd).
Context (Hsock : forall fd, ce_socket (tc_socket c) = Some fd -> 0 <= fd /\ new_fd e st0 fd).

Lemma mgmt_rest p s :
  inv p -> plink p s -> rp_main p <> RM_Done -> at_rest e c p -> mgmt_moves s = [].
Proof using Htcp Hsock.
  intros Hi Hp Hn Hrest. pose proof (pl_related _ _ Hp Hn) as Hr. pose proof (pi_data _ _ _ _ _ _ Hi) as Hd.
  assert (forall a, by_itself p a = true -> forall q, ract e c a p = Ret q -> False) as Hno by (intros a Ha q; by apply Hrest).
  unfold ract in Hno. rewrite bool_decide_false in Hno by done.
  specialize (Hno AMgmt eq_refl) as Hact. cbn in Hact. unfold rmgmt_act in Hact.
  unfold rmgmt_step. rewrite (pl_mgmt _ _ Hp).
  destruct (rp_mgmt p) as [| |ms|ms|ms pe|] eqn:Em; cbn [mgmt_place]; try done.
  - exfalso. destruct (socket_result _ _ _ _ _ Htcp Hsock p Hd Em) as (h & s1 & E & _). rewrite E in Hact.
    by eapply Hact.
  - exfalso. destruct (ry_running _); [by eapply Hact|].
    destruct (destroy_result _ _ _ _ _ p ms Hd Em) as (s1 & E & _). rewrite E in Hact. by eapply Hact.
  - rewrite <- (rel_running _ _ _ _ Hr). destruct (ry_running _) eqn:Er; [done|]. exfalso.
    eapply (Hno (ARequest (mkProcessEnv true RecvError (zeros MGMT_REQUEST_SIZE) true))); [cbn; by rewrite Er|].
    cbn. unfold begin_serving. by rewrite Em.
  - pose proof (serve_result _ _ _ _ _ ms pe p Hi Em) as H. cbn zeta in H.
    pose proof (send_signal_sim main_cap ipc_cap _ _ _ (rel_queues _ _ _ _ Hr)) as Hs.
    destruct (stops pe); [|destruct H as (r & l & ms' & H & _); by destruct (Hact _ H)].
    destruct (send_signal_event _ _) as [[y mq]| |]; [|done|by rewrite Hs].
    destruct H as (r & l & ms' & H & _). by destruct (Hact _ H).
Qed.

(** ** The process *)

Lemma quiet_bound p : (quiet_calls p <= 2)%nat.
Proof using Type. clear Hpad. unfold quiet_calls. repeat case_match; lia. Qed.

Abbreviation system_moves := (rinternal (tc_sigmask c) (ne_sem_wait e) (ne_t3 e) (tcp_created c)
  (mgmt_created e) (socket_created c) main_cap ipc_cap).

Lemma rest_successors p s :
  inv p -> plink p s -> rp_main p <> RM_Done -> still e c p -> successors s = [].
Proof using Hpad Hclose Htcp Hsock.
  intros Hi Hp Hn Hst. pose proof (still_rest p Hst) as Hrest. unfold rsuccessors.
  by rewrite (main_rest p s), (signal_rest p s), (router_rest p s), (mgmt_rest p s) by done.
Qed.

(** The receive of the management thread ends. *)
Lemma begin_serving_follows pe p q s :
  plink p s -> rp_main p <> RM_Done -> begin_serving pe p = Ret q ->
  exists s', plink q s' /\ if inside p (ARequest pe) then system_moves s s' else rexternal ipc_cap s s'.
Proof using Type.
  intros Hp Hn E. pose proof (pl_related _ _ Hp Hn) as Hr. unfold begin_serving in E.
  destruct (rp_mgmt p) as [| | |ms| |] eqn:Em; try done. injection E as <-.
  assert (r_mgmt s = RG_Recv) as Eg by by rewrite (pl_mgmt _ _ Hp), Em.
  exists (mgmt_at s (if stops pe then RG_Send else RG_Loop)).
  split; [destruct Hp, Hr as [[] ? ?]; by repeat split|]. unfold inside. cbn [by_itself answered]. rewrite orb_false_r, (rel_running _ _ _ _ Hr).
  unfold stops. destruct (r_running s) eqn:Er; cbn [negb andb]; [|destruct (pe_recv pe)].
  - destruct (_ && _); [by apply rx_shutdown|by apply rx_timeout].
  - rewrite andb_false_r. unfold rinternal, rsuccessors. rewrite !elem_of_app. right; right; right.
    unfold rmgmt_step. rewrite Eg, Er. by left.
  - destruct (_ && _); [by apply rx_shutdown|by apply rx_timeout].
Qed.

(** A notification of the Collector, if there is room for it. *)
Lemma notify_follows pad p q s :
  plink p s -> rp_main p <> RM_Done -> length pad = 4%nat ->
  (q ← notify_router pad (ry_ipc (rp_st p)); Ret (upd_ipc p q)) = Ret q ->
  exists s', plink q s' /\ (s' = s \/ rexternal ipc_cap s s').
Proof using Type.
  clear Hpad. intros Hp Hn Hl E. destruct (pl_related _ _ Hp Hn) as [[Hm (iq & Hq & Hno & Hcap)] Hr Hc].
  unfold notify_router, msgsnd in E. rewrite Hq in E. cbn [nt_mtype] in E.
  change (MSG_TYPE_SHM_NOTIFY <=? 0) with false in E. cbv iota in E.
  set (body := notify_body _ pad) in E.
  assert (length body = NOTIFY_SIZE) as Hb by (unfold body, notify_body; by rewrite length_app, length_le_bytes, Hl).
  assert (is_quit body = false) as Hnq
    by (unfold is_quit, body; rewrite notify_roundtrip; [done|split; vm_compute; congruence]).
  clearbody body. rewrite (room_uniform NOTIFY_SIZE), Hcap, (Forall2_length _ _ _ Hno) in E;
    [|unfold NOTIFY_SIZE; lia|by eapply notes_uniform|done].
  destruct (_ <? _)%nat eqn:Eroom; cbn in E; injection E as <-.
  - exists (put_ipcq s (r_ipcq s ++ [Data])). split; [|right; apply rx_data; by apply Nat.ltb_lt].
    destruct Hp. repeat split; try done. eexists. split; [done|]. split; [|done].
    apply Forall2_app; [done|]. apply Forall2_cons. split; [|done]. by split_and!.
  - exists s. split; [|by left]. destruct Hp. repeat split; try done. by eexists.
Qed.

Lemma moves_in p s s' x :
  x ∈ [main_moves s; signal_moves s; router_moves s; mgmt_moves s] -> s' ∈ x -> plink p s' -> system_moves s s'.
Proof using Type.
  intros Hx Hs _. unfold rinternal, rsuccessors. rewrite !elem_of_app. rewrite !elem_of_cons in Hx.
  destruct Hx as [->|[->|[->|[->|H%not_elem_of_nil]]]]; auto. done.
Qed.

(** Each call the process does by itself is a step of the system or a quiet one. *)
Lemma own_call_follows a p q s :
  inv p -> plink p s -> inside p a = true -> ract e c a p = Ret q ->
  exists s', plink q s' /\ (system_moves s s' \/ (s' = s /\ (quiet_calls q < quiet_calls p)%nat)).
Proof using Hpad Hclose Htcp.
  intros Hi Hp Ha E. pose proof (ract_running _ _ _ _ _ E) as Hn. unfold ract in E.
  rewrite bool_decide_false in E by done.
  assert (forall x r, x ∈ [main_moves s; signal_moves s; router_moves s; mgmt_moves s] -> steps_in x r -> r = Ret q ->
    exists s', plink q s' /\ (system_moves s s' \/ (s' = s /\ (quiet_calls q < quiet_calls p)%nat))) as Hin.
  { intros x r Hx Hs Hr. destruct (Hs q Hr) as (s' & Hs' & Hq). exists s'. split; [done|]. left. by eapply moves_in. }
  destruct a as [| | | |sig| | | |ok|answer stack status| |pe|sig|pad|d stack|now time]; try done.
  - pose proof (rmain_act_follows p s Hi Hp Hn) as H. rewrite E in H. destruct H as (s' & H & Hq).
    exists s'. split; [done|]. left. eapply (moves_in q s s' (main_moves s)); [by left|rewrite H; by left|done].
  - eapply Hin; [|by apply rsignal_act_steps|exact E]. right; by left.
  - eapply Hin; [|by apply take_signal_steps|exact E]. right; by left.
  - eapply Hin; [|by apply cancelled_steps|exact E]. right; by left.
  - assert (rp_router p = RtStarted \/ rp_router p <> RtStarted) as [Er|Er]
      by (destruct (rp_router p); auto; by right).
    + exists s. split; [by eapply router_start_stutters|]. right. split; [done|]. unfold quiet_calls.
      unfold router_act in E. rewrite Er in E |- *. destruct (tc_tcp c); injection E as <-; cbn; lia.
    + eapply Hin; [|by apply router_act_steps|exact E]. right; right; by left.
  - eapply Hin; [|by apply try_connect_steps|exact E]. right; right; by left.
  - destruct (_ =? _)%nat eqn:El; [|done]. apply Nat.eqb_eq in El.
    eapply Hin; [|by apply relay_notified_steps|exact E]. right; right; by left.
  - assert ((exists ms pe, rp_mgmt p = MgServe ms pe /\ stops pe = false) \/
      forall ms pe, rp_mgmt p = MgServe ms pe -> stops pe = true) as [(ms & pe & Em & Hst)|Hst].
    { destruct (rp_mgmt p) as [| | | |ms pe|]; try (by right). destruct (stops pe) eqn:Hst; [|eauto].
      right. by intros ? ? [= <- <-]. }
    + exists s. split; [by eapply served_stutters|]. right. split; [done|]. unfold quiet_calls.
      unfold rmgmt_act in E. rewrite Em in E |- *. rewrite Hst.
      pose proof (serve_result _ _ _ _ _ ms pe p Hi Em) as H. rewrite Hst in H. destruct H as (r & l & ms' & H & _).
      rewrite H in E. injection E as <-. cbn. lia.
    + eapply Hin; [|by apply rmgmt_act_steps|exact E]. right; right; right; by left.
  - destruct (_ =? _)%nat; [|done]. destruct (begin_serving_follows pe p q s Hp Hn E) as (s' & Hq & Hs).
    rewrite Ha in Hs. exists s'. auto.
Qed.

(** What comes from outside is a step from outside, or none of the system's. *)
Lemma outside_follows a p q s :
  inv p -> plink p s -> inside p a = false -> ract e c a p = Ret q ->
  exists s', plink q s' /\ (s' = s \/ rexternal ipc_cap s s').
Proof using Type.
  intros Hi Hp Ha E. pose proof (ract_running _ _ _ _ _ E) as Hn. pose proof (pl_related _ _ Hp Hn) as Hr.
  unfold ract in E. rewrite bool_decide_false in E by done.
  destruct a as [| | | |sig| | | |ok|answer stack status| |pe|sig|pad|d stack|now time]; try done.
  - destruct (rp_main p) eqn:Em; try done. injection E as <-. exists (main_at s RM_Test).
    split; [|right; apply rx_interrupted; by rewrite (pl_main _ _ Hp)].
    eapply plink_main; try done. intros _. by apply related_at.
  - destruct (rp_main p) eqn:Em; try done. injection E as <-. exists (main_at s RM_EndStore).
    split; [|right; apply rx_failed; by rewrite (pl_main _ _ Hp)].
    eapply plink_main; try done. intros _. by apply related_at.
  - destruct (rp_signal p) eqn:Es; try done. injection E as <-. exists (signal_at s RS_Done).
    split; [|right; apply rx_sigwait; by rewrite (pl_signal _ _ Hp), Es]. destruct Hp, Hr as [[] ? ?]. by repeat split.
  - destruct (_ =? _)%nat; [|done]. destruct (begin_serving_follows pe p q s Hp Hn E) as (s' & Hq & Hs).
    rewrite Ha in Hs. exists s'. auto.
  - destruct (_ || _); [|done]. injection E as <-. exists (put_pending s true). split; [|right; apply rx_signal].
    destruct Hp, Hr as [[] ? ?]. repeat split; try done. intros _. cbn. rewrite bool_decide_false; [done|].
    intros E. assert (sig ∈ (∅ : gset Z)) as H by (rewrite <- E; apply elem_of_union; left; by apply elem_of_singleton).
    by apply elem_of_empty in H.
  - destruct (_ =? _)%nat eqn:El; [|done]. apply Nat.eqb_eq in El. by apply (notify_follows pad p).
  - destruct (_ || _); [done|]. apply exec_bind_inv in E as ([ok shm] & _ & E). injection E as <-.
    exists s. split; [|by left]. destruct Hp, Hr as [[] ? ?]. by repeat split.
  - case_bool_decide; [|done]. injection E as <-. exists s. split; [|by left].
    destruct Hp, Hr as [[] ? ?]. by repeat split.
Qed.

Abbreviation system_step := (rstep (tc_sigmask c) (ne_sem_wait e) (ne_t3 e) (tcp_created c)
  (mgmt_created e) (socket_created c) main_cap ipc_cap).

Abbreviation good := (good e c st0 shm0 h0).

Lemma call_follows a p q s :
  good p -> plink p s -> ract e c a p = Ret q ->
  good q /\ exists s', plink q s' /\ (s' = s \/ system_step s s').
Proof using Hpad Hclose Htcp Hsock.
  intros Hg Hp E. pose proof (ract_safe e c st0 shm0 h0 Hclose Htcp Hsock a p Hg) as Hq. rewrite E in Hq.
  split; [done|]. apply good_inv in Hg as Hi; [|by eapply ract_running].
  destruct (inside p a) eqn:Ha.
  - destruct (own_call_follows a p q s Hi Hp Ha E) as (s' & ? & Hs); exists s'.
    split; [done|]. unfold rstep. destruct Hs as [?|[? _]]; auto.
  - destruct (outside_follows a p q s Hi Hp Ha E) as (s' & ? & Hs); exists s'.
    split; [done|]. unfold rstep. destruct Hs; auto.
Qed.

Lemma calls_follow l : forall p q s, good p -> plink p s -> racts e c l p = Ret q ->
  good q /\ exists s', plink q s' /\ rtc system_step s s'.
Proof using Hpad Hclose Htcp Hsock.
  induction l as [|a l IH]; intros p q s Hg Hp E; cbn [racts] in E.
  { injection E as <-. split; [done|]. exists s. split; [done|apply rtc_refl]. }
  apply exec_bind_inv in E as (p1 & E1 & E). destruct (call_follows a p p1 s Hg Hp E1) as (Hg1 & s1 & Hp1 & Hs1).
  destruct (IH p1 q s1 Hg1 Hp1 E) as (Hq & s' & ? & ?). split; [done|]. exists s'. split; [done|].
  destruct Hs1 as [->|]; [done|by eapply rtc_l].
Qed.

Lemma measure_linked p s : plink p s -> rp_main p <> RM_Done -> calls_left c p = (3 * rmeasure s + quiet_calls p)%nat.
Proof using Type.
  intros Hp Hn. destruct (pl_related _ _ Hp Hn) as [[_ (q & Hq & Hno & _)] Hr _].
  unfold calls_left, rmeasure. rewrite (pl_main _ _ Hp), (pl_signal _ _ Hp), (pl_router _ _ Hp), (pl_mgmt _ _ Hp), Hr, Hq.
  by rewrite (Forall2_length _ _ _ Hno).
Qed.

(** A run of the process by itself. *)
Lemma alone_follows n p q :
  alone e c n p q -> forall s, good p -> plink p s -> rinv (tc_sigmask c) s ->
  good q /\ exists s', plink q s' /\ rtc system_moves s s' /\
    (n + 3 * rmeasure s' + quiet_calls q <= 3 * rmeasure s + quiet_calls p)%nat.
Proof using Hpad Hclose Htcp Hsock.
  induction 1 as [p|n a p p1 q Ha E Hrun IH]; intros s Hg Hp Hs.
  { split; [done|]. exists s. split; [done|]. split; [apply rtc_refl|lia]. }
  destruct (call_follows a p p1 s Hg Hp E) as (Hg1 & _).
  apply good_inv in Hg as Hi; [|by eapply ract_running].
  destruct (own_call_follows a p p1 s Hi Hp Ha E) as (s1 & Hp1 & Hs1).
  assert (rtc system_moves s s1 /\
    (1 + 3 * rmeasure s1 + quiet_calls p1 <= 3 * rmeasure s + quiet_calls p)%nat) as [Hr1 Hm1].
  { pose proof (quiet_bound p1). destruct Hs1 as [H1|[-> H1]]; [|split; [apply rtc_refl|lia]].
    split; [by apply rtc_once|]. pose proof (rinternal_measure _ _ _ _ _ _ _ _ s s1 Hs H1). lia. }
  destruct (IH s1 Hg1 Hp1) as (Hgq & s' & Hq & Hr & Hm); [by eapply internal_inv|].
  split; [done|]. exists s'. split; [done|]. split; [by etrans|lia].
Qed.

(** ** What a process at rest waits for *)

Lemma rest_blocked a p :
  inv p -> rp_main p <> RM_Done -> at_rest e c p -> by_itself p a = true -> ract e c a p = Blocked.
Proof using Hclose Htcp Hsock.
  intros Hi Hn Hrest Ha. pose proof (ract_safe e c st0 shm0 h0 Hclose Htcp Hsock a p) as Hs.
  rewrite good_inv in Hs by done. specialize (Hs Hi). specialize (Hrest a).
  destruct (ract e c a p) as [q| |]; [by destruct (Hrest q)|done..].
Qed.

Lemma rest_router_waits p s :
  inv p -> plink p s -> rp_main p <> RM_Done -> at_rest e c p ->
  router_sending (r_router s) = true -> router_waits p.
Proof using Hclose Htcp Hsock.
  intros Hi Hp Hn Hrest Hr. pose proof (rest_blocked ARouter p Hi Hn Hrest eq_refl) as Hb.
  unfold ract in Hb. rewrite bool_decide_false in Hb by done. unfold router_act in Hb. unfold router_waits.
  rewrite (pl_router _ _ Hp) in Hr. destruct (rp_router p) as [| |fd n|fd n|text|fd|fd|fd|]; try done.
  - clear Htcp. by destruct (tc_tcp c).
  - by destruct (send_fatal_event _ _) as [[]| |].
  - by destruct (send_signal_event _ _) as [[]| |].
Qed.

Lemma rest_quit_waits p s :
  inv p -> plink p s -> rp_main p <> RM_Done -> at_rest e c p -> sending_quit (rp_main p) = true ->
  quit_router (ne_pad e) (rp_st p) = Blocked.
Proof using Hclose Htcp Hsock.
  intros Hi Hp Hn Hrest Hm. pose proof (rest_blocked AMain p Hi Hn Hrest eq_refl) as Hb.
  rewrite ract_main in Hb by done. unfold rmain_act, quit_message in Hb.
  destruct (rp_main p); try done; by destruct (quit_router _ _).
Qed.

Lemma deadlock_hangs p s :
  inv p -> plink p s -> rp_main p <> RM_Done -> at_rest e c p -> deadlock main_cap ipc_cap s -> hangs e c p.
Proof using Hclose Htcp Hsock.
  intros Hi Hp Hn Hrest [Hm _ Hr|Hm Hg _|Hm Hr _]; rewrite (pl_main _ _ Hp) in Hm.
  - apply hangs_quit; [done|by eapply rest_quit_waits|]. destruct Hr as [Hr|[Hr _]]; [left|right; by eapply rest_router_waits].
    rewrite (pl_router _ _ Hp) in Hr. destruct (rp_router p); try done. cbn in Hr. by destruct (tcp_created c).
  - pose proof (rest_blocked AMgmt p Hi Hn Hrest eq_refl) as Hb. unfold ract in Hb. rewrite bool_decide_false in Hb by done.
    unfold rmgmt_act in Hb. rewrite (pl_mgmt _ _ Hp) in Hg. destruct (rp_mgmt p) as [| |ms|ms|ms pe|] eqn:Em; try done.
    by eapply hangs_mgmt.
  - apply hangs_router; [done|]. by eapply rest_router_waits.
Qed.

Lemma sem_hangs p s :
  inv p -> plink p s -> at_rest e c p -> rinv (tc_sigmask c) s ->
  r_main s = RM_SemWait -> tc_sigmask c = false -> hangs e c p.
Proof using Hclose Htcp Hsock.
  intros Hi Hp Hrest Hs Hm Hsig. rewrite (pl_main _ _ Hp) in Hm. assert (rp_main p <> RM_Done) as Hn by by rewrite Hm.
  pose proof (rest_blocked AMain p Hi Hn Hrest eq_refl) as Hb. rewrite ract_main in Hb by done.
  unfold rmain_act in Hb. rewrite Hm in Hb. destruct (ne_sem_wait e); [|done]. cbn [negb] in Hb.
  destruct (rp_posted p) eqn:Ep; [done|]. pose proof (ri_sem _ _ Hs) as Hsem. rewrite (pl_posted _ _ Hp) in Hsem.
  apply hangs_sem; [done..|]. specialize (Hsem Ep). rewrite (pl_signal _ _ Hp) in Hsem.
  pose proof (rest_blocked ASignal p Hi Hn Hrest eq_refl) as Hb2. unfold ract in Hb2.
  rewrite bool_decide_false in Hb2 by done. unfold rsignal_act in Hb2.
  destruct Hsem as [H|[H _]]; destruct (rp_signal p); done.
Qed.

(** The Viewer's host does not answer. *)
Lemma unanswered_hangs p s :
  (0 < main_cap)%nat -> inv p -> plink p s -> rp_main p <> RM_Done -> at_rest e c p -> rinv (tc_sigmask c) s ->
  stop_requested (tc_sigmask c) s = true -> at_viewer p = true -> hangs e c p.
Proof using Hpad Hclose Htcp Hsock.
  intros Hmc Hi Hp Hn Hrest Hs Hreq Hv.
  assert (at_host (r_router s) = true) as Hh.
  { rewrite (pl_router _ _ Hp). unfold at_viewer in Hv. by destruct (rp_router p) as [| |? []| | | | | |]. }
  destruct (unanswered_cases _ _ _ _ _ _ main_cap ipc_cap s Hmc Hs Hreq Hh (main_rest p s Hi Hp Hn Hrest)
    (signal_rest p s Hi Hp Hn Hrest) (mgmt_rest p s Hi Hp Hn Hrest)) as [H|[H|H]].
  - rewrite (pl_main _ _ Hp) in H. apply hangs_viewer; [done|]. right. split; [done|]. by eapply rest_quit_waits.
  - by eapply deadlock_hangs.
  - rewrite (pl_main _ _ Hp) in H. apply hangs_viewer; auto.
Qed.

Lemma asked_linked p s : plink p s -> rp_main p <> RM_Done -> stop_asked c p = stop_requested (tc_sigmask c) s.
Proof using Type.
  intros Hp Hn. destruct (pl_related _ _ Hp Hn) as [[(q & Hq & Hev & _) _] Hr _].
  unfold stop_asked, stop_requested. rewrite (pl_main _ _ Hp), (pl_mgmt _ _ Hp), (pl_router _ _ Hp), (pl_signal _ _ Hp), Hr, Hq.
  pose proof (pl_pending _ _ Hp) as Hpe. destruct q as [ms bytes]. cbn [q_messages] in Hev.
  f_equal; [f_equal; [f_equal; [f_equal|]|]|].
  - by destruct Hev.
  - destruct (rp_mgmt p) as [| | | |ms' pe|]; try done. cbn. by destruct (stops pe).
  - destruct (rp_router p); try done. unfold tcp_created. cbn [router_place]. by destruct (bool_decide (is_Some _)).
  - destruct (rp_signal p); cbn in *; try done; by rewrite Hpe.
Qed.
End progress.

(** ** The start *)

Lemma capacity_pos q size : (0 < size)%nat -> Z.of_nat size <= q_bytes q -> (0 < capacity q size)%nat.
Proof.
  intros Hs Hq. unfold capacity. assert (1 <= q_bytes q / Z.of_nat size) by (apply Z.div_le_lower_bound; lia). lia.
Qed.

Lemma launch_launched e now st p :
  boots e st -> launch e now st = Ret (inr p) ->
  exists h st1, launched e st h st1 /\ p = process now (Some h) st1.
Proof.
  intros Hb E.
  assert (safe (launch e now st) (fun o => match o with
    | inl _ => True | inr p => exists h st1, launched e st h st1 /\ p = process now (Some h) st1 end)) as H.
  { apply main_start_ok; [done|done|]. intros h st1 Hl. by exists h, st1. }
  by rewrite E in H.
Qed.

Lemma launched_linked e c now st h st1 :
  service_start e c now st -> launched e st h st1 ->
  plink c (events_held e) (notes_held st) (process now (Some h) st1) r_initial /\
  (0 < events_held e)%nat /\ (0 < notes_held st)%nat.
Proof.
  intros [Hps Hflag _ Hmq (Hok & qi & Hqi & Hsize)] [_ _ _ _ (q & Hq & Eq) Hipc (p0 & p1 & _ & _ & Hp1 & _) Hrun _].
  unfold events_held, notes_held. rewrite Eq, Hqi. rewrite Hok, Hqi in Hipc.
  split; [|split; apply capacity_pos; auto; unfold MSG_SIZE, NOTIFY_SIZE; lia].
  split; try done. intros _. split; cbn.
  - split; eexists; (split; [done|]); cbn; [|by split].
    rewrite (bt_queue _ _ (ps_boots _ _ _ _ Hps) q Eq). by split.
  - by rewrite Hrun.
  - by rewrite Hp1.
Qed.

(** Where a run has led to. *)
Lemma run_linked e c now st p l q :
  service_start e c now st -> launch e now st = Ret (inr p) -> racts e c l p = Ret q ->
  exists h st1 s, launched e st h st1 /\ good e c st (ry_shm st1) (Some h) q /\
    plink c (events_held e) (notes_held st) q s /\
    rtc (rstep (tc_sigmask c) (ne_sem_wait e) (ne_t3 e) (tcp_created c) (mgmt_created e) (socket_created c)
           (events_held e) (notes_held st)) r_initial s.
Proof.
  intros Hss El Er. pose proof (ss_process _ _ _ _ Hss) as [Hb Hnow Htcp Hsock].
  destruct (launch_launched e now st p Hb El) as (h & st1 & Hl & ->).
  destruct (launched_linked e c now st h st1 Hss Hl) as (Hp & _).
  destruct (calls_follow e c (events_held e) (notes_held st) st (ry_shm st1) (Some h) (ss_pad _ _ _ _ Hss)
    (ld_close _ _ _ _ Hl) Htcp Hsock l (process now (Some h) st1) q r_initial) as (Hg & s & ? & ?); [|done|done|by exists h, st1, s].
  apply good_inv; [done|]. by apply launched_inv.
Qed.

(** Nothing is left to do for a process that has ended. *)
Lemma done_rest e c p : rp_main p = RM_Done -> at_rest e c p.
Proof. intros H a q _. unfold ract. by rewrite bool_decide_true. Qed.

Lemma alone_done e c n p q : rp_main p = RM_Done -> alone e c n p q -> n = 0%nat /\ q = p.
Proof.
  intros H Hr. destruct Hr as [|n a p q' r Ha E _]; [done|]. exfalso. by apply (ract_running _ _ _ _ _ E).
Qed.

(** Once the end has been asked for. *)
Lemma process_stops e c now st p l q :
  service_start e c now st -> launch e now st = Ret (inr p) -> racts e c l p = Ret q ->
  stop_asked c q = true ->
  forall n r, alone e c n q r ->
    (n <= calls_left c q)%nat /\
    (at_rest e c r -> (rp_main r = RM_Done /\ ended e st r) \/ hangs e c r).
Proof.
  intros Hss El Er Hask n r Ha. pose proof (ss_process _ _ _ _ Hss) as [Hb Hnow Htcp Hsock].
  destruct (run_linked _ _ _ _ _ _ _ Hss El Er) as (h & st1 & s & Hl & Hg & Hp & Hs).
  destruct (launched_linked _ _ _ _ _ _ Hss Hl) as (_ & Hmc & Hic).
  destruct (decide (rp_main q = RM_Done)) as [Hd|Hn].
  { destruct (alone_done _ _ _ _ _ Hd Ha) as [-> ->]. split; [lia|]. intros _. left. split; [done|].
    unfold good in Hg. by rewrite decide_True in Hg. }
  pose proof (r_reachable_inv _ _ _ _ _ _ _ _ s Hs) as Hinv.
  pose proof (ss_pad _ _ _ _ Hss) as Hpad. pose proof (ld_close _ _ _ _ Hl) as Hclose.
  destruct (alone_follows e c _ _ st _ _ Hpad Hclose Htcp Hsock n q r Ha s Hg Hp Hinv) as (Hgr & s' & Hp' & Hs' & Hm).
  split; [rewrite (measure_linked _ _ _ q s Hp Hn); lia|]. intros Hrest.
  destruct (decide (rp_main r = RM_Done)) as [Hd|Hn'].
  { left. split; [done|]. unfold good in Hgr. by rewrite decide_True in Hgr. }
  right. apply good_inv in Hgr as Hi; [|done].
  rewrite (asked_linked c _ _ q s Hp Hn) in Hask.
  destruct (at_viewer r) eqn:Hv.
  { apply (unanswered_hangs e c _ _ st _ _ Hpad Hclose Htcp Hsock r s' Hmc Hi Hp' Hn' Hrest); [..|done].
    - by eapply internal_inv.
    - by eapply (rinternal_requested _ _ _ _ _ _ _ _ s s'). }
  apply rest_still in Hrest as Hst; [|done].
  destruct (stop_outcome _ _ _ _ _ _ _ _ s Hmc Hic Hs Hask) as [_ Hout].
  destruct (Hout s' Hs') as [Hf|[Hdl|[Hsem Hsig]]].
  - by eapply rest_successors.
  - destruct Hf as [Hf _]. by rewrite (pl_main _ _ _ _ _ Hp') in Hf.
  - by eapply deadlock_hangs.
  - eapply sem_hangs; try done. by eapply internal_inv.
Qed.

(** * Properties *)

(** C7: the process of a Router that has its notification queue is a refinement
    of its transition system.  From a start where msgget for that queue has
    succeeded and both queues hold at least one message, whatever run has led to
    the process [q], there is a state of the system that it reaches too, with
    every thread at the same place and the same flag, pipe, semaphore and
    messages; every further call is a step of the system or none, one of the
    system's own if the call needs nothing from outside or is the answer of the
    Viewer's host to connect or send, one from outside otherwise; and where the
    process can do nothing, with those answers or without, neither can the
    system.  The start without the queue is that of [router_process_spins]. *)
Theorem router_process_simulated e c now st p l q :
  service_start e c now st -> launch e now st = Ret (inr p) -> racts e c l p = Ret q ->
  let link := plink c (events_held e) (notes_held st) in
  let system (F : bool -> bool -> bool -> bool -> bool -> bool -> nat -> nat -> RState -> RState -> Prop) :=
    F (tc_sigmask c) (ne_sem_wait e) (ne_t3 e) (tcp_created c) (mgmt_created e) (socket_created c)
      (events_held e) (notes_held st) in
  exists s, link q s /\ rtc (system rstep) r_initial s /\
    (forall a q', ract e c a q = Ret q' -> exists s', link q' s' /\
       (s' = s \/ if inside q a then system rinternal s s' else rexternal (notes_held st) s s')) /\
    (rp_main q <> RM_Done -> still e c q -> forall s', ~ system rinternal s s').
Proof.
  intros Hss El Er link system. pose proof (ss_process _ _ _ _ Hss) as [Hb Hnow Htcp Hsock].
  destruct (run_linked _ _ _ _ _ _ _ Hss El Er) as (h & st1 & s & Hl & Hg & Hp & Hs).
  pose proof (ss_pad _ _ _ _ Hss) as Hpad. pose proof (ld_close _ _ _ _ Hl) as Hclose.
  exists s. split; [done|]. split; [done|]. split.
  - intros a q' E. pose proof (ract_running _ _ _ _ _ E) as Hn. apply good_inv in Hg; [|done].
    destruct (inside q a) eqn:Ha.
    + destruct (own_call_follows e c _ _ st _ _ Hpad Hclose Htcp a q q' s Hg Hp Ha E) as (s' & ? & H). exists s'.
      split; [done|]. destruct H as [?|[? _]]; auto.
    + exact (outside_follows e c _ _ st _ _ a q q' s Hg Hp Ha E).
  - intros Hn Hrest s' H. apply good_inv in Hg; [|done].
    pose proof (rest_successors e c _ _ st _ _ Hpad Hclose Htcp Hsock q s Hg Hp Hn Hrest) as E.
    unfold system, rinternal in H. rewrite E in H. by apply not_elem_of_nil in H.
Qed.

(** C3: a Router that has its notification queue comes to an end.  From a start
    where msgget for that queue has succeeded and both queues hold at least one
    message: once the end has been asked for (a signal is pending or taken, an
    event is queued, a SHUTDOWN is being served, a thread gives up, the flag is
    cleared or a start has failed), the threads, in whatever order they run and
    whatever the Viewer's host answers to connect and send, do at most
    [calls_left] calls more; and where they can do none without such an answer,
    the process has ended, with everything released and every thread ended, or
    the main thread waits in one of the ways of [hangs]: for room in a message
    queue, for a signal thread that could not set its mask, or for the router
    thread, which waits in connect or send for a Viewer that does not answer or
    does not read.  The answers of the management socket are taken by its clients
    (sendto answers at once) and the lock of the segment is not left behind by a
    dead process.  (Without the notification queue the Router never ends:
    [router_process_spins].) *)
Theorem router_process_stops e c now st p l q :
  service_start e c now st -> launch e now st = Ret (inr p) -> racts e c l p = Ret q ->
  stop_asked c q = true ->
  forall n r, alone e c n q r ->
    (n <= calls_left c q)%nat /\
    (at_rest e c r -> (rp_main r = RM_Done /\ ended e st r) \/ hangs e c r).
Proof. apply process_stops. Qed.

(** C10: the second quit message can hang the Router for ever.  The main thread
    sends the quit notification when SIGTERM arrives and once more at its end; if
    the router thread has ended at the first one and the Collector has filled the
    queue by then, the main thread stays in the second one, whatever the threads,
    the Collector, signals and requests do afterwards. *)
Theorem router_process_hangs e c now st p l q :
  service_start e c now st -> launch e now st = Ret (inr p) -> racts e c l p = Ret q ->
  rp_main q = RM_EndQuit -> rp_router q = RtEnded -> quit_router (ne_pad e) (rp_st q) = Blocked ->
  forall l' r, racts e c l' q = Ret r -> rp_main r = RM_EndQuit.
Proof.
  intros Hss El Er Hm Hr Hb l' r E. pose proof (ss_process _ _ _ _ Hss) as [Hbt Hnow Htcp Hsock].
  destruct (run_linked _ _ _ _ _ _ _ Hss El Er) as (h & st1 & s & Hl & Hg & Hp & _).
  pose proof (pl_related _ _ _ _ _ Hp ltac:(by rewrite Hm)) as Hrel.
  pose proof (quit_sim _ _ _ _ _ Hrel (ss_pad _ _ _ _ Hss)) as Hq. rewrite Hb in Hq.
  destruct (calls_follow e c _ _ st _ _ (ss_pad _ _ _ _ Hss) (ld_close _ _ _ _ Hl) Htcp Hsock l' q r s Hg Hp E)
    as (_ & s' & Hp' & Hs'). rewrite <- (pl_main _ _ _ _ _ Hp').
  eapply quit_hang_forever; [by rewrite (pl_main _ _ _ _ _ Hp)|by rewrite (pl_router _ _ _ _ _ Hp), Hr| |exact Hs'].
  by apply send_quit_full.
Qed.

(** ** Concrete runs *)

(** The calls given, each done by the process itself. *)
Fixpoint own_calls (e : RouterEnv) (c : ThreadCalls) (l : list raction) (p : RProc) : exec RProc :=
  match l with
  | [] => Ret p
  | a :: l' => if inside p a then q ← ract e c a p; own_calls e c l' q else Blocked
  end.

Lemma own_calls_alone e c l : forall p q, own_calls e c l p = Ret q -> alone e c (length l) p q.
Proof.
  induction l as [|a l IH]; intros p q E; cbn [own_calls length] in *; [injection E as <-; apply alone_refl|].
  destruct (inside p a) eqn:Ha; [|done]. apply exec_bind_inv in E as (p1 & E1 & E).
  eapply alone_step; [done|done|by apply IH].
Qed.

Lemma demo_service_start : service_start demo_router_env demo_calls (mkTimespec 100 0) demo_router_start.
Proof.
  split; [apply demo_router_process_start|done|done|by intros q [= <-]|]. split; [done|]. eexists. split; [done|]. done.
Qed.

(** The Router that serves: it has relayed a text. *)
Lemma router_process_simulated_witness :
  exists p q s, launch demo_router_env (mkTimespec 100 0) demo_router_start = Ret (inr p) /\
    racts demo_router_env demo_calls demo_begin p = Ret q /\
    rtc (rstep true true true true true true 62 2048) r_initial s /\
    r_main s = RM_Recv /\ r_router s = RR_Recv /\ r_mgmt s = RG_Recv.
Proof.
  destruct (launch demo_router_env (mkTimespec 100 0) demo_router_start) as [[st'|p]| |] eqn:El;
    [exfalso; vm_compute in El; discriminate| |exfalso; vm_compute in El; discriminate..].
  exists p.
  assert (match launch demo_router_env (mkTimespec 100 0) demo_router_start with
          | Ret (inr p) => match racts demo_router_env demo_calls demo_begin p with
                           | Ret q => Some (rp_main q, router_place true (rp_router q), mgmt_place (rp_mgmt q))
                           | _ => None end
          | _ => None end = Some (RM_Recv, RR_Recv, RG_Recv)) as E by (vm_compute; reflexivity).
  rewrite El in E. destruct (racts demo_router_env demo_calls demo_begin p) as [q| |] eqn:Er; [|discriminate E..].
  destruct (router_process_simulated demo_router_env demo_calls (mkTimespec 100 0) demo_router_start p demo_begin q
    demo_service_start El Er) as (s & [_ Hm _ Hr Hg _ _ _] & Hs & _).
  exists q, s. injection E as E1 E2 E3. split; [reflexivity|]. split; [reflexivity|]. split; [exact Hs|].
  split; [by rewrite Hm|]. split; [by rewrite Hr|by rewrite Hg].
Defined.

(** ... and the same after a SIGTERM. *)
Lemma router_process_stops_witness :
  exists p q r, launch demo_router_env (mkTimespec 100 0) demo_router_start = Ret (inr p) /\
    racts demo_router_env demo_calls (demo_begin ++ [ADeliver SIGTERM]) p = Ret q /\
    alone demo_router_env demo_calls 19 q r /\ (19 <= calls_left demo_calls q)%nat /\
    ended demo_router_env demo_router_start r.
Proof.
  destruct (launch demo_router_env (mkTimespec 100 0) demo_router_start) as [[st'|p]| |] eqn:El;
    [exfalso; vm_compute in El; discriminate| |exfalso; vm_compute in El; discriminate..].
  exists p.
  assert (match launch demo_router_env (mkTimespec 100 0) demo_router_start with
          | Ret (inr p) => match racts demo_router_env demo_calls (demo_begin ++ [ADeliver SIGTERM]) p with
                           | Ret q => match own_calls demo_router_env demo_calls (drop 1 demo_end) q with
                                      | Ret r => Some (stop_asked demo_calls q, rp_main r) | _ => None end
                           | _ => None end
          | _ => None end = Some (true, RM_Done)) as E by (vm_compute; reflexivity).
  rewrite El in E.
  destruct (racts demo_router_env demo_calls (demo_begin ++ [ADeliver SIGTERM]) p) as [q| |] eqn:Er; [|discriminate E..].
  destruct (own_calls _ _ _ q) as [r| |] eqn:Ea; [|discriminate E..]. injection E as E1 E2.
  exists q, r. apply own_calls_alone in Ea.
  destruct (router_process_stops demo_router_env demo_calls (mkTimespec 100 0) demo_router_start p
    (demo_begin ++ [ADeliver SIGTERM]) q demo_service_start El Er E1 _ r Ea) as [Hn Hr].
  split; [reflexivity|]. split; [reflexivity|]. split; [exact Ea|]. split; [exact Hn|].
  destruct (Hr (done_rest _ _ r E2)) as [[_ H]|H]; [exact H|].
  exfalso. destruct H as [H|? ? H|H|H|_ [H|[H _]]]; rewrite E2 in H; discriminate.
Defined.

(** A notification queue for two messages: one SIGTERM, with two notifications of
    the Collector after the router thread has ended. *)
Definition demo_small_start : RouterSys := set_queues demo_router_start None (Some (mkQueue [] 16)).

Definition demo_hang : list raction :=
  demo_begin ++ take 11 demo_end ++ replicate 2 (ANotify (zeros 4)).

Lemma demo_small_service : service_start demo_router_env demo_calls (mkTimespec 100 0) demo_small_start.
Proof.
  destruct demo_service_start as [[[Hg He Hq Hs Hp] Hn Ht Hk] Hf Hpad Hmain _].
  split; [|exact Hf|exact Hpad|exact Hmain|].
  - split; [|exact Hn|exact Ht|exact Hk]. split; [exact Hg|exact He|exact Hq|exact Hs|exact Hp].
  - split; [done|]. eexists. split; [done|]. done.
Qed.

Lemma router_process_hangs_witness :
  exists p q, launch demo_router_env (mkTimespec 100 0) demo_small_start = Ret (inr p) /\
    racts demo_router_env demo_calls demo_hang p = Ret q /\
    forall l r, racts demo_router_env demo_calls l q = Ret r -> rp_main r = RM_EndQuit.
Proof.
  destruct (launch demo_router_env (mkTimespec 100 0) demo_small_start) as [[st'|p]| |] eqn:El;
    [exfalso; vm_compute in El; discriminate| |exfalso; vm_compute in El; discriminate..].
  exists p.
  assert (match launch demo_router_env (mkTimespec 100 0) demo_small_start with
          | Ret (inr p) => match racts demo_router_env demo_calls demo_hang p with
                           | Ret q => Some (rp_main q, rp_router q,
                               match quit_router (zeros 4) (rp_st q) with Blocked => true | _ => false end)
                           | _ => None end
          | _ => None end = Some (RM_EndQuit, RtEnded, true)) as E by (vm_compute; reflexivity).
  rewrite El in E. destruct (racts demo_router_env demo_calls demo_hang p) as [q| |] eqn:Er; [|discriminate E..].
  exists q. injection E as E1 E2 E3. split; [reflexivity|]. split; [reflexivity|]. intros l r H.
  apply (router_process_hangs demo_router_env demo_calls (mkTimespec 100 0) demo_small_start p demo_hang q
    demo_small_service El Er E1 E2) with (l' := l); [|exact H].
  change (ne_pad demo_router_env) with (zeros 4). destruct (quit_router _ _); [discriminate E3..|reflexivity].
Defined.
