(* ===== verification/RouterStuck.v ===== *)
(** * What keeps the Router from ending (Router/src/main.c, router_worker.c)

    [main] goes on when msgget(2) for the notification queue fails.  The process
    of RouterProcess from such a start: no call gives it the queue, and once the
    router thread is connected it receives, fails and receives again, without
    waiting and whatever the other threads do.

    The router thread connects and sends with a blocking socket: while the
    Viewer's host does not answer, or does not read, the thread stays in that
    call, and the join of [main] waits for it. *)

From S2P Require Import Prelude CLib MgmtProtocol EventHandler MgmtSocket Handlers Ipc ShmData Shm.
From S2P Require Import RouterMsg RouterMgmt RouterServe MgmtCtl Collector Router RouterThreads RouterProcess.
From S2P Require Import RouterProgress.

(** ** What no call changes *)

(** Without a queue every send and receive fails at once. *)
Lemma no_queue_quit pad st st' : ry_ipc st = None -> quit_router pad st = Ret st' -> ry_ipc st' = None.
Proof. unfold quit_router, send_shm_quit. intros ->. cbn. by intros [= <-]. Qed.

Lemma no_queue_notify pad q : notify_router pad None = Ret q -> q = None.
Proof. unfold notify_router. cbn. by intros [= <-]. Qed.

Lemma close_pipe_ipc st : ry_ipc (close_shutdown_pipe st) = ry_ipc st.
Proof. apply close_pipe_fields. Qed.

Lemma start_mgmt_ipc e st a b st' : start_mgmt e st = Ret (a, b, st') -> ry_ipc st' = ry_ipc st.
Proof.
  unfold start_mgmt. destruct (handler_registry_init _ _) as [r g]. destruct (negb _); [by intros [= <- <- <-]|].
  intros ([r' reg] & _ & E)%exec_bind_inv. destruct (negb _); [by simplify_eq|]. destruct (ne_t_mgmt e); by simplify_eq.
Qed.

Lemma cleanup_ipc h reg st st' : cleanup_sem h reg st = Ret st' -> ry_ipc st' = ry_ipc st.
Proof.
  unfold cleanup_sem, cleanup_pipe, cleanup_shm, cleanup_main_msq, cleanup_log. destruct reg.
  - intros (g & _ & [= <-])%exec_bind_inv. by destruct (ry_sem st).
  - intros [= <-]. by destruct (ry_sem st).
Qed.

Lemma relay_send_ipc {S H} {ops : ShmOps S H} answer stack status h (r : RelayState S) go r' :
  relay_send answer stack status h r = Ret (go, r') -> rl_ipc r' = rl_ipc r.
Proof.
  unfold relay_send. intros ([[[ok x] payload] s] & _ & E)%exec_bind_inv. destruct ok; cbn [negb] in E; [|by simplify_eq].
  apply exec_bind_inv in E as (pl & _ & E). apply exec_bind_inv in E as (text & _ & E).
  apply exec_bind_inv in E as ([buf n] & _ & E). apply exec_bind_inv in E as (line & _ & E).
  destruct answer; by simplify_eq.
Qed.

Section no_queue.
Context (e : RouterEnv) (c : ThreadCalls).

(** Take the calls of a thread apart. *)
Ltac calls E :=
  repeat match type of E with
  | exec_bind _ _ = Ret _ => let x := fresh "x" in let Ex := fresh "Ex" in apply exec_bind_inv in E as (x & Ex & E)
  | mbind _ _ = Ret _ => let x := fresh "x" in let Ex := fresh "Ex" in apply exec_bind_inv in E as (x & Ex & E)
  | context [match ?x with _ => _ end] => let Ex := fresh "Ex" in destruct x eqn:Ex; try discriminate E
  end;
  try (injection E as <-).

Lemma rmain_act_no_queue p q :
  ry_ipc (rp_st p) = None -> rmain_act e c p = Ret q ->
  ry_ipc (rp_st q) = None /\ rp_tcp q = rp_tcp p /\ (rp_main p <> RM_Create -> rp_router q = rp_router p).
Proof using Type.
  intros Hq E. unfold rmain_act in E.
  destruct (rp_main p) eqn:Hm; unfold store_flag, close_write_end, quit_message, receive_event, create_mgmt in E; calls E;
    cbn; rewrite ?close_pipe_ipc; try done;
    try (split; [|done]; first [by eapply no_queue_quit|by erewrite cleanup_ipc|by erewrite start_mgmt_ipc]).
  all: destruct (ne_mutex_ok e); cbn in *; split; [|done]; by erewrite start_mgmt_ipc.
Qed.

Lemma act_no_queue a p q : ry_ipc (rp_st p) = None -> ract e c a p = Ret q -> ry_ipc (rp_st q) = None.
Proof using Type.
  intros Hq E. unfold ract in E. case_bool_decide; [done|]. destruct a; [by eapply rmain_act_no_queue|..].
  all: unfold rsignal_act, take_signal, cancelled, router_act, try_connect, relay_notified, rmgmt_act, serve,
    begin_serving in E; calls E; cbn; try done.
  all: try (match goal with H : relay_send _ _ _ _ _ = _ |- _ => by rewrite (relay_send_ipc _ _ _ _ _ _ _ H) end).
  all: try (match goal with H : msgrcv _ _ _ _ _ = _ |- _ => rewrite Hq in H; by injection H end).
  match goal with H : notify_router _ _ = _ |- _ => rewrite Hq in H; by apply no_queue_notify in H end.
Qed.

Lemma calls_no_queue l : forall p q, ry_ipc (rp_st p) = None -> racts e c l p = Ret q -> ry_ipc (rp_st q) = None.
Proof using Type.
  induction l as [|a l IH]; intros p q Hq E; cbn [racts] in E; [by injection E as <-|].
  apply exec_bind_inv in E as (p1 & E1 & E). apply (IH p1); [|done].
  by eapply act_no_queue.
Qed.

(** ** The receiving router thread *)

(** It receives nothing and goes on. *)
Lemma receive_spins fd p : ry_ipc (rp_st p) = None -> rp_router p = RtRecv fd -> router_act c p = Ret p.
Proof using Type.
  intros Hq Hr. unfold router_act. rewrite Hr, Hq. cbn [msgrcv]. run. rewrite <- Hq. destruct p as [st]. by destruct st.
Qed.

(** No other thread moves it. *)
Lemma act_receiving fd a p q :
  ry_ipc (rp_st p) = None -> rp_router p = RtRecv fd -> rp_main p <> RM_Create -> ract e c a p = Ret q ->
  rp_router q = RtRecv fd /\ rp_tcp q = rp_tcp p.
Proof using Type.
  intros Hq Hr Hm E. unfold ract in E. case_bool_decide; [done|]. destruct a.
  1: { destruct (rmain_act_no_queue p q Hq E) as (_ & Ht & Hk). by rewrite Hk. }
  7: { rewrite (receive_spins fd) in E by done. by injection E as <-. }
  all: unfold rsignal_act, take_signal, cancelled, try_connect, relay_notified, rmgmt_act, serve,
    begin_serving in E; try rewrite Hr in E; calls E; by cbn.
Qed.

(** Only the Viewer's host moves a router thread that waits for it. *)
Lemma act_unanswered a p q :
  at_viewer p = true -> answered a = false -> rp_main p <> RM_Create -> ract e c a p = Ret q -> rp_router q = rp_router p.
Proof using Type.
  intros Hv Ha Hm E. unfold ract in E. case_bool_decide; [done|]. destruct a; try done.
  1: { unfold rmain_act in E. destruct (rp_main p) eqn:Em; try done;
       unfold store_flag, close_write_end, quit_message, receive_event, create_mgmt in E; calls E; cbn; try done.
       all: by destruct (ne_mutex_ok e). }
  7: { unfold at_viewer in Hv. unfold router_act in E. by destruct (rp_router p) as [| |fd []| | | | | |]. }
  all: unfold rsignal_act, take_signal, cancelled, rmgmt_act, serve, begin_serving in E; calls E; by cbn.
Qed.

Context (st0 : RouterSys) (shm0 : ShmSystem) (h0 : option ShmContext).
Abbreviation good := (good e c st0 shm0 h0).
Context (Hclose : forall s, attachments s = attachments shm0 -> forall id a,
  attachments (ry_shm st0) !! id = Some a -> attachments (shm_api_close h0 s) !! id = Some a).
Context (Htcp : forall fd, tc_tcp c = Some fd -> new_fd e st0 fd /\ ce_socket (tc_socket c) <> Some fd).
Context (Hsock : forall fd, ce_socket (tc_socket c) = Some fd -> 0 <= fd /\ new_fd e st0 fd).

(** A process whose router thread goes on has not ended, and has created it. *)
Lemma router_not_done p :
  good p -> rp_router p <> RtEnded -> rp_router p <> RtNone -> rp_main p <> RM_Done /\ rp_main p <> RM_Create.
Proof using Type.
  intros Hg Hr Hn. assert (rp_main p <> RM_Done) as Hd.
  { intros Hd. unfold good in Hg. rewrite decide_True in Hg by done. by destruct (en_router _ _ _ Hg). }
  split; [done|]. intros Hm. apply good_inv in Hg; [|done].
  pose proof (th_early _ (pi_threads _ _ _ _ _ _ Hg)) as H. rewrite Hm in H. by apply Hn, H.
Qed.

Lemma act_good a p q : good p -> ract e c a p = Ret q -> good q.
Proof using Hclose Htcp Hsock.
  intros Hg E. pose proof (ract_safe e c st0 shm0 h0 Hclose Htcp Hsock a p Hg) as H. by rewrite E in H.
Qed.

Lemma receiving_forever fd l : forall p q,
  good p -> ry_ipc (rp_st p) = None -> rp_router p = RtRecv fd -> racts e c l p = Ret q ->
  good q /\ ry_ipc (rp_st q) = None /\ rp_router q = RtRecv fd /\ rp_tcp q = rp_tcp p.
Proof using Hclose Htcp Hsock.
  induction l as [|a l IH]; intros p q Hg Hq Hr E; cbn [racts] in E; [by injection E as <-|].
  apply exec_bind_inv in E as (p1 & E1 & E).
  pose proof (act_good a p p1 Hg E1) as Hg1.
  destruct (router_not_done p Hg ltac:(by rewrite Hr) ltac:(by rewrite Hr)) as [_ Hm].
  destruct (act_receiving fd a p p1 Hq Hr Hm E1) as [Hr1 Ht1].
  destruct (IH p1 q Hg1 (act_no_queue a p p1 Hq E1) Hr1 E) as (? & ? & ? & Ht). by rewrite Ht.
Qed.

Lemma viewer_not_done p : good p -> at_viewer p = true -> rp_main p <> RM_Done /\ rp_main p <> RM_Create.
Proof using Type. intros Hg Hv. unfold at_viewer in Hv. apply router_not_done; by destruct (rp_router p). Qed.

Lemma unanswered_forever l : forall p q,
  good p -> at_viewer p = true -> Forall (fun a => answered a = false) l -> racts e c l p = Ret q ->
  good q /\ rp_router q = rp_router p.
Proof using Hclose Htcp Hsock.
  induction l as [|a l IH]; intros p q Hg Hv Hl E; cbn [racts] in E; [by injection E as <-|].
  apply exec_bind_inv in E as (p1 & E1 & E). apply Forall_cons in Hl as [Ha Hl].
  destruct (viewer_not_done p Hg Hv) as [_ Hm]. pose proof (act_unanswered a p p1 Hv Ha Hm E1) as Hr.
  destruct (IH p1 q (act_good a p p1 Hg E1)) as [? Hr']; [unfold at_viewer in *; by rewrite Hr|done|done|].
  by rewrite Hr'.
Qed.
End no_queue.

(** * Properties *)

(** C11: without the notification queue the Router never ends.  When msgget for
    that queue has failed, which [main] does not treat as an error, and the
    router thread is connected, that thread stays at its msgrcv for good, which
    fails at once each time (the thread spins), nothing is sent to the Viewer,
    and the process never comes to its end, whatever signals, requests and
    notifications come and however the threads are scheduled. *)
Theorem router_process_spins e c now st p l q fd :
  process_start e c now st -> ne_ipc_ok e = false ->
  launch e now st = Ret (inr p) -> racts e c l p = Ret q -> rp_router q = RtRecv fd ->
  forall l' r, racts e c l' q = Ret r ->
    rp_router r = RtRecv fd /\ ract e c ARouter r = Ret r /\ rp_tcp r = rp_tcp q /\ rp_main r <> RM_Done.
Proof.
  intros [Hb Hnow Htcp Hsock] Hok El Eq Hr l' r Er. destruct (launch_launched e now st p Hb El) as (h & st1 & Hl & ->).
  pose proof (launched_good e c now st h st1 l ltac:(by split) Hl) as Hg. rewrite Eq in Hg.
  pose proof (ld_ipc _ _ _ _ Hl) as Hn. rewrite Hok in Hn. apply (calls_no_queue e c l) in Eq; [|done].
  destruct (receiving_forever e c st _ _ (ld_close _ _ _ _ Hl) Htcp Hsock fd l' q r Hg Eq Hr Er) as (Hgr & Hq & Hrr & Ht).
  destruct (router_not_done _ _ _ _ _ r Hgr) as [Hd _]; [by rewrite Hrr..|]. split; [done|]. split; [|done].
  unfold ract. rewrite bool_decide_false by done. by apply receive_spins with fd.
Qed.

(** While the router thread is in connect or send and the Viewer's host does not
    answer, the Router does not end, whatever signals and requests come and
    however the threads are scheduled. *)
Theorem router_process_unanswered e c now st p l q :
  process_start e c now st -> launch e now st = Ret (inr p) -> racts e c l p = Ret q -> at_viewer q = true ->
  forall l' r, Forall (fun a => answered a = false) l' -> racts e c l' q = Ret r ->
    rp_router r = rp_router q /\ rp_main r <> RM_Done.
Proof.
  intros [Hb Hnow Htcp Hsock] El Eq Hv l' r Hl' Er. destruct (launch_launched e now st p Hb El) as (h & st1 & Hl & ->).
  pose proof (launched_good e c now st h st1 l ltac:(by split) Hl) as Hg. rewrite Eq in Hg.
  destruct (unanswered_forever e c st _ _ (ld_close _ _ _ _ Hl) Htcp Hsock l' q r Hg Hv Hl' Er) as [Hgr Hr].
  split; [done|]. eapply viewer_not_done; [done|]. unfold at_viewer in *. by rewrite Hr.
Qed.

(** ** Concrete run *)

(** The same Router with a failing msgget for the notifications.  SIGTERM comes
    when it is connected, and the threads go as far as they can. *)
Definition demo_no_queue_env : RouterEnv :=
  mkRouterEnv (Some (mkQueue [] 16384)) false false (granting 7) (Some (3, 4)) true true true true
    true true true true [] (zeros 4) None None None.

Definition demo_no_queue_end : list raction :=
  [ADeliver SIGTERM; ATake SIGTERM; ASignal; AMain; AMain; AMain; AMain; AMain; ARouter; AMain; AMain; AMain;
   ARequest (mkProcessEnv true RecvError (zeros 600) true); AMgmt; AMgmt; AMain; ARouter].

Lemma demo_no_queue_start : process_start demo_no_queue_env demo_calls (mkTimespec 100 0) demo_router_start.
Proof.
  destruct demo_router_process_start as [[Hg He Hq Hs Hp] Hn Ht Hk]. split; [|exact Hn|exact Ht|exact Hk].
  split; [exact Hg|exact He|exact Hq|exact Hs|exact Hp].
Qed.

Lemma router_process_spins_witness :
  exists p q r, launch demo_no_queue_env (mkTimespec 100 0) demo_router_start = Ret (inr p) /\
    racts demo_no_queue_env demo_calls (take 10 demo_begin) p = Ret q /\
    racts demo_no_queue_env demo_calls demo_no_queue_end q = Ret r /\ rp_main r = RM_JoinRouter /\
    rp_router r = RtRecv 5 /\ ract demo_no_queue_env demo_calls ARouter r = Ret r.
Proof.
  destruct (launch demo_no_queue_env (mkTimespec 100 0) demo_router_start) as [[st'|p]| |] eqn:El;
    [exfalso; vm_compute in El; discriminate| |exfalso; vm_compute in El; discriminate..].
  exists p.
  assert (match launch demo_no_queue_env (mkTimespec 100 0) demo_router_start with
          | Ret (inr p) => match racts demo_no_queue_env demo_calls (take 10 demo_begin) p with
                           | Ret q => match racts demo_no_queue_env demo_calls demo_no_queue_end q with
                                      | Ret r => Some (rp_router q, rp_main r) | _ => None end
                           | _ => None end
          | _ => None end = Some (RtRecv 5, RM_JoinRouter)) as E by (vm_compute; reflexivity).
  rewrite El in E.
  destruct (racts demo_no_queue_env demo_calls (take 10 demo_begin) p) as [q| |] eqn:Eq; [|discriminate E..].
  destruct (racts demo_no_queue_env demo_calls demo_no_queue_end q) as [r| |] eqn:Er; [|discriminate E..].
  injection E as E1 E2. exists q, r.
  destruct (router_process_spins demo_no_queue_env demo_calls (mkTimespec 100 0) demo_router_start p (take 10 demo_begin) q 5
    demo_no_queue_start eq_refl El Eq E1 demo_no_queue_end r Er) as (Hr & Ha & _ & _).
  repeat split; assumption || reflexivity.
Defined.
