(* ===== verification/RouterRemote.v ===== *)
(** * A remote shutdown of the Router (mgmtctl, mgmt_worker.c, Router/src/main.c)

    The management client of MgmtCtl talks to the process of RouterProcess: the
    request travels through the socket, the dispatcher and the SHUTDOWN handler
    into the main queue, and the process of RouterProgress comes to an end. *)

From S2P Require Import Prelude CLib MgmtProtocol EventHandler MgmtSocket Handlers Ipc ShmData Shm RouterMsg.
From S2P Require Import RouterMgmt RouterServe MgmtCtl Router RouterThreads RouterProcess RouterProgress.

(** The network between the client and a Router whose management thread has the
    next calls; [stack] is the memory under its request object.  A thread that
    waits for room in the main queue keeps the request. *)
Definition router_net (e : RouterEnv) (c : ThreadCalls) (stack : list byte) (p : RProc)
    (to from data : list byte) : delivery * RProc :=
  if negb (bool_decide (to = MGMT_SOCKET_PATH_ROUTER)) then (SendFails, p)
  else
    match ract e c (ARequest (mkProcessEnv true (RecvFrom data from) stack true)) p with
    | Ret p1 =>
        match ract e c AMgmt p1 with
        | Ret p2 =>
            match drop (length (rp_sent p)) (rp_sent p2) with
            | [(client, d)] => (if bool_decide (client = from) then Reply d else NoReply, p2)
            | _ => (NoReply, p2)
            end
        | _ => (NoReply, p1)
        end
    | _ => (NoReply, p)
    end.

(** The main queue takes one more event. *)
Definition event_fits (q : option MsgQueue) : bool :=
  match send_signal_event q SIGTERM with Ret _ => true | _ => false end.

(** * Lemmas *)

Lemma fits_ready ctx w :
  is_Some (rw_ctxs w !! ctx) -> wf_timespec (rw_now w) -> is_Some (rw_queue w) ->
  event_fits (rw_queue w) = true -> router_ready ctx w.
Proof.
  intros Hc Hn [q Hq] Hf. split; [done|]. split; [done|]. exists q. split; [done|]. revert Hf.
  unfold event_fits, send_signal_event. destruct (build_signal SIGTERM) as (m & -> & Hm & _);
    [by split; vm_compute; congruence|done|]. run. rewrite Hq. unfold send_to_main, msgsnd. rewrite (wm_type _ Hm).
  cbn [MSG_TYPE Z.leb Z.compare]. destruct (room q (msg_body m)) eqn:Er; [|done]. intros _.
  unfold room in Er. rewrite length_msg_body in Er by done. apply andb_true_iff in Er as [E1%Z.leb_le E2%Z.leb_le]. lia.
Qed.

(** The client's request stops the Router. *)
Lemma request_stops q client stack :
  wf_request q -> mgmt_request_validate (Some q) = 1 -> rq_cmd_type q = MGMT_CMD_SHUTDOWN ->
  cstring (rq_target_module q) = Some (bs "router") -> length stack = MGMT_REQUEST_SIZE ->
  stops (mkProcessEnv true (RecvFrom (encode_request q) client) stack true) = true.
Proof.
  intros Hq Hv Hc Ht Hs. unfold stops. cbn [pe_setsockopt pe_recv pe_stack andb].
  rewrite recv_into_full by (by rewrite length_encode_request, Hs).
  rewrite decode_encode_request_wf by done. unfold stop_request.
  by rewrite Hv, Hc, Ht, bool_decide_true.
Qed.

Section request.
Context (e : RouterEnv) (c : ThreadCalls) (st0 : RouterSys) (shm0 : ShmSystem) (h0 : option ShmContext).
Abbreviation inv := (rp_inv e c st0 shm0 h0).

(** A SHUTDOWN served while the main queue has room. *)
Lemma shutdown_served q client stack ms p :
  inv p -> request_for "router" q -> rq_cmd_type q = MGMT_CMD_SHUTDOWN -> length stack = MGMT_REQUEST_SIZE ->
  let pe := mkProcessEnv true (RecvFrom (encode_request q) client) stack true in
  rp_mgmt p = MgServe ms pe -> event_fits (ry_main (rp_st p)) = true ->
  exists r resp, serve ms pe p = Ret r /\ rp_sent r = rp_sent p ++ [(client, encode_response resp)] /\
    answers "router" (bs "shutdown initiated") (rp_now p) q resp /\ stop_asked c r = true.
Proof using Type.
  intros Hi Hq Hcmd Hst pe Em Hf. pose proof (pi_data _ _ _ _ _ _ Hi) as Hd.
  pose proof (pi_registry _ _ _ _ _ _ Hi) as (_ & _ & _ & Hg). rewrite Em in Hg.
  destruct Hg as (_ & Hserv%serves_only_serving & Hctx); [done|].
  destruct (de_socket _ _ _ _ (pd_fds _ _ _ _ _ _ Hd) ms ltac:(by rewrite Em)) as (_ & Hms & _).
  destruct (@module_dispatch RouterWorld router_module ROUTER_CTX _ q (router_world p) Hserv Hq) as [Hk _].
  { apply fits_ready; [done|apply Hd|apply Hd|done]. }
  destruct Hk as (info & resp & r' & w' & _ & Hdis & Ha & _ & _ & Hw); [rewrite Hcmd; by right; right|].
  rewrite Hcmd in Hw, Ha. destruct Hw as (mq & m & _ & _ & _ & _ & Hw). destruct Hq as [Hq _].
  unfold serve. rewrite (process_one_dispatched router_invoke pe (encode_request q) client ms 1000 _ _ 0 resp r' w');
    [|done|done|done|cbn [pe pe_stack]; rewrite recv_into_full by (by rewrite length_encode_request, Hst);
      by rewrite decode_encode_request_wf].
  run. do 2 eexists. split; [done|]. split; [done|]. split; [exact Ha|]. unfold stop_asked. cbn. rewrite Hw. cbn.
  destruct (q_messages mq); by rewrite ?orb_true_r.
Qed.
End request.

(** * Properties *)


(** ** Concrete run *)

