(* ===== verification/Viewer.v ===== *)
(** * The Viewer's threads (Viewer/src/main.c, signal_thread.c, tcp_worker.c)

    First the TCP thread with its sockets and output, then the process as an
    interleaving of its four threads (main, signal, TCP, management) around the
    mutex, the condition variable, the flags, the pipe and the pending signals
    of the application context.  Log output is left out. *)

From S2P Require Import Prelude CLib MgmtSocket NetworkConfig RouterMgmt.

(** ** The TCP thread *)

Definition TCP_RECV_BUF_SIZE : nat := 2048.

(** What poll(2) answers: interrupted, failed, the pipe readable, the watched
    socket readable, or neither.  With the socket come the answers of accept(2)
    ([None]: failure) and recv(2) ([None]: an error or the end of the stream),
    of which the code asks for one. *)
Inductive poll_event :=
| PollInterrupted | PollFailed | PipeReadable
| SocketReadable (accepted : option Z) (received : option (list byte)) | PollOther.

(** An iteration: the flag it finds, the event, the stack under [buffer]. *)
Record TcpIteration := mkTcpIteration {
  ti_requested : bool; ti_event : poll_event; ti_stack : list byte }.

(** What is printed for one reception. *)
Definition RULE : list byte := bs "----------------------------------------" ++ [x0a].

Definition HEADING : list byte := bs "📥 【TCP受信データ】" ++ [x0a].

Definition printed (text : list byte) : list byte := RULE ++ HEADING ++ text ++ RULE ++ [x0a].

(** The loop: whether it has ended, the client and the output. *)
Fixpoint tcp_loop (its : list TcpIteration) (client : option Z) (s : Sys) (out : list byte)
    : option (bool * option Z * Sys * list byte) :=
  match its with
  | [] => Some (false, client, s, out)
  | it :: its' =>
      if ti_requested it then Some (true, client, s, out)
      else
        match ti_event it with
        | PollInterrupted | PollOther => tcp_loop its' client s out
        | PollFailed | PipeReadable => Some (true, client, s, out)
        | SocketReadable accepted received =>
            match client with
            | None =>
                match accepted with
                | Some fd => tcp_loop its' (Some fd) (sys_open fd s) out
                | None => tcp_loop its' None s out
                end
            | Some c =>
                let d := default [] received in
                let n := Nat.min (length d) (TCP_RECV_BUF_SIZE - 1) in
                if (n =? 0)%nat then tcp_loop its' None (sys_close c s) out
                else
                  buffer ← store (take n d ++ drop n (ti_stack it)) n x00;
                  text ← cstring buffer;
                  tcp_loop its' client s (out ++ printed text)
            end
        end
  end.

Definition close_client (c : option Z) (s : Sys) : Sys :=
  match c with Some c => sys_close c s | None => s end.

Definition tcp_worker (server : option Z) (bind_ok listen_ok : bool) (its : list TcpIteration)
    (s : Sys) : option (bool * Sys * list byte) :=
  match server with
  | None => Some (true, s, [])
  | Some fd =>
      let s := sys_open fd s in
      if negb bind_ok then Some (true, sys_close fd s, [])
      else if negb listen_ok then Some (true, sys_close fd s, [])
      else
        '(ended, client, s, out) ← tcp_loop its None s [];
        if negb ended then Some (false, s, out)
        else Some (true, sys_close fd (close_client client s), out)
  end.

(** ** The threads

    One step is one call or one access to shared state.  [pthread_cond_wait]
    releases the mutex and sleeps in one step; a sleeper wakes by a signal (or
    for no reason) and then takes the mutex again. *)

Inductive thread := ThMain | ThSignal | ThMgmt.

#[export] Instance thread_eq_dec : EqDecision thread.
Proof. solve_decision. Defined.

(** Where each thread is. *)
Inductive main_pc :=
| MLockReady | MTestReady | MWaitReady | MWakeReady | MUnlockReady
| MStart | MStartMgmt | MFailLock | MFailCrit
| MLockStop | MTestStop | MWaitStop | MWakeStop | MUnlockStop
| MStore | MKill | MWrite | MJoinSignal | MJoinTcp | MJoinMgmt | MRelease | MDone.

Inductive signal_pc := SLockReady | SCritReady | SWait | SLock | SCrit | SDone.
Inductive tcp_pc := TNone | TStart | TLoop | TPoll | TDone.
Inductive mgmt_pc := GNone | GLoop | GRecv | GStop | GLock | GCrit | GDone.

Record VState := mkV {
  v_mtx : option thread; v_requested : bool; v_ready : bool; v_running : bool;
  v_pipe_byte : bool; v_term : bool; v_usr1 : bool; v_pipe : bool; v_registry : bool;
  v_main : main_pc; v_signal : signal_pc; v_tcp : tcp_pc; v_mgmt : mgmt_pc }.

Definition set_mtx (s : VState) m := mkV m (v_requested s) (v_ready s) (v_running s) (v_pipe_byte s)
  (v_term s) (v_usr1 s) (v_pipe s) (v_registry s) (v_main s) (v_signal s) (v_tcp s) (v_mgmt s).
Definition set_requested (s : VState) := mkV (v_mtx s) true (v_ready s) (v_running s) (v_pipe_byte s)
  (v_term s) (v_usr1 s) (v_pipe s) (v_registry s) (v_main s) (v_signal s) (v_tcp s) (v_mgmt s).
Definition set_ready (s : VState) := mkV (v_mtx s) (v_requested s) true (v_running s) (v_pipe_byte s)
  (v_term s) (v_usr1 s) (v_pipe s) (v_registry s) (v_main s) (v_signal s) (v_tcp s) (v_mgmt s).
Definition stop_mgmt (s : VState) := mkV (v_mtx s) (v_requested s) (v_ready s) false (v_pipe_byte s)
  (v_term s) (v_usr1 s) (v_pipe s) (v_registry s) (v_main s) (v_signal s) (v_tcp s) (v_mgmt s).
Definition write_pipe (s : VState) := mkV (v_mtx s) (v_requested s) (v_ready s) (v_running s) true
  (v_term s) (v_usr1 s) (v_pipe s) (v_registry s) (v_main s) (v_signal s) (v_tcp s) (v_mgmt s).
Definition set_term (s : VState) b := mkV (v_mtx s) (v_requested s) (v_ready s) (v_running s)
  (v_pipe_byte s) b (v_usr1 s) (v_pipe s) (v_registry s) (v_main s) (v_signal s) (v_tcp s) (v_mgmt s).
Definition set_usr1 (s : VState) b := mkV (v_mtx s) (v_requested s) (v_ready s) (v_running s)
  (v_pipe_byte s) (v_term s) b (v_pipe s) (v_registry s) (v_main s) (v_signal s) (v_tcp s) (v_mgmt s).
Definition set_resources (s : VState) p r := mkV (v_mtx s) (v_requested s) (v_ready s) (v_running s)
  (v_pipe_byte s) (v_term s) (v_usr1 s) p r (v_main s) (v_signal s) (v_tcp s) (v_mgmt s).
Definition at_main (s : VState) p := mkV (v_mtx s) (v_requested s) (v_ready s) (v_running s)
  (v_pipe_byte s) (v_term s) (v_usr1 s) (v_pipe s) (v_registry s) p (v_signal s) (v_tcp s) (v_mgmt s).
Definition at_signal (s : VState) p := mkV (v_mtx s) (v_requested s) (v_ready s) (v_running s)
  (v_pipe_byte s) (v_term s) (v_usr1 s) (v_pipe s) (v_registry s) (v_main s) p (v_tcp s) (v_mgmt s).
Definition at_tcp (s : VState) p := mkV (v_mtx s) (v_requested s) (v_ready s) (v_running s)
  (v_pipe_byte s) (v_term s) (v_usr1 s) (v_pipe s) (v_registry s) (v_main s) (v_signal s) p (v_mgmt s).
Definition at_mgmt (s : VState) p := mkV (v_mtx s) (v_requested s) (v_ready s) (v_running s)
  (v_pipe_byte s) (v_term s) (v_usr1 s) (v_pipe s) (v_registry s) (v_main s) (v_signal s) (v_tcp s) p.

(** Locking: possible when the mutex is free. *)
Definition acquire (t : thread) (s : VState) : list VState :=
  match v_mtx s with None => [set_mtx s (Some t)] | Some _ => [] end.

Definition release (s : VState) : VState := set_mtx s None.

(** [pthread_cond_signal]: only the main thread ever waits. *)
Definition cond_signal (s : VState) : VState :=
  match v_main s with
  | MWaitReady => at_main s MWakeReady
  | MWaitStop => at_main s MWakeStop
  | _ => s
  end.

Section threads.
(** What the calls of [main] and of the TCP thread answer: the registry, the
    registration of the handlers, the management thread; the TCP sockets. *)
Variables registry_ok register_ok create_ok tcp_ok : bool.

Definition mgmt_ok : bool := registry_ok && register_ok && create_ok.

(** The successors of a state by a step of the main thread. *)
Definition main_step (s : VState) : list VState :=
  match v_main s with
  | MLockReady | MWakeReady => (fun s => at_main s MTestReady) <$> acquire ThMain s
  | MTestReady =>
      [if v_ready s then at_main s MUnlockReady else at_main (release s) MWaitReady]
  | MUnlockReady => [at_main (release s) MStart]
  | MStart => [at_main (at_tcp s TStart) MStartMgmt]
  | MStartMgmt =>
      let s := set_resources s (v_pipe s) registry_ok in
      [if mgmt_ok then at_main (at_mgmt s GLoop) MLockStop else at_main s MFailLock]
  | MFailLock => (fun s => at_main s MFailCrit) <$> acquire ThMain s
  | MFailCrit => [at_main (release (cond_signal (set_requested s))) MLockStop]
  | MLockStop | MWakeStop => (fun s => at_main s MTestStop) <$> acquire ThMain s
  | MTestStop =>
      [if v_requested s then at_main s MUnlockStop else at_main (release s) MWaitStop]
  | MUnlockStop => [at_main (release s) MStore]
  | MStore => [at_main (stop_mgmt s) MKill]
  | MKill => [at_main (set_usr1 s true) MWrite]
  | MWrite => [at_main (write_pipe s) MJoinSignal]
  | MJoinSignal => match v_signal s with SDone => [at_main s MJoinTcp] | _ => [] end
  | MJoinTcp => match v_tcp s with TDone => [at_main s MJoinMgmt] | _ => [] end
  | MJoinMgmt => match v_mgmt s with GDone | GNone => [at_main s MRelease] | _ => [] end
  | MRelease => [at_main (set_resources s false false) MDone]
  | MWaitReady | MWaitStop | MDone => []
  end.

(** The signal thread; a pending signal is taken by sigwait(3). *)
Definition signal_step (s : VState) : list VState :=
  match v_signal s with
  | SLockReady => (fun s => at_signal s SCritReady) <$> acquire ThSignal s
  | SCritReady => [at_signal (release (cond_signal (set_ready s))) SWait]
  | SWait => (if v_term s then [at_signal (set_term s false) SLock] else []) ++
             (if v_usr1 s then [at_signal (set_usr1 s false) SDone] else [])
  | SLock => (fun s => at_signal s SCrit) <$> acquire ThSignal s
  | SCrit => [at_signal (release (cond_signal (set_requested s))) SWait]
  | SDone => []
  end.

(** The TCP thread, as far as it ends. *)
Definition tcp_step (s : VState) : list VState :=
  match v_tcp s with
  | TStart => [at_tcp s (if tcp_ok then TLoop else TDone)]
  | TLoop => [at_tcp s (if v_requested s then TDone else TPoll)]
  | TPoll => if v_pipe_byte s then [at_tcp s TDone] else []
  | TNone | TDone => []
  end.

(** The management thread, in its loop and in the SHUTDOWN handler; its
    receive times out, and matters once the flag is cleared. *)
Definition mgmt_step (s : VState) : list VState :=
  match v_mgmt s with
  | GLoop => [at_mgmt s (if v_running s then GRecv else GDone)]
  | GRecv => if v_running s then [] else [at_mgmt s GLoop]
  | GStop => [at_mgmt (stop_mgmt s) GLock]
  | GLock => (fun s => at_mgmt s GCrit) <$> acquire ThMgmt s
  | GCrit => [at_mgmt (release (cond_signal (set_requested s))) GLoop]
  | GNone | GDone => []
  end.

Definition successors (s : VState) : list VState :=
  main_step s ++ signal_step s ++ tcp_step s ++ mgmt_step s.

Definition internal (s s' : VState) : Prop := s' ∈ successors s.

(** What comes from outside: signals, a SHUTDOWN request, a timeout of the
    management socket, network events, a poll(2) that fails, a management socket
    that cannot be created, a wake-up without a signal. *)
Inductive external : VState -> VState -> Prop :=
| ex_term s : external s (set_term s true)
| ex_usr1 s : external s (set_usr1 s true)
| ex_shutdown s : v_mgmt s = GRecv -> external s (at_mgmt s GStop)
| ex_timeout s : v_mgmt s = GRecv -> external s (at_mgmt s GLoop)
| ex_network s : v_tcp s = TPoll -> external s (at_tcp s TLoop)
| ex_poll_failed s : v_tcp s = TPoll -> external s (at_tcp s TDone)
| ex_no_socket s : v_mgmt s = GLoop -> external s (at_mgmt s GDone)
| ex_spurious s : v_main s = MWaitReady \/ v_main s = MWaitStop -> external s (cond_signal s).

Definition vstep (s s' : VState) : Prop := internal s s' \/ external s s'.
End threads.

(** After the creation of the pipe and of the signal thread. *)
Definition v_initial : VState :=
  mkV None false false true false false false true false MLockReady SLockReady TNone GNone.

(** * Lemmas *)

(** ** The invariant *)

Definition main_holds (p : main_pc) : bool :=
  match p with MTestReady | MUnlockReady | MFailCrit | MTestStop | MUnlockStop => true | _ => false end.
Definition signal_holds (p : signal_pc) : bool :=
  match p with SCritReady | SCrit => true | _ => false end.
Definition mgmt_holds (p : mgmt_pc) : bool := match p with GCrit => true | _ => false end.

Definition signal_ready (p : signal_pc) : bool :=
  match p with SLockReady | SCritReady => false | _ => true end.

(** How far the main thread has come. *)
Definition main_rank (p : main_pc) : nat :=
  match p with
  | MLockReady => 50 | MWakeReady => 49 | MTestReady => 48 | MWaitReady => 44 | MUnlockReady => 43
  | MStart => 42 | MStartMgmt => 41 | MFailLock => 32 | MFailCrit => 31
  | MLockStop => 30 | MWakeStop => 29 | MTestStop => 28 | MWaitStop => 24 | MUnlockStop => 23
  | MStore => 22 | MKill => 21 | MWrite => 20 | MJoinSignal => 19 | MJoinTcp => 18
  | MJoinMgmt => 17 | MRelease => 16 | MDone => 15
  end%nat.

Definition main_early (p : main_pc) : bool := (42 <=? main_rank p)%nat.
Definition past (n : nat) (p : main_pc) : bool := (main_rank p <=? n)%nat.

Record vinv (s : VState) : Prop := {
  vi_main : main_holds (v_main s) = true <-> v_mtx s = Some ThMain;
  vi_signal : signal_holds (v_signal s) = true <-> v_mtx s = Some ThSignal;
  vi_mgmt : mgmt_holds (v_mgmt s) = true <-> v_mtx s = Some ThMgmt;
  vi_ready : v_ready s = signal_ready (v_signal s);
  vi_sleep_ready : v_main s = MWaitReady -> v_ready s = false;
  vi_past_ready : past 43 (v_main s) = true -> v_ready s = true;
  vi_tcp : v_tcp s = TNone <-> main_early (v_main s) = true;
  vi_none : (41 <=? main_rank (v_main s))%nat = true -> v_mgmt s = GNone;
  vi_sleep_stop : v_main s = MWaitStop -> v_requested s = false;
  vi_past_stop : past 23 (v_main s) = true -> v_requested s = true;
  vi_store : past 21 (v_main s) = true -> v_running s = false;
  vi_kill : past 20 (v_main s) = true -> v_usr1 s = true \/ v_signal s = SDone;
  vi_write : past 19 (v_main s) = true -> v_pipe_byte s = true;
  vi_joined_signal : past 18 (v_main s) = true -> v_signal s = SDone;
  vi_joined_tcp : past 17 (v_main s) = true -> v_tcp s = TDone;
  vi_joined_mgmt : past 16 (v_main s) = true -> v_mgmt s = GDone \/ v_mgmt s = GNone;
  vi_done : v_main s = MDone -> v_pipe s = false /\ v_registry s = false }.

Lemma vinv_initial : vinv v_initial.
Proof. by split. Qed.

(** Take a membership in the successors apart. *)
Ltac successors_cases H :=
  repeat match type of H with
  | _ ∈ _ ++ _ => apply elem_of_app in H as [H|H]
  | _ ∈ [_] => apply list_elem_of_singleton in H
  | _ ∈ [] => by apply not_elem_of_nil in H
  | _ ∈ _ <$> _ => apply list_elem_of_fmap in H as (? & ? & H)
  | _ ∈ acquire _ _ => unfold acquire in H
  | _ ∈ match ?x with _ => _ end => let E := fresh "E" in destruct x eqn:E
  | _ ∈ (if ?x then _ else _) => let E := fresh "E" in destruct x eqn:E
  end.

(** Discharge one field of the invariant after a step. *)
Ltac vsolve :=
  try assumption; try discriminate;
  repeat match goal with
  | H : ?a = ?a -> _ |- _ => specialize (H eq_refl)
  | H : _ /\ _ |- _ => destruct H
  | H : ?a = ?b -> _ |- _ => clear H; assert (a <> b) as _ by discriminate
  | H : _ <-> _ |- _ => destruct H
  end;
  subst; cbn in *;
  first [done | by intros; auto | by split; intros; auto; congruence
        | intros; intuition congruence].

Lemma main_step_inv r1 r2 r3 s s' : vinv s -> s' ∈ main_step r1 r2 r3 s -> vinv s'.
Proof.
  intros [] H. destruct s as [m rq rd rn pb tm us pi rg mp sp tp gp]; cbn in *.
  unfold main_step in H. cbn [v_main] in H. destruct mp; successors_cases H; subst; cbn in *;
   repeat match goal with |- context [if ?b then _ else _] => destruct b eqn:? end;
   cbn in *; split; cbn; vsolve.
Qed.

Lemma signal_step_inv s s' : vinv s -> s' ∈ signal_step s -> vinv s'.
Proof.
  intros [] H. destruct s as [m rq rd rn pb tm us pi rg mp sp tp gp]; cbn in *.
  unfold signal_step in H. cbn [v_signal] in H. destruct sp; successors_cases H; subst; cbn in *.
  2, 6: unfold cond_signal; cbn; destruct mp; cbn in *; split; cbn; vsolve.
  all: cbn in *; split; cbn; vsolve.
Qed.

Lemma tcp_step_inv ok s s' : vinv s -> s' ∈ tcp_step ok s -> vinv s'.
Proof.
  intros [] H. destruct s as [m rq rd rn pb tm us pi rg mp sp tp gp]; cbn in *.
  unfold tcp_step in H. cbn [v_tcp] in H. destruct tp; successors_cases H; subst; cbn in *;
    repeat match goal with |- context [if ?b then _ else _] => destruct b eqn:? end;
    cbn in *; split; cbn; vsolve.
Qed.

Lemma mgmt_step_inv s s' : vinv s -> s' ∈ mgmt_step s -> vinv s'.
Proof.
  intros [] H. destruct s as [m rq rd rn pb tm us pi rg mp sp tp gp]; cbn in *.
  unfold mgmt_step in H. cbn [v_mgmt] in H. destruct gp; successors_cases H; subst; cbn in *.
  5: unfold cond_signal; cbn; destruct mp; cbn in *; split; cbn; vsolve.
  all: repeat match goal with |- context [if ?b then _ else _] => destruct b eqn:? end;
    cbn in *; split; cbn; vsolve.
Qed.

Lemma external_inv s s' : vinv s -> external s s' -> vinv s'.
Proof.
  intros Hi H. pose proof Hi as []. destruct H as [s|s|s Hp|s Hp|s Hp|s Hp|s Hp|s Hp];
    destruct s as [m rq rd rn pb tm us pi rg mp sp tp gp]; cbn in *; subst; unfold cond_signal; cbn.
  8: destruct Hp; subst; cbn in *; split; cbn; vsolve.
  all: cbn in *; split; cbn; vsolve.
Qed.

Lemma vstep_inv r1 r2 r3 tk s s' : vinv s -> vstep r1 r2 r3 tk s s' -> vinv s'.
Proof.
  intros Hi [H|H]; [|by eapply external_inv].
  unfold internal, successors in H. rewrite !elem_of_app in H.
  destruct H as [H|[H|[H|H]]]; eauto using main_step_inv, signal_step_inv, tcp_step_inv, mgmt_step_inv.
Qed.

Lemma reachable_inv r1 r2 r3 tk s : rtc (vstep r1 r2 r3 tk) v_initial s -> vinv s.
Proof.
  intros H. eapply rtc_invariant; [intros a b; apply vstep_inv|apply vinv_initial|done].
Qed.

(** ** Progress *)

Definition signal_rank (p : signal_pc) : nat :=
  match p with
  | SLockReady => 40 | SCritReady => 39 | SLock => 25 | SCrit => 24 | SWait => 10 | SDone => 0
  end%nat.
Definition tcp_rank (p : tcp_pc) : nat :=
  match p with TNone => 5 | TStart => 4 | TLoop => 3 | TPoll => 2 | TDone => 0 end%nat.
Definition mgmt_rank (running : bool) (p : mgmt_pc) : nat :=
  match p with
  | GNone => 6 | GLoop => if running then 4 else 2 | GRecv => 3 | GStop => 26 | GLock => 25
  | GCrit => 24 | GDone => 0
  end%nat.

(** An upper bound on the steps the threads can still do by themselves. *)
Definition measure (s : VState) : nat :=
  (main_rank (v_main s) + signal_rank (v_signal s) + tcp_rank (v_tcp s) +
   mgmt_rank (v_running s) (v_mgmt s) + (if v_term s then 20 else 0))%nat.

Ltac measure_cases :=
  cbn in *;
  repeat (match goal with
  | |- context [if ?b then _ else _] =>
      lazymatch b with context [if _ then _ else _] => fail | _ => destruct b end
  end; cbn in *);
  cbn in *; first [lia|congruence].

Lemma internal_measure r1 r2 r3 tk s s' :
  vinv s -> internal r1 r2 r3 tk s s' -> (measure s' < measure s)%nat.
Proof.
  unfold internal, successors. rewrite !elem_of_app. unfold measure.
  destruct s as [m rq rd rn pb tm us pi rg mp sp tp gp]. intros [_ _ _ _ _ _ Ht Hg _ _ _ _ _ _ _ _ _] [H|[H|[H|H]]].
  - cbn in Ht, Hg. unfold main_step in H. cbn [v_main] in H.
    destruct mp; cbn in Ht, Hg;
      try (specialize (Hg eq_refl); destruct Ht as [_ Ht]; specialize (Ht eq_refl); subst tp gp);
      successors_cases H; subst; cbn in *; subst; try destruct gp; measure_cases.
  - clear Ht Hg. unfold signal_step in H. cbn [v_signal] in H. destruct sp; successors_cases H; subst; cbn in *;
      subst; unfold cond_signal; cbn; try destruct mp; measure_cases.
  - unfold tcp_step in H. cbn [v_tcp] in H. destruct tp; successors_cases H; subst; cbn in *;
      measure_cases.
  - clear Ht Hg. unfold mgmt_step in H. cbn [v_mgmt] in H. destruct gp; successors_cases H; subst; cbn in *;
      subst; unfold cond_signal; cbn; try destruct mp; measure_cases.
Qed.

(** The threads never block one another once a shutdown has been requested. *)
Lemma requested_progress r1 r2 r3 tk s :
  vinv s -> v_requested s = true -> successors r1 r2 r3 tk s = [] -> v_main s = MDone.
Proof.
  intros [] Hreq E. unfold successors in E.
  apply app_eq_nil in E as [E1 E]. apply app_eq_nil in E as [E2 E].
  apply app_eq_nil in E as [E3 E4].
  destruct s as [m rq rd rn pb tm us pi rg mp sp tp gp]; cbn in *. subst rq.
  destruct m as [[]|].
  - apply proj2 in vi_main0. specialize (vi_main0 eq_refl). by destruct mp.
  - apply proj2 in vi_signal0. specialize (vi_signal0 eq_refl). by destruct sp.
  - apply proj2 in vi_mgmt0. specialize (vi_mgmt0 eq_refl). by destruct gp.
  - destruct mp; try done.
    + specialize (vi_sleep_ready0 eq_refl). rewrite vi_sleep_ready0 in vi_ready0. by destruct sp.
    + by specialize (vi_sleep_stop0 eq_refl).
    + specialize (vi_kill0 eq_refl). destruct sp; try done.
      destruct vi_kill0 as [->|]; [|done]. by destruct tm.
    + specialize (vi_write0 eq_refl). subst pb. destruct tp; try done.
      apply proj1 in vi_tcp0. by specialize (vi_tcp0 eq_refl).
    + specialize (vi_store0 eq_refl). subst rn. by destruct gp.
Qed.

Lemma internal_requested r1 r2 r3 tk s s' :
  internal r1 r2 r3 tk s s' -> v_requested s = true -> v_requested s' = true.
Proof.
  unfold internal, successors. rewrite !elem_of_app.
  destruct s as [m rq rd rn pb tm us pi rg mp sp tp gp]. intros [H|[H|[H|H]]] Hr; cbn in Hr; subst rq.
  - unfold main_step in H. cbn [v_main] in H. destruct mp; successors_cases H; subst; cbn in *;
      by repeat case_match.
  - unfold signal_step in H. cbn [v_signal] in H. destruct sp; successors_cases H; subst; cbn in *;
      unfold cond_signal; cbn; by repeat case_match.
  - unfold tcp_step in H. cbn [v_tcp] in H. destruct tp; successors_cases H; by subst.
  - unfold mgmt_step in H. cbn [v_mgmt] in H. destruct gp; successors_cases H; subst; cbn in *;
      unfold cond_signal; cbn; by repeat case_match.
Qed.

(** Once a shutdown has been requested: how many steps are left, and where they
    end. *)
Lemma requested_bounded r1 r2 r3 tk s :
  vinv s -> v_requested s = true ->
  forall n s', nsteps (internal r1 r2 r3 tk) n s s' -> (n <= measure s)%nat.
Proof.
  intros Hr Hreq n. revert s Hr Hreq. induction n as [|n IH]; intros s Hr Hreq s' Hn; [lia|].
  inversion Hn as [|? ? y ? Hi Hn']; subst.
  pose proof (internal_measure _ _ _ _ _ _ Hr Hi).
  specialize (IH y ltac:(eapply vstep_inv; [done|by left]) (internal_requested _ _ _ _ _ _ Hi Hreq) s' Hn').
  lia.
Qed.

Lemma requested_final r1 r2 r3 tk s s' :
  vinv s -> v_requested s = true ->
  rtc (internal r1 r2 r3 tk) s s' -> (forall s'', ~ internal r1 r2 r3 tk s' s'') ->
  v_main s' = MDone /\ v_signal s' = SDone /\ v_tcp s' = TDone /\
  (v_mgmt s' = GDone \/ v_mgmt s' = GNone) /\ v_mtx s' = None /\
  v_pipe s' = false /\ v_registry s' = false.
Proof.
  intros Hr Hreq Hrtc Hstuck.
  assert (vinv s' /\ v_requested s' = true) as [Hi' Hreq'].
  { eapply (rtc_invariant _ (fun s => vinv s /\ v_requested s = true)); [|by split|done].
    intros a b [Ha Hb] Hab. split; [eapply vstep_inv; [done|by left]|by eapply internal_requested]. }
  assert (successors r1 r2 r3 tk s' = []) as Hnil.
  { destruct (successors r1 r2 r3 tk s') as [|x l] eqn:E; [done|]. exfalso. apply (Hstuck x).
    unfold internal. rewrite E. by left. }
  pose proof (requested_progress _ _ _ _ _ Hi' Hreq' Hnil) as Hd. destruct Hi'. rewrite Hd in *.
  destruct (vi_done0 eq_refl). specialize (vi_joined_signal0 eq_refl).
  specialize (vi_joined_mgmt0 eq_refl). split_and!; auto.
  destruct (v_mtx s') as [[]|]; [| | |done]; exfalso.
  - by apply proj2 in vi_main0; specialize (vi_main0 eq_refl).
  - apply proj2 in vi_signal0. specialize (vi_signal0 eq_refl). by rewrite vi_joined_signal0 in vi_signal0.
  - apply proj2 in vi_mgmt0. specialize (vi_mgmt0 eq_refl).
    by destruct vi_joined_mgmt0 as [E|E]; rewrite E in vi_mgmt0.
Qed.

(** ** The TCP thread *)

(** The text one reception prints. *)
Definition view_text (d : list byte) : list byte := until_nul (take 2047 d).

Lemma received_text d stack :
  d <> [] -> length stack = TCP_RECV_BUF_SIZE ->
  let n := Nat.min (length d) (TCP_RECV_BUF_SIZE - 1) in
  (n =? 0)%nat = false /\
  exists buf, store (take n d ++ drop n stack) n x00 = Some buf /\ cstring buf = Some (view_text d).
Proof.
  intros Hd Hs n. unfold TCP_RECV_BUF_SIZE in *.
  assert (0 < n < 2048)%nat as Hn by (destruct d; [done|cbn [length] in n; lia]).
  split; [apply Nat.eqb_neq; lia|]. eexists. split.
  - apply store_safe. rewrite length_app, length_take, length_drop. lia.
  - rewrite terminate_received by lia. unfold view_text. do 2 f_equal.
    unfold n. destruct (decide (length d <= 2047)%nat).
    + rewrite !take_ge by lia. done.
    + f_equal. lia.
Qed.

(** Iterations with a stack of the right size, whose accepted descriptors are
    new. *)
Definition tcp_iteration_fit (s : Sys) (it : TcpIteration) : Prop :=
  length (ti_stack it) = TCP_RECV_BUF_SIZE /\
  forall fd d, ti_event it = SocketReadable (Some fd) d -> fd ∉ sys_fds s.

(** The open descriptors are those of before and the client's. *)
Definition client_open (s0 : Sys) (client : option Z) (s : Sys) : Prop :=
  match client with
  | Some c => (c ∉ sys_fds s0) /\ s = sys_open c s0
  | None => s = s0
  end.

Lemma close_opened c s : c ∉ sys_fds s -> sys_close c (sys_open c s) = s.
Proof.
  intros Hc. destruct s as [fds files]. unfold sys_close, sys_open. cbn in *. f_equal. set_solver.
Qed.

Lemma tcp_loop_safe s0 its client s out :
  Forall (tcp_iteration_fit s0) its -> client_open s0 client s ->
  exists ended client' s' out', tcp_loop its client s out = Some (ended, client', s', out') /\
    client_open s0 client' s'.
Proof.
  intros Hits. revert client s out. induction Hits as [|it its [Hst Hacc] Hits IH]; intros client s out Hc;
    [by do 4 eexists|]. cbn [tcp_loop].
  destruct (ti_requested it); [by do 4 eexists|].
  destruct (ti_event it) as [| | |accepted received|]; [by apply IH|by do 4 eexists|by do 4 eexists| |by apply IH].
  destruct client as [c|].
  - destruct Hc as [Hnew ->]. destruct (default [] received) as [|b d] eqn:Ed.
    + cbn. apply IH. cbn. by apply close_opened.
    + destruct (received_text (b :: d) (ti_stack it) ltac:(done) Hst) as (E & buf & Eb & Et).
      cbn zeta in E, Eb. rewrite E, Eb. cbn [mbind option_bind]. rewrite Et. cbn [mbind option_bind].
      by apply IH.
  - destruct accepted as [fd|]; [|by apply IH]. cbn in Hc. subst s. apply IH. split; [|done].
    by eapply Hacc.
Qed.

Definition chunk (d stack : list byte) : TcpIteration :=
  mkTcpIteration false (SocketReadable None (Some d)) stack.

Lemma tcp_loop_chunks ds stack its c s out :
  Forall (fun d => d <> []) ds -> length stack = TCP_RECV_BUF_SIZE ->
  tcp_loop (((fun d => chunk d stack) <$> ds) ++ its) (Some c) s out =
  tcp_loop its (Some c) s (out ++ concat ((fun d => printed (view_text d)) <$> ds)).
Proof.
  intros Hds Hs. revert out. induction Hds as [|d ds Hd Hds IH]; intros out.
  { cbn. by rewrite app_nil_r. }
  rewrite fmap_cons, <- app_comm_cons.
  cbn [tcp_loop ti_requested ti_event chunk]. change (default [] (Some d)) with d. cbn zeta.
  destruct (received_text d stack Hd Hs) as (E & buf & Eb & Et). cbn zeta in E, Eb.
  cbn [ti_stack chunk]. rewrite E, Eb. cbn [mbind option_bind]. rewrite Et. cbn [mbind option_bind].
  rewrite IH. f_equal. rewrite fmap_cons. cbn [concat]. by rewrite app_assoc.
Qed.

(** * Properties *)

(** C13: the Viewer shuts down.  In every state the threads can reach once a
    shutdown has been requested (by a signal, by the management command, or by
    [main] when the management part cannot start), in every interleaving: the
    threads go on for a bounded number of steps and only stop when the main
    thread has joined the other three and released the pipe and the
    registry, with the mutex free. *)
Theorem viewer_shutdown_completes r1 r2 r3 tk s :
  rtc (vstep r1 r2 r3 tk) v_initial s -> v_requested s = true ->
  (forall n s', nsteps (internal r1 r2 r3 tk) n s s' -> (n <= measure s)%nat) /\
  (forall s', rtc (internal r1 r2 r3 tk) s s' -> (forall s'', ~ internal r1 r2 r3 tk s' s'') ->
     v_main s' = MDone /\ v_signal s' = SDone /\ v_tcp s' = TDone /\
     (v_mgmt s' = GDone \/ v_mgmt s' = GNone) /\ v_mtx s' = None /\
     v_pipe s' = false /\ v_registry s' = false).
Proof.
  intros Hr Hreq. apply reachable_inv in Hr. split; [by apply requested_bounded|].
  intros s'. by apply requested_final.
Qed.

(** A run chosen by the position of each step among the successors. *)
Fixpoint follow (r1 r2 r3 tk : bool) (path : list nat) (s : VState) : option VState :=
  match path with
  | [] => Some s
  | i :: path' => s' ← successors r1 r2 r3 tk s !! i; follow r1 r2 r3 tk path' s'
  end.

Lemma follow_reaches r1 r2 r3 tk path s s' :
  follow r1 r2 r3 tk path s = Some s' -> rtc (vstep r1 r2 r3 tk) s s'.
Proof.
  revert s. induction path as [|i path IH]; intros s H; cbn in H; [by injection H as <-|].
  apply bind_Some in H as (s1 & H1 & H). eapply rtc_l; [|by apply IH].
  left. by eapply list_elem_of_lookup_2.
Qed.

(** The registry cannot be initialized: [main] requests the shutdown itself. *)
Lemma demo_requested : exists s, rtc (vstep false true true true) v_initial s /\ v_requested s = true.
Proof.
  assert (exists s, follow false true true true [1; 0; 0; 0; 0; 0; 0; 0; 0]%nat v_initial = Some s /\
    v_requested s = true) as (s & Hs & Hr) by (eexists; split; [vm_compute; reflexivity|reflexivity]).
  exists s. split; [|done]. by eapply follow_reaches.
Qed.

Lemma viewer_shutdown_completes_witness :
  exists s, v_requested s = true /\
    forall n s', nsteps (internal false true true true) n s s' -> (n <= measure s)%nat.
Proof.
  destruct demo_requested as (s & Hs & Hr). exists s. split; [exact Hr|].
  exact (proj1 (viewer_shutdown_completes false true true true s Hs Hr)).
Defined.

(** C35: no wake-up is lost in the Viewer: in no reachable state does the main
    thread sleep on its condition variable although what it waits for has
    happened (the signal thread is ready, or a shutdown is requested), and at
    most one thread is between lock and unlock of the application mutex. *)
Theorem viewer_no_lost_wakeup r1 r2 r3 tk s :
  rtc (vstep r1 r2 r3 tk) v_initial s ->
  (v_requested s = true -> v_main s <> MWaitStop) /\
  (v_ready s = true -> v_main s <> MWaitReady) /\
  (main_holds (v_main s) = true -> signal_holds (v_signal s) = false /\ mgmt_holds (v_mgmt s) = false) /\
  (signal_holds (v_signal s) = true -> mgmt_holds (v_mgmt s) = false).
Proof.
  intros Hr. apply reachable_inv in Hr as []. split_and!.
  - intros Hq Hm. specialize (vi_sleep_stop0 Hm). congruence.
  - intros Hq Hm. specialize (vi_sleep_ready0 Hm). congruence.
  - intros Hm. apply vi_main0 in Hm. split; apply not_true_is_false; intros H.
    + apply vi_signal0 in H. congruence.
    + apply vi_mgmt0 in H. congruence.
  - intros Hm. apply vi_signal0 in Hm. apply not_true_is_false. intros H. apply vi_mgmt0 in H. congruence.
Qed.

Lemma viewer_no_lost_wakeup_witness :
  exists s, v_requested s = true /\ v_main s <> MWaitStop.
Proof.
  destruct demo_requested as (s & Hs & Hr). exists s. split; [exact Hr|].
  exact (proj1 (viewer_no_lost_wakeup false true true true s Hs) Hr).
Defined.

(** The signal thread has ended, nobody has requested a shutdown and nobody is
    about to. *)
Definition deaf (s : VState) : Prop :=
  v_signal s = SDone /\ v_requested s = false /\ past 30 (v_main s) = true /\
  (v_mgmt s = GNone \/ v_mgmt s = GLoop \/ v_mgmt s = GRecv \/ v_mgmt s = GDone).

Lemma deaf_step r1 r2 r3 tk s s' :
  vinv s /\ deaf s -> vstep r1 r2 r3 tk s s' /\ v_mgmt s' <> GStop -> vinv s' /\ deaf s'.
Proof.
  intros [Hi Hd] [Hs Hns]. split; [by eapply vstep_inv|].
  pose proof (vi_past_stop _ Hi) as Hp. destruct Hd as (Hsg & Hrq & Hpast & Hg).
  destruct s as [m rq rd rn pb tm us pi rg mp sp tp gp]; cbn in *; subst.
  destruct Hs as [H|H].
  - unfold internal, successors in H. rewrite !elem_of_app in H. destruct H as [H|[H|[H|H]]].
    + unfold main_step in H. destruct mp; cbn in Hp, Hpast; try discriminate Hpast; try (by specialize (Hp eq_refl));
        cbn [v_main] in H; successors_cases H; by subst.
    + by apply not_elem_of_nil in H.
    + unfold tcp_step in H. destruct tp; successors_cases H; by subst.
    + unfold mgmt_step in H. destruct_or! Hg; subst; successors_cases H; subst; try done;
        split_and!; try done; cbn; destruct rn; auto.
  - inversion H; subst; cbn in *; try done; try (by split_and!; auto).
    unfold cond_signal. cbn. by destruct_or! H0; subst.
Qed.

(** A SIGUSR1 from outside, which the signal thread cannot tell from the one
    of [main], ends that thread; afterwards no SIGINT or SIGTERM is ever acted
    on: only a SHUTDOWN command can end the Viewer. *)
Theorem viewer_usr1_deaf r1 r2 r3 tk s s' :
  rtc (vstep r1 r2 r3 tk) v_initial s -> deaf s ->
  rtc (fun a b => vstep r1 r2 r3 tk a b /\ v_mgmt b <> GStop) s s' ->
  v_requested s' = false /\ v_main s' <> MDone.
Proof.
  intros Hr Hd Hrtc.
  assert (vinv s' /\ deaf s') as [Hi (_ & Hq & _ & _)].
  { eapply (rtc_invariant _ (fun s => vinv s /\ deaf s)); [|split; [by eapply reachable_inv|done]|done].
    intros a b. apply deaf_step. }
  split; [done|]. intros Hm. pose proof (vi_past_stop _ Hi) as Hp. rewrite Hm in Hp.
  specialize (Hp eq_refl). congruence.
Qed.

Lemma demo_deaf : exists s, rtc (vstep true true true true) v_initial s /\ deaf s.
Proof.
  assert (exists s, follow true true true true [1; 0; 0; 0; 0; 0; 0]%nat v_initial = Some s /\
    v_signal s = SWait /\ v_requested s = false /\ v_main s = MLockStop /\ v_mgmt s = GLoop /\
    v_term s = false)
    as (s & Hs & H1 & H2 & H3 & H4 & H5) by (eexists; split; [vm_compute; reflexivity|by split_and!]).
  exists (at_signal (set_usr1 s false) SDone). split.
  - etransitivity; [by eapply follow_reaches|].
    eapply rtc_l; [right; apply ex_usr1|]. apply rtc_once. left. unfold internal, successors.
    apply elem_of_app. right. apply elem_of_app. left. unfold signal_step. cbn. rewrite H1, H5. cbn. by left.
  - unfold deaf. cbn. rewrite H3, H4. split_and!; auto.
Qed.

Lemma viewer_usr1_deaf_witness :
  exists s, v_signal s = SDone /\
    (v_requested (set_term s true) = false /\ v_main (set_term s true) <> MDone).
Proof.
  destruct demo_deaf as (s & Hs & Hd). exists s. split; [exact (proj1 Hd)|].
  apply (viewer_usr1_deaf true true true true s (set_term s true) Hs Hd).
  apply rtc_once. split; [right; apply ex_term|].
  destruct Hd as (_ & _ & _ & Hg). cbn. destruct_or! Hg; rewrite Hg; discriminate.
Defined.

(** The TCP thread of the Viewer: with sockets that give new descriptors it
    has no undefined behaviour, and when its loop has ended it has closed the
    listening socket and any client, for every sequence of events.  In a session
    with a client every chunk received is printed between its rules, in order,
    up to its first NUL (at most 2047 bytes of it). *)
Theorem viewer_tcp_session fd bind_ok listen_ok its s c ds stack d0 :
  (fd ∉ sys_fds s) -> Forall (tcp_iteration_fit (sys_open fd s)) its ->
  (c ∉ sys_fds (sys_open fd s)) -> Forall (fun d => d <> []) ds -> length stack = TCP_RECV_BUF_SIZE ->
  (exists ended s' out, tcp_worker (Some fd) bind_ok listen_ok its s = Some (ended, s', out) /\
     (ended = true -> s' = s)) /\
  tcp_worker (Some fd) true true
    (mkTcpIteration false (SocketReadable (Some c) d0) stack ::
     ((fun d => chunk d stack) <$> ds) ++ [mkTcpIteration false PipeReadable stack]) s =
    Some (true, s, concat ((fun d => printed (view_text d)) <$> ds)).
Proof.
  intros Hfd Hits Hc Hds Hst. split.
  - unfold tcp_worker. destruct bind_ok; cbn [negb]; [|by rewrite close_opened; eauto].
    destruct listen_ok; cbn [negb]; [|by rewrite close_opened; eauto].
    destruct (tcp_loop_safe (sys_open fd s) its None (sys_open fd s) [] Hits eq_refl)
      as (ended & client & s' & out & -> & Ho). cbn [mbind option_bind].
    destruct ended; cbn [negb]; [|do 3 eexists; by split]. do 3 eexists. split; [done|]. intros _.
    destruct client as [c'|]; cbn [client_open close_client] in Ho |- *; [destruct Ho as [? ->]|subst s'];
      rewrite ?close_opened by done; done.
  - unfold tcp_worker. cbn [negb tcp_loop ti_requested ti_event].
    rewrite tcp_loop_chunks by done. cbn [tcp_loop ti_requested ti_event app mbind option_bind negb close_client].
    by rewrite !close_opened.
Qed.

Lemma viewer_tcp_session_witness :
  tcp_worker (Some 3) true true
    [mkTcpIteration false (SocketReadable (Some 4) None) (zeros 2048); chunk (bs "hello") (zeros 2048);
     mkTcpIteration false PipeReadable (zeros 2048)] (mkSys {[0; 1; 2]} ∅) =
    Some (true, mkSys {[0; 1; 2]} ∅, printed (bs "hello") ++ []).
Proof.
  apply (viewer_tcp_session 3 true true [] (mkSys {[0; 1; 2]} ∅) 4 [bs "hello"] (zeros 2048) None).
  - by vm_compute.
  - apply Forall_nil_2.
  - by vm_compute.
  - apply Forall_singleton. discriminate.
  - reflexivity.
Defined.
