(* ===== verification/ViewerRaces.v ===== *)
(** * The data races of the Viewer (Viewer/src/main.c, signal_thread.c, tcp_worker.c, mgmt_handlers.c)

    The threads of Viewer take their steps one after the other, as if every
    access to a shared variable were atomic.  In C two conflicting accesses of
    different threads that can come next at the same time are a data race, which
    is undefined behaviour, unless both are atomic.  Here the accesses of the
    steps to the shared variables of the application context and to the flag of
    the management thread, and which of them race. *)

From S2P Require Import Prelude Viewer.

(** ** Accesses *)

(** [shutdown_requested] (a [volatile int]), [signal_thread_ready] (a [bool]),
    [g_mgmt_running] (an [atomic_bool]). *)
Inductive shared := Requested | Ready | Running.

#[export] Instance shared_eq_dec : EqDecision shared.
Proof. solve_decision. Defined.

Inductive access := Reads (x : shared) | Writes (x : shared).

Definition place (a : access) : shared := match a with Reads x | Writes x => x end.
Definition writes (a : access) : bool := match a with Reads _ => false | Writes _ => true end.
Definition atomic (x : shared) : bool := match x with Running => true | _ => false end.

(** What the next step of each thread accesses. *)
Definition main_access (p : main_pc) : option access :=
  match p with
  | MTestReady => Some (Reads Ready) | MTestStop => Some (Reads Requested)
  | MFailCrit => Some (Writes Requested) | MStore => Some (Writes Running)
  | _ => None
  end.
Definition signal_access (p : signal_pc) : option access :=
  match p with SCritReady => Some (Writes Ready) | SCrit => Some (Writes Requested) | _ => None end.
Definition tcp_access (p : tcp_pc) : option access :=
  match p with TLoop => Some (Reads Requested) | _ => None end.
Definition mgmt_access (p : mgmt_pc) : option access :=
  match p with
  | GLoop => Some (Reads Running) | GStop => Some (Writes Running) | GCrit => Some (Writes Requested)
  | _ => None
  end.

(** The accesses that come next, with the number of the thread. *)
Definition next_accesses (s : VState) : list (option access) :=
  [main_access (v_main s); signal_access (v_signal s); tcp_access (v_tcp s); mgmt_access (v_mgmt s)].

Definition conflict (a b : access) : bool :=
  bool_decide (place a = place b) && (writes a || writes b) && negb (atomic (place a)).

(** Two threads are about to do conflicting accesses. *)
Definition race (s : VState) : Prop :=
  exists i j a b, i <> j /\ next_accesses s !! i = Some (Some a) /\ next_accesses s !! j = Some (Some b) /\
    conflict a b = true.

(** * Lemmas *)

(** A thread inside the critical section excludes the others. *)
Lemma holders_exclude s :
  vinv s ->
  (main_holds (v_main s) = true -> signal_holds (v_signal s) = false /\ mgmt_holds (v_mgmt s) = false) /\
  (signal_holds (v_signal s) = true -> main_holds (v_main s) = false /\ mgmt_holds (v_mgmt s) = false) /\
  (mgmt_holds (v_mgmt s) = true -> main_holds (v_main s) = false /\ signal_holds (v_signal s) = false).
Proof.
  intros [H1 H2 H3 _ _ _ _ _ _ _ _ _ _ _ _ _ _].
  destruct (main_holds _), (signal_holds _), (mgmt_holds _); split_and!; intros; split; try done; exfalso;
    repeat match goal with H : true = true <-> _ |- _ => pose proof (proj1 H eq_refl); clear H end; congruence.
Qed.

(** The TCP thread reads the flag while another thread writes it. *)
Definition flag_race (s : VState) : Prop :=
  v_tcp s = TLoop /\ (v_main s = MFailCrit \/ v_signal s = SCrit \/ v_mgmt s = GCrit).

Lemma flag_race_races s : flag_race s -> race s.
Proof.
  intros [Ht Hw]. exists 2%nat. destruct Hw as [H|[H|H]]; [exists 0%nat|exists 1%nat|exists 3%nat];
    exists (Reads Requested), (Writes Requested); (split; [done|]); cbn; by rewrite Ht, H.
Qed.

(** The accesses that are not atomic are in critical sections, but for those of
    the TCP thread. *)
Lemma main_plain p a : main_access p = Some a -> atomic (place a) = false -> main_holds p = true.
Proof. destruct p; intros [= <-]; done. Qed.
Lemma signal_plain p a : signal_access p = Some a -> atomic (place a) = false -> signal_holds p = true.
Proof. destruct p; intros [= <-]; done. Qed.
Lemma mgmt_plain p a : mgmt_access p = Some a -> atomic (place a) = false -> mgmt_holds p = true.
Proof. destruct p; intros [= <-]; done. Qed.

(** What conflicts with the read of the TCP thread. *)
Lemma main_flag p a : main_access p = Some a -> place a = Requested -> writes a = true -> p = MFailCrit.
Proof. destruct p; intros [= <-]; done. Qed.
Lemma signal_flag p a : signal_access p = Some a -> place a = Requested -> writes a = true -> p = SCrit.
Proof. destruct p; intros [= <-]; done. Qed.
Lemma mgmt_flag p a : mgmt_access p = Some a -> place a = Requested -> writes a = true -> p = GCrit.
Proof. destruct p; intros [= <-]; done. Qed.
Lemma tcp_flag p a : tcp_access p = Some a -> p = TLoop /\ a = Reads Requested.
Proof. destruct p; intros [= <-]; done. Qed.

Lemma conflict_sym a b : conflict a b = conflict b a.
Proof.
  unfold conflict. destruct (decide (place a = place b)) as [E|E].
  - rewrite !bool_decide_true, E, orb_comm by done. done.
  - by rewrite !bool_decide_false by congruence.
Qed.

Lemma race_flag s : vinv s -> race s -> flag_race s.
Proof.
  intros Hi (i & j & a & b & Hij & Ha & Hb & Hc). destruct (holders_exclude s Hi) as (H1 & H2 & H3).
  assert (exists i j a b, (i < j)%nat /\ next_accesses s !! i = Some (Some a) /\ next_accesses s !! j = Some (Some b) /\
    conflict a b = true) as (i' & j' & a' & b' & Hlt & Ha' & Hb' & Hc').
  { destruct (decide (i < j)%nat); [by exists i, j, a, b|]. exists j, i, b, a. rewrite conflict_sym. split_and!; auto; lia. }
  clear i j a b Hij Ha Hb Hc. unfold conflict in Hc'. apply andb_true_iff in Hc' as [[Hp%bool_decide_eq_true Hw]%andb_true_iff Hat%negb_true_iff].
  assert (atomic (place b') = false) as Hbt by by rewrite <- Hp.
  destruct i' as [|[|[|[|i]]]], j' as [|[|[|[|j]]]]; try lia; cbn in Ha', Hb'; try done;
    injection Ha' as Ha; injection Hb' as Hb; unfold flag_race.
  - apply main_plain in Ha; [|done]. apply signal_plain in Hb; [|done]. destruct (H1 Ha). congruence.
  - apply tcp_flag in Hb as [-> ->]. cbn in Hw. rewrite orb_false_r in Hw. eapply main_flag in Ha as ->; auto.
  - apply main_plain in Ha; [|done]. apply mgmt_plain in Hb; [|done]. destruct (H1 Ha). congruence.
  - apply tcp_flag in Hb as [-> ->]. cbn in Hw. rewrite orb_false_r in Hw. eapply signal_flag in Ha as ->; auto.
  - apply signal_plain in Ha; [|done]. apply mgmt_plain in Hb; [|done]. destruct (H2 Ha). congruence.
  - apply tcp_flag in Ha as [-> ->]. eapply mgmt_flag in Hb as ->; auto.
Qed.

(** ** Runs that lead to a race *)

(** The steps of [path1], one step from outside, the steps of [path2]. *)
Lemma follow_outside r1 r2 r3 tk path1 path2 s1 s2 s :
  follow r1 r2 r3 tk path1 v_initial = Some s1 -> external s1 s2 -> follow r1 r2 r3 tk path2 s2 = Some s ->
  rtc (vstep r1 r2 r3 tk) v_initial s.
Proof.
  intros H1 He H2. etransitivity; [by eapply follow_reaches|]. eapply rtc_l; [by right|]. by eapply follow_reaches.
Qed.

(** The Viewer in service but for its last steps. *)
Definition viewer_up (sp : signal_pc) (m : option thread) (tp : tcp_pc) (gp : mgmt_pc) (running : bool) : VState :=
  mkV m false true running false false false true true MLockStop sp tp gp.

Lemma signal_race_reachable :
  rtc (vstep true true true true) v_initial (viewer_up SCrit (Some ThSignal) TLoop GLoop true).
Proof.
  eapply (follow_outside _ _ _ _ [1; 0; 0; 0; 0; 0; 0]%nat [1; 1; 1]%nat (viewer_up SWait None TStart GLoop true));
    [vm_compute; reflexivity|apply ex_term|vm_compute; reflexivity].
Qed.

Lemma mgmt_race_reachable :
  rtc (vstep true true true true) v_initial (viewer_up SWait (Some ThMgmt) TLoop GCrit false).
Proof.
  eapply (follow_outside _ _ _ _ [1; 0; 0; 0; 0; 0; 0; 2]%nat [1; 2; 2]%nat (viewer_up SWait None TStart GRecv true));
    [vm_compute; reflexivity|by apply ex_shutdown|vm_compute; reflexivity].
Qed.

Lemma main_race_reachable :
  rtc (vstep false true true true) v_initial
    (mkV (Some ThMain) false true true false false false true false MFailCrit SWait TLoop GNone).
Proof.
  apply (follow_reaches _ _ _ _ [1; 0; 0; 0; 0; 0; 0; 0; 1]%nat). vm_compute. reflexivity.
Qed.

(** * Properties *)

(** C31: the data races of the Viewer.  In every reachable state of its threads, a
    data race on the fields of the application context or on the flag of the
    management thread is about to happen exactly when the TCP thread is at its
    unlocked test of the plain [volatile int] [shutdown_requested] while main, the
    signal thread or the SHUTDOWN handler is about to write that flag under the
    mutex; all three are reachable.  So [signal_thread_ready] and
    [g_mgmt_running] never race, and every other access to [shutdown_requested]
    is ordered by the mutex. *)
Theorem viewer_races :
  (forall r1 r2 r3 tk s, rtc (vstep r1 r2 r3 tk) v_initial s ->
     (race s <->
        v_tcp s = TLoop /\ (v_main s = MFailCrit \/ v_signal s = SCrit \/ v_mgmt s = GCrit))) /\
  (exists s, rtc (vstep true true true true) v_initial s /\ race s /\ v_signal s = SCrit) /\
  (exists s, rtc (vstep true true true true) v_initial s /\ race s /\ v_mgmt s = GCrit) /\
  (exists s, rtc (vstep false true true true) v_initial s /\ race s /\ v_main s = MFailCrit).
Proof.
  split; [intros r1 r2 r3 tk s Hr%reachable_inv; split; [by apply race_flag|apply flag_race_races]|].
  split; [|split]; eexists; (split; [|split]);
    [exact signal_race_reachable|by apply flag_race_races; split; auto|done|exact mgmt_race_reachable|
     by apply flag_race_races; split; auto|done|exact main_race_reachable|by apply flag_race_races; split; auto|done].
Qed.

Lemma viewer_races_witness : race (viewer_up SCrit (Some ThSignal) TLoop GLoop true).
Proof. apply (proj1 viewer_races true true true true); [exact signal_race_reachable|split; [done|by right; left]]. Defined.
