(* ===== verification/ViewerProcess.v ===== *)
(** * The Viewer as a whole process (Viewer/src/main.c with its threads)

    [main] on the data of the process: descriptors, registry, application
    context, pipe, pending signals.  Between its own steps and while it waits the
    other threads act in any order: the signal thread, the TCP thread and the
    management thread, each by the definitions of its file.  Each access to a
    shared variable is atomic here; ViewerRaces has the data races. *)

From S2P Require Import Prelude CLib MgmtProtocol EventHandler MgmtSocket Handlers ViewerMgmt.
From S2P Require Import RouterMgmt MgmtCtl ModuleSession Viewer.

(** ** The process *)

Definition SIGUSR1 : Z := 10.

(** How far a thread has come; [None]-constructors: not created, so that its
    [pthread_t] is indeterminate. *)
Inductive sig_state := SigNone | SigStarted | SigWaiting | SigEnded.
Inductive tcp_state := TcpNone | TcpStarted | TcpLoop (server : Z) (client : option Z) | TcpEnded.
Inductive mgmt_state := MgmtNone | MgmtStarted | MgmtLoop (ms : MgmtSocket) | MgmtEnded.

(** [vp_pipe]: the bytes in the pipe; [vp_pending]: the pending signals;
    [vp_out]: what is printed; [vp_sent]: the responses sent. *)
Record VProc := mkProc {
  vp_sys : Sys; vp_globals : Globals; vp_world : ViewerWorld; vp_pipe : nat; vp_pending : gset Z;
  vp_sig : sig_state; vp_tcp : tcp_state; vp_mgmt : mgmt_state;
  vp_out : list byte; vp_sent : list sent }.

Definition set_sys (p : VProc) x := mkProc x (vp_globals p) (vp_world p) (vp_pipe p) (vp_pending p)
  (vp_sig p) (vp_tcp p) (vp_mgmt p) (vp_out p) (vp_sent p).
Definition set_globals (p : VProc) x := mkProc (vp_sys p) x (vp_world p) (vp_pipe p) (vp_pending p)
  (vp_sig p) (vp_tcp p) (vp_mgmt p) (vp_out p) (vp_sent p).
Definition set_world (p : VProc) x := mkProc (vp_sys p) (vp_globals p) x (vp_pipe p) (vp_pending p)
  (vp_sig p) (vp_tcp p) (vp_mgmt p) (vp_out p) (vp_sent p).
Definition set_pending (p : VProc) x := mkProc (vp_sys p) (vp_globals p) (vp_world p) (vp_pipe p) x
  (vp_sig p) (vp_tcp p) (vp_mgmt p) (vp_out p) (vp_sent p).
Definition set_sig (p : VProc) x := mkProc (vp_sys p) (vp_globals p) (vp_world p) (vp_pipe p)
  (vp_pending p) x (vp_tcp p) (vp_mgmt p) (vp_out p) (vp_sent p).
Definition set_tcp (p : VProc) x := mkProc (vp_sys p) (vp_globals p) (vp_world p) (vp_pipe p)
  (vp_pending p) (vp_sig p) x (vp_mgmt p) (vp_out p) (vp_sent p).
Definition set_mgmt (p : VProc) x := mkProc (vp_sys p) (vp_globals p) (vp_world p) (vp_pipe p)
  (vp_pending p) (vp_sig p) (vp_tcp p) x (vp_out p) (vp_sent p).
Definition push_byte (p : VProc) := mkProc (vp_sys p) (vp_globals p) (vp_world p) (S (vp_pipe p))
  (vp_pending p) (vp_sig p) (vp_tcp p) (vp_mgmt p) (vp_out p) (vp_sent p).

Definition vp_app (p : VProc) : AppContext := vw_app (vp_world p).
Definition set_app (p : VProc) (a : AppContext) : VProc :=
  let w := vp_world p in
  set_world p (mkViewerWorld (vw_now w) (vw_time w) (vw_ctxs w) (vw_running w) a).
Definition set_keep_running (p : VProc) (b : bool) : VProc :=
  let w := vp_world p in
  set_world p (mkViewerWorld (vw_now w) (vw_time w) (vw_ctxs w) b (vw_app w)).

(** ** The other threads *)

(** The section in which the signal thread reports that it is ready. *)
Definition report_ready (a : AppContext) : option AppContext :=
  m ← mutex_lock (app_mtx a);
  let a := mkApp m (shutdown_requested a) true (S (signalled a)) in
  m ← mutex_unlock (app_mtx a);
  Some (mkApp m (shutdown_requested a) (signal_thread_ready a) (signalled a)).

Inductive vaction :=
| ASigReady | ASigWait (sig : Z)
| ATcpStart (server : option Z) (bind_ok listen_ok : bool) | ATcp (ev : poll_event) (stack : list byte)
| AMgmtStart (ce : CreateEnv) | AMgmt (e : ProcessEnv)
| ADeliver (sig : Z) | AClock (now : timespec) (time : Z).

(** A descriptor the system can give. *)
Definition fresh_fd (fd : option Z) (s : Sys) : bool :=
  match fd with Some fd => bool_decide (0 <= fd) && bool_decide (fd ∉ sys_fds s) | None => true end.

(** What poll(2) can answer: the pipe is readable when it holds a byte. *)
Definition poll_possible (p : VProc) (ev : poll_event) : bool :=
  match ev with
  | PipeReadable => (0 <? vp_pipe p)%nat
  | SocketReadable accepted _ => fresh_fd accepted (vp_sys p)
  | _ => true
  end.

(** sigwait(3) takes a pending signal of the set. *)
Definition sig_act (sig : Z) (p : VProc) : exec VProc :=
  if negb (bool_decide (sig ∈ vp_pending p)) then Blocked
  else
    let p := set_pending p (vp_pending p ∖ {[sig]}) in
    if (sig =? SIGINT) || (sig =? SIGTERM) then
      a ← obj (request_shutdown (vp_app p)); Ret (set_app p a)
    else if sig =? SIGUSR1 then Ret (set_sig p SigEnded) else Blocked.

Definition tcp_start (server : option Z) (bind_ok listen_ok : bool) (p : VProc) : exec VProc :=
  match server with
  | None => Ret (set_tcp p TcpEnded)
  | Some fd =>
      let p := set_sys p (sys_open fd (vp_sys p)) in
      if negb bind_ok || negb listen_ok then Ret (set_tcp (set_sys p (sys_close fd (vp_sys p))) TcpEnded)
      else Ret (set_tcp p (TcpLoop fd None))
  end.

(** An iteration of the TCP thread, which finds the flag as it is: its read,
    outside the mutex, is atomic here (see ViewerRaces for the data race). *)
Definition tcp_act (fd : Z) (client : option Z) (ev : poll_event) (stack : list byte) (p : VProc)
    : exec VProc :=
  let it := mkTcpIteration (negb (shutdown_requested (vp_app p) =? 0)) ev stack in
  '(ended, client, s, out) ← obj (tcp_loop [it] client (vp_sys p) (vp_out p));
  let p := mkProc s (vp_globals p) (vp_world p) (vp_pipe p) (vp_pending p) (vp_sig p)
             (TcpLoop fd client) (vp_mgmt p) out (vp_sent p) in
  if ended : bool
  then Ret (set_tcp (set_sys p (sys_close fd (close_client client (vp_sys p)))) TcpEnded) else Ret p.

Definition mgmt_start (ce : CreateEnv) (p : VProc) : exec VProc :=
  '(h, s) ← obj (mgmt_socket_create ce (Some (MGMT_SOCKET_PATH_VIEWER ++ [x00])) (vp_sys p));
  Ret (set_mgmt (set_sys p s) match h with Some ms => MgmtLoop ms | None => MgmtEnded end).

(** An iteration of the management thread. *)
Definition mgmt_act (ms : MgmtSocket) (e : ProcessEnv) (p : VProc) : exec VProc :=
  if negb (vw_running (vp_world p)) then
    s ← obj (mgmt_socket_destroy (Some ms) (vp_sys p));
    Ret (set_mgmt (set_sys p s) MgmtEnded)
  else
    sv ← obj (mgmt_socket_process_one viewer_invoke e (Some ms) 1000 (g_registry (vp_globals p))
                (vp_world p));
    ms ← obj (sv_socket sv);
    Ret (mkProc (vp_sys p) (mkGlobals (sv_registry sv) (g_registry_initialized (vp_globals p)))
           (sv_world sv) (vp_pipe p) (vp_pending p) (vp_sig p) (vp_tcp p) (MgmtLoop ms) (vp_out p)
           (vp_sent p ++ sv_sent sv)).

(** A step of a thread, a signal from outside, the passing of time; [Blocked]:
    not possible now. *)
Definition vact (a : vaction) (p : VProc) : exec VProc :=
  match a with
  | ASigReady =>
      match vp_sig p with
      | SigStarted => a ← obj (report_ready (vp_app p)); Ret (set_sig (set_app p a) SigWaiting)
      | _ => Blocked
      end
  | ASigWait sig => match vp_sig p with SigWaiting => sig_act sig p | _ => Blocked end
  | ATcpStart server b l =>
      match vp_tcp p with
      | TcpStarted => if fresh_fd server (vp_sys p) then tcp_start server b l p else Blocked
      | _ => Blocked
      end
  | ATcp ev stack =>
      match vp_tcp p with
      | TcpLoop fd client =>
          if poll_possible p ev && (length stack =? TCP_RECV_BUF_SIZE)%nat
          then tcp_act fd client ev stack p else Blocked
      | _ => Blocked
      end
  | AMgmtStart ce =>
      match vp_mgmt p with
      | MgmtStarted => if fresh_fd (ce_socket ce) (vp_sys p) then mgmt_start ce p else Blocked
      | _ => Blocked
      end
  | AMgmt e =>
      match vp_mgmt p with
      | MgmtLoop ms => if (length (pe_stack e) =? MGMT_REQUEST_SIZE)%nat then mgmt_act ms e p else Blocked
      | _ => Blocked
      end
  | ADeliver sig => Ret (set_pending p ({[sig]} ∪ vp_pending p))
  | AClock now time =>
      let w := vp_world p in
      if bool_decide (wf_timespec now)
      then Ret (set_world p (mkViewerWorld now time (vw_ctxs w) (vw_running w) (vw_app w))) else Blocked
  end.

Fixpoint vacts (l : list vaction) (p : VProc) : exec VProc :=
  match l with
  | [] => Ret p
  | a :: l' => p ← vact a p; vacts l' p
  end.

(** ** The main thread *)

(** The address of the context in the frame of [main]. *)
Definition VIEWER_CTX : Z := 8192.

(** What the calls of [main] answer, what the other threads do while it waits
    (for each wake-up from the condition variable one list of actions), while it
    joins them, and between its other steps. *)
Record ViewerEnv := mkViewerEnv {
  ve_pipe : option (Z * Z); ve_t_sig : bool; ve_ready : list (list vaction); ve_t_tcp : bool;
  ve_mutex_ok : bool; ve_start_time : Z; ve_t_mgmt : bool; ve_stop : list (list vaction);
  ve_write_ok : bool; ve_join_sig : list vaction; ve_join_tcp : list vaction;
  ve_join_mgmt : list vaction; ve_between : nat -> list vaction }.

Definition app_lock (p : VProc) : exec VProc :=
  let a := vp_app p in
  m ← obj (mutex_lock (app_mtx a));
  Ret (set_app p (mkApp m (shutdown_requested a) (signal_thread_ready a) (signalled a))).

Definition app_unlock (p : VProc) : exec VProc :=
  let a := vp_app p in
  m ← obj (mutex_unlock (app_mtx a));
  Ret (set_app p (mkApp m (shutdown_requested a) (signal_thread_ready a) (signalled a))).

(** A loop around [pthread_cond_wait], with the mutex held before and after:
    still waiting when the wake-ups given are used up. *)
Fixpoint cond_wait_while (test : AppContext -> bool) (wakes : list (list vaction)) (p : VProc)
    : exec VProc :=
  if negb (test (vp_app p)) then Ret p
  else
    match wakes with
    | [] => Blocked
    | l :: wakes' =>
        p ← app_unlock p; p ← vacts l p; p ← app_lock p;
        cond_wait_while test wakes' p
    end.

Definition wait_while (test : AppContext -> bool) (wakes : list (list vaction)) (p : VProc)
    : exec VProc :=
  p ← app_lock p; p ← cond_wait_while test wakes p; app_unlock p.

(** pthread_kill(3) and pthread_join(3) of a thread that was not created use an
    indeterminate [pthread_t]. *)
Definition kill_sig (p : VProc) : exec VProc :=
  match vp_sig p with SigNone => UB | _ => Ret (set_pending p ({[SIGUSR1]} ∪ vp_pending p)) end.

Definition join_sig (l : list vaction) (p : VProc) : exec VProc :=
  match vp_sig p with
  | SigNone => UB
  | _ => p ← vacts l p; match vp_sig p with SigEnded => Ret p | _ => Blocked end
  end.

Definition join_tcp (l : list vaction) (p : VProc) : exec VProc :=
  match vp_tcp p with
  | TcpNone => UB
  | _ => p ← vacts l p; match vp_tcp p with TcpEnded => Ret p | _ => Blocked end
  end.

Definition join_mgmt (l : list vaction) (p : VProc) : exec VProc :=
  p ← vacts l p; match vp_mgmt p with MgmtEnded => Ret p | _ => Blocked end.

Section main.
Variable e : ViewerEnv.

(** The registry, the handlers and the management thread: whether all of it
    succeeded and whether the registry is initialized. *)
Definition start_mgmt (p : VProc) : exec (bool * bool * VProc) :=
  let '(r, g) := handler_registry_init (ve_mutex_ok e) (vp_globals p) in
  let p := set_globals p g in
  if negb (r =? 0) then Ret (false, false, p)
  else
    let w := vp_world p in
    let p := set_world p (mkViewerWorld (vw_now w) (vw_time w)
               (<[VIEWER_CTX := mkViewerCtx (ve_start_time e)]> (vw_ctxs w)) (vw_running w) (vw_app w)) in
    '(r, reg) ← obj (viewer_mgmt_register VIEWER_CTX (g_registry g));
    let p := set_globals p (mkGlobals reg (g_registry_initialized g)) in
    if negb (r =? 0) then Ret (false, true, p)
    else if ve_t_mgmt e then Ret (true, true, set_mgmt p MgmtStarted) else Ret (false, true, p).

(** From the end of the wait on. *)
Definition finish (mgmt_ok registry_initialized : bool) (p0 p1 : Z) (p : VProc) : exec (Z * VProc) :=
  p ← vacts (ve_between e 3) (set_keep_running p false);
  p ← kill_sig p;
  p ← vacts (ve_between e 4) p;
  p ← join_sig (ve_join_sig e) (if ve_write_ok e then push_byte p else p);
  p ← join_tcp (ve_join_tcp e) p;
  p ← (match vp_mgmt p with MgmtNone => Ret p | _ => join_mgmt (ve_join_mgmt e) p end);
  let p := set_sys p (sys_close p1 (sys_close p0 (vp_sys p))) in
  p ← (if registry_initialized
       then g ← obj (handler_registry_destroy (vp_globals p)); Ret (set_globals p g) else Ret p);
  Ret (if mgmt_ok then 0 else 1, p).

(** From the creation of the TCP thread to the wait. *)
Definition prepare (p : VProc) : exec (bool * bool * VProc) :=
  let p := if ve_t_tcp e then set_tcp p TcpStarted else p in
  p ← vacts (ve_between e 1) p;
  '(mgmt_ok, reg, p) ← start_mgmt p;
  p ← vacts (ve_between e 2) p;
  if negb mgmt_ok then a ← obj (request_shutdown (vp_app p)); Ret (mgmt_ok, reg, set_app p a)
  else Ret (mgmt_ok, reg, p).

(** The wait for the flag, and the end. *)
Definition resume (mgmt_ok reg : bool) (p0 p1 : Z) (p : VProc) : exec (Z * VProc) :=
  p ← wait_while (fun a => shutdown_requested a =? 0) (ve_stop e) p;
  finish mgmt_ok reg p0 p1 p.

(** From the creation of the pipe to the wait. *)
Definition boot (p0 p1 : Z) (p : VProc) : exec (bool * bool * VProc) :=
  let p := set_sys p (sys_open p1 (sys_open p0 (vp_sys p))) in
  let p := if ve_t_sig e then set_sig p SigStarted else p in
  p ← vacts (ve_between e 0) p;
  p ← wait_while (fun a => negb (signal_thread_ready a)) (ve_ready e) p;
  prepare p.

Definition main (p : VProc) : exec (Z * VProc) :=
  let w := vp_world p in
  let p := set_world p (mkViewerWorld (vw_now w) (vw_time w) (vw_ctxs w) true
             (mkApp MtxFree 0 false 0)) in
  match ve_pipe e with
  | None => Ret (1, p)
  | Some (p0, p1) => '(mgmt_ok, reg, p) ← boot p0 p1 p; resume mgmt_ok reg p0 p1 p
  end.
End main.

(** * Lemmas *)

(** ** The invariant *)

Definition tcp_fds (t : tcp_state) : list Z :=
  match t with TcpLoop fd client => fd :: option_list client | _ => [] end.
Definition mgmt_fds (m : mgmt_state) : list Z :=
  match m with MgmtLoop ms => [socket_fd ms] | _ => [] end.

Definition socket_files (m : mgmt_state) : gset (list byte) :=
  match m with MgmtLoop _ => {[MGMT_SOCKET_PATH_VIEWER]} | _ => ∅ end.

Record registry_serves (g : Globals) (ctxs : gmap Z ViewerMgmtCtx) : Prop := {
  rs_handlers : own_handlers VIEWER_CTX (g_registry g);
  rs_serving : serving "viewer" VIEWER_CTX (g_registry g);
  rs_ctx : is_Some (ctxs !! VIEWER_CTX) }.

(** Between the steps of the threads. *)
Record vp_inv (base : gset Z) (files : gset (list byte)) (pipe : list Z) (p : VProc) : Prop := {
  vq_mtx : app_mtx (vp_app p) = MtxFree;
  vq_now : wf_timespec (vw_now (vp_world p));
  vq_fds : owns base (pipe ++ tcp_fds (vp_tcp p) ++ mgmt_fds (vp_mgmt p)) (vp_sys p);
  vq_files : sys_files (vp_sys p) ⊆ files ∪ socket_files (vp_mgmt p);
  vq_registry : g_registry_initialized (vp_globals p) = true -> reg_wf (g_registry (vp_globals p));
  vq_serving : vp_mgmt p <> MgmtNone ->
    g_registry_initialized (vp_globals p) = true /\ registry_serves (vp_globals p) (vw_ctxs (vp_world p));
  vq_socket : forall ms, vp_mgmt p = MgmtLoop ms -> sock_wf ms /\
    cstring (socket_path ms) = Some MGMT_SOCKET_PATH_VIEWER }.

(** What the threads leave to one another. *)
Record vkeeps (p p' : VProc) : Prop := {
  vk_sig : vp_sig p' = SigNone <-> vp_sig p = SigNone;
  vk_tcp : vp_tcp p' = TcpNone <-> vp_tcp p = TcpNone;
  vk_mgmt : vp_mgmt p' = MgmtNone <-> vp_mgmt p = MgmtNone;
  vk_sig_end : vp_sig p = SigEnded -> vp_sig p' = SigEnded;
  vk_tcp_end : vp_tcp p = TcpEnded -> vp_tcp p' = TcpEnded;
  vk_mgmt_end : vp_mgmt p = MgmtEnded -> vp_mgmt p' = MgmtEnded;
  vk_init : g_registry_initialized (vp_globals p') = g_registry_initialized (vp_globals p);
  vk_globals : vp_mgmt p = MgmtNone -> vp_globals p' = vp_globals p }.

Lemma vkeeps_refl p : vkeeps p p.
Proof. by split. Qed.

Lemma vkeeps_trans p1 p2 p3 : vkeeps p1 p2 -> vkeeps p2 p3 -> vkeeps p1 p3.
Proof. intros [] []. split; try tauto; [auto..|congruence|]. intros H. rewrite <- vk_globals0 by done. tauto. Qed.

Section actions.
Context (base : gset Z) (files : gset (list byte)) (pipe : list Z).
Abbreviation inv := (vp_inv base files pipe).
Abbreviation good p := (fun p' => inv p' /\ vkeeps p p').

(** Steps on the application context, which take its free mutex. *)
Lemma request_safe p :
  inv p -> exists a, request_shutdown (vp_app p) = Some a /\ inv (set_app p a) /\ shutdown_requested a = 1.
Proof using Type.
  intros []. rewrite request_shutdown_free by done. eexists. split; [done|]. split; [by split|done].
Qed.

Lemma pending_inv p x : inv p -> inv (set_pending p x).
Proof using Type. intros []. by split. Qed.

Lemma sig_act_safe sig p : inv p -> vp_sig p = SigWaiting -> safe (sig_act sig p) (good p).
Proof using Type.
  intros Hi Hs. unfold sig_act. destruct (negb _); [done|].
  pose proof (pending_inv p (vp_pending p ∖ {[sig]}) Hi) as Hi'.
  destruct (_ || _).
  - destruct (request_safe _ Hi') as (a & -> & Ha & _). run. split; [done|by split].
  - destruct (_ =? _); [|done]. split; [destruct Hi'; by split|]. by split; cbn; rewrite ?Hs.
Qed.

Lemma tcp_start_safe server b l p :
  inv p -> vp_tcp p = TcpStarted -> fresh_fd server (vp_sys p) = true -> safe (tcp_start server b l p) (good p).
Proof using Type.
  intros [] Ht Hf. rewrite Ht in *. unfold tcp_start. destruct server as [fd|].
  2: { cbn. split; [by split|]. split; cbn; by rewrite ?Ht. }
  cbn in Hf. tests. apply bool_decide_eq_true in H, H0.
  assert (owns base (pipe ++ [fd] ++ mgmt_fds (vp_mgmt p)) (sys_open fd (vp_sys p))) as Ho.
  { eapply owns_perm; [|by apply owns_open]. cbn. by rewrite Permutation_middle. }
  destruct (_ || _); cbn.
  - split; [|split; cbn; by rewrite ?Ht]. split; cbn; try done. eapply owns_fds; [done|]. cbn.
    destruct vq_fds0. set_solver.
  - split; [|split; cbn; by rewrite ?Ht]. by split.
Qed.

(** One iteration: what it does to the client and the descriptors. *)
Lemma tcp_iteration it fd client s out rest :
  length (ti_stack it) = TCP_RECV_BUF_SIZE ->
  match ti_event it with SocketReadable accepted _ => fresh_fd accepted s = true | _ => True end ->
  owns base (fd :: option_list client ++ rest) s ->
  exists ended client' s' out', tcp_loop [it] client s out = Some (ended, client', s', out') /\
    owns base (fd :: option_list client' ++ rest) s' /\ sys_files s' = sys_files s.
Proof using Type.
  intros Hs Hev Ho. cbn [tcp_loop]. destruct (ti_requested it); [by do 4 eexists|].
  destruct (ti_event it) as [| | |acc rcv|]; try by do 4 eexists.
  destruct client as [c|].
  - destruct (decide (default [] rcv = [])) as [->|Hd].
    + cbn. do 4 eexists. split; [done|]. split; [|done].
      apply owns_close. eapply owns_perm; [|done]. cbn. apply Permutation_swap.
    + destruct (received_text _ (ti_stack it) Hd Hs) as (E & buf & Eb & Et). cbn zeta in E, Eb.
      rewrite E, Eb. run. rewrite Et. run. by do 4 eexists.
  - destruct acc as [c|]; [|by do 4 eexists]. do 4 eexists. split; [done|]. split; [|done].
    cbn in Hev. tests. eapply owns_perm; [|apply owns_open; [done|by apply bool_decide_eq_true in H0]].
    cbn. apply Permutation_swap.
Qed.

Lemma close_client_owns client l s :
  owns base (option_list client ++ l) s -> owns base l (close_client client s).
Proof using Type. destruct client; [apply owns_close|done]. Qed.

Lemma tcp_act_safe fd client ev stack p :
  inv p -> vp_tcp p = TcpLoop fd client -> poll_possible p ev = true ->
  length stack = TCP_RECV_BUF_SIZE -> safe (tcp_act fd client ev stack p) (good p).
Proof using Type.
  intros [] Ht Hev Hl. rewrite Ht in *. unfold tcp_act. cbn [tcp_fds] in *.
  set (it := mkTcpIteration _ _ _).
  destruct (tcp_iteration it fd client (vp_sys p) (vp_out p) (pipe ++ mgmt_fds (vp_mgmt p)))
    as (ended & client' & s' & out' & -> & Ho & Hfi).
  - done.
  - by destruct ev.
  - eapply owns_perm; [|done]. cbn. solve_Permutation.
  - run. assert (owns base (pipe ++ (fd :: option_list client') ++ mgmt_fds (vp_mgmt p)) s') as Ho'
      by (eapply owns_perm; [|done]; cbn; solve_Permutation).
    destruct ended; (split; [|split; cbn; by rewrite ?Ht]); split; cbn; try done; rewrite ?Hfi; try done.
    + apply owns_close. apply (close_client_owns client'). eapply owns_perm; [|done]. cbn. solve_Permutation.
    + rewrite <- Hfi in vq_files0. by destruct client'.
Qed.

Lemma mgmt_start_safe ce p :
  inv p -> vp_mgmt p = MgmtStarted -> fresh_fd (ce_socket ce) (vp_sys p) = true ->
  safe (mgmt_start ce p) (good p).
Proof using Type.
  intros [] Hm Hf. rewrite Hm in *. unfold mgmt_start. cbn [mgmt_fds socket_files] in *.
  destruct (create_result ce (MGMT_SOCKET_PATH_VIEWER ++ [x00]) MGMT_SOCKET_PATH_VIEWER (vp_sys p) eq_refl)
    as (h & s & -> & Hh).
  { intros fd E. rewrite E in Hf. cbn in Hf. tests. by apply bool_decide_eq_true in H, H0. }
  run. rewrite app_nil_r in *. destruct h as [ms|].
  - destruct Hh as (fd & d & Hpos & Hnew & _ & Hd & -> & ->). rewrite take_ge in * by (vm_compute; lia).
    split; [|split; cbn; by rewrite ?Hm]. split; cbn; try done.
    + apply (owns_fds _ _ (sys_open fd (vp_sys p))); [|done]. eapply owns_perm; [|by apply owns_open].
      solve_Permutation.
    + set_solver.
    + intros _. by apply vq_serving0.
    + intros ms [= <-]. split; [|done]. split; cbn; try done. by eexists.
  - destruct Hh as [Hfd Hfi]. split; [|split; cbn; by rewrite ?Hm]. split; cbn; try done.
    + rewrite app_nil_r. by eapply owns_fds.
    + set_solver.
    + intros _. by apply vq_serving0.
Qed.

Lemma mgmt_act_safe ms e p :
  inv p -> vp_mgmt p = MgmtLoop ms -> length (pe_stack e) = MGMT_REQUEST_SIZE ->
  safe (mgmt_act ms e p) (good p).
Proof using Type.
  intros [] Hm He. destruct (vq_socket0 ms Hm) as [Hms Hp].
  rewrite Hm in *. destruct vq_serving0 as (Hi & [Hh Hserv Hctx]); [done|]. unfold mgmt_act.
  destruct (vw_running (vp_world p)); cbn [negb].
  - destruct (process_one_safe viewer_invoke (viewer_ready VIEWER_CTX) e ms 1000
      (g_registry (vp_globals p)) (vp_world p)) as (sv & ms' & E & Es & Hms' & Hfd & Hpath & Hr & Hptr & Hw & _);
      auto; [by apply viewer_handlers_total|by split|].
    rewrite E. run. rewrite Es. run. destruct Hw as (Hctx' & Hnow & Hmtx).
    split; [|split; cbn; by rewrite ?Hm]. split; cbn; rewrite ?Hfd; try done.
    + intros _. split; [done|]. split; [| |done]; cbn.
      * unfold own_handlers. by rewrite Hptr.
      * by eapply serving_process_one.
    + intros ms2 [= <-]. by rewrite Hpath.
  - unfold mgmt_socket_destroy. rewrite (proj2 (Z.leb_le _ _) (sw_fd _ Hms)), Hp. run.
    split; [|split; cbn; by rewrite ?Hm]. split; cbn; try done.
    + eapply owns_fds; [eapply owns_close, owns_perm, vq_fds0|done]. cbn. solve_Permutation.
    + cbn in vq_files0. set_solver.
Qed.

Lemma vact_safe a p : inv p -> safe (vact a p) (good p).
Proof using Type.
  intros Hi. destruct a as [|sig|server b l|ev stack|ce|e|sig|now time]; cbn [vact].
  - destruct (vp_sig p) eqn:Es; try done. unfold report_ready. rewrite (vq_mtx _ _ _ _ Hi). run.
    destruct Hi. split; [by split|]. by split; cbn; rewrite ?Es.
  - destruct (vp_sig p) eqn:Es; try done. by apply sig_act_safe.
  - destruct (vp_tcp p) eqn:Et; try done. destruct (fresh_fd _ _) eqn:Ef; [|done]. by apply tcp_start_safe.
  - destruct (vp_tcp p) as [| |fd client|] eqn:Et; try done. destruct (poll_possible p ev) eqn:Ep; [|done].
    cbn [andb]. destruct (_ =? _)%nat eqn:El; [|done]. apply Nat.eqb_eq in El. by apply tcp_act_safe.
  - destruct (vp_mgmt p) eqn:Em; try done. destruct (fresh_fd _ _) eqn:Ef; [|done]. by apply mgmt_start_safe.
  - destruct (vp_mgmt p) as [| |ms|] eqn:Em; try done. destruct (_ =? _)%nat eqn:El; [|done].
    apply Nat.eqb_eq in El. by apply mgmt_act_safe.
  - split; [by apply pending_inv|]. by split.
  - case_bool_decide; [|done]. destruct Hi. split; [by split|]. by split.
Qed.

Lemma vacts_safe l : forall p, inv p -> safe (vacts l p) (good p).
Proof using Type.
  induction l as [|a l IH]; intros p Hi; cbn [vacts]; [by split; [|apply vkeeps_refl]|].
  eapply safe_bind; [by apply vact_safe|]. intros p1 [Hi1 Hk1].
  eapply safe_mono; [by apply IH|]. intros p2 [Hi2 Hk2]. split; [done|by eapply vkeeps_trans].
Qed.

Lemma vacts_keeps l p p' : inv p -> vacts l p = Ret p' -> inv p' /\ vkeeps p p'.
Proof using Type. intros Hi E. pose proof (vacts_safe l p Hi) as H. by rewrite E in H. Qed.

(** ** Waiting and joining *)

(** The process while the main thread has the mutex. *)
Definition locked (p : VProc) : VProc :=
  let a := vp_app p in
  set_app p (mkApp MtxHeld (shutdown_requested a) (signal_thread_ready a) (signalled a)).

Lemma app_lock_free p : app_mtx (vp_app p) = MtxFree -> app_lock p = Ret (locked p).
Proof using Type. intros E. unfold app_lock. by rewrite E. Qed.

Lemma app_unlock_locked p : app_mtx (vp_app p) = MtxFree -> app_unlock (locked p) = Ret p.
Proof using Type.
  destruct p as [s g [n t c r [m q b k]] pi pe si tc mg o se]. unfold vp_app. cbn. by intros ->.
Qed.

Lemma wait_while_safe test wakes p :
  (forall p, test (vp_app (locked p)) = test (vp_app p)) -> inv p ->
  safe (wait_while test wakes p) (fun p' => good p p' /\ test (vp_app p') = false).
Proof using Type.
  intros Ht Hi. unfold wait_while. rewrite app_lock_free by apply Hi. run.
  revert p Hi. induction wakes as [|l wakes IH]; intros p Hi; cbn [cond_wait_while]; rewrite Ht;
    destruct (test (vp_app p)) eqn:E; cbn [negb]; run; try done.
  - rewrite app_unlock_locked by apply Hi. by split; [split; [|apply vkeeps_refl]|].
  - rewrite app_unlock_locked by apply Hi. run.
    pose proof (vacts_safe l p Hi) as Hl. destruct (vacts l p) as [p1| |]; run; try done.
    destruct Hl as [Hi1 Hk1]. rewrite app_lock_free by apply Hi1. run.
    eapply safe_mono; [by apply IH|]. intros p2 [[Hi2 Hk2] E2].
    split; [split; [done|by eapply vkeeps_trans]|done].
  - rewrite app_unlock_locked by apply Hi. by split; [split; [|apply vkeeps_refl]|].
Qed.

Lemma join_sig_safe l p :
  inv p -> vp_sig p <> SigNone -> safe (join_sig l p) (fun p' => good p p' /\ vp_sig p' = SigEnded).
Proof using Type.
  intros Hi Hn. unfold join_sig. destruct (vp_sig p); [done|..];
    (eapply safe_bind; [by apply vacts_safe|]; intros p1 Hg; by destruct (vp_sig p1) eqn:E).
Qed.

Lemma join_tcp_safe l p :
  inv p -> vp_tcp p <> TcpNone -> safe (join_tcp l p) (fun p' => good p p' /\ vp_tcp p' = TcpEnded).
Proof using Type.
  intros Hi Hn. unfold join_tcp. destruct (vp_tcp p); [done|..];
    (eapply safe_bind; [by apply vacts_safe|]; intros p1 Hg; by destruct (vp_tcp p1) eqn:E).
Qed.

Lemma join_mgmt_safe l p :
  inv p -> safe (match vp_mgmt p with MgmtNone => Ret p | _ => join_mgmt l p end)
    (fun p' => good p p' /\ (vp_mgmt p' = MgmtNone \/ vp_mgmt p' = MgmtEnded)).
Proof using Type.
  intros Hi. destruct (vp_mgmt p) eqn:E; [by split; [split; [|apply vkeeps_refl]|left]|..];
    (eapply safe_bind; [by apply vacts_safe|]; intros p1 Hg; destruct (vp_mgmt p1) eqn:E1; try done;
     split; [done|by right]).
Qed.
End actions.

(** ** The main thread *)

(** Nothing of the process is left. *)
Record viewer_released (p0 p : VProc) : Prop := {
  vr_fds : sys_fds (vp_sys p) = sys_fds (vp_sys p0);
  vr_files : sys_files (vp_sys p) ⊆ sys_files (vp_sys p0);
  vr_registry : g_registry_initialized (vp_globals p) = false;
  vr_sig : vp_sig p = SigNone \/ vp_sig p = SigEnded;
  vr_tcp : vp_tcp p = TcpNone \/ vp_tcp p = TcpEnded;
  vr_mgmt : vp_mgmt p = MgmtNone \/ vp_mgmt p = MgmtEnded }.

(** The state the process starts in; the pipe has new descriptors. *)
Record viewer_start (e : ViewerEnv) (p : VProc) : Prop := {
  vb_globals : vp_globals p = initial_globals;
  vb_threads : vp_sig p = SigNone /\ vp_tcp p = TcpNone /\ vp_mgmt p = MgmtNone;
  vb_now : wf_timespec (vw_now (vp_world p));
  vb_pipe : forall p0 p1, ve_pipe e = Some (p0, p1) -> p0 <> p1 /\ (p0 ∉ sys_fds (vp_sys p)) /\
    (p1 ∉ sys_fds (vp_sys p)) }.

Section main_lemmas.
Context (e : ViewerEnv) (base : gset Z) (files : gset (list byte)) (p0 p1 : Z).
Abbreviation inv := (vp_inv base files [p0; p1]).

Lemma start_mgmt_safe p :
  inv p -> vp_mgmt p = MgmtNone -> vp_globals p = initial_globals ->
  exists reg p', start_mgmt e p = Ret (ve_mutex_ok e && ve_t_mgmt e, reg, p') /\ inv p' /\
    g_registry_initialized (vp_globals p') = reg /\ vp_sig p' = vp_sig p /\ vp_tcp p' = vp_tcp p.
Proof using Type.
  intros [] Hm Hg. unfold start_mgmt. rewrite Hg. unfold handler_registry_init.
  cbn [g_registry_initialized initial_globals]. destruct (ve_mutex_ok e); cbn [negb andb Z.eqb].
  - destruct (register_three_empty "viewer" ltac:(by apply no_nul_lit) ltac:(cbn; lia)
      (mkRegistry (entries (g_registry initial_globals)) 0 MtxFree 0 0) VIEWER_CTX)
      as (r & E & Hr & Hu & Ha); [apply reg_wf_empty|apply NoDup_nil_2|done|].
    unfold viewer_mgmt_register. cbn [g_registry] in E |- *. rewrite E. run. cbn [negb Z.eqb].
    destruct (ve_t_mgmt e); do 2 eexists; (split; [done|]); (split; [|done]); rewrite Hm in *; split; cbn;
      rewrite ?Hm; try done.
    intros _. split; [done|]. split; cbn; [intros f c; by apply (three_handlers_ptrs _ _ _ _ _ Hu Ha)|by apply serving_three|]. rewrite lookup_insert_eq. by eexists.
  - do 2 eexists. split; [done|]. split; [|done]. rewrite Hm in *. by split; cbn; rewrite ?Hm.
Qed.

(** [main] after the wait: it ends with everything released. *)
Definition ends_clean (ok : bool) (r : Z * VProc) : Prop :=
  let '(code, p) := r in
  code = (if ok then 0 else 1) /\ sys_fds (vp_sys p) = base /\ sys_files (vp_sys p) ⊆ files /\
  g_registry_initialized (vp_globals p) = false /\ vp_sig p = SigEnded /\ vp_tcp p = TcpEnded /\
  (vp_mgmt p = MgmtNone \/ vp_mgmt p = MgmtEnded).

Lemma registry_destroy_safe reg p :
  (g_registry_initialized (vp_globals p) = true -> reg_wf (g_registry (vp_globals p))) ->
  g_registry_initialized (vp_globals p) = reg ->
  exists g, (if reg then g ← obj (handler_registry_destroy (vp_globals p)); Ret (set_globals p g) else Ret p) =
      Ret (set_globals p g) /\ g_registry_initialized g = false.
Proof using Type.
  intros Hi Hr. destruct reg.
  - specialize (Hi Hr) as Hw. destruct (vp_globals p) as [r i]. cbn in Hr, Hw. subst i.
    destruct (registry_destroy_wf r Hw) as (g & -> & _ & Hg & _). by exists g.
  - exists (vp_globals p). by destruct p.
Qed.

(** The threads are there. *)
Definition alive (reg : bool) (p : VProc) : Prop :=
  inv p /\ g_registry_initialized (vp_globals p) = reg /\ vp_sig p <> SigNone /\ vp_tcp p <> TcpNone.

Lemma alive_keeps reg p p' : alive reg p -> inv p' /\ vkeeps p p' -> alive reg p'.
Proof using Type. intros (_ & Hr & Hs & Ht) [Hi []]. split; [done|]. split; [congruence|]. tauto. Qed.

Lemma alive_acts reg l p : alive reg p -> safe (vacts l p) (fun p' => alive reg p' /\ vkeeps p p').
Proof using Type.
  intros Ha. eapply safe_mono; [apply vacts_safe, Ha|]. intros p' Hg. split; [by eapply alive_keeps|apply Hg].
Qed.

Lemma kill_sig_safe reg p : alive reg p -> safe (kill_sig p) (alive reg).
Proof using Type.
  intros (Hi & Hr & Hs & Ht). unfold kill_sig.
  destruct (vp_sig p) eqn:E; [done|..]; (split; [by apply pending_inv|]); cbn; by rewrite E.
Qed.

Lemma push_byte_alive reg p (b : bool) : alive reg p -> alive reg (if b then push_byte p else p).
Proof using Type. intros ([] & ?). destruct b; [|by split]. by split; [split|]. Qed.

(** The joins, one after the other. *)
Lemma joins_safe reg p :
  alive reg p ->
  safe (p ← join_sig (ve_join_sig e) p; p ← join_tcp (ve_join_tcp e) p;
        match vp_mgmt p with MgmtNone => Ret p | _ => join_mgmt (ve_join_mgmt e) p end)
    (fun p' => alive reg p' /\ vp_sig p' = SigEnded /\ vp_tcp p' = TcpEnded /\
       (vp_mgmt p' = MgmtNone \/ vp_mgmt p' = MgmtEnded)).
Proof using Type.
  intros Ha. eapply safe_bind; [apply join_sig_safe; apply Ha|]. intros q1 [Hg1 E1].
  pose proof (alive_keeps _ _ _ Ha Hg1) as Ha1.
  eapply safe_bind; [apply join_tcp_safe; apply Ha1|]. intros q2 [Hg2 E2].
  pose proof (alive_keeps _ _ _ Ha1 Hg2) as Ha2.
  eapply safe_mono; [apply join_mgmt_safe, Ha2|]. intros q3 [Hg3 E3].
  split; [by eapply alive_keeps|]. split; [|split; [|done]].
  - apply (vk_sig_end _ _ (proj2 Hg3)), (vk_sig_end _ _ (proj2 Hg2)), E1.
  - apply (vk_tcp_end _ _ (proj2 Hg3)), E2.
Qed.

Lemma finish_safe ok reg p : alive reg p -> safe (finish e ok reg p0 p1 p) (ends_clean ok).
Proof using Type.
  intros Ha. unfold finish.
  assert (alive reg (set_keep_running p false)) as Ha0 by (destruct Ha as [[] ?]; by split; [split|]).
  eapply safe_bind; [by apply alive_acts|]. intros q1 [Ha1 _].
  eapply safe_bind; [by apply kill_sig_safe|]. intros q2 Ha2.
  eapply safe_bind; [by apply alive_acts|]. intros q3 [Ha3 _].
  pose proof (joins_safe reg _ (push_byte_alive reg q3 (ve_write_ok e) Ha3)) as Hj.
  destruct (join_sig _ _) as [q4| |]; run; [|done|done]. cbn [mbind exec_bind] in Hj.
  destruct (join_tcp _ q4) as [q5| |]; run; [|done|done]. cbn [mbind exec_bind] in Hj.
  destruct (match vp_mgmt q5 with MgmtNone => _ | _ => _ end) as [q6| |]; run; [|done|done].
  destruct Hj as ((Hi & Hr & _ & _) & Es & Et & Em).
  set (q := set_sys q6 _).
  destruct (registry_destroy_safe reg q (vq_registry _ _ _ _ Hi) Hr) as (g & -> & Hg). run.
  assert (owns base [] (vp_sys q)) as [Hf _ _].
  { apply owns_close, owns_close. pose proof (vq_fds _ _ _ _ Hi) as Ho. rewrite Et in Ho.
    by destruct Em as [Em|Em]; rewrite Em in Ho. }
  split; [done|]. split; [etransitivity; [exact Hf|]; cbn; set_solver|]. split; [|done].
  pose proof (vq_files _ _ _ _ Hi) as Hfi. destruct Em as [Em|Em]; rewrite Em in Hfi; cbn in *; set_solver.
Qed.

Lemma prepare_safe p :
  ve_t_tcp e = true -> inv p -> vp_mgmt p = MgmtNone -> vp_sig p <> SigNone -> vp_tcp p = TcpNone ->
  vp_globals p = initial_globals ->
  safe (prepare e p) (fun '(ok, reg, p') => ok = ve_mutex_ok e && ve_t_mgmt e /\ alive reg p').
Proof using Type.
  intros Htcp Hi Hm Hs Ht Hg. unfold prepare. rewrite Htcp.
  assert (alive false (set_tcp p TcpStarted)) as Ha.
  { destruct Hi. split; [split; cbn; try done; by rewrite Ht in *|]. cbn. by rewrite Hg. }
  eapply safe_bind; [by apply alive_acts|]. intros q1 [(Hi1 & _ & Hs1 & Ht1) Hk1].
  destruct (start_mgmt_safe q1) as (reg & q2 & -> & Hi2 & Hr2 & Hs2 & Ht2); [done|by apply Hk1|by rewrite (vk_globals _ _ Hk1)|].
  run. assert (alive reg q2) as Ha2 by (split; [done|]; by rewrite Hs2, Ht2).
  eapply safe_bind; [by apply alive_acts|]. intros q3 [Ha3 _]. destruct (negb _); [|done].
  destruct (request_safe _ _ _ q3 (proj1 Ha3)) as (a & -> & Hi4 & _). run. split; [done|].
  split; [done|apply Ha3].
Qed.

Lemma resume_safe ok reg p : alive reg p -> safe (resume e ok reg p0 p1 p) (ends_clean ok).
Proof using Type.
  intros Ha. eapply safe_bind; [by eapply wait_while_safe, Ha|]. intros q [Hg _].
  by eapply finish_safe, alive_keeps.
Qed.
End main_lemmas.

(** The process when [main] has initialized its context, and with the pipe. *)
Definition initialized (p : VProc) : VProc :=
  let w := vp_world p in
  set_world p (mkViewerWorld (vw_now w) (vw_time w) (vw_ctxs w) true (mkApp MtxFree 0 false 0)).

Definition piped (p0 p1 : Z) (p : VProc) : VProc := set_sys p (sys_open p1 (sys_open p0 (vp_sys p))).

Lemma start_inv e p p0 p1 :
  viewer_start e p -> ve_pipe e = Some (p0, p1) ->
  vp_inv (sys_fds (vp_sys p)) (sys_files (vp_sys p)) [p0; p1] (piped p0 p1 (initialized p)).
Proof.
  intros [Hg (Hs & Ht & Hm) Hn Hp] Hpipe. destruct (Hp p0 p1 Hpipe) as (Hne & Hp0 & Hp1).
  split; cbn; rewrite ?Ht, ?Hm, ?Hg; cbn; try done; [|set_solver].
  split; cbn; [set_solver| |set_solver]. apply NoDup_cons. split; [set_solver|apply NoDup_singleton].
Qed.

Lemma boot_safe e p p0 p1 :
  viewer_start e p -> ve_pipe e = Some (p0, p1) -> ve_t_sig e = true -> ve_t_tcp e = true ->
  safe (boot e p0 p1 (initialized p)) (fun '(ok, reg, q) => ok = ve_mutex_ok e && ve_t_mgmt e /\
    alive (sys_fds (vp_sys p)) (sys_files (vp_sys p)) p0 p1 reg q).
Proof.
  intros Hst Ep Hsig Htcp. pose proof (start_inv e p p0 p1 Hst Ep) as Hi.
  destruct Hst as [Hg (Hs & Ht & Hm) Hn Hp]. unfold boot. fold (piped p0 p1 (initialized p)). rewrite Hsig.
  set (q := piped p0 p1 (initialized p)) in Hi |- *.
  assert (vp_inv (sys_fds (vp_sys p)) (sys_files (vp_sys p)) [p0; p1] (set_sig q SigStarted)) as Hi0
    by (destruct Hi; by split).
  eapply safe_bind; [by eapply vacts_safe|]. intros q1 [Hi1 Hk1].
  eapply safe_bind; [by eapply wait_while_safe|]. intros q2 [[Hi2 Hk2] _].
  destruct (vkeeps_trans _ _ _ Hk1 Hk2) as [Ks Kt Km _ _ _ _ Kg].
  apply (prepare_safe e _ _ p0 p1 q2 Htcp Hi2);
    [by apply Km|by intros [=]%Ks|by apply Kt|by rewrite Kg].
Qed.

(** ** Threads that were not created *)

(** The main thread alone: nobody reports that the signal thread is ready. *)
Definition alone (p : VProc) : Prop :=
  vp_sig p = SigNone /\ vp_tcp p = TcpNone /\ vp_mgmt p = MgmtNone /\
  app_mtx (vp_app p) = MtxFree /\ signal_thread_ready (vp_app p) = false.

Lemma alone_acts l p : alone p -> safe (vacts l p) alone.
Proof.
  revert p. induction l as [|a l IH]; intros p Hp; [done|]. cbn [vacts].
  apply (safe_bind _ _ alone); [|apply IH]. destruct Hp as (Hs & Ht & Hm & Hmtx & Hr).
  destruct a; cbn [vact]; rewrite ?Hs, ?Ht, ?Hm; try done. by case_bool_decide.
Qed.

Lemma alone_waits wakes p :
  alone p -> wait_while (fun a => negb (signal_thread_ready a)) wakes p = Blocked.
Proof.
  intros Hp. unfold wait_while. rewrite app_lock_free by apply Hp. run.
  revert p Hp. induction wakes as [|l wakes IH]; intros p Hp; cbn [cond_wait_while];
    change (vp_app (locked p)) with (mkApp MtxHeld (shutdown_requested (vp_app p))
      (signal_thread_ready (vp_app p)) (signalled (vp_app p))); cbn [signal_thread_ready];
    rewrite (proj2 (proj2 (proj2 (proj2 Hp)))); cbn [negb]; [done|].
  rewrite app_unlock_locked by apply Hp. run. pose proof (alone_acts l p Hp) as Hl.
  destruct (vacts l p) as [p1| |]; run; [|done|done]. rewrite app_lock_free by apply Hl. run. by apply IH.
Qed.

(** A process without a TCP thread does not come to its end. *)
Section no_tcp.
Context (e : ViewerEnv) (base : gset Z) (files : gset (list byte)) (p0 p1 : Z).

Definition no_tcp (p : VProc) : Prop := vp_inv base files [p0; p1] p /\ vp_tcp p = TcpNone.

Lemma no_tcp_keeps p p' : no_tcp p -> vp_inv base files [p0; p1] p' /\ vkeeps p p' -> no_tcp p'.
Proof using Type. intros [_ Ht] [Hi Hk]. split; [done|]. by apply Hk. Qed.

Lemma no_tcp_acts l p : no_tcp p -> safe (vacts l p) no_tcp.
Proof using Type.
  intros Hp. eapply safe_mono; [apply vacts_safe, Hp|]. intros p' Hg. by eapply no_tcp_keeps.
Qed.

Lemma no_tcp_finish ok reg p r : no_tcp p -> finish e ok reg p0 p1 p <> Ret r.
Proof using Type.
  intros Hp H. unfold finish in H. apply exec_bind_inv in H as (q1 & E1 & H).
  assert (no_tcp (set_keep_running p false)) as Hp0 by (destruct Hp as [[] ?]; by split; [split|]).
  pose proof (no_tcp_acts (ve_between e 3) _ Hp0) as Hq1. rewrite E1 in Hq1.
  apply exec_bind_inv in H as (q2 & E2 & H).
  assert (no_tcp q2) as Hq2.
  { unfold kill_sig in E2. destruct Hq1 as [Hi1 Ht1].
    destruct (vp_sig q1); simplify_eq; (split; [by apply pending_inv|done]). }
  apply exec_bind_inv in H as (q3 & E3 & H).
  pose proof (no_tcp_acts (ve_between e 4) q2 Hq2) as Hq3. rewrite E3 in Hq3. cbn in Hq3.
  set (q4 := if ve_write_ok e then _ else _) in H. assert (no_tcp q4) as Hq4.
  { destruct Hq3 as [[] ?]. unfold q4. destruct (ve_write_ok e); [by split; [split|]|by split]. }
  apply exec_bind_inv in H as (q5 & E5 & H).
  assert (vp_tcp q5 = TcpNone) as Hq5.
  { unfold join_sig in E5. pose proof (no_tcp_acts (ve_join_sig e) q4 Hq4) as Hj.
    destruct (vp_sig q4); [done|..]; (destruct (vacts _ q4) as [q| |]; [|done|done]; cbn in E5;
      destruct (vp_sig q); simplify_eq; apply Hj). }
  apply exec_bind_inv in H as (q6 & E6 & H). unfold join_tcp in E6. by rewrite Hq5 in E6.
Qed.

Lemma no_tcp_prepare p :
  ve_t_tcp e = false -> no_tcp p -> vp_mgmt p = MgmtNone -> vp_globals p = initial_globals ->
  safe (prepare e p) (fun '(_, _, p') => no_tcp p').
Proof using Type.
  intros Htcp Hp Hm Hg. unfold prepare. rewrite Htcp.
  eapply safe_bind; [apply vacts_safe, Hp|]. intros q1 Hg1.
  pose proof (no_tcp_keeps _ _ Hp Hg1) as Hn1. destruct Hg1 as [Hi1 Hk1].
  destruct (start_mgmt_safe e base files p0 p1 q1 Hi1) as (reg & q2 & -> & Hi2 & _ & _ & Ht2);
    [by apply Hk1|by rewrite (vk_globals _ _ Hk1)|].
  run. assert (no_tcp q2) as Hn2 by (split; [done|]; rewrite Ht2; apply Hn1).
  eapply safe_bind; [by apply no_tcp_acts|]. intros q3 Hn3. destruct (negb _); [|done].
  destruct (request_safe _ _ _ q3 (proj1 Hn3)) as (a & -> & Hi4 & _). by split; [|apply Hn3].
Qed.

Lemma no_tcp_resume ok reg p r : no_tcp p -> resume e ok reg p0 p1 p <> Ret r.
Proof using Type.
  intros Hp H. unfold resume in H. apply exec_bind_inv in H as (q & E & H).
  pose proof (wait_while_safe base files [p0; p1] (fun a => shutdown_requested a =? 0) (ve_stop e) p
    (fun _ => eq_refl) (proj1 Hp)) as Hw. rewrite E in Hw. destruct Hw as [Hg _].
  exact (no_tcp_finish _ _ _ _ (no_tcp_keeps _ _ Hp Hg) H).
Qed.
End no_tcp.

(** * Properties *)

(** C5: the Viewer as a process.  Whatever its calls answer and whatever the
    signal thread, the TCP thread and the management thread do in whatever order
    (requests of any bytes, connections, signals), if both worker threads could
    be created no step accesses memory outside an object, locks or unlocks a mutex
    wrongly, uses a registry that is not initialized, or signals or joins a thread
    that was not created; and when [main] returns, the
    descriptors are those of before, no socket file is left, the registry is
    destroyed and every thread has ended; the exit code is 0 exactly when the
    pipe, the registry and the management thread could be created.  The accesses
    to shared variables are atomic here; which of them race in C is shown in
    ViewerRaces: the unlocked read of [shutdown_requested] in the TCP thread. *)
Theorem viewer_main_clean e p :
  viewer_start e p -> ve_t_sig e = true -> ve_t_tcp e = true ->
  match main e p with
  | Ret (code, p') =>
      code = (if bool_decide (is_Some (ve_pipe e)) && ve_mutex_ok e && ve_t_mgmt e then 0 else 1) /\
      viewer_released p p'
  | Blocked => True
  | UB => False
  end.
Proof.
  intros Hst Hsig Htcp. change (safe (main e p) (fun '(code, p') =>
    code = (if bool_decide (is_Some (ve_pipe e)) && ve_mutex_ok e && ve_t_mgmt e then 0 else 1) /\
    viewer_released p p')). unfold main. destruct (ve_pipe e) as [[p0 p1]|] eqn:Ep.
  2: { destruct Hst as [Hg (? & ? & ?) _ _]. split; [done|]. split; cbn; auto. by rewrite Hg. }
  fold (initialized p). eapply safe_bind; [by apply boot_safe|].
  intros [[ok reg] q] [-> Ha]. eapply safe_mono; [by eapply resume_safe|].
  intros [code p'] (Hc & Hf & Hfi & Hr & Hs' & Ht' & Hm'). rewrite bool_decide_true by by eexists.
  split; [done|]. split; auto.
Qed.

(** C36: the creation of the worker threads is not checked.  Without the signal
    thread [main] waits for ever; with it and without the TCP thread [main] never
    returns: it ends in the join of an indeterminate [pthread_t] or before. *)
Theorem viewer_unchecked_threads e p p0 p1 :
  viewer_start e p -> ve_pipe e = Some (p0, p1) ->
  (ve_t_sig e = false -> main e p = Blocked) /\
  (ve_t_sig e = true -> ve_t_tcp e = false -> forall r, main e p <> Ret r).
Proof.
  intros Hst Ep. pose proof (start_inv e p p0 p1 Hst Ep) as Hi.
  destruct Hst as [Hg (Hs & Ht & Hm) Hn Hp]. unfold main. rewrite Ep. fold (initialized p).
  unfold boot. fold (piped p0 p1 (initialized p)). set (q := piped p0 p1 (initialized p)) in Hi |- *. split.
  - intros ->. assert (alone q) as Ha by by split.
    pose proof (alone_acts (ve_between e 0) _ Ha) as Hq. destruct (vacts _ _) as [q1| |]; run; [|done|done].
    by rewrite alone_waits.
  - intros -> Htcp r H. apply exec_bind_inv in H as ([[ok reg] q3] & H & Hr).
    assert (no_tcp (sys_fds (vp_sys p)) (sys_files (vp_sys p)) p0 p1 (set_sig q SigStarted)) as Hn0
      by (destruct Hi; by split; [split|]).
    apply exec_bind_inv in H as (q1 & E1 & H). destruct (vacts_keeps _ _ _ _ _ _ (proj1 Hn0) E1) as [Hi1 Hk1].
    apply exec_bind_inv in H as (q2 & E2 & E3).
    pose proof (wait_while_safe _ _ _ (fun a => negb (signal_thread_ready a)) (ve_ready e) q1
      (fun _ => eq_refl) Hi1) as Hq2. rewrite E2 in Hq2. destruct Hq2 as [[Hi2 Hk2] _].
    destruct (vkeeps_trans _ _ _ Hk1 Hk2) as [_ Kt Km _ _ _ _ Kg].
    pose proof (no_tcp_prepare e (sys_fds (vp_sys p)) (sys_files (vp_sys p)) p0 p1 q2 Htcp) as Hq3.
    rewrite E3 in Hq3. eapply no_tcp_resume; [|exact Hr].
    apply Hq3; [split; [done|by apply Kt]|by apply Km|by rewrite Kg].
Qed.

(** ** Concrete runs *)

(** A Viewer that starts, receives a text over TCP, is asked to shut down over
    its management socket, and ends. *)
Definition demo_process : VProc :=
  mkProc (mkSys {[0; 1; 2]} ∅) initial_globals
    (mkViewerWorld (mkTimespec 100 0) 130 ∅ false (mkApp MtxUninit 0 false 0)) 0 ∅
    SigNone TcpNone MgmtNone [] [].

Definition demo_shutdown : vaction := AMgmt (asks MGMT_CMD_SHUTDOWN).2.

Definition demo_viewer (t_sig t_tcp : bool) : ViewerEnv :=
  mkViewerEnv (Some (3, 4)) t_sig [[]; [ASigReady]] t_tcp true 100 true
    [ [ATcpStart (Some 5) true true; AMgmtStart (mkCreateEnv true (Some 6) true)];
      [ATcp (SocketReadable (Some 7) None) (zeros 2048);
       ATcp (SocketReadable None (Some (bs "[TCP-RELAY] one"))) (zeros 2048)];
      [demo_shutdown] ]
    true [ASigWait SIGUSR1] [ATcp PipeReadable (zeros 2048)] [AMgmt idle.2] (fun _ => []).

Lemma demo_process_start t_sig t_tcp : viewer_start (demo_viewer t_sig t_tcp) demo_process.
Proof.
  split; [done|done|split; vm_compute; split; congruence|].
  intros p0 p1 [= <- <-]. split; [done|]. split; vm_compute; congruence.
Qed.

Lemma viewer_main_clean_witness :
  exists p', main (demo_viewer true true) demo_process = Ret (0, p') /\
    viewer_released demo_process p' /\ vp_out p' = printed (bs "[TCP-RELAY] one") /\
    length (vp_sent p') = 1%nat.
Proof.
  pose proof (viewer_main_clean (demo_viewer true true) demo_process (demo_process_start true true)
    eq_refl eq_refl) as H.
  assert (vp_out <$> (snd <$> match main (demo_viewer true true) demo_process with Ret r => Some r | _ => None end)
    = Some (printed (bs "[TCP-RELAY] one"))) as Ho by (vm_compute; reflexivity).
  assert (length <$> (vp_sent <$> (snd <$> match main (demo_viewer true true) demo_process with Ret r => Some r | _ => None end))
    = Some 1%nat) as Hl by (vm_compute; reflexivity).
  destruct (main (demo_viewer true true) demo_process) as [[code p']| |]; [|contradiction|discriminate].
  destruct H as [-> Hr]. exists p'. cbn in Ho, Hl. injection Ho as Ho. injection Hl as Hl.
  split; [reflexivity|]. split; [exact Hr|]. split; [exact Ho|exact Hl].
Defined.

Lemma viewer_unchecked_threads_witness :
  main (demo_viewer false true) demo_process = Blocked /\
  main (demo_viewer true false) demo_process <> Ret (0, demo_process).
Proof.
  split.
  - apply (viewer_unchecked_threads (demo_viewer false true) demo_process 3 4
      (demo_process_start false true) eq_refl). reflexivity.
  - apply (viewer_unchecked_threads (demo_viewer true false) demo_process 3 4
      (demo_process_start true false) eq_refl); reflexivity.
Defined.

(** The join of the TCP thread that was not created is reached. *)
Example unjoinable_tcp :
  match main (mkViewerEnv (Some (3, 4)) true [[ASigReady]] false true 100 true
    [[ADeliver SIGTERM; ASigWait SIGTERM]] true [ASigWait SIGUSR1] [] [] (fun _ => [])) demo_process with
  | UB => True | _ => False
  end.
Proof. vm_compute. exact I. Qed.
