(* ===== verification/ViewerShutdown.v ===== *)
(** * A remote shutdown of the Viewer (mgmtctl, mgmt_worker.c, Viewer/src/main.c)

    The management client of MgmtCtl talks to the process of ViewerProcess: the
    request travels through the socket, the dispatcher and the SHUTDOWN handler
    into the application context, the main thread wakes up, and every other
    thread ends at its next step. *)

From S2P Require Import Prelude CLib MgmtProtocol EventHandler MgmtSocket Handlers ViewerMgmt.
From S2P Require Import RouterMgmt MgmtCtl ModuleSession Viewer ViewerProcess.

(** The network between the client and a Viewer whose management thread has the
    next step; [stack] is the memory under its request object. *)
Definition viewer_net (stack : list byte) (p : VProc) (to from data : list byte) : delivery * VProc :=
  if negb (bool_decide (to = MGMT_SOCKET_PATH_VIEWER)) then (SendFails, p)
  else
    match vact (AMgmt (mkProcessEnv true (RecvFrom data from) stack true)) p with
    | Ret p' =>
        match drop (length (vp_sent p)) (vp_sent p') with
        | [(client, d)] => (if bool_decide (client = from) then Reply d else NoReply, p')
        | _ => (NoReply, p')
        end
    | _ => (NoReply, p)
    end.

(** The next step of each thread, and no other, once [main] goes on. *)
Definition last_steps (e : ViewerEnv) : Prop :=
  (forall k, ve_between e k = []) /\ ve_write_ok e = true /\ ve_join_sig e = [ASigWait SIGUSR1] /\
  (exists stack, ve_join_tcp e = [ATcp PollOther stack] /\ length stack = TCP_RECV_BUF_SIZE) /\
  exists pe, ve_join_mgmt e = [AMgmt pe] /\ length (pe_stack pe) = MGMT_REQUEST_SIZE.

Section shutdown.
Context (base : gset Z) (files : gset (list byte)) (p0 p1 : Z).
Abbreviation inv := (vp_inv base files [p0; p1]).

(** A request served by the management thread of a running Viewer. *)
Lemma serves_request pe client q ms p :
  inv p -> vp_mgmt p = MgmtLoop ms -> vw_running (vp_world p) = true ->
  received pe = Some (client, q) -> length (pe_stack pe) = MGMT_REQUEST_SIZE -> pe_setsockopt pe = true ->
  pe_send pe = true -> request_for "viewer" q -> rq_cmd_type q = MGMT_CMD_SHUTDOWN ->
  exists p' resp ms', vact (AMgmt pe) p = Ret p' /\ inv p' /\ vkeeps p p' /\
    vp_sent p' = vp_sent p ++ [(client, encode_response resp)] /\
    answers "viewer" (bs "shutdown initiated") (vw_now (vp_world p)) q resp /\
    viewer_stop VIEWER_CTX (vp_world p) (vp_world p') /\
    vp_sig p' = vp_sig p /\ vp_tcp p' = vp_tcp p /\ vp_mgmt p' = MgmtLoop ms'.
Proof using Type.
  intros Hi Hm Hrun Hrecv Hst Hso Hsend Hq Hcmd.
  pose proof (vact_safe base files [p0; p1] (AMgmt pe) p Hi) as Hsafe. cbn [vact] in *. rewrite Hm, Hst in *.
  cbn [Nat.eqb] in *. rewrite Nat.eqb_refl in *. unfold mgmt_act in *. rewrite Hrun in *. cbn [negb] in *.
  destruct (vq_serving _ _ _ _ Hi) as (_ & [_ Hserv Hctx]); [by rewrite Hm|].
  destruct (vq_socket _ _ _ _ Hi ms Hm) as [Hms _].
  destruct (serve_request (W := ViewerWorld) VIEWER_CTX (g_registry (vp_globals p)) q (vp_world p))
    as (res & resp & r' & w' & Hd & _ & _ & _ & Hstop); [done|done|by split; [|split; apply Hi]|].
  rewrite Hcmd in Hstop. destruct Hstop as [Hstop Hans]. unfold received in Hrecv.
  destruct (pe_recv pe) as [|d cl] eqn:Erv; [done|]. injection Hrecv as -> Eq. rewrite <- Eq in Hd.
  rewrite (process_one_dispatched _ pe d client ms 1000 _ _ res resp r' w') in * by done.
  cbn [mbind option_bind exec_bind obj sv_socket sv_registry sv_world sv_sent] in *. rewrite Hsend in *.
  destruct Hsafe as [Hi' Hk]. do 3 eexists. split; [done|]. by rewrite Eq in *.
Qed.

(** The main thread goes on at once when the flag is set. *)
Lemma resume_requested e ok reg p :
  inv p -> shutdown_requested (vp_app p) <> 0 -> resume e ok reg p0 p1 p = finish e ok reg p0 p1 p.
Proof using Type.
  intros Hi Hr. unfold resume, wait_while. rewrite app_lock_free by apply Hi. run.
  assert ((shutdown_requested (vp_app (locked p)) =? 0) = false) as E by (apply Z.eqb_neq, Hr).
  replace (cond_wait_while _ _ (locked p)) with (Ret (locked p)).
  - run. by rewrite app_unlock_locked by apply Hi.
  - by destruct (ve_stop e); cbn [cond_wait_while]; rewrite E.
Qed.

(** The last step of each thread. *)
Lemma sig_last p :
  vp_sig p = SigWaiting -> SIGUSR1 ∈ vp_pending p ->
  exists p', join_sig [ASigWait SIGUSR1] p = Ret p' /\ vp_tcp p' = vp_tcp p /\ vp_mgmt p' = vp_mgmt p /\
    vp_world p' = vp_world p /\ vp_globals p' = vp_globals p.
Proof using Type.
  intros Hs Hp. unfold join_sig. cbn [vacts vact]. rewrite Hs. unfold sig_act. rewrite bool_decide_true by done.
  by eexists.
Qed.

Lemma tcp_last p fd client stack :
  vp_tcp p = TcpLoop fd client -> shutdown_requested (vp_app p) <> 0 -> length stack = TCP_RECV_BUF_SIZE ->
  exists p', join_tcp [ATcp PollOther stack] p = Ret p' /\ vp_mgmt p' = vp_mgmt p /\
    vp_world p' = vp_world p /\ vp_globals p' = vp_globals p.
Proof using Type.
  intros Ht Hr Hl. unfold join_tcp. cbn [vacts vact]. rewrite Ht, Hl. cbn [poll_possible andb].
  rewrite Nat.eqb_refl. unfold tcp_act. apply Z.eqb_neq in Hr. rewrite Hr. cbn [negb tcp_loop ti_requested]. run.
  by eexists.
Qed.

Lemma mgmt_last p ms pe :
  vp_mgmt p = MgmtLoop ms -> vw_running (vp_world p) = false -> sock_wf ms ->
  cstring (socket_path ms) = Some MGMT_SOCKET_PATH_VIEWER -> length (pe_stack pe) = MGMT_REQUEST_SIZE ->
  exists p', join_mgmt [AMgmt pe] p = Ret p' /\ vp_globals p' = vp_globals p.
Proof using Type.
  intros Hm Hr Hms Hp Hl. unfold join_mgmt. cbn [vacts vact]. rewrite Hm, Hl, Nat.eqb_refl. unfold mgmt_act.
  rewrite Hr. cbn [negb]. unfold mgmt_socket_destroy. rewrite (proj2 (Z.leb_le _ _) (sw_fd _ Hms)), Hp. by eexists.
Qed.

(** With the flag set, the next step of each thread is its last one. *)
Lemma finish_ends e ok reg p fd client ms :
  inv p -> last_steps e -> shutdown_requested (vp_app p) <> 0 -> g_registry_initialized (vp_globals p) = reg ->
  vp_sig p = SigWaiting -> vp_tcp p = TcpLoop fd client -> vp_mgmt p = MgmtLoop ms ->
  exists p', finish e ok reg p0 p1 p = Ret (if ok then 0 else 1, p') /\
    ends_clean base files ok (if ok then 0 else 1, p').
Proof using Type.
  intros Hi (Hb & Hw & Hjs & (stack & Hjt & Hst) & pe & Hjm & Hpe) Hr Hreg Hs Ht Hm.
  pose proof (finish_safe e base files p0 p1 ok reg p) as Hsafe.
  destruct (vq_socket _ _ _ _ Hi ms Hm) as [Hms Hpath].
  assert (exists r, finish e ok reg p0 p1 p = Ret r) as [[code p'] E].
  { unfold finish. rewrite !Hb, Hw, Hjs, Hjt, Hjm. cbn [vacts]. run.
    unfold kill_sig. change (vp_sig (set_keep_running p false)) with (vp_sig p). rewrite Hs. run.
    set (q := push_byte _). destruct (sig_last q) as (q1 & -> & Ht1 & Hm1 & Hw1 & Hg1);
      [done|by apply elem_of_union_l, elem_of_singleton_2|]. run.
    destruct (tcp_last q1 fd client stack) as (q2 & -> & Hm2 & Hw2 & Hg2);
      [by rewrite Ht1|unfold vp_app; by rewrite Hw1|done|]. run. rewrite Hm2, Hm1.
    change (vp_mgmt q) with (vp_mgmt p). rewrite Hm.
    destruct (mgmt_last q2 ms pe) as (q3 & -> & Hg3);
      [by rewrite Hm2, Hm1|by rewrite Hw2, Hw1|done..|]. run.
    set (q4 := set_sys q3 _). assert (vp_globals q4 = vp_globals p) as Hg4
      by (change (vp_globals q4) with (vp_globals q3); by rewrite Hg3, Hg2, Hg1).
    destruct (registry_destroy_safe reg q4) as (g & -> & _); [|by rewrite Hg4|by eexists].
    rewrite Hg4. apply Hi. }
  rewrite E in Hsafe. exists p'. destruct Hsafe as [-> H]; [by split_and!; rewrite ?Hs, ?Ht|]. by split.
Qed.
End shutdown.

(** * Properties *)

(** C18: `mgmtctl viewer shutdown` stops a running Viewer.  In any state in which
    the Viewer's threads are in their loops, the command prints the handler's
    answer under OK and exits with 0; the flag is set then, so the main thread
    does not wait any more, the next step of each of the other threads is its
    last one, and [main] returns with all descriptors closed, the socket file
    removed, the registry destroyed and every thread joined. *)
Theorem viewer_mgmtctl_shutdown base files p0 p1 p ms fd client cfd pid now stack resp argv payload len sys :
  vp_inv base files [p0; p1] p -> vp_sig p = SigWaiting -> vp_tcp p = TcpLoop fd client ->
  vp_mgmt p = MgmtLoop ms -> vw_running (vp_world p) = true ->
  wf_timespec now -> length stack = MGMT_REQUEST_SIZE -> length resp = MGMT_RESPONSE_SIZE ->
  parse_args argv = Command MGMT_SOCKET_PATH_VIEWER (bs "viewer") MGMT_CMD_SHUTDOWN payload len ->
  exists sys' p',
    MgmtCtl.main (viewer_net stack) (Some cfd) true pid now resp argv sys p =
      Some (0, result_line (bs "viewer") MGMT_CMD_SHUTDOWN MGMT_RESULT_OK ++
               bs "shutdown initiated" ++ [x0a], [], sys', p') /\
    viewer_stop VIEWER_CTX (vp_world p) (vp_world p') /\
    forall e ok, last_steps e -> exists p2,
      resume e ok true p0 p1 p' = Ret (if ok then 0 else 1, p2) /\
      ends_clean base files ok (if ok then 0 else 1, p2).
Proof.
  intros Hi Hs Ht Hm Hrun Hnow Hst Hresp Hparse.
  destruct (main_request now _ _ _ _ _ _ Hnow Hparse) as (q & Hinit & Hq & Hcmd & Hv & Htm & _).
  assert (recv_into stack (encode_request q) = encode_request q) as Hrecv
    by (apply recv_into_full; by rewrite length_encode_request, Hst).
  destruct (serves_request base files p0 p1
    (mkProcessEnv true (RecvFrom (encode_request q) (client_path pid)) stack true) (client_path pid) q ms p)
    as (p' & r & ms' & E & Hi' & Hk & Hsent & Hans & Hstop & Hs' & Ht' & Hm'); try done.
  { unfold received. cbn [pe_recv pe_stack]. by rewrite Hrecv, decode_encode_request_wf. }
  destruct (main_reply (viewer_net stack) p p' cfd pid now resp argv MGMT_SOCKET_PATH_VIEWER (bs "viewer")
    MGMT_CMD_SHUTDOWN payload len sys q r (bs "shutdown initiated")) as (sys' & Emain); try done; try apply Hans.
  { unfold viewer_net. rewrite bool_decide_true by done. cbn [negb]. rewrite E, Hsent, drop_app_length.
    by rewrite bool_decide_true. }
  exists sys', p'. split; [|split; [done|]].
  - rewrite Emain, (an_result _ _ _ _ _ Hans). by rewrite bool_decide_false.
  - intros e ok He. assert (shutdown_requested (vp_app p') <> 0) as Hr
      by (unfold vp_app; rewrite Hstop; cbn; done).
    rewrite (resume_requested base files) by done.
    eapply finish_ends; try done; [|by rewrite Hs'|by rewrite Ht'].
    rewrite (vk_init _ _ Hk). apply (vq_serving _ _ _ _ Hi). by rewrite Hm.
Qed.

(** ** Concrete run *)

(** A Viewer whose threads are in their loops. *)
Definition demo_started : VProc :=
  let w := vp_world demo_process in
  set_tcp (set_sig (set_sys (set_world demo_process (mkViewerWorld (vw_now w) (vw_time w) (vw_ctxs w) true
    (mkApp MtxFree 0 false 0))) (sys_open 4 (sys_open 3 (vp_sys demo_process)))) SigStarted) TcpStarted.

Definition demo_threads : list vaction :=
  [ASigReady; ATcpStart (Some 5) true true; AMgmtStart (mkCreateEnv true (Some 6) true)].

Lemma demo_running : exists p ms, vp_inv {[0; 1; 2]} ∅ [3; 4] p /\ vp_sig p = SigWaiting /\
  vp_tcp p = TcpLoop 5 None /\ vp_mgmt p = MgmtLoop ms /\ vw_running (vp_world p) = true.
Proof.
  assert (vp_inv {[0; 1; 2]} ∅ [3; 4] demo_started) as H0.
  { destruct (start_inv (demo_viewer true true) demo_process 3 4 (demo_process_start true true) eq_refl).
    by split. }
  destruct (start_mgmt_safe (demo_viewer true true) {[0; 1; 2]} ∅ 3 4 demo_started H0 eq_refl eq_refl)
    as (reg & p1 & E1 & H1 & _).
  pose proof (vacts_safe _ _ _ demo_threads p1 H1) as H2.
  assert (match start_mgmt (demo_viewer true true) demo_started with
    | Ret (_, p1) =>
        match vacts demo_threads p1 with
        | Ret p => vp_sig p = SigWaiting /\ vp_tcp p = TcpLoop 5 None /\
            match vp_mgmt p with MgmtLoop _ => true | _ => false end = true /\ vw_running (vp_world p) = true
        | _ => False
        end
    | _ => False
    end) as H3 by (vm_compute; auto).
  rewrite E1 in H3. destruct (vacts demo_threads p1) as [p| |]; try done.
  destruct H2 as [H2 _], H3 as (Hs & Ht & Hm & Hr). destruct (vp_mgmt p) as [| |ms|] eqn:Em; try done.
  by exists p, ms.
Qed.

Lemma viewer_mgmtctl_shutdown_witness :
  exists p sys' p', MgmtCtl.main (viewer_net (zeros 600)) (Some 3) true 77 zero_timespec (zeros 2152)
      [bs "mgmtctl"; bs "viewer"; bs "shutdown"] (mkSys ∅ ∅) p =
      Some (0, bs "[viewer] SHUTDOWN -> OK" ++ [x0a] ++ bs "shutdown initiated" ++ [x0a], [], sys', p') /\
    exists p2, resume (mkViewerEnv (Some (3, 4)) true [] true true 100 true [] true [ASigWait SIGUSR1]
        [ATcp PollOther (zeros 2048)] [AMgmt idle.2] (fun _ => [])) true true 3 4 p' = Ret (0, p2) /\
      sys_fds (vp_sys p2) = {[0; 1; 2]}.
Proof.
  destruct demo_running as (p & ms & Hi & Hs & Ht & Hm & Hr). exists p.
  destruct (viewer_mgmtctl_shutdown {[0; 1; 2]} ∅ 3 4 p ms 5 None 3 77 zero_timespec (zeros 600) (zeros 2152)
    [bs "mgmtctl"; bs "viewer"; bs "shutdown"] (zeros 512) 0 (mkSys ∅ ∅) Hi Hs Ht Hm Hr)
    as (sys' & p' & E & _ & Hend).
  - split; vm_compute; split; congruence.
  - reflexivity.
  - reflexivity.
  - reflexivity.
  - exists sys', p'. split; [exact E|].
    destruct (Hend (mkViewerEnv (Some (3, 4)) true [] true true 100 true [] true [ASigWait SIGUSR1]
        [ATcp PollOther (zeros 2048)] [AMgmt idle.2] (fun _ => [])) true) as (p2 & E2 & _ & Hf & _).
    + split; [reflexivity|]. split; [reflexivity|]. split; [reflexivity|].
      split; [exists (zeros 2048); split; reflexivity|exists idle.2; split; reflexivity].
    + exists p2. split; [exact E2|exact Hf].
Defined.
