(* ===== verification/ViewerLink.v ===== *)
(** * The Viewer's process and its transition system

    Viewer proves deadlock freedom and the shutdown on a transition system whose
    states keep the flags and the places of the threads.  Here every run of the
    process of ViewerProcess, which is made of the functions on the data, is a run
    of that system: the abstraction of the process state follows each action of a
    thread and each step of [main]. *)

From S2P Require Import Prelude CLib MgmtProtocol EventHandler MgmtSocket Handlers ViewerMgmt.
From S2P Require Import RouterMgmt MgmtCtl ModuleSession Viewer ViewerProcess.

(** ** The abstraction *)

Definition sig_place (s : sig_state) : signal_pc :=
  match s with SigNone | SigStarted => SLockReady | SigWaiting => SWait | SigEnded => SDone end.
Definition tcp_place (t : tcp_state) : tcp_pc :=
  match t with TcpNone => TNone | TcpStarted => TStart | TcpLoop _ _ => TLoop | TcpEnded => TDone end.
Definition mgmt_place (m : mgmt_state) : mgmt_pc :=
  match m with MgmtNone => GNone | MgmtStarted | MgmtLoop _ => GLoop | MgmtEnded => GDone end.

(** A state between the actions, in which no thread has the mutex; the main
    thread is at [pc], and [open] tells whether the pipe is open. *)
Definition vabs (open : bool) (pc : main_pc) (p : VProc) : VState :=
  mkV None (negb (shutdown_requested (vp_app p) =? 0)) (signal_thread_ready (vp_app p))
    (vw_running (vp_world p)) (0 <? vp_pipe p)%nat
    (bool_decide (SIGINT ∈ vp_pending p \/ SIGTERM ∈ vp_pending p)) (bool_decide (SIGUSR1 ∈ vp_pending p))
    open (g_registry_initialized (vp_globals p)) pc (sig_place (vp_sig p)) (tcp_place (vp_tcp p))
    (mgmt_place (vp_mgmt p)).

(** What a signal of the condition variable does to the main thread. *)
Definition wake (pc : main_pc) : main_pc :=
  match pc with MWaitReady => MWakeReady | MWaitStop => MWakeStop | _ => pc end.

(** The answer of the sockets is the one of the transition system. *)
Definition act_ok (tcp_ok : bool) (a : vaction) : Prop :=
  match a with
  | ATcpStart server b l => bool_decide (is_Some server) && b && l = tcp_ok
  | _ => True
  end.

(** * Lemmas *)

Lemma cond_signal_wake s : cond_signal s = at_main s (wake (v_main s)).
Proof. by destruct s as [? ? ? ? ? ? ? ? ? []]. Qed.

Lemma wake_idem pc : wake (wake pc) = wake pc.
Proof. by destruct pc. Qed.

Section steps.
Context (r1 r2 r3 tk : bool).
Abbreviation step := (vstep r1 r2 r3 tk).

Lemma by_main s s' : s' ∈ main_step r1 r2 r3 s -> step s s'.
Proof using Type. intros H. left. apply elem_of_app. by left. Qed.
Lemma by_signal s s' : s' ∈ signal_step s -> step s s'.
Proof using Type. intros H. left. apply elem_of_app. right. apply elem_of_app. by left. Qed.
Lemma by_tcp s s' : s' ∈ tcp_step tk s -> step s s'.
Proof using Type. intros H. left. apply elem_of_app. right. apply elem_of_app. right. apply elem_of_app. by left. Qed.
Lemma by_mgmt s s' : s' ∈ mgmt_step s -> step s s'.
Proof using Type. intros H. left. apply elem_of_app. right. apply elem_of_app. right. apply elem_of_app. by right. Qed.

(** A thread locks, changes the context, signals and unlocks. *)
Lemma signal_request s :
  v_mtx s = None -> v_signal s = SLock ->
  rtc step s (at_signal (at_main (set_requested s) (wake (v_main s))) SWait).
Proof using Type.
  intros Hm Hs. eapply rtc_l; [apply by_signal; unfold signal_step, acquire; rewrite Hs, Hm; by left|].
  apply rtc_once, by_signal. unfold signal_step. cbn. rewrite cond_signal_wake.
  destruct s. cbn in *. subst. by left.
Qed.

Lemma mgmt_request s :
  v_mtx s = None -> v_mgmt s = GStop ->
  rtc step s (at_mgmt (at_main (set_requested (stop_mgmt s)) (wake (v_main s))) GLoop).
Proof using Type.
  intros Hm Hs. eapply rtc_l; [apply by_mgmt; unfold mgmt_step; rewrite Hs; by left|].
  eapply rtc_l; [apply by_mgmt; unfold mgmt_step, acquire; cbn; rewrite Hm; by left|].
  apply rtc_once, by_mgmt. unfold mgmt_step. cbn. rewrite cond_signal_wake.
  destruct s. cbn in *. subst. by left.
Qed.

(** The tests at the head of the loops. *)
Lemma tcp_test s b : v_tcp s = TLoop -> v_requested s = b -> step s (at_tcp s (if b then TDone else TPoll)).
Proof using Type. intros Ht Hr. apply by_tcp. unfold tcp_step. rewrite Ht, Hr. by left. Qed.

Lemma mgmt_test s b : v_mgmt s = GLoop -> v_running s = b -> step s (at_mgmt s (if b then GRecv else GDone)).
Proof using Type. intros Hm Hr. apply by_mgmt. unfold mgmt_step. rewrite Hm, Hr. by left. Qed.

(** ** The actions *)

Lemma sig_ready_sim op pc p p' :
  app_mtx (vp_app p) = MtxFree -> vact ASigReady p = Ret p' -> rtc step (vabs op pc p) (vabs op (wake pc) p').
Proof using Type.
  intros Hm. cbn [vact]. destruct (vp_sig p) eqn:Es; try done. unfold report_ready. rewrite Hm. run.
  intros [= <-]. eapply rtc_l; [apply by_signal; unfold signal_step, vabs; cbn; rewrite Es; by left|].
  apply rtc_once, by_signal. unfold signal_step. cbn. rewrite cond_signal_wake. by left.
Qed.

(** The pending signals without one that was taken. *)
Lemma sig_wait_sim op pc sig p p' :
  app_mtx (vp_app p) = MtxFree -> vact (ASigWait sig) p = Ret p' ->
  exists pc', (pc' = pc \/ pc' = wake pc) /\ rtc step (vabs op pc p) (vabs op pc' p').
Proof using Type.
  intros Hm. cbn [vact]. destruct (vp_sig p) eqn:Es; try done. unfold sig_act.
  destruct (bool_decide (sig ∈ vp_pending p)) eqn:Ep; cbn [negb]; [|done]. apply bool_decide_eq_true in Ep.
  destruct ((sig =? SIGINT) || (sig =? SIGTERM)) eqn:E.
  - rewrite request_shutdown_free by done. run. intros [= <-].
    assert (sig = SIGINT \/ sig = SIGTERM) as Hsig by (tests; lia).
    exists (wake pc). split; [by right|].
    eapply rtc_l; [apply by_signal; unfold signal_step, vabs; cbn; rewrite Es; cbn;
      rewrite bool_decide_true by (destruct Hsig as [<-|<-]; auto); by left|].
    etransitivity; [by apply signal_request|]. cbn.
    assert (bool_decide (SIGUSR1 ∈ vp_pending p ∖ {[sig]}) = bool_decide (SIGUSR1 ∈ vp_pending p)) as Eu.
    { apply bool_decide_ext. rewrite elem_of_difference, elem_of_singleton.
      destruct Hsig as [->| ->]; intuition discriminate. }
    destruct (bool_decide (SIGINT ∈ vp_pending p ∖ {[sig]} \/ SIGTERM ∈ vp_pending p ∖ {[sig]})) eqn:Et.
    + eapply rtc_l; [right; apply ex_term|]. unfold vabs, set_term. cbn. rewrite Et, Eu, Es. apply rtc_refl.
    + unfold vabs. cbn. rewrite Et, Eu, Es. apply rtc_refl.
  - destruct (sig =? SIGUSR1) eqn:Eu; [|done]. intros [= <-]. apply Z.eqb_eq in Eu. subst sig.
    exists pc. split; [by left|]. apply rtc_once, by_signal. unfold signal_step, vabs. cbn. rewrite Es. cbn.
    apply elem_of_app. right. rewrite (bool_decide_true (SIGUSR1 ∈ vp_pending p)) by done. apply list_elem_of_singleton.
    rewrite (bool_decide_false (SIGUSR1 ∈ _)) by set_solver. unfold at_signal, set_usr1. cbn. f_equal.
    apply bool_decide_ext. rewrite !elem_of_difference, !elem_of_singleton. unfold SIGINT, SIGTERM, SIGUSR1.
    intuition lia.
Qed.

Lemma deliver_sim op pc sig p : rtc step (vabs op pc p) (vabs op pc (set_pending p ({[sig]} ∪ vp_pending p))).
Proof using Type.
  destruct (decide (sig = SIGINT \/ sig = SIGTERM)) as [Hs|Hs].
  - eapply rtc_l; [right; apply ex_term|]. unfold vabs, set_term. cbn.
    rewrite (bool_decide_true (_ \/ _)) by set_solver.
    rewrite (bool_decide_ext (SIGUSR1 ∈ _ ∪ _) (SIGUSR1 ∈ vp_pending p)); [apply rtc_refl|].
    rewrite elem_of_union, elem_of_singleton. destruct Hs as [->| ->]; intuition discriminate.
  - assert (bool_decide (SIGINT ∈ {[sig]} ∪ vp_pending p \/ SIGTERM ∈ {[sig]} ∪ vp_pending p) =
      bool_decide (SIGINT ∈ vp_pending p \/ SIGTERM ∈ vp_pending p)) as E by (apply bool_decide_ext; set_solver).
    destruct (decide (sig = SIGUSR1)) as [->|Hu].
    + eapply rtc_l; [right; apply ex_usr1|]. unfold vabs, set_usr1. cbn. rewrite E.
      rewrite (bool_decide_true (SIGUSR1 ∈ _)) by set_solver. apply rtc_refl.
    + unfold vabs. cbn. rewrite E. rewrite (bool_decide_ext (SIGUSR1 ∈ _ ∪ _) (SIGUSR1 ∈ vp_pending p)); [apply rtc_refl|].
      set_solver.
Qed.

(** When an iteration of the TCP thread is its last one. *)
Definition tcp_ends (it : TcpIteration) : bool :=
  ti_requested it || match ti_event it with PollFailed | PipeReadable => true | _ => false end.

Lemma tcp_loop_ended it client s out ended client' s' out' :
  tcp_loop [it] client s out = Some (ended, client', s', out') -> ended = tcp_ends it.
Proof using Type.
  unfold tcp_ends. cbn [tcp_loop]. destruct (ti_requested it); [by intros [=]|].
  destruct (ti_event it) as [| | |acc rcv|]; cbn [orb]; try (by intros [=]).
  destruct client as [c|]; [|destruct acc; by intros [=]].
  destruct (_ =? 0)%nat; [by intros [=]|]. intros (buf & _ & H)%bind_Some.
  apply bind_Some in H as (text & _ & H). by injection H.
Qed.

Lemma tcp_act_sim op pc ev stack p p' :
  vact (ATcp ev stack) p = Ret p' -> rtc step (vabs op pc p) (vabs op pc p').
Proof using Type.
  cbn [vact]. destruct (vp_tcp p) as [| |fd client|] eqn:Et; try done.
  destruct (poll_possible p ev) eqn:Ep; cbn [andb]; [|done]. destruct (_ =? _)%nat; [|done]. unfold tcp_act.
  set (it := mkTcpIteration _ _ _).
  destruct (tcp_loop [it] client (vp_sys p) (vp_out p)) as [[[[ended client'] s'] out']|] eqn:El; run; [|done].
  pose proof (tcp_loop_ended _ _ _ _ _ _ _ _ El) as ->. unfold tcp_ends, it. cbn [ti_requested ti_event].
  destruct (shutdown_requested (vp_app p) =? 0) eqn:Er; cbn [negb orb].
  - assert (rtc step (vabs op pc p) (at_tcp (vabs op pc p) TPoll)) as Hpoll.
    { apply rtc_once, (tcp_test _ false); cbn; by rewrite ?Et, ?Er. }
    destruct ev; intros [= <-]; (etransitivity; [exact Hpoll|]); apply rtc_once.
    + right. by apply (ex_network (at_tcp (vabs op pc p) TPoll)).
    + right. by apply (ex_poll_failed (at_tcp (vabs op pc p) TPoll)).
    + apply by_tcp. unfold tcp_step. cbn. cbn in Ep. rewrite Ep. by left.
    + right. by apply (ex_network (at_tcp (vabs op pc p) TPoll)).
    + right. by apply (ex_network (at_tcp (vabs op pc p) TPoll)).
  - intros [= <-]. apply rtc_once. apply (tcp_test (vabs op pc p) true); cbn; by rewrite ?Et, ?Er.
Qed.

Lemma tcp_start_sim op pc server b l p p' :
  act_ok tk (ATcpStart server b l) -> vact (ATcpStart server b l) p = Ret p' ->
  rtc step (vabs op pc p) (vabs op pc p').
Proof using Type.
  intros Hok. cbn [vact act_ok] in *. destruct (vp_tcp p) eqn:Et; try done. destruct (fresh_fd _ _); [|done].
  intros H. apply rtc_once, by_tcp. unfold tcp_step, vabs. cbn. rewrite Et. cbn. rewrite <- Hok.
  unfold tcp_start in H. destruct server as [fd|]; cbn.
  - destruct b, l; cbn in H |- *; injection H as <-; by left.
  - injection H as <-. by left.
Qed.

Lemma mgmt_start_sim op pc ce p p' :
  vact (AMgmtStart ce) p = Ret p' -> rtc step (vabs op pc p) (vabs op pc p').
Proof using Type.
  cbn [vact]. destruct (vp_mgmt p) eqn:Em; try done. destruct (fresh_fd _ _); [|done]. unfold mgmt_start.
  destruct (mgmt_socket_create _ _ _) as [[[ms|] s]|]; run; try done; intros [= <-].
  - unfold vabs. cbn. rewrite Em. apply rtc_refl.
  - apply rtc_once. right. unfold vabs at 2. cbn. apply (ex_no_socket (vabs op pc p)). cbn. by rewrite Em.
Qed.

Lemma mgmt_act_sim base files pipe op pc e p p' :
  vp_inv base files pipe p -> vact (AMgmt e) p = Ret p' ->
  exists pc', (pc' = pc \/ pc' = wake pc) /\ rtc step (vabs op pc p) (vabs op pc' p').
Proof using Type.
  intros Hi. cbn [vact]. destruct (vp_mgmt p) as [| |ms|] eqn:Em; try done.
  destruct (_ =? _)%nat eqn:El; [|done]. apply Nat.eqb_eq in El. unfold mgmt_act.
  destruct (vw_running (vp_world p)) eqn:Er; cbn [negb].
  - destruct (mgmt_socket_process_one _ _ _ _ _ _) as [sv|] eqn:E; run; [|done].
    destruct (sv_socket sv) as [ms'|]; run; [|done]. intros [= <-].
    destruct (vq_serving _ _ _ _ Hi) as (Hg & [Hh _ Hctx]); [by rewrite Em|].
    assert (rtc step (vabs op pc p) (at_mgmt (vabs op pc p) GRecv)) as Hrecv.
    { apply rtc_once, (mgmt_test _ true); cbn; by rewrite ?Em, ?Er. }
    assert (viewer_ready VIEWER_CTX (vp_world p)) as Hready by (split; [done|]; split; apply Hi).
    destruct (process_one_post _ _ _ _ _ _ _ _ (vq_registry _ _ _ _ Hi Hg) El
      (@module_handlers_return _ viewer_module _ _ _ Hready Hh) E) as [Hw|Hw].
    + exists pc. split; [by left|]. etransitivity; [exact Hrecv|]. apply rtc_once. right.
      match goal with |- external _ ?s => replace s with (at_mgmt (at_mgmt (vabs op pc p) GRecv) GLoop) end;
        [by apply ex_timeout|]. unfold vabs, vp_app. cbn. by rewrite Hw.
    + exists (wake pc). split; [by right|]. etransitivity; [exact Hrecv|].
      eapply rtc_l; [right; by apply ex_shutdown|]. etransitivity; [by apply mgmt_request|].
      unfold vabs, vp_app. cbn. rewrite Hw. apply rtc_refl.
  - destruct (mgmt_socket_destroy _ _); run; [|done]. intros [= <-]. exists pc. split; [by left|].
    apply rtc_once. apply (mgmt_test (vabs op pc p) false); cbn; by rewrite ?Em, ?Er.
Qed.

Section process.
Context (base : gset Z) (files : gset (list byte)) (pipe : list Z).
Abbreviation inv := (vp_inv base files pipe).

Lemma vact_sim op pc a p p' :
  inv p -> act_ok tk a -> vact a p = Ret p' ->
  exists pc', (pc' = pc \/ pc' = wake pc) /\ rtc step (vabs op pc p) (vabs op pc' p').
Proof using Type.
  intros Hi Ha E. destruct a as [|sig|server b l|ev stack|ce|e|sig|now time].
  - exists (wake pc). split; [by right|]. apply sig_ready_sim; [apply Hi|done].
  - eapply sig_wait_sim; [apply Hi|done].
  - exists pc. split; [by left|]. by eapply tcp_start_sim.
  - exists pc. split; [by left|]. by eapply tcp_act_sim.
  - exists pc. split; [by left|]. by eapply mgmt_start_sim.
  - by eapply mgmt_act_sim.
  - exists pc. split; [by left|]. injection E as <-. apply deliver_sim.
  - exists pc. split; [by left|]. cbn in E. case_bool_decide; [|done]. injection E as <-. apply rtc_refl.
Qed.

Lemma vacts_sim op l : forall pc p p',
  inv p -> Forall (act_ok tk) l -> vacts l p = Ret p' ->
  inv p' /\ exists pc', (pc' = pc \/ pc' = wake pc) /\ rtc step (vabs op pc p) (vabs op pc' p').
Proof using Type.
  induction l as [|a l IH]; intros pc p p' Hi Hl E; cbn [vacts] in E.
  { injection E as <-. split; [done|]. exists pc. split; [by left|apply rtc_refl]. }
  apply Forall_cons in Hl as [Ha Hl]. apply exec_bind_inv in E as (p1 & E1 & E).
  pose proof (vact_safe base files pipe a p Hi) as Hs. rewrite E1 in Hs. destruct Hs as [Hi1 _].
  destruct (vact_sim op pc a p p1 Hi Ha E1) as (pc1 & Hpc1 & Hr1).
  destruct (IH pc1 p1 p' Hi1 Hl E) as (Hi' & pc2 & Hpc2 & Hr2). split; [done|]. exists pc2.
  split; [|by etransitivity]. destruct Hpc1 as [->| ->], Hpc2 as [->| ->]; rewrite ?wake_idem; auto.
Qed.

(** The main thread is not asleep. *)
Lemma vacts_awake op pc l p p' :
  wake pc = pc -> inv p -> Forall (act_ok tk) l -> vacts l p = Ret p' ->
  inv p' /\ rtc step (vabs op pc p) (vabs op pc p').
Proof using Type.
  intros Hw Hi Hl E. destruct (vacts_sim op l pc p p' Hi Hl E) as (Hi' & pc' & Hpc & Hr). split; [done|].
  rewrite Hw in Hpc. by destruct Hpc as [->| ->].
Qed.

(** ** The two waits *)

Definition wait_test (stop : bool) (a : AppContext) : bool :=
  if stop then shutdown_requested a =? 0 else negb (signal_thread_ready a).
Definition pc_lock (stop : bool) := if stop then MLockStop else MLockReady.
Definition pc_test (stop : bool) := if stop then MTestStop else MTestReady.
Definition pc_wait (stop : bool) := if stop then MWaitStop else MWaitReady.
Definition pc_wake (stop : bool) := if stop then MWakeStop else MWakeReady.
Definition pc_next (stop : bool) := if stop then MStore else MStart.

Definition having (s : VState) : VState := set_mtx s (Some ThMain).

Lemma lock_sim stop op p pc :
  pc = pc_lock stop \/ pc = pc_wake stop ->
  rtc step (vabs op pc p) (having (vabs op (pc_test stop) p)).
Proof using Type.
  intros Hpc. apply rtc_once, by_main. unfold main_step, acquire. cbn.
  destruct Hpc as [->| ->], stop; by left.
Qed.

Lemma test_sim stop op p :
  rtc step (having (vabs op (pc_test stop) p))
    (vabs op (if wait_test stop (vp_app p) then pc_wait stop else pc_next stop) p).
Proof using Type.
  destruct (wait_test stop (vp_app p)) eqn:E.
  - apply rtc_once, by_main. unfold main_step. destruct stop; cbn in E |- *.
    + rewrite E. by left.
    + apply negb_true_iff in E. rewrite E. by left.
  - destruct stop; cbn in E.
    + eapply rtc_l; [apply by_main; unfold main_step; cbn; rewrite E; by left|].
      apply rtc_once, by_main. unfold main_step. cbn. by left.
    + apply negb_false_iff in E. eapply rtc_l; [apply by_main; unfold main_step; cbn; rewrite E; by left|].
      apply rtc_once, by_main. unfold main_step. cbn. by left.
Qed.

(** Awake again, by a signal or for no reason. *)
Lemma wake_sim stop op p pc :
  pc = pc_wait stop \/ pc = wake (pc_wait stop) -> rtc step (vabs op pc p) (vabs op (pc_wake stop) p).
Proof using Type.
  intros [->| ->]; [|by destruct stop; apply rtc_refl].
  apply rtc_once. right. destruct stop.
  - apply (ex_spurious (vabs op MWaitStop p)). by right.
  - apply (ex_spurious (vabs op MWaitReady p)). by left.
Qed.

Lemma wait_sim stop op wakes p p' :
  inv p -> Forall (Forall (act_ok tk)) wakes -> wait_while (wait_test stop) wakes p = Ret p' ->
  inv p' /\ rtc step (vabs op (pc_lock stop) p) (vabs op (pc_next stop) p').
Proof using Type.
  intros Hi Hw E. unfold wait_while in E. rewrite app_lock_free in E by apply Hi. cbn [mbind exec_bind] in E.
  assert (inv p' /\ rtc step (having (vabs op (pc_test stop) p)) (vabs op (pc_next stop) p')) as [Hi' Hr].
  2: { split; [done|]. etransitivity; [|exact Hr]. apply lock_sim. by left. }
  assert (forall q, wait_test stop (vp_app (locked q)) = wait_test stop (vp_app q)) as Hl by by destruct stop.
  revert p Hi E. induction Hw as [|l wakes Hal Hw IH]; intros p Hi E; cbn [cond_wait_while] in E; rewrite Hl in E;
    pose proof (test_sim stop op p) as Ht; destruct (wait_test stop (vp_app p)); cbn [negb mbind exec_bind] in E;
    try done; rewrite app_unlock_locked in E by apply Hi; try (by injection E as <-).
  cbn [mbind exec_bind] in E. destruct (vacts l p) as [p1| |] eqn:El; try done. cbn [mbind exec_bind] in E.
  destruct (vacts_sim op l (pc_wait stop) p p1 Hi Hal El) as (Hi1 & pc & Hpc & Hr).
  rewrite app_lock_free in E by apply Hi1. cbn [mbind exec_bind] in E.
  destruct (IH p1 Hi1 E) as [Hi' Hr']. split; [done|].
  etransitivity; [exact Ht|]. etransitivity; [exact Hr|]. etransitivity; [by apply wake_sim|].
  etransitivity; [apply lock_sim; by right|exact Hr'].
Qed.
End process.
End steps.

(** ** The main thread *)

(** The actions of an environment. *)
Record acts_ok (tk : bool) (e : ViewerEnv) : Prop := {
  ao_ready : Forall (Forall (act_ok tk)) (ve_ready e);
  ao_stop : Forall (Forall (act_ok tk)) (ve_stop e);
  ao_sig : Forall (act_ok tk) (ve_join_sig e);
  ao_tcp : Forall (act_ok tk) (ve_join_tcp e);
  ao_mgmt : Forall (act_ok tk) (ve_join_mgmt e);
  ao_between : forall k, Forall (act_ok tk) (ve_between e k) }.

Section main.
Context (e : ViewerEnv) (tk : bool) (Hacts : acts_ok tk e).
Context (base : gset Z) (files : gset (list byte)) (p0 p1 : Z).
Abbreviation inv := (vp_inv base files [p0; p1]).
Abbreviation step := (vstep (ve_mutex_ok e) true (ve_t_mgmt e) tk).
Abbreviation awake := (vacts_awake (ve_mutex_ok e) true (ve_t_mgmt e) tk base files [p0; p1]).

Lemma start_mgmt_sim op ok reg p p' :
  vp_mgmt p = MgmtNone -> vp_globals p = initial_globals -> start_mgmt e p = Ret (ok, reg, p') ->
  ok = mgmt_ok (ve_mutex_ok e) true (ve_t_mgmt e) /\ vp_tcp p' = vp_tcp p /\ vp_sig p' = vp_sig p /\
  g_registry_initialized (vp_globals p') = ve_mutex_ok e /\
  step (vabs op MStartMgmt p) (vabs op (if ok then MLockStop else MFailLock) p').
Proof using Type.
  intros Hm Hg. unfold start_mgmt. rewrite Hg. unfold handler_registry_init, mgmt_ok.
  cbn [g_registry_initialized initial_globals]. destruct (ve_mutex_ok e) eqn:Eo; cbn [negb andb Z.eqb].
  - destruct (register_three_empty "viewer" ltac:(by apply no_nul_lit) ltac:(cbn; lia)
      (mkRegistry (entries (g_registry initial_globals)) 0 MtxFree 0 0) VIEWER_CTX)
      as (r & E & _); [apply reg_wf_empty|apply NoDup_nil_2|done|].
    unfold viewer_mgmt_register. cbn [g_registry] in E |- *. rewrite E. run. cbn [negb Z.eqb].
    destruct (ve_t_mgmt e) eqn:Et; intros [= <- <- <-]; (do 4 (split; [done|])); apply by_main; unfold main_step, vabs;
      cbn; rewrite Hm; by left.
  - intros [= <- <- <-]. do 4 (split; [done|]). apply by_main. unfold main_step, vabs. cbn. rewrite Hm. by left.
Qed.

Lemma prepare_sim op ok reg p p' :
  ve_t_tcp e = true -> inv p -> vp_mgmt p = MgmtNone -> vp_tcp p = TcpNone -> vp_globals p = initial_globals ->
  prepare e p = Ret (ok, reg, p') -> inv p' /\ rtc step (vabs op MStart p) (vabs op MLockStop p').
Proof using Hacts.
  intros Htcp Hi Hm Ht Hg H. unfold prepare in H. rewrite Htcp in H.
  assert (inv (set_tcp p TcpStarted)) as Hi0 by (destruct Hi; split; cbn; try done; by rewrite Ht in *).
  apply exec_bind_inv in H as (q1 & E1 & H).
  destruct (awake op MStartMgmt _ _ _ eq_refl Hi0 (ao_between _ _ Hacts 1) E1) as [Hi1 Hr1].
  destruct (vacts_keeps _ _ _ _ _ _ Hi0 E1) as [_ Hk1].
  assert (vp_mgmt q1 = MgmtNone) as Hm1 by by apply Hk1.
  assert (vp_globals q1 = initial_globals) as Hg1 by by rewrite (vk_globals _ _ Hk1).
  destruct (start_mgmt_safe e base files p0 p1 q1 Hi1 Hm1 Hg1) as (reg2 & q2 & E2 & Hi2 & _).
  rewrite E2 in H. cbn [mbind exec_bind] in H.
  destruct (start_mgmt_sim op _ _ _ _ Hm1 Hg1 E2) as (_ & _ & _ & _ & Hr2).
  apply exec_bind_inv in H as (q3 & E3 & H).
  assert (rtc step (vabs op MStart p) (vabs op MStartMgmt (set_tcp p TcpStarted))) as Hr0.
  { apply rtc_once, by_main. unfold main_step. by left. }
  destruct (awake op (if ve_mutex_ok e && ve_t_mgmt e then MLockStop else MFailLock) _ _ _
    ltac:(by destruct (_ && _)) Hi2 (ao_between _ _ Hacts 2) E3) as [Hi3 Hr3].
  assert (rtc step (vabs op MStart p) (vabs op (if ve_mutex_ok e && ve_t_mgmt e then MLockStop else MFailLock) q3)) as Hr
    by (etransitivity; [exact Hr0|]; etransitivity; [exact Hr1|]; by eapply rtc_l).
  destruct (ve_mutex_ok e && ve_t_mgmt e); cbn [negb] in H; [by injection H as <- <- <-|].
  destruct (request_safe _ _ _ q3 Hi3) as (a & Ea & Hi4 & _). rewrite Ea in H. cbn in H. injection H as <- <- <-.
  split; [done|]. etransitivity; [exact Hr|].
  rewrite request_shutdown_free in Ea by apply Hi3. injection Ea as <-.
  eapply rtc_l; [apply by_main; unfold main_step, acquire; cbn; by left|].
  apply rtc_once, by_main. unfold main_step. cbn. by left.
Qed.

(** One join: the thread's actions, and the step of the main thread. *)
Lemma join_sig_sim op l p p' :
  inv p -> Forall (act_ok tk) l -> join_sig l p = Ret p' ->
  inv p' /\ vkeeps p p' /\ rtc step (vabs op MJoinSignal p) (vabs op MJoinTcp p').
Proof using Type.
  intros Hi Hl E. assert (vacts l p = Ret p' /\ vp_sig p' = SigEnded) as [Ev Es].
  { unfold join_sig in E. destruct (vp_sig p); try done; apply exec_bind_inv in E as (q & Eq & E);
      destruct (vp_sig q) eqn:Es; by simplify_eq. }
  destruct (awake op MJoinSignal _ _ _ eq_refl Hi Hl Ev) as [Hi' Hr].
  split; [done|]. split; [by eapply vacts_keeps|]. etransitivity; [exact Hr|].
  apply rtc_once, by_main. unfold main_step. cbn. rewrite Es. by left.
Qed.

Lemma join_tcp_sim op l p p' :
  inv p -> Forall (act_ok tk) l -> join_tcp l p = Ret p' ->
  inv p' /\ vkeeps p p' /\ rtc step (vabs op MJoinTcp p) (vabs op MJoinMgmt p').
Proof using Type.
  intros Hi Hl E. assert (vacts l p = Ret p' /\ vp_tcp p' = TcpEnded) as [Ev Es].
  { unfold join_tcp in E. destruct (vp_tcp p); try done; apply exec_bind_inv in E as (q & Eq & E);
      destruct (vp_tcp q) eqn:Es; by simplify_eq. }
  destruct (awake op MJoinTcp _ _ _ eq_refl Hi Hl Ev) as [Hi' Hr].
  split; [done|]. split; [by eapply vacts_keeps|]. etransitivity; [exact Hr|].
  apply rtc_once, by_main. unfold main_step. cbn. rewrite Es. by left.
Qed.

Lemma join_mgmt_sim op l p p' :
  inv p -> Forall (act_ok tk) l ->
  match vp_mgmt p with MgmtNone => Ret p | _ => join_mgmt l p end = Ret p' ->
  inv p' /\ vkeeps p p' /\ rtc step (vabs op MJoinMgmt p) (vabs op MRelease p').
Proof using Type.
  intros Hi Hl E.
  assert (vp_mgmt p = MgmtNone /\ p' = p \/ vacts l p = Ret p' /\ vp_mgmt p' = MgmtEnded) as [[Hn ->]|[Ev Es]].
  { unfold join_mgmt in E. destruct (vp_mgmt p); [left; by injection E as <-|right..];
      apply exec_bind_inv in E as (q & Eq & E); destruct (vp_mgmt q) eqn:Es; by simplify_eq. }
  { split; [done|]. split; [apply vkeeps_refl|]. apply rtc_once, by_main. unfold main_step. cbn. rewrite Hn. by left. }
  destruct (awake op MJoinMgmt _ _ _ eq_refl Hi Hl Ev) as [Hi' Hr].
  split; [done|]. split; [by eapply vacts_keeps|]. etransitivity; [exact Hr|].
  apply rtc_once, by_main. unfold main_step. cbn. rewrite Es. by left.
Qed.

(** From the end of the wait to the joins. *)
Lemma end_wait_sim op p q1 q2 q3 :
  inv p -> vacts (ve_between e 3) (set_keep_running p false) = Ret q1 -> kill_sig q1 = Ret q2 ->
  vacts (ve_between e 4) q2 = Ret q3 ->
  inv (push_byte q3) /\ g_registry_initialized (vp_globals (push_byte q3)) = g_registry_initialized (vp_globals p) /\
  rtc step (vabs op MStore p) (vabs op MJoinSignal (push_byte q3)).
Proof using Hacts.
  intros Hi E1 E2 E3. assert (inv (set_keep_running p false)) as Hi0 by (destruct Hi; by split).
  destruct (awake op MKill _ _ _ eq_refl Hi0 (ao_between _ _ Hacts 3) E1) as [Hi1 Hr1].
  assert (q2 = set_pending q1 ({[SIGUSR1]} ∪ vp_pending q1)) as ->
    by (unfold kill_sig in E2; by destruct (vp_sig q1); simplify_eq).
  destruct (awake op MWrite _ _ _ eq_refl (pending_inv _ _ _ _ _ Hi1) (ao_between _ _ Hacts 4) E3) as [Hi3 Hr3].
  destruct (vacts_keeps _ _ _ _ _ _ Hi0 E1) as [_ Hk1].
  destruct (vacts_keeps _ _ _ _ _ _ (pending_inv _ _ _ _ _ Hi1) E3) as [_ Hk3].
  split; [destruct Hi3; by split|]. split; [etransitivity; [apply (vk_init _ _ Hk3)|apply (vk_init _ _ Hk1)]|].
  eapply rtc_l; [apply by_main; unfold main_step; by left|]. etransitivity; [exact Hr1|].
  eapply rtc_l; [apply by_main; unfold main_step; by left|].
  match goal with |- rtc _ ?s _ => replace s with (vabs op MWrite (set_pending q1 ({[SIGUSR1]} ∪ vp_pending q1))) end.
  - etransitivity; [exact Hr3|]. apply rtc_once, by_main. unfold main_step. by left.
  - unfold vabs, at_main, set_usr1. cbn. f_equal; [|by rewrite bool_decide_true by set_solver].
    apply bool_decide_ext. unfold SIGINT, SIGTERM, SIGUSR1. set_solver.
Qed.

Lemma finish_sim ok reg p r :
  ve_write_ok e = true -> inv p -> g_registry_initialized (vp_globals p) = reg ->
  finish e ok reg p0 p1 p = Ret r -> rtc step (vabs true MStore p) (vabs false MDone (snd r)).
Proof using Hacts.
  intros Hw Hi Hreg H. unfold finish in H. rewrite Hw in H.
  apply exec_bind_inv in H as (q1 & E1 & H). apply exec_bind_inv in H as (q2 & E2 & H).
  apply exec_bind_inv in H as (q3 & E3 & H). apply exec_bind_inv in H as (q4 & E4 & H).
  apply exec_bind_inv in H as (q5 & E5 & H). apply exec_bind_inv in H as (q6 & E6 & H).
  destruct (end_wait_sim true p q1 q2 q3 Hi E1 E2 E3) as (Hi3 & Hg3 & Hr3).
  destruct (join_sig_sim true _ _ _ Hi3 (ao_sig _ _ Hacts) E4) as (Hi4 & Hk4 & Hr4).
  destruct (join_tcp_sim true _ _ _ Hi4 (ao_tcp _ _ Hacts) E5) as (Hi5 & Hk5 & Hr5).
  destruct (join_mgmt_sim true _ _ _ Hi5 (ao_mgmt _ _ Hacts) E6) as (Hi6 & Hk6 & Hr6).
  assert (g_registry_initialized (vp_globals q6) = reg) as Hg6.
  { rewrite (vk_init _ _ Hk6), (vk_init _ _ Hk5), (vk_init _ _ Hk4). congruence. }
  destruct (registry_destroy_safe reg (set_sys q6 (sys_close p1 (sys_close p0 (vp_sys q6))))
    (vq_registry _ _ _ _ Hi6) Hg6) as (g & Eg & Hg).
  rewrite Eg in H. cbn [mbind exec_bind] in H. injection H as <-. cbn [snd].
  etransitivity; [exact Hr3|]. etransitivity; [exact Hr4|]. etransitivity; [exact Hr5|].
  etransitivity; [exact Hr6|]. apply rtc_once, by_main. unfold main_step, vabs. cbn. rewrite Hg. by left.
Qed.
End main.

(** ** The start *)

Lemma initial_sim r1 r2 r3 tk e p p0 p1 :
  viewer_start e p -> vp_pipe p = 0%nat ->
  rtc (vstep r1 r2 r3 tk) v_initial (vabs true MLockReady (set_sig (piped p0 p1 (initialized p)) SigStarted)).
Proof.
  intros [Hg (_ & Ht & Hm) _ _] Hp. unfold vabs. cbn. rewrite Hg, Ht, Hm, Hp. cbn.
  generalize (bool_decide (SIGINT ∈ vp_pending p \/ SIGTERM ∈ vp_pending p)).
  generalize (bool_decide (SIGUSR1 ∈ vp_pending p)). intros u t.
  transitivity (set_term v_initial t).
  - destruct t; [apply rtc_once; right; apply ex_term|apply rtc_refl].
  - destruct u; [apply rtc_once; right; apply (ex_usr1 (set_term v_initial t))|apply rtc_refl].
Qed.

Lemma boot_sim tk e p p0 p1 ok reg q :
  viewer_start e p -> vp_pipe p = 0%nat -> ve_pipe e = Some (p0, p1) -> ve_t_sig e = true ->
  ve_t_tcp e = true -> acts_ok tk e -> boot e p0 p1 (initialized p) = Ret (ok, reg, q) ->
  rtc (vstep (ve_mutex_ok e) true (ve_t_mgmt e) tk) v_initial (vabs true MLockStop q).
Proof.
  intros Hst Hpipe Ep Hsig Htcp Hacts E. pose proof (start_inv e p p0 p1 Hst Ep) as Hi.
  etransitivity; [by eapply initial_sim|]. destruct Hst as [Hg (Hs & Ht & Hm) _ _].
  unfold boot in E. fold (piped p0 p1 (initialized p)) in E. rewrite Hsig in E.
  set (q0 := piped p0 p1 (initialized p)) in Hi, E |- *.
  assert (vp_inv (sys_fds (vp_sys p)) (sys_files (vp_sys p)) [p0; p1] (set_sig q0 SigStarted)) as Hi0
    by (destruct Hi; by split).
  apply exec_bind_inv in E as (q1 & E1 & E). apply exec_bind_inv in E as (q2 & E2 & E).
  destruct (vacts_awake (ve_mutex_ok e) true (ve_t_mgmt e) tk _ _ _ true MLockReady _ _ _ eq_refl Hi0
    (ao_between _ _ Hacts 0) E1) as [Hi1 Hr1].
  destruct (vacts_keeps _ _ _ _ _ _ Hi0 E1) as [_ Hk1].
  pose proof (wait_while_safe _ _ _ (fun a => negb (signal_thread_ready a)) (ve_ready e) q1
    (fun _ => eq_refl) Hi1) as Hk2. rewrite E2 in Hk2. destruct Hk2 as [[_ Hk2] _].
  destruct (wait_sim (ve_mutex_ok e) true (ve_t_mgmt e) tk _ _ _ false true (ve_ready e) q1 q2 Hi1
    (ao_ready _ _ Hacts) E2) as [Hi2 Hr2].
  destruct (vkeeps_trans _ _ _ Hk1 Hk2) as [_ Kt Km _ _ _ _ Kg].
  destruct (prepare_sim e tk Hacts _ _ p0 p1 true ok reg q2 q Htcp Hi2) as [_ Hr3];
    [by apply Km|by apply Kt|by rewrite Kg|done|].
  etransitivity; [exact Hr1|]. etransitivity; [exact Hr2|exact Hr3].
Qed.

(** * Properties *)

(** C19: the Viewer's process refines its transition system.  Every complete run
    of [main], with the other threads acting between its steps and while it
    waits, is a run of the system from its initial state to the end of the main
    thread.  While [main] waits for the flag, with any actions of the other
    threads, the process is in a reachable state of the system; so when the flag
    is set there the main thread is not left asleep, and the threads go on for a
    bounded number of steps only, to the end of the main thread. *)
Theorem viewer_process_simulated e tk p p0 p1 :
  viewer_start e p -> vp_pipe p = 0%nat -> ve_pipe e = Some (p0, p1) -> ve_t_sig e = true ->
  ve_t_tcp e = true -> ve_write_ok e = true -> acts_ok tk e ->
  let step := vstep (ve_mutex_ok e) true (ve_t_mgmt e) tk in
  let alone := internal (ve_mutex_ok e) true (ve_t_mgmt e) tk in
  (forall code p', main e p = Ret (code, p') -> rtc step v_initial (vabs false MDone p')) /\
  (forall ok reg q l q', boot e p0 p1 (initialized p) = Ret (ok, reg, q) ->
     shutdown_requested (vp_app q) = 0 -> Forall (act_ok tk) l -> vacts l q = Ret q' ->
     exists pc, (pc = MWaitStop \/ pc = MWakeStop) /\ rtc step v_initial (vabs true pc q') /\
       (shutdown_requested (vp_app q') <> 0 -> pc = MWakeStop /\
          (forall n s, nsteps alone n (vabs true pc q') s -> (n <= measure (vabs true pc q'))%nat) /\
          (forall s, rtc alone (vabs true pc q') s -> (forall s', ~ alone s s') -> v_main s = MDone))).
Proof.
  intros Hst Hpipe Ep Hsig Htcp Hw Hacts step alone.
  pose proof (boot_safe e p p0 p1 Hst Ep Hsig Htcp) as Hb. split.
  - intros code p' E. unfold main in E. rewrite Ep in E. fold (initialized p) in E.
    apply exec_bind_inv in E as ([[ok reg] q] & Eb & E). rewrite Eb in Hb. destruct Hb as [_ (Hi & Hreg & _)].
    etransitivity; [by eapply boot_sim|]. unfold resume in E. apply exec_bind_inv in E as (q1 & E1 & E).
    pose proof (wait_while_safe _ _ _ (fun a => shutdown_requested a =? 0) (ve_stop e) q
      (fun _ => eq_refl) Hi) as Hk. rewrite E1 in Hk. destruct Hk as [[_ Hk] _].
    destruct (wait_sim (ve_mutex_ok e) true (ve_t_mgmt e) tk _ _ _ true true (ve_stop e) q q1 Hi
      (ao_stop _ _ Hacts) E1) as [Hi1 Hr1].
    etransitivity; [exact Hr1|]. eapply (finish_sim e tk Hacts _ _ p0 p1 ok reg q1 (code, p')); try done.
    by rewrite (vk_init _ _ Hk).
  - intros ok reg q l q' Eb Hreq Hl El. rewrite Eb in Hb. destruct Hb as [_ (Hi & _)].
    destruct (vacts_sim (ve_mutex_ok e) true (ve_t_mgmt e) tk _ _ _ true l MWaitStop q q' Hi Hl El)
      as (Hi' & pc & Hpc & Hr). exists pc.
    assert (rtc step v_initial (vabs true pc q')) as Hreach.
    { etransitivity; [by eapply boot_sim|]. etransitivity; [|exact Hr].
      etransitivity; [apply (lock_sim _ _ _ _ true); by left|].
      pose proof (test_sim (ve_mutex_ok e) true (ve_t_mgmt e) tk true true q) as Ht. cbn in Ht. by rewrite Hreq in Ht. }
    split; [done|]. split; [done|]. intros Hn. pose proof (reachable_inv _ _ _ _ _ Hreach) as Hv.
    assert (v_requested (vabs true pc q') = true) as Hvr by (cbn; by apply negb_true_iff, Z.eqb_neq).
    split; [destruct Hpc as [->|Hpc]; [|done]; pose proof (vi_sleep_stop _ Hv eq_refl); congruence|].
    split; [by apply requested_bounded|]. intros s Hs Hstuck. by eapply requested_final.
Qed.

Lemma demo_acts_ok : acts_ok true (demo_viewer true true).
Proof. split; [..|intros k]; cbn; repeat constructor. Qed.

Lemma viewer_process_simulated_witness :
  exists code p', main (demo_viewer true true) demo_process = Ret (code, p') /\
    rtc (vstep true true true true) v_initial (vabs false MDone p').
Proof.
  destruct (viewer_process_simulated (demo_viewer true true) true demo_process 3 4
    (demo_process_start true true) eq_refl eq_refl eq_refl eq_refl eq_refl demo_acts_ok) as [H _].
  assert (match main (demo_viewer true true) demo_process with Ret _ => true | _ => false end = true) as Hr
    by (vm_compute; reflexivity).
  destruct (main (demo_viewer true true) demo_process) as [[code p']| |]; [|discriminate..].
  exists code, p'. split; [reflexivity|]. exact (H code p' eq_refl).
Defined.
