(* ===== verification/Pipeline.v ===== *)
(** * From the UDP datagram to the screen

    The path of a message through the three processes, put together from their
    own definitions: the Collector's [handle_udp_read] writes the segment and
    notifies, the Router's loop reads it and sends a line, the Viewer's loop
    prints the line. *)

From S2P Require Import Prelude CLib MgmtSocket Ipc ShmData Shm.
From S2P Require Import Collector Router Viewer.

Section pipeline.
Context {S H : Type} {ops : ShmOps S H} {api : ShmApi S H}.

(** The datagrams of a burst, received one after the other. *)
Fixpoint publish_all (ds : list (list byte)) (stack pad : list byte) (q : option MsgQueue) (h : H)
    (s : S) : exec (option MsgQueue * S) :=
  match ds with
  | [] => Ret (q, s)
  | d :: ds' =>
      '(q, s) ← handle_udp_read (Some d) stack pad q h s;
      publish_all ds' stack pad q h s
  end.

(** The text of a datagram that fits into the segment. *)
Definition carried (d : list byte) : list byte :=
  take (shm_capacity (S := S) (H := H) - 1) (payload_text d).

Definition notify_message (pad : list byte) : Z * list byte :=
  (MSG_TYPE_SHM_NOTIFY, notify_body (mkNotify MSG_TYPE_SHM_NOTIFY COLLECTOR_STATUS) pad).

(** Room for [n] more notifications. *)
Definition has_room (q : MsgQueue) (n : nat) : Prop :=
  q_used q + 8 * Z.of_nat n <= q_bytes q /\ Z.of_nat (length (q_messages q)) + Z.of_nat n <= q_bytes q.

Lemma notify_length m pad : length pad = 4%nat -> length (notify_body m pad) = NOTIFY_SIZE.
Proof. intros Hp. unfold notify_body. by rewrite length_app, length_le_bytes, Hp. Qed.

Lemma q_used_snoc q m : q_used (mkQueue (q_messages q ++ [m]) (q_bytes q)) =
  q_used q + Z.of_nat (length (snd m)).
Proof.
  unfold q_used. cbn [q_messages]. induction (q_messages q) as [|x l IH]; cbn; lia.
Qed.

Lemma has_room_notified q n pad :
  length pad = 4%nat -> has_room q (Datatypes.S n) ->
  room q (notify_body (mkNotify MSG_TYPE_SHM_NOTIFY COLLECTOR_STATUS) pad) = true /\
  has_room (notified q pad) n.
Proof.
  intros Hp [H1 H2]. split.
  - unfold room. rewrite notify_length by done. unfold NOTIFY_SIZE.
    apply andb_true_iff. split; apply Z.leb_le; lia.
  - unfold has_room, notified. rewrite q_used_snoc. cbn [q_messages q_bytes snd].
    rewrite length_app, notify_length by done. cbn [length]. unfold NOTIFY_SIZE. lia.
Qed.

Lemma publish_all_result ds d stack pad q h s c t :
  shm_at h s c t -> Forall (fun d => d <> []) (ds ++ [d]) -> length stack = UDP_BUFFER_SIZE ->
  length pad = 4%nat -> has_room q (length (ds ++ [d])) ->
  exists s', publish_all (ds ++ [d]) stack pad (Some q) h s =
      Ret (Some (mkQueue (q_messages q ++ replicate (length (ds ++ [d])) (notify_message pad)) (q_bytes q)), s') /\
    shm_at h s' COLLECTOR_STATUS (carried d).
Proof.
  intros Hat Hds Hst Hpad. revert q s c t Hat.
  induction ds as [|d' ds IH]; intros q s c t Hat Hroom.
  - cbn [app length] in Hroom. apply Forall_cons in Hds as [Hds _].
    destruct (has_room_notified q 0 pad Hpad Hroom) as [Hr _].
    destruct (udp_read_stores d stack pad (Some q) h s c t Hat Hds Hst) as (s' & E & Hat').
    cbn [app publish_all]. rewrite E, notify_send, Hr. run. by exists s'.
  - rewrite <- app_comm_cons in Hds. apply Forall_cons in Hds as [Hd' Hds].
    rewrite <- app_comm_cons in Hroom. cbn [length] in Hroom.
    destruct (has_room_notified q _ pad Hpad Hroom) as [Hr Hroom'].
    destruct (udp_read_stores d' stack pad (Some q) h s c t Hat Hd' Hst) as (s' & E & Hat').
    rewrite <- app_comm_cons. cbn [publish_all]. rewrite E, notify_send, Hr. run.
    destruct (IH Hds (notified q pad) s' _ _ Hat' Hroom') as (s2 & -> & Hat2).
    exists s2. split; [|done]. cbn [notified q_messages q_bytes length replicate].
    by rewrite <- app_assoc.
Qed.

Context (Hcap : (shm_capacity (S := S) (H := H) <= PAYLOAD_SIZE)%nat).

(** Notifications served while the segment does not change. *)
Lemma relay_repeat k it h st q body rest c t :
  rl_ipc st = Some q -> of_type MSG_TYPE_SHM_NOTIFY (q_messages q) = replicate k body ++ rest ->
  (length body <= NOTIFY_SIZE)%nat -> is_quit body = false -> shm_at h (rl_shm st) c t ->
  ri_others it = id -> ri_send it = TcpSent TCP_BUF_SIZE -> length (ri_stack it) = TCP_BUF_SIZE ->
  (length t < PAYLOAD_SIZE)%nat ->
  exists st', relay_loop (replicate k it) h st = Ret (false, st') /\
    rl_tcp st' = rl_tcp st ++ concat (replicate k (relay_line t)).
Proof using Hcap.
  intros Hq Hty Hb Hnq Hat Ho Hs Hst Ht. revert st q Hq Hty Hat.
  induction k as [|k IH]; intros st q Hq Hty Hat; cbn [replicate relay_loop concat].
  { exists st. by rewrite app_nil_r. }
  rewrite Ho. cbn [id]. change (id st) with st.
  destruct (relay_forwards Hcap (ri_send it) (ri_stack it) (ri_status it) h st q body
    (replicate k body ++ rest) c t) as (q' & s' & -> & Hq' & Hat'); try done; [by rewrite Hs|].
  run. cbn [negb].
  destruct (IH (mkRelay (Some q') (rl_main st) s' (rl_tcp st ++ sent_part (ri_send it) t)) q')
    as (st' & E & Htcp); try done.
  exists st'. split; [exact E|]. rewrite Htcp. cbn [rl_tcp]. rewrite <- app_assoc. f_equal. f_equal.
  rewrite Hs. cbn [sent_part]. apply take_ge. unfold relay_line. rewrite !length_app. cbn.
  unfold TCP_BUF_SIZE, PAYLOAD_SIZE in *. lia.
Qed.

Lemma view_relay_line t : no_nul t -> (length t < PAYLOAD_SIZE)%nat ->
  view_text (relay_line t) = relay_line t.
Proof.
  intros Hn Hl. unfold view_text. rewrite take_ge.
  - apply until_nul_id. unfold relay_line. auto with cbuf.
  - unfold relay_line. rewrite !length_app. cbn. unfold PAYLOAD_SIZE in Hl. lia.
Qed.
End pipeline.

(** * Properties *)

(** C8: a burst of datagrams through the three processes.  The segment holds one
    message: when the Router serves the notifications of a burst after the
    Collector has received all of it, it sends the text of the last datagram
    once for every datagram of the burst, and the Viewer prints exactly that;
    the earlier texts are lost.  A burst of one datagram is delivered intact:
    its bytes up to the first NUL (at most 1023, or what the segment holds)
    appear once, after "[TCP-RELAY] ". *)
Theorem pipeline_burst {S H} {ops : ShmOps S H} {api : ShmApi S H}
    ds d (hc hr : H) s c t q mq stack pad it vstack sys client :
  (shm_capacity (S := S) (H := H) <= PAYLOAD_SIZE)%nat ->
  shm_at hc s c t -> shm_same hc hr -> Forall (fun d => d <> []) (ds ++ [d]) ->
  length stack = UDP_BUFFER_SIZE -> length pad = 4%nat ->
  of_type MSG_TYPE_SHM_NOTIFY (q_messages q) = [] -> has_room q (length (ds ++ [d])) ->
  ri_others it = id -> ri_send it = TcpSent TCP_BUF_SIZE -> length (ri_stack it) = TCP_BUF_SIZE ->
  length vstack = TCP_RECV_BUF_SIZE ->
  let line := relay_line (carried (S := S) (H := H) d) in
  let n := length (ds ++ [d]) in
  exists q1 s1 st2, publish_all (ds ++ [d]) stack pad (Some q) hc s = Ret (Some q1, s1) /\
    relay_loop (replicate n it) hr (mkRelay (Some q1) mq s1 []) = Ret (false, st2) /\
    rl_tcp st2 = concat (replicate n line) /\
    tcp_loop ((fun d => chunk d vstack) <$> replicate n line) (Some client) sys [] =
      Some (false, Some client, sys, concat (replicate n (printed line))).
Proof.
  intros Hcap Hat Hsame Hds Hst Hpad Hty Hroom Ho Hs Hrs Hvs line n.
  destruct (publish_all_result ds d stack pad q hc s c t Hat Hds Hst Hpad Hroom) as (s1 & E1 & Hat1).
  apply (shm_at_same hc hr) in Hat1; [|done].
  assert (no_nul (carried (S := S) (H := H) d)) as Hnn
    by (unfold carried, payload_text; apply Forall_take, until_nul_no_nul).
  assert (length (carried (S := S) (H := H) d) < PAYLOAD_SIZE)%nat as Hlt.
  { unfold carried, payload_text. rewrite length_take.
    pose proof (until_nul_length (take 1023 d)) as Hu. rewrite length_take in Hu.
    unfold PAYLOAD_SIZE. lia. }
  eexists _, s1.
  destruct (relay_repeat Hcap n it hr
    (mkRelay (Some (mkQueue (q_messages q ++ replicate n (notify_message pad)) (q_bytes q))) mq s1 [])
    _ (snd (notify_message pad)) [] COLLECTOR_STATUS (carried (S := S) (H := H) d) eq_refl)
    as (st2 & E2 & Htcp); try done.
  - cbn [q_messages]. rewrite of_type_app, Hty, app_nil_r. cbn [app].
    generalize n. intros k. induction k as [|k IH]; [done|].
    cbn [replicate]. unfold of_type in *. rewrite filter_cons, decide_True by done.
    rewrite fmap_cons. by rewrite IH.
  - cbn [snd notify_message]. by rewrite notify_length.
  - exists st2. split; [exact E1|]. split; [exact E2|]. split; [exact Htcp|].
    rewrite <- (app_nil_r (_ <$> replicate n line)), tcp_loop_chunks; [|by apply Forall_replicate|done].
    rewrite fmap_replicate. unfold line at 1. by rewrite view_relay_line.
Qed.

Lemma pipeline_burst_witness :
  exists s q1 s1 st2,
    publish_all (ops := sysv_ops false) [bs "one"; bs "two"] (zeros 1024) (zeros 4)
      (Some (mkQueue [] 16384)) (100, Some (mkCtx 7 true)) s = Ret (Some q1, s1) /\
    relay_loop (ops := sysv_ops false) (replicate 2 demo_relay_iteration) (200, Some (mkCtx 7 false))
      (mkRelay (Some q1) None s1 []) = Ret (false, st2) /\
    rl_tcp st2 = bs "[TCP-RELAY] two" ++ [x0a] ++ bs "[TCP-RELAY] two" ++ [x0a].
Proof.
  destruct Router.demo_segment as [s Hs]. exists s.
  destruct (pipeline_burst (ops := sysv_ops false) (api := sysv_api false) [bs "one"] (bs "two")
    (100, Some (mkCtx 7 true)) (200, Some (mkCtx 7 false)) s 0 [] (mkQueue [] 16384) None (zeros 1024)
    (zeros 4) demo_relay_iteration (zeros 2048) (mkSys ∅ ∅) 5) as (q1 & s1 & st2 & H1 & H2 & H3 & _).
  - vm_compute. lia.
  - exact Hs.
  - reflexivity.
  - apply Forall_cons_2; [discriminate|]. apply Forall_singleton. discriminate.
  - reflexivity.
  - reflexivity.
  - reflexivity.
  - split; vm_compute; congruence.
  - reflexivity.
  - reflexivity.
  - reflexivity.
  - reflexivity.
  - exists q1, s1, st2. split; [exact H1|]. split; [exact H2|]. rewrite H3. reflexivity.
Defined.
