(* ===== verification/PipelineRun.v ===== *)
(** * The three processes at the same time

    Pipeline follows a burst that the Router serves late.  Here the Collector,
    the router thread and the Viewer run interleaved in any order.  The
    Collector's [handle_udp_read] is two steps, the write to the segment and the
    notification; an iteration of the router thread is two steps, the receipt of
    a notification and the reading and sending of the text; the Viewer receives
    whatever part of the stream has arrived.  The steps are the definitions of
    the three files. *)

From Stdlib Require Import Sorting.Sorted.
From S2P Require Import Prelude CLib MgmtSocket Ipc ShmData Shm.
From S2P Require Import Collector Router RouterThreads RouterLink Viewer Pipeline.

(** ** Runs *)

Inductive paction :=
| AWrite (d : list byte) | ANotify | AReceive | ARelay (n : nat) | AView (n : nat).

Inductive relay_pc := RelayWaiting | RelayGot | RelayEnded.

Section run.
Context {S H : Type} {ops : ShmOps S H}.
(** The connections of the Collector and of the Router, the memory under the
    buffers, and the Viewer's client descriptor. *)
Variables (hc hr : H) (ustack pad tstack vstack : list byte) (status client : Z).

(** [p_wrote]: the Collector has written and not yet notified; [p_seen]: how
    much of the stream the Viewer has received. *)
Record PState := mkP {
  p_wrote : bool; p_queue : option MsgQueue; p_shm : S; p_main : option MsgQueue;
  p_router : relay_pc; p_tcp : list byte; p_seen : nat; p_sys : Sys; p_out : list byte }.

(** A step; [Blocked]: that step is not possible now.  [ARelay n]: send(2) takes
    at most [n] bytes.  [AView n]: at most [n] bytes have arrived. *)
Definition pact (a : paction) (st : PState) : exec PState :=
  let '(mkP wrote q s mq r tcp seen sys out) := st in
  match a with
  | AWrite d =>
      if wrote then Blocked
      else if (Nat.min (length d) (UDP_BUFFER_SIZE - 1) =? 0)%nat then Ret st
      else '(ok, s) ← store_datagram d ustack hc s; Ret (mkP ok q s mq r tcp seen sys out)
  | ANotify =>
      if wrote then q ← notify_router pad q; Ret (mkP false q s mq r tcp seen sys out) else Blocked
  | AReceive =>
      match r with
      | RelayWaiting =>
          '(a, q) ← msgrcv false false q NOTIFY_SIZE MSG_TYPE_SHM_NOTIFY;
          match a with
          | IpcErr _ => Ret (mkP wrote q s mq r tcp seen sys out)
          | IpcOk (mtype, body) =>
              Ret (mkP wrote q s mq
                     (if shm_status_id (notify_of mtype body) =? MSG_TYPE_SHM_QUIT then RelayEnded
                      else RelayGot) tcp seen sys out)
          end
      | _ => Blocked
      end
  | ARelay n =>
      match r with
      | RelayGot =>
          '(go, rs) ← relay_text (TcpSent n) tstack status hr (mkRelay q mq s tcp);
          Ret (mkP wrote (rl_ipc rs) (rl_shm rs) (rl_main rs)
                 (if go : bool then RelayWaiting else RelayEnded) (rl_tcp rs) seen sys out)
      | _ => Blocked
      end
  | AView n =>
      let d := take n (drop seen tcp) in
      if bool_decide (d = []) then Blocked
      else
        '(_, _, sys, out) ← obj (tcp_loop [chunk d vstack] (Some client) sys out);
        Ret (mkP wrote q s mq r tcp (seen + Nat.min (length d) (TCP_RECV_BUF_SIZE - 1)) sys out)
  end.

Fixpoint prun (l : list paction) (st : PState) : exec PState :=
  match l with
  | [] => Ret st
  | a :: l' => st ← pact a st; prun l' st
  end.
End run.

Arguments PState : clear implicits.
Arguments mkP {S}.
Arguments p_wrote {S}.
Arguments p_queue {S}.
Arguments p_shm {S}.
Arguments p_main {S}.
Arguments p_router {S}.
Arguments p_tcp {S}.
Arguments p_seen {S}.
Arguments p_sys {S}.
Arguments p_out {S}.

(** ** The steps and the functions of the processes *)

Section steps.
Context {S H : Type} {ops : ShmOps S H}.

(** Writing and notifying in a row is [handle_udp_read]. *)
Lemma udp_read_steps d hc hr ustack pad tstack vstack status client q (s : S) mq r tcp seen sys out :
  prun hc hr ustack pad tstack vstack status client [AWrite d; ANotify]
    (mkP false q s mq r tcp seen sys out) =
  if (Nat.min (length d) (UDP_BUFFER_SIZE - 1) =? 0)%nat then Blocked
  else '(ok, s') ← store_datagram d ustack hc s;
       if ok : bool then
         '(q', s') ← handle_udp_read (Some d) ustack pad q hc s;
         Ret (mkP false q' s' mq r tcp seen sys out)
       else Blocked.
Proof.
  cbn [prun pact]. unfold handle_udp_read. destruct (_ =? _)%nat; [done|].
  destruct (store_datagram d ustack hc s) as [[[|] s']| |]; run; cbn [negb]; try done.
  cbn [pact]. by destruct (notify_router pad q).
Qed.

(** Receiving and relaying in a row is an iteration of the router thread. *)
Lemma relay_steps n hc hr ustack pad tstack vstack status client wrote q (s : S) mq tcp seen sys out :
  (forall mt body q', msgrcv false false q NOTIFY_SIZE MSG_TYPE_SHM_NOTIFY = Ret (IpcOk (mt, body), q') ->
     shm_status_id (notify_of mt body) <> MSG_TYPE_SHM_QUIT) ->
  (forall e q', msgrcv false false q NOTIFY_SIZE MSG_TYPE_SHM_NOTIFY <> Ret (IpcErr e, q')) ->
  prun hc hr ustack pad tstack vstack status client [AReceive; ARelay n]
    (mkP wrote q s mq RelayWaiting tcp seen sys out) =
  ('(go, rs) ← relay_step (TcpSent n) tstack status hr (mkRelay q mq s tcp);
   Ret (mkP wrote (rl_ipc rs) (rl_shm rs) (rl_main rs)
          (if go : bool then RelayWaiting else RelayEnded) (rl_tcp rs) seen sys out)).
Proof.
  intros Hq He. cbn [prun pact]. unfold relay_step. cbn [rl_ipc rl_main rl_shm rl_tcp].
  destruct (msgrcv _ _ _ _ _) as [[[[mt body]|e] q']| |]; run; try done; [|by destruct (He e q')].
  specialize (Hq mt body q' eq_refl). rewrite (proj2 (Z.eqb_neq _ _) Hq). cbn [pact].
  by destruct (relay_text _ _ _ _ _) as [[go rs]| |].
Qed.
End steps.

(** ** What a schedule says *)

(** The texts written, the newest one at each relay (as its position among the
    texts written, [w] of which there were before), and the room of each send. *)
Section schedules.
Context {S H : Type} {ops : ShmOps S H}.

Fixpoint texts_written (l : list paction) : list (list byte) :=
  match l with
  | [] => []
  | AWrite d :: l' => (if bool_decide (d = []) then [] else [carried (S := S) (H := H) d]) ++ texts_written l'
  | _ :: l' => texts_written l'
  end.
End schedules.

Fixpoint newest (w : nat) (l : list paction) : list nat :=
  match l with
  | [] => []
  | AWrite d :: l' => newest (if bool_decide (d = []) then w else w + 1) l'
  | ARelay _ :: l' => (w - 1)%nat :: newest w l'
  | _ :: l' => newest w l'
  end.

Fixpoint send_sizes (l : list paction) : list nat :=
  match l with
  | [] => []
  | ARelay n :: l' => n :: send_sizes l'
  | _ :: l' => send_sizes l'
  end.

Lemma newest_sizes w l : length (newest w l) = length (send_sizes l).
Proof. revert w. induction l as [|[]]; intros w; cbn; auto. Qed.

Arguments texts_written S H {ops} l.

Lemma newest_bounds {S H} {ops : ShmOps S H} l w :
  Sorted le (newest w l) /\
  Forall (fun j => w - 1 <= j /\ j <= w + length (texts_written S H l) - 1)%nat (newest w l).
Proof.
  revert w. induction l as [|a l IH]; intros w; [by split; constructor|].
  destruct a as [d| | |n|n]; cbn [newest texts_written]; try apply IH.
  - case_bool_decide; [apply IH|]. destruct (IH (w + 1)%nat) as [Hs Hf]. split; [done|].
    eapply Forall_impl; [done|]. cbn [app length]. intros j. cbn. lia.
  - destruct (IH w) as [Hs Hf]. split; [|constructor; [lia|done]].
    constructor; [done|]. destruct (newest w l); constructor. apply Forall_cons in Hf as [Hj _]. lia.
Qed.

(** ** The invariant *)

Section invariant.
Context {S H : Type} {ops : ShmOps S H} {api : ShmApi S H}
  (Hcap : (shm_capacity (S := S) (H := H) <= PAYLOAD_SIZE)%nat).
Context (hc hr : H) (ustack pad tstack vstack : list byte) (status client : Z).
Context (Hsame : shm_same hc hr) (Hsame' : shm_same hr hc)
  (Hu : length ustack = UDP_BUFFER_SIZE) (Hpad : length pad = 4%nat)
  (Ht : length tstack = TCP_BUF_SIZE) (Hv : length vstack = TCP_RECV_BUF_SIZE).
Context (cap : nat).
Abbreviation step := (pact hc hr ustack pad tstack vstack status client).
Abbreviation go := (prun hc hr ustack pad tstack vstack status client).
Abbreviation texts := (texts_written S H).

Definition got (r : relay_pc) : nat := match r with RelayGot => 1 | _ => 0 end.
Definition open_notices (st : PState S) : nat :=
  (match p_queue st with Some q => length (q_messages q) | None => 0 end +
   got (p_router st) + Nat.b2n (p_wrote st))%nat.

(** The segment holds the newest text; the queue holds notifications. *)
Record pinv (ws : list (list byte)) (st : PState S) : Prop := {
  pi_shm : exists c t, shm_at hc (p_shm st) c t /\ (ws <> [] -> last ws = Some t);
  pi_queue : exists q, p_queue st = Some q /\ capacity q NOTIFY_SIZE = cap /\
    Forall2 note_rel (q_messages q) (replicate (length (q_messages q)) Data);
  pi_router : p_router st <> RelayEnded;
  pi_tcp : no_nul (p_tcp st) /\ (p_seen st <= length (p_tcp st))%nat }.

(** What one step does: the invariant again; each open notice comes from a text
    and ends in a relay, and is lost only when the queue is full; the stream
    grows by the newest text; the screen shows a further part of the stream. *)
Record pstep (ws : list (list byte)) (a : paction) (st st' : PState S) : Prop := {
  pt_inv : pinv (ws ++ texts [a]) st';
  pt_count : (open_notices st' + length (newest 0 [a]) <= open_notices st + length (texts [a]))%nat;
  pt_exact : (open_notices st <= cap)%nat ->
    (open_notices st' + length (newest 0 [a]) = open_notices st + length (texts [a]))%nat;
  pt_live : (0 < cap -> 0 < open_notices st + length (texts [a]) ->
    0 < open_notices st' + length (newest 0 [a]))%nat;
  pt_tcp : p_tcp st' = p_tcp st ++ concat (zip_with (fun j n => take n (relay_line ((ws ++ texts [a]) !!! j)))
    (newest (length ws) [a]) (send_sizes [a]));
  pt_out : exists chunks, p_out st' = p_out st ++ concat (printed <$> chunks) /\
    take (p_seen st') (p_tcp st') = take (p_seen st) (p_tcp st) ++ concat chunks }.

(** A step that leaves stream and screen alone. *)
Lemma quiet_out (out seen : list byte) :
  exists chunks, out = out ++ concat (printed <$> chunks) /\ seen = seen ++ concat chunks.
Proof using Type. exists []. cbn. by rewrite !app_nil_r. Qed.

Lemma write_step ws d st :
  pinv ws st ->
  match step (AWrite d) st with
  | Ret st' => pstep ws (AWrite d) st st' | Blocked => True | UB => False
  end.
Proof using All.
  intros Hi. pose proof Hi as [(c & t & Hat & Hlast) Hq Hr Htcp]. destruct st as [wr q s mq r tcp seen sys out].
  cbn in *. destruct wr; [done|]. destruct (decide (d = [])) as [->|Hd].
  { cbn [length Nat.min Nat.eqb]. split; cbn [texts_written newest send_sizes];
      rewrite ?bool_decide_true by done; cbn [app length zip_with concat];
      rewrite ?app_nil_r, ?Nat.add_0_r; try done. by apply quiet_out. }
  rewrite (proj2 (Nat.eqb_neq _ _)) by (destruct d; [done|unfold UDP_BUFFER_SIZE; cbn [length]; lia]).
  destruct (store_datagram_stores d ustack hc s c t Hat Hd Hu) as (s' & -> & Hat'). run.
  split; cbn [texts_written newest send_sizes]; rewrite ?bool_decide_false by done;
    cbn [app length zip_with concat]; rewrite ?app_nil_r; try (unfold open_notices; cbn; lia); try done.
  - split; try done. exists COLLECTOR_STATUS, (carried (S := S) (H := H) d). split; [done|].
    intros _. by rewrite last_snoc.
  - by apply quiet_out.
Qed.

Lemma notify_step ws st :
  pinv ws st ->
  match step ANotify st with
  | Ret st' => pstep ws ANotify st st' | Blocked => True | UB => False
  end.
Proof using All.
  intros Hi. pose proof Hi as [Hs (q & Hq & Hc & Hn) Hr Htcp]. destruct st as [wr q0 s mq r tcp seen sys out].
  cbn in *. subst q0. destruct wr; [|done]. unfold notify_router. cbn [nt_mtype].
  assert (length (notify_body (mkNotify MSG_TYPE_SHM_NOTIFY COLLECTOR_STATUS) pad) = NOTIFY_SIZE) as Hl
    by by apply notify_length.
  rewrite notify_send, (room_uniform NOTIFY_SIZE), Hc
    by (done || (unfold NOTIFY_SIZE; lia) || by eapply notes_uniform).
  destruct (_ <? _)%nat eqn:E; run; split; cbn; rewrite ?app_nil_r; try done; try (by apply quiet_out).
  - split; cbn; try done. eexists. split; [done|]. split; [done|]. cbn [q_messages notified].
    rewrite length_app, replicate_add. apply Forall2_app; [done|]. constructor; [|by constructor].
    split; [done|]. split; [done|]. cbn [snd]. unfold is_quit.
    rewrite notify_roundtrip; [done|]. split; vm_compute; congruence.
  - unfold open_notices. cbn. rewrite length_app. cbn. lia.
  - unfold open_notices. cbn. rewrite length_app. cbn. lia.
  - unfold open_notices. cbn. rewrite length_app. cbn. lia.
  - split; cbn; try done. by exists q.
  - unfold open_notices. cbn. lia.
  - apply Nat.ltb_ge in E. unfold open_notices. cbn. lia.
  - apply Nat.ltb_ge in E. unfold open_notices. cbn. lia.
Qed.

Lemma receive_step ws st :
  pinv ws st ->
  match step AReceive st with
  | Ret st' => pstep ws AReceive st st' | Blocked => True | UB => False
  end.
Proof using All.
  intros [Hs (q & Hq & Hc & Hn) Hr Htcp]. destruct st as [wr q0 s mq r tcp seen sys out].
  cbn [pact p_queue p_shm p_router p_tcp p_seen] in *. subst q0. destruct r; [|done|done]. destruct q as [ms bytes]. cbn [q_messages] in Hn.
  destruct ms as [|[mt b] ms]; [done|].
  cbn [length replicate] in Hn. apply Forall2_cons in Hn as [(Hmt & Hl & Hquit) Hn].
  cbn [fst snd] in *. subst mt. rewrite receive_note by done. run. fold (is_quit b).
  rewrite Hquit, bool_decide_false by done.
  split; cbn; rewrite ?app_nil_r; try done; try (unfold open_notices; cbn; lia); [|by apply quiet_out].
  split; cbn; try done. by eexists.
Qed.

Lemma relay_step_effect ws n st :
  pinv ws st -> (open_notices st <= length ws)%nat ->
  match step (ARelay n) st with
  | Ret st' => pstep ws (ARelay n) st st' | Blocked => True | UB => False
  end.
Proof using All.
  intros [(c & t & Hat & Hlast) Hq Hr [Hnn Hseen]] Ho.
  destruct st as [wr q s mq r tcp seen sys out]. cbn in *. destruct r; [done| |done].
  assert (ws <> []) as Hws by (intros ->; unfold open_notices in Ho; cbn in Ho; lia).
  specialize (Hlast Hws). apply (shm_at_same hc hr) in Hat; [|done].
  destruct (relay_text_sends Hcap (TcpSent n) tstack status hr (mkRelay q mq s tcp) c t Ht Hat)
    as (Hnt & Hlt & s' & -> & Hat'). run. cbn [rl_ipc rl_shm rl_main rl_tcp].
  apply (shm_at_same hr hc) in Hat'; [|done].
  assert (no_nul (relay_line t)) as Hln by (unfold relay_line; auto with cbuf).
  assert ((ws ++ []) !!! (length ws - 1)%nat = t) as Hget.
  { rewrite app_nil_r. apply list_lookup_total_correct. by rewrite Nat.sub_1_r, <- last_lookup. }
  split; cbn; rewrite ?Hget, ?app_nil_r; try done; try (unfold open_notices; cbn; lia).
  - split; cbn; try done; [by eauto|]. split; [|rewrite length_app; lia].
    apply no_nul_app; [done|by apply Forall_take].
  - exists []. cbn. rewrite !app_nil_r. split; [done|]. by rewrite take_app_le.
Qed.

Lemma view_step ws n st :
  pinv ws st ->
  match step (AView n) st with
  | Ret st' => pstep ws (AView n) st st' | Blocked => True | UB => False
  end.
Proof using All.
  intros [Hs Hq Hr [Hnn Hseen]]. destruct st as [wr q s mq r tcp seen sys out].
  cbn [pact p_queue p_shm p_router p_tcp p_seen] in *.
  set (d := take n (drop seen tcp)). case_bool_decide as Hd; [done|].
  pose proof (tcp_loop_chunks [d] vstack [] client sys out ltac:(by repeat constructor) Hv) as E.
  rewrite fmap_cons, fmap_nil in E. cbn [app] in E. rewrite E. cbn [tcp_loop concat fmap list_fmap]. run.
  assert (no_nul (take 2047 d)) as Hnd
    by (unfold d; apply Forall_take, Forall_take, Forall_drop, Hnn).
  assert (length d <= length tcp - seen)%nat as Hld
    by (unfold d; rewrite length_take, length_drop; lia).
  split; cbn; rewrite ?app_nil_r; try done.
  - split; cbn; try done. split; [done|]. lia.
  - exists [take 2047 d]. cbn. rewrite !app_nil_r. unfold view_text. rewrite until_nul_id by done.
    split; [done|]. unfold TCP_RECV_BUF_SIZE. cbn [Nat.sub].
    rewrite <- take_take_drop. f_equal. unfold d. rewrite take_take, length_take.
    set (l := drop seen tcp). destruct (decide (length l <= Nat.min 2047 n)%nat).
    + rewrite !take_ge by lia. reflexivity.
    + f_equal. lia.
Qed.
Lemma any_step ws a st :
  pinv ws st -> (open_notices st <= length ws)%nat ->
  match step a st with Ret st' => pstep ws a st st' | Blocked => True | UB => False end.
Proof using All.
  intros Hi Ho. destruct a; [by apply write_step|by apply notify_step|by apply receive_step| |by apply view_step].
  by apply relay_step_effect.
Qed.

(** A schedule in two parts. *)
Lemma schedule_cons w a l :
  texts (a :: l) = texts [a] ++ texts l /\
  newest w (a :: l) = newest w [a] ++ newest (w + length (texts [a])) l /\
  send_sizes (a :: l) = send_sizes [a] ++ send_sizes l /\
  length (newest w [a]) = length (send_sizes [a]).
Proof using Type.
  destruct a; cbn [texts_written newest send_sizes app length]; rewrite ?Nat.add_0_r; try done.
  by case_bool_decide; cbn [texts_written newest app length]; rewrite ?Nat.add_0_r.
Qed.

Definition lines (ws : list (list byte)) (js ns : list nat) : list byte :=
  concat (zip_with (fun j n => take n (relay_line (ws !!! j))) js ns).

Lemma lines_app ws js js' ns ns' :
  length js = length ns -> lines ws (js ++ js') (ns ++ ns') = lines ws js ns ++ lines ws js' ns'.
Proof using Type. intros ?. unfold lines. by rewrite zip_with_app, concat_app. Qed.

(** Texts written later do not change lines sent earlier. *)
Lemma lines_prefix ws ws' js ns :
  Forall (fun j => j < length ws)%nat js -> lines (ws ++ ws') js ns = lines ws js ns.
Proof using Type.
  intros Hj. revert ns. induction Hj as [|j js Hj _ IH]; intros [|n ns]; try done.
  unfold lines in *. cbn [zip_with concat]. rewrite IH. do 3 f_equal. by apply lookup_total_app_l.
Qed.

(** What a run does; [k] relays were done before it. *)
Record peffect (ws : list (list byte)) (k : nat) (l : list paction) (st st' : PState S) : Prop := {
  pe_inv : pinv (ws ++ texts l) st';
  pe_order : forall i j, newest (length ws) l !! i = Some j -> (k + i <= j < length (ws ++ texts l))%nat;
  pe_count : (open_notices st' + length (send_sizes l) <= open_notices st + length (texts l))%nat;
  pe_live : (0 < cap)%nat -> (0 < open_notices st + length (texts l))%nat -> open_notices st' = 0%nat ->
    last (newest (length ws) l) = Some (length (ws ++ texts l) - 1)%nat;
  pe_exact : (open_notices st + length (texts l) <= cap)%nat ->
    (open_notices st' + length (send_sizes l) = open_notices st + length (texts l))%nat;
  pe_tcp : p_tcp st' = p_tcp st ++ lines (ws ++ texts l) (newest (length ws) l) (send_sizes l);
  pe_out : exists chunks, p_out st' = p_out st ++ concat (printed <$> chunks) /\
    take (p_seen st') (p_tcp st') = take (p_seen st) (p_tcp st) ++ concat chunks }.

Lemma effect_cons ws k a l st st1 st2 :
  (open_notices st + k <= length ws)%nat -> pstep ws a st st1 ->
  peffect (ws ++ texts [a]) (k + length (newest 0 [a])) l st1 st2 -> peffect ws k (a :: l) st st2.
Proof using All.
  intros Ho [Hi Hle Heq Hlive Htcp (c1 & Hc1 & Ht1)] [Hi2 Hord Hle2 Hlive2 Heq2 Htcp2 (c2 & Hc2 & Ht2)].
  destruct (schedule_cons (length ws) a l) as (Et & En & Es & El).
  destruct (schedule_cons 0 a l) as (_ & _ & _ & El0).
  rewrite length_app in Hord, Htcp2, Hlive2.
  assert (forall i j, newest (length ws) [a] !! i = Some j ->
    (k + i <= j < length (ws ++ texts [a]))%nat) as Hj.
  { intros i j Hij. rewrite length_app. destruct a as [d| | |n|n]; cbn in Hij, Hle |- *; try done.
    destruct i; [|done]. injection Hij as <-. lia. }
  split.
  - by rewrite Et, app_assoc.
  - rewrite Et, app_assoc, En. intros i j [Hij|[Hge Hij]]%lookup_app_Some.
    + specialize (Hj _ _ Hij). rewrite (length_app _ (texts l)). lia.
    + specialize (Hord _ _ Hij). lia.
  - rewrite Et, Es, !length_app. lia.
  - rewrite Et, app_assoc, En. intros Hc Hpos Hend. rewrite length_app in Hpos. specialize (Hlive Hc).
    destruct (decide (0 < open_notices st1 + length (texts l))%nat) as [Hp|Hn].
    + apply last_app_Some. left. by apply Hlive2.
    + apply last_app_Some. right. destruct (texts l); cbn [length] in *; [|lia].
      rewrite app_nil_r, length_app in *. destruct a as [d| | |n|n]; cbn in *; try lia.
      rewrite <- (newest_sizes (length ws + 0)) in Hle2. split; [|f_equal; lia].
      by rewrite (nil_length_inv (newest (length ws + 0) l)) by lia.
  - rewrite Et, Es, !length_app. intros Hcp. rewrite <- El0. specialize (Heq ltac:(lia)). lia.
  - rewrite Htcp2, Htcp, Et, app_assoc, En, Es, lines_app, <- app_assoc by done. do 2 f_equal.
    symmetry. apply lines_prefix. apply Forall_lookup. intros i j Hij. by apply Hj in Hij as [_ ?].
  - exists (c1 ++ c2). rewrite Hc2, Hc1, Ht2, Ht1, fmap_app, !concat_app, !app_assoc. done.
Qed.

Lemma run_effect l : forall ws k st,
  pinv ws st -> (open_notices st + k <= length ws)%nat ->
  match go l st with Ret st' => peffect ws k l st st' | Blocked => True | UB => False end.
Proof using All.
  induction l as [|a l IH]; intros ws k st Hi Ho; cbn [prun].
  { split; cbn; rewrite ?app_nil_r; try done; [lia|by apply quiet_out]. }
  pose proof (any_step ws a st Hi ltac:(lia)) as Hs. destruct (step a st) as [st1| |]; run; try done.
  specialize (IH (ws ++ texts [a]) (k + length (newest 0 [a]))%nat st1 (pt_inv _ _ _ _ Hs)).
  pose proof (pt_count _ _ _ _ Hs) as Hcount. rewrite length_app in IH. specialize (IH ltac:(lia)).
  destruct (go l st1); try done. by eapply effect_cons.
Qed.

(** ** Open notices are served *)

(** The steps left: a notice passes from the Collector to the queue, to the
    router thread and to the stream. *)
Definition work (st : PState S) : nat :=
  (3 * Nat.b2n (p_wrote st) +
   2 * match p_queue st with Some q => length (q_messages q) | None => 0 end + got (p_router st))%nat.

Definition serving (a : paction) : Prop := match a with ANotify | AReceive | ARelay _ => True | _ => False end.

Lemma serving_step ws st n :
  pinv ws st -> (open_notices st <= length ws)%nat -> (0 < open_notices st)%nat ->
  exists a st', serving a /\ Forall (eq n) (send_sizes [a]) /\ step a st = Ret st' /\ (work st' < work st)%nat.
Proof using All.
  intros Hi Ho Hpos. pose proof Hi as [(c & t & Hat & _) (q & Hq & Hc & Hn) Hr _].
  destruct st as [wr q0 s mq r tcp seen sys out]. cbn [p_queue p_shm p_router] in *. subst q0.
  destruct r; [|clear Hpos|done].
  - destruct wr.
    + exists ANotify. cbn [pact]. unfold notify_router. cbn [nt_mtype].
      rewrite notify_send. destruct (room q _); run; eexists; (split; [done|split; [by repeat constructor|split; [done|]]]);
        unfold work; cbn; rewrite ?length_app; cbn; lia.
    + destruct q as [[|[mt b] ms] bytes]; [unfold open_notices in Hpos; cbn in Hpos; lia|].
      cbn [q_messages length replicate] in Hn. apply Forall2_cons in Hn as [(Hmt & Hl & Hquit) Hn].
      cbn [fst snd] in *. subst mt. exists AReceive. cbn [pact]. rewrite receive_note by done. run.
      fold (is_quit b). rewrite Hquit, bool_decide_false by done.
      eexists. split; [done|]. split; [by repeat constructor|]. split; [done|]. unfold work. cbn. lia.
  - exists (ARelay n). cbn [pact]. apply (shm_at_same hc hr) in Hat; [|done].
    destruct (relay_text_sends Hcap (TcpSent n) tstack status hr (mkRelay (Some q) mq s tcp) c t Ht Hat)
      as (_ & _ & s' & -> & _). run. cbn [rl_ipc rl_shm rl_main rl_tcp].
    eexists. split; [done|]. split; [by repeat constructor|]. split; [done|]. unfold work. cbn. lia.
Qed.

Lemma serve_all n m : forall ws st,
  (work st <= m)%nat -> pinv ws st -> (open_notices st <= length ws)%nat ->
  exists l st', Forall serving l /\ Forall (eq n) (send_sizes l) /\ (length l <= m)%nat /\
    go l st = Ret st' /\ open_notices st' = 0%nat.
Proof using All.
  induction m as [|m IH]; intros ws st Hm Hi Ho.
  { exists [], st. repeat split; try done; try constructor. unfold work, open_notices in *. lia. }
  destruct (decide (open_notices st = 0)%nat) as [Hz|Hz].
  { exists [], st. repeat split; try done; try constructor. cbn. lia. }
  destruct (serving_step ws st n Hi Ho ltac:(lia)) as (a & st1 & Ha & Hn & E & Hw).
  pose proof (any_step ws a st Hi Ho) as Hs. rewrite E in Hs. pose proof (pt_count _ _ _ _ Hs) as Hct.
  destruct (IH (ws ++ texts [a]) st1 ltac:(lia) (pt_inv _ _ _ _ Hs)) as (l & st' & Hl & Hls & Hlen & El & Hz').
  { rewrite length_app. lia. }
  exists (a :: l), st'. cbn [prun length]. rewrite E. run. split; [by constructor|].
  split; [|split; [lia|done]]. rewrite (proj1 (proj2 (proj2 (schedule_cons 0 a l)))). by apply Forall_app.
Qed.

Lemma prun_app l1 l2 st : go (l1 ++ l2) st = (st ← go l1 st; go l2 st).
Proof using Type.
  revert st. induction l1 as [|a l1 IH]; intros st; [done|]. cbn [app prun].
  destruct (step a st); run; [apply IH|done|done].
Qed.
End invariant.

(** * Properties *)

(** C4: Collector, Router and Viewer run interleaved in any order, from an
    attached segment and an empty notification queue that has room for one
    message.  No step has undefined behaviour.  The TCP stream is one line per
    notification served, cut to what send(2) took: the line of the text that was
    the newest at that moment.  The texts come in the order they were written,
    and the i-th line is not older than the i-th text.  While the texts do not
    exceed the queue's capacity every text has its line or an open notification.
    Even if notifications are dropped, the open ones can always be served, by a
    number of steps that the state bounds, and when none is open the last line is
    the newest text.  The Viewer prints the stream in order, chunk by chunk. *)
Theorem pipeline_interleaved {S H} {ops : ShmOps S H} {api : ShmApi S H} (hc hr : H)
    ustack pad tstack vstack status client s c t q mq sys l :
  (shm_capacity (S := S) (H := H) <= PAYLOAD_SIZE)%nat ->
  shm_same hc hr -> shm_same hr hc -> shm_at hc s c t ->
  length ustack = UDP_BUFFER_SIZE -> length pad = 4%nat -> length tstack = TCP_BUF_SIZE ->
  length vstack = TCP_RECV_BUF_SIZE ->
  q_messages q = [] -> (0 < capacity q NOTIFY_SIZE)%nat ->
  let run := prun hc hr ustack pad tstack vstack status client in
  let st0 := mkP false (Some q) s mq RelayWaiting [] 0 sys [] in
  let texts := texts_written S H l in
  run l st0 <> UB /\
  forall st, run l st0 = Ret st ->
    p_tcp st = lines texts (newest 0 l) (send_sizes l) /\
    Sorted le (newest 0 l) /\
    (forall i j, newest 0 l !! i = Some j -> i <= j < length texts)%nat /\
    ((length texts <= capacity q NOTIFY_SIZE)%nat ->
       open_notices st + length (newest 0 l) = length texts)%nat /\
    (forall n, exists l' st', Forall serving l' /\ Forall (eq n) (send_sizes l') /\
       (length l' <= work st)%nat /\ run (l ++ l') st0 = Ret st' /\ open_notices st' = 0%nat) /\
    (open_notices st = 0%nat -> texts <> [] -> last (newest 0 l) = Some (length texts - 1)%nat) /\
    exists chunks, p_out st = concat (printed <$> chunks) /\ concat chunks = take (p_seen st) (p_tcp st).
Proof.
  intros Hcap Hs Hs' Hat Hu Hp Ht Hv Hq Hc run0 st0 texts.
  assert (pinv hc (capacity q NOTIFY_SIZE) [] st0) as Hi.
  { split; cbn; try done; [by exists c, t| |by split; [constructor|lia]].
    exists q. rewrite Hq. split; [done|]. split; [done|constructor]. }
  assert (open_notices st0 = 0%nat) as Ho by (unfold open_notices; cbn; by rewrite Hq).
  pose proof (run_effect Hcap hc hr ustack pad tstack vstack status client Hs Hs' Hu Hp Ht Hv
    (capacity q NOTIFY_SIZE) l [] 0 st0 Hi ltac:(rewrite Ho; cbn; lia)) as E.
  fold run0 in E. split; [by destruct (run0 l st0)|]. intros st Est. rewrite Est in E.
  destruct E as [Hi' Hord Hct Hlive Hex Htcp (chunks & Hch & Hpre)]. cbn [app length] in *.
  rewrite Ho, Nat.add_0_l in *.
  repeat apply conj.
  - exact Htcp.
  - apply (newest_bounds (ops := ops) l 0).
  - intros i j Hij. apply (Hord i j Hij).
  - by rewrite newest_sizes.
  - intros n. destruct (serve_all Hcap hc hr ustack pad tstack vstack status client Hs Hs' Hu Hp Ht Hv _ n
      (work st) texts st ltac:(lia) Hi' ltac:(fold texts in Hct; lia)) as (l' & st' & Hl & Hn & Hlen & E' & Hz).
    exists l', st'. repeat split; try done. subst run0. by rewrite prun_app, Est.
  - intros Hz Hne. apply Hlive; try done. destruct texts eqn:Et; [done|]. fold texts. rewrite Et. cbn. lia.
  - exists chunks. cbn in Hch, Hpre. split; [done|]. by rewrite Hpre.
Qed.

(** ** Concrete run *)

(** The Collector writes a second text before the Router has served the first
    notification. *)
Definition demo_schedule : list paction :=
  [AWrite (bs "one"); ANotify; AWrite (bs "two"); AReceive; ARelay 100; AView 7; ANotify; AReceive;
   ARelay 4; AView 50].

Definition demo_store : ShmSystem := snd (shm_api_init false (granting 7) no_segments).

Definition demo_start : PState ShmSystem :=
  mkP false (Some (mkQueue [] 16384)) demo_store None RelayWaiting [] 0 (mkSys ∅ ∅) [].

Lemma pipeline_interleaved_witness :
  exists st, prun (ops := sysv_ops false) (100, Some (mkCtx 7 true)) (200, Some (mkCtx 7 false)) (zeros 1024)
      (zeros 4) (zeros TCP_BUF_SIZE) (zeros 2048) 0 5 demo_schedule demo_start = Ret st /\
    p_tcp st = bs "[TCP-RELAY] two" ++ [x0a] ++ bs "[TCP" /\
    last (newest 0 demo_schedule) = Some 1%nat /\
    exists chunks, p_out st = concat (printed <$> chunks) /\ concat chunks = take (p_seen st) (p_tcp st).
Proof.
  destruct (pipeline_interleaved (ops := sysv_ops false) (api := sysv_api false) (100, Some (mkCtx 7 true))
    (200, Some (mkCtx 7 false)) (zeros 1024) (zeros 4) (zeros TCP_BUF_SIZE) (zeros 2048) 0 5 demo_store 0 []
    (mkQueue [] 16384) None (mkSys ∅ ∅) demo_schedule) as [_ Hrun].
  - vm_compute. lia.
  - reflexivity.
  - reflexivity.
  - apply fresh_connected. reflexivity.
  - reflexivity.
  - reflexivity.
  - reflexivity.
  - reflexivity.
  - reflexivity.
  - vm_compute. lia.
  - fold demo_start in Hrun.
    destruct (prun _ _ _ _ _ _ _ _ demo_schedule demo_start) as [st| |] eqn:E.
    + exists st. split; [reflexivity|]. destruct (Hrun st eq_refl) as (Ht & _ & _ & _ & _ & _ & Ho).
      split; [rewrite Ht; vm_compute; reflexivity|]. split; [reflexivity|exact Ho].
    + exfalso. vm_compute in E. discriminate.
    + exfalso. vm_compute in E. discriminate.
Defined.
